(* ===== verification/_CoqProject ===== *)
-Q . S2P
Prelude.v
Double.v
CString.v
Timestamp.v
Pkt.v
Buffer.v
Reorder.v
Tunnel.v
Loss.v
Wrr.v
Protocol.v
Tuntap.v
Rtun.v
Frame.v
Stage.v
Invariant.v
Status.v
Safety.v
Events.v
Flow.v
ConfigLib.v
Config.v
Reload.v
Daemon.v
Behaviour.v
Network.v
Privsep.v
Control.v
Session.v
Vis.v
Log.v
Startup.v
Descriptors.v
Device.v
Boot.v
Delivery.v
Heap.v
ConfigMem.v
Memory.v
