(* ===== verification/Prelude.v ===== *)
(** * MLVPN: a verification library

    MLVPN is a daemon that joins two sites by several UDP tunnels and spreads
    the packets of a tuntap device over them.  This library models its C code
    ([src/src]) as Rocq functions and proves what makes the daemon correct.

    ** The program and its model

    A privileged parent and an unprivileged child run side by side.  The child
    is an event loop (libev): packets read from the device are queued on the
    tunnel the scheduler chooses, encrypted and sent; datagrams read from a
    tunnel are authenticated, counted, put back in order and written to the
    device; timers keep the tunnels alive, connect and disconnect them; a
    signal reloads the configuration; a control socket shows the state.

    - [Prelude] (this file): machine integers as [Z] with their wrap-around
      written out, record update, the state and fault monad [M] with its rules
      ([wp], [preserves], [ends]), the hint databases [preserve] and [ends].
    - [Double]: the C type [double], IEEE-754 binary64 bit for bit.
    - [CString]: [strlcpy.c], [strlcat.c], [mystr_eq] of [tool.c], and the C
      library's [snprintf], [atoi] as used.
    - [Timestamp]: [timestamp.c].
    - [Pkt]: the packet and the header of [pkt.h], with the bytes on the wire.
    - [Buffer]: [buffer.c].  [Ring] is the circular buffer and the packet ring,
      [Free] the pool of packets.
    - [Reorder]: [reorder.c].
    - [Tunnel]: the globals and structures of [mlvpn.c] and [mlvpn.h] as one
      record [world]; the class [OS] is everything the program asks of the
      system and of libsodium and libpcap.
    - [Loss], [Wrr], [Protocol]: the loss vector, the scheduler ([wrr.c]), the
      datagrams ([mlvpn_protocol_read], the first half of [mlvpn_rtun_send],
      [crypto.c]).
    - [Tuntap]: [tuntap_generic.c], [tuntap_linux.c], [filters.c].
    - [Rtun]: the event handlers of [mlvpn.c] and what they call, in the order
      of the source.
    - [ConfigLib]: [configlib.c].  [Config]: [mlvpn_config] of [config.c] and
      the reload on SIGHUP.
    - [Daemon]: the state [main] builds, the events, one turn of the loop.
    - [Network]: two daemons and the network between them.
    - [Privsep]: the parent of [privsep.c] for arbitrary bytes of the child,
      [root_tuntap_open], and the child's requests.
    - [Control]: [control.c].  [Session]: its events.
    - [Vis]: [vis.c] and [setproctitle.c].  [Log]: [log.c].
    - [Startup]: [main] from the command line to the unprivileged child, the
      child's part of [priv_init], [systemd.c].
    - [Descriptors]: the table of descriptors of a process: [closefrom.c],
      [privsep_fdpass.c], the signals and descriptors the parent sets up in
      [priv_init] and a script starts with.
    - [Device]: [mlvpn_tuntap_alloc] with [priv_open_tun] on Linux; the whole
      of [tuntap_bsd.c] and [tuntap_darwin.c].
    - [Boot]: [main] from the unprivileged child to the event loop.
    - [Delivery]: the receiving side (pool, reorder buffer, device ring, timer)
      against an abstract machine made of lists.
    - [Heap]: the blocks of [malloc], [calloc] and [strdup] by their address,
      with [free], and the account of the blocks a piece of code holds.
      [ConfigMem]: [configlib.c] on that heap, with the chained list node by
      node.  [Memory]: the rings of [buffer.c], the environment of a script,
      the address lists of [priv_getaddrinfo] and the tunnels of
      [mlvpn_rtun_new] and [mlvpn_rtun_drop] on it.

    A function of the source is a definition of the same name; where a C
    function is long its parts are definitions of their own, called in the
    same order.  A global that a handler writes is a field of [world]; a
    pointer to a tunnel is a number and [w_tuns] the memory behind it, so that
    a dangling pointer is a failed lookup.  [fatal] and an access outside an
    object are faults of the monad, not omitted branches.  What leaves the
    process is recorded in [w_trace], [p_ops] and [c_trace].

    ** What is proved

    - Safety of the daemon: [Stage], [Invariant], [Status], [Safety],
      [Events], [Reload] show that every handler keeps the invariant [winv];
      [Daemon] concludes that from the initial state no event stops the
      process, reaches outside an object or loops for ever
      ([daemon_never_faults]), that the scheduler only knows connected tunnels,
      that the up and down scripts alternate and that the counters are right.
      [Frame] says what each handler leaves alone.  [Boot] shows that [main]
      reaches the loop in such a state ([main_runs]).
    - The two ends together: [Flow] follows every packet through the rings, the
      pool and the reorder buffer of a daemon; [Network] concludes that two
      daemons with one key refine a link in each direction over a network that
      loses, duplicates, reorders and misroutes ([network_refines_link]), and
      shows what the seal does not cover ([type_not_authenticated]).
    - Behaviour of the handlers ([Behaviour]): the handshake connects both
      ends, a packet crosses a tunnel unchanged, a silent peer is
      disconnected, a lossy tunnel leaves the scheduler; and where the code
      goes wrong (a late packet is delivered twice, a fallback tunnel is
      starved).
    - The receiving side: from every reachable state and in any order of the
      events it does exactly what the machine of [Delivery] does
      ([delivery_refines]); it loses nothing but what the full ring of the
      device overwrites, and writes twice only what came too late
      ([delivery_complete]).
    - Data structures: the packet ring refines a bounded FIFO
      ([ring_is_fifo]), the reorder buffer gives back what it received in
      increasing order ([reorder_stream], [reorder_permutation]) and answers
      exactly what a machine made of one list answers, for any numbers and
      resets ([reorder_reference]), the pool keeps its order, the scheduler is a
      round robin for equal weights.
    - Wire and text formats: a datagram built by one end is accepted by the
      other ([protocol_roundtrip]); a configuration that is printed is read
      back ([config_roundtrip]); the readers stay in bounds.
    - Configuration: after a load or a reload the tunnels are those of the
      file ([config_tunnels]); what a reload breaks ([reload_disconnects]).
    - Privilege separation: whatever the child sends, the parent stays inside
      its buffers and does nothing it was not configured for
      ([parent_confined]); requests reach it unchanged; a daemon started by
      root only goes on as the unprivileged user ([child_unprivileged]); a
      descriptor handed over names the same file ([fd_passing]); a script
      inherits nothing but 0, 1 and 2 and the default signals
      ([closefrom_exact], [script_inherits]).
    - Devices: on BSD the first device that opens is taken ([bsd_alloc_first]);
      where the code of BSD and Darwin goes wrong ([bsd_read_four_more],
      [darwin_single_digit]).
    - Control socket: a session is safe while its answers fit in the output
      buffer ([control_safe]), a request is answered in full
      ([request_served]), the loop over the lines of the input ends whatever
      they are ([read_loop_terminates]), and an answer that does not fit is
      written outside the buffer ([control_write_cases]).
    - Process title: [strnvis] stays in its buffer ([strnvis_correct]) and the
      title inside the arguments of the process ([title_in_arguments]).

    - Memory: the list [configlib.c] builds in the heap is the one [ConfigLib]
      computes, and freeing it gives back every block of it; the blocks lost
      are those of rejected lines ([config_memory]).  The environment of a
      script is given back entirely ([script_env_released]); a tunnel that is
      removed is not ([removed_tunnel_leaks]).

    ** Interfaces and parameters

    [OS] gives the result of the [n]-th call to the system, so a theorem about
    every [OS] is about every behaviour of the outside; [PrivOS] does the same
    for the parent, [Sys] for the start and [Parent] for the parent's answers
    to the requests for a device.  What the theorems need of libsodium is the
    class [SodiumLaws]: opening a sealed box gives the message back, and a box
    is sixteen bytes longer.  [os_ideal] is an instance, on which the examples
    are evaluated.  [FreeAddrinfo] is what the C library's [freeaddrinfo] does
    with a list.  Allocations succeed, except where the parent tests them.

    ** Bounds and fuel

    Loops on lists are structural.  The others take a bound that is proved
    enough: the drain of the pool stops after as many rounds as it has used
    entries; the two loops of the overflow path of [reorder.c] after as many
    as the slots they advance over; the parent's loops after as many as there
    are bytes left, since every round reads some; the loop over the lines of
    the control socket after as many as there are bytes in the buffer; a walk
    along a list in the heap after as many as the heap has blocks.  When
    the bound is used up the result is a fault ([Diverges], [Bad]) or [None], which
    the theorems exclude.

    The reorder buffer is verified for the sizes that are powers of two, the
    ones its masks work for; [good_options] and [file_fits] say so.
    [file_fits] also asks for the mandatory values of a configuration file, at
    most 128 tunnels, names the process title has room for, and that a tunnel
    a reload removes was resolved once: the cases where the program ends or
    goes wrong.

    ** What is not modelled

    - The messages of the handlers: they are never read back, and [Log] shows
      what becomes of one.
    - [getopt_long], a parameter of [Startup]; the kernel's side of a
      descriptor that is passed is [transmit] of [Descriptors], as
      [unix(7)] describes it.
    - Where a block lies: [Heap] gives its blocks distinct addresses and says
      nothing else about them.  The strings [mlvpn_config] and the control
      socket copy for a moment are values, not blocks.
    - Timing inside libev: which of the active watchers is served next is any
      order of events. *)

From stdpp Require Export base tactics numbers list gmap strings option relations.
From Stdlib Require Export ZArith Lia.

#[global] Set Default Goal Selector "!".

Open Scope Z_scope.

Declare Scope mlvpn_scope.
Delimit Scope mlvpn_scope with mlvpn.
Open Scope mlvpn_scope.

(** ** Machine integers

    A C integer of width [w] is a [Z]; [wrap w z] is the value the unsigned
    type of that width holds after the conversion of [z]. *)

Definition wrap (w z : Z) : Z := z mod 2 ^ w.
Definition u8 (z : Z) : Z := wrap 8 z.
Definition u16 (z : Z) : Z := wrap 16 z.
Definition u32 (z : Z) : Z := wrap 32 z.
Definition u64 (z : Z) : Z := wrap 64 z.

(** Two's complement conversion to [int32_t]. *)
Definition i32 (z : Z) : Z := (z + 2 ^ 31) mod 2 ^ 32 - 2 ^ 31.

Definition in_width (w z : Z) : Prop := 0 <= z < 2 ^ w.

#[export] Instance in_width_dec w z : Decision (in_width w z).
Proof. unfold in_width. apply _. Defined.

(** ** Record update

    [r <| f := v |>] is the C assignment [r.f = v]: the record [r] with the
    field [f] replaced.  A record type declares its eta expansion once
    ([Fields]), and the updater of a field is computed from it. *)

Class Fields (R : Type) := eta_record : R -> R.

Class Update {R T : Type} (proj : R -> T) := update : (T -> T) -> R -> R.
Arguments update {R T} proj {_} g r / : assert.

Ltac derive_update R proj :=
  let e := eval cbv delta [eta_record] in (@eta_record R _) in
  let body := eval hnf in e in
  let abs := eval pattern proj in body in
  lazymatch abs with
  | ?F proj =>
      exact (fun g r => ltac:(let t := eval cbv beta in
                                (F (fun r' => g (proj r')) r) in exact t))
  end.

#[export] Hint Extern 1 (@Update ?R _ ?proj) =>
  derive_update R proj : typeclass_instances.

Notation "r <| f := v |>" := (update f (fun _ => v) r)
  (at level 1, f constr at level 0, v at level 99, left associativity,
   format "r  <| f  :=  v |>") : mlvpn_scope.

(** ** Effects: state and abrupt termination

    A handler of the program is a state transformer that may stop the
    process: [Fatal] is a call of [fatal]/[fatalx] (the process exits with a
    message), [BadAccess] an access outside the object a pointer or an index
    designates, which C leaves undefined, [Diverges] a loop whose bound on the
    number of iterations was not enough. *)

Inductive fault :=
  | Fatal (msg : string)
  | BadAccess (what : string)
  | Diverges.

Inductive result (S A : Type) :=
  | Ok (a : A) (s : S)
  | Fault (f : fault).
Arguments Ok {S A} a s.
Arguments Fault {S A} f.

Definition M (S A : Type) : Type := S -> result S A.

#[export] Instance M_ret {S} : MRet (M S) := fun A (a : A) s => Ok a s.
#[export] Instance M_bind {S} : MBind (M S) := fun A B (k : A -> M S B) m s =>
  match m s with
  | Ok a s' => k a s'
  | Fault f => Fault f
  end.

Definition get {S} : M S S := fun s => Ok s s.
Definition gets {S A} (f : S -> A) : M S A := fun s => Ok (f s) s.
Definition put {S} (s : S) : M S unit := fun _ => Ok tt s.
Definition modify {S} (f : S -> S) : M S unit := fun s => Ok tt (f s).
Definition fail {S A} (f : fault) : M S A := fun _ => Fault f.
Definition fatalx {S A} (msg : string) : M S A := fail (Fatal msg).
Definition expect {S A} (f : fault) (o : option A) : M S A :=
  match o with Some a => mret a | None => fail f end.
Definition when {S} (b : bool) (m : M S unit) : M S unit :=
  if b then m else mret tt.

Fixpoint for_each {S A} (l : list A) (body : A -> M S unit) : M S unit :=
  match l with
  | [] => mret tt
  | x :: l => body x;; for_each l body
  end.

(** Total correctness: from [s], [m] stops normally and [Q] holds. *)
Definition wp {S A} (m : M S A) (Q : A -> S -> Prop) (s : S) : Prop :=
  match m s with
  | Ok a s' => Q a s'
  | Fault _ => False
  end.

Section wp_rules.
Context {S : Type}.
Implicit Types s : S.

Lemma wp_ok {A} (m : M S A) Q s :
  wp m Q s -> exists a s', m s = Ok a s' /\ Q a s'.
Proof. unfold wp. destruct (m s); naive_solver. Qed.

Lemma wp_ret {A} (a : A) (Q : A -> S -> Prop) s : Q a s -> wp (mret a) Q s.
Proof. done. Qed.

Lemma wp_bind {A B} (m : M S A) (k : A -> M S B) Q s :
  wp m (fun a => wp (k a) Q) s -> wp (m ≫= k) Q s.
Proof. unfold wp, mbind, M_bind. by destruct (m s). Qed.

Lemma wp_bind_inv {A B} (m : M S A) (k : A -> M S B) Q s :
  wp (m ≫= k) Q s -> wp m (fun a => wp (k a) Q) s.
Proof. unfold wp, mbind, M_bind. by destruct (m s). Qed.

Lemma wp_mono {A} (m : M S A) (P Q : A -> S -> Prop) s :
  wp m P s -> (forall a s', P a s' -> Q a s') -> wp m Q s.
Proof. unfold wp. destruct (m s); naive_solver. Qed.

Lemma wp_get (Q : S -> S -> Prop) s : Q s s -> wp get Q s.
Proof. done. Qed.

Lemma wp_gets {A} (f : S -> A) (Q : A -> S -> Prop) s : Q (f s) s -> wp (gets f) Q s.
Proof. done. Qed.

Lemma wp_modify (f : S -> S) (Q : unit -> S -> Prop) s :
  Q tt (f s) -> wp (modify f) Q s.
Proof. done. Qed.

Lemma wp_expect {A} (f : fault) (o : option A) a (Q : A -> S -> Prop) s :
  o = Some a -> Q a s -> wp (expect f o) Q s.
Proof. by intros ->. Qed.

Lemma wp_when b (m : M S unit) Q s :
  (b = true -> wp m Q s) -> (b = false -> Q tt s) -> wp (when b m) Q s.
Proof. destruct b; naive_solver. Qed.

Lemma wp_if {A} (b : bool) (m1 m2 : M S A) Q s :
  (b = true -> wp m1 Q s) -> (b = false -> wp m2 Q s) ->
  wp (if b then m1 else m2) Q s.
Proof. destruct b; naive_solver. Qed.

Lemma wp_for_each {A} (l : list A) (body : A -> M S unit) (I : list A -> S -> Prop) s :
  I l s ->
  (forall x l' s', x ∈ l -> I (x :: l') s' -> wp (body x) (fun _ => I l') s') ->
  wp (for_each l body) (fun _ => I []) s.
Proof.
  intros HI Hbody. revert s HI. induction l as [|x l IH]; intros s HI; [done|].
  apply wp_bind. eapply wp_mono; [apply Hbody; [set_solver|done]|].
  intros [] s' HI'. apply IH; [|done].
  intros y l' s'' ?. apply Hbody. set_solver.
Qed.
End wp_rules.

(** Steps through the structure of a handler. *)
Ltac wp_step :=
  lazymatch goal with
  | |- wp (mbind _ _) _ _ => apply wp_bind
  | |- wp (gets _) _ _ => apply wp_gets; cbv beta
  | |- wp get _ _ => apply wp_get; cbv beta
  | |- wp (modify _) _ _ => apply wp_modify; cbv beta
  | |- wp (mret _) _ _ => apply wp_ret; cbv beta
  end.
Ltac wp_steps := repeat wp_step.

(** [I] holds after [m] whenever it held before, and [m] does not fault. *)
Definition preserves {S A} (I : S -> Prop) (m : M S A) : Prop :=
  forall s, I s -> wp m (fun _ => I) s.

Create HintDb preserve.

Section preserves_rules.
Context {S : Type} (I : S -> Prop).

Lemma preserves_ret {A} (a : A) : preserves I (mret a : M S A).
Proof. by intros s HI. Qed.
Lemma preserves_bind {A B} (m : M S A) (k : A -> M S B) :
  preserves I m -> (forall a, preserves I (k a)) -> preserves I (m ≫= k).
Proof.
  intros Hm Hk s HI. apply wp_bind. eapply wp_mono; [by apply Hm|].
  intros a s' HI'. by apply Hk.
Qed.
Lemma preserves_gets {A} (f : S -> A) : preserves I (gets f).
Proof. by intros s. Qed.
Lemma preserves_get : preserves I get.
Proof. by intros s. Qed.
Lemma preserves_modify f : (forall s, I s -> I (f s)) -> preserves I (modify f).
Proof. intros H s. apply H. Qed.
Lemma preserves_when b m :
  (b = true -> preserves I m) -> preserves I (when b m).
Proof. destruct b; intros H; [by apply H|apply preserves_ret]. Qed.
Lemma preserves_if {A} (b : bool) (m1 m2 : M S A) :
  (b = true -> preserves I m1) -> (b = false -> preserves I m2) ->
  preserves I (if b then m1 else m2).
Proof. destruct b; naive_solver. Qed.
Lemma preserves_for_each {A} (l : list A) (body : A -> M S unit) :
  (forall x, preserves I (body x)) -> preserves I (for_each l body).
Proof.
  intros Hb. induction l; simpl; [apply preserves_ret|].
  apply preserves_bind; auto.
Qed.
End preserves_rules.

#[export] Hint Resolve preserves_ret preserves_bind preserves_gets preserves_get
  preserves_when preserves_if preserves_for_each : preserve.

(** [m] may fault, but no loop of it runs out of its bound. *)
Definition ends {S A} (m : M S A) : Prop := forall s, m s <> Fault Diverges.

Create HintDb ends.

Section ends_rules.
Context {S : Type}.

Lemma ends_ret {A} (a : A) : ends (mret a : M S A).
Proof. done. Qed.
Lemma ends_get : ends (get : M S S).
Proof. done. Qed.
Lemma ends_gets {A} (f : S -> A) : ends (gets f).
Proof. done. Qed.
Lemma ends_modify (f : S -> S) : ends (modify f).
Proof. done. Qed.
Lemma ends_fail {A} f : f <> Diverges -> ends (fail f : M S A).
Proof. intros Hf s [= E]. by apply Hf. Qed.
Lemma ends_expect {A} f (o : option A) : f <> Diverges -> ends (expect f o : M S A).
Proof. destruct o; [intros _; apply ends_ret|apply ends_fail]. Qed.
Lemma ends_bind {A B} (m : M S A) (k : A -> M S B) : ends m -> (forall a, ends (k a)) -> ends (m ≫= k).
Proof.
  intros Hm Hk s. specialize (Hm s). unfold mbind, M_bind. destruct (m s) as [a s'|f]; [apply Hk|].
  intros [= ->]. by apply Hm.
Qed.
Lemma ends_when b (m : M S unit) : ends m -> ends (when b m).
Proof. by destruct b. Qed.
Lemma ends_if {A} (b : bool) (m1 m2 : M S A) : ends m1 -> ends m2 -> ends (if b then m1 else m2).
Proof. by destruct b. Qed.
Lemma ends_for_each {A} (l : list A) (body : A -> M S unit) :
  (forall x, ends (body x)) -> ends (for_each l body).
Proof. intros Hb. induction l; simpl; [apply ends_ret|]. by apply ends_bind. Qed.
End ends_rules.

#[export] Hint Resolve ends_ret ends_get ends_gets ends_modify ends_bind ends_when ends_if ends_for_each : ends.
#[export] Hint Extern 1 (ends (fail _)) => apply ends_fail; discriminate : ends.
#[export] Hint Extern 1 (ends (expect _ _)) => apply ends_expect; discriminate : ends.

(** ** Lists *)

Lemma filter_bool_ext {A} (p q : A -> bool) (l : list A) :
  (forall x, x ∈ l -> p x = q x) -> filter (fun x => p x = true) l = filter (fun x => q x = true) l.
Proof.
  induction l as [|y l IH]; intros Hpq; [done|]. rewrite !filter_cons, (Hpq y) by set_solver.
  rewrite IH by set_solver. done.
Qed.

Lemma filter_notin `{EqDecision A} (y : A) (l : list A) : y ∉ l -> filter (fun x => x <> y) l = l.
Proof.
  induction l as [|x l IH]; [done|]. intros [Hx Hl]%not_elem_of_cons. rewrite filter_cons, decide_True by done.
  f_equal. by apply IH.
Qed.
