(* ===== verification/Double.v ===== *)
(** * IEEE-754 binary64

    The program keeps round trip times, weights and libev timestamps in the C
    type [double].  A [double] is a [spec_float] (sign, mantissa, exponent,
    infinities and NaN) and every operation is the correctly rounded one of
    precision 53 and maximal exponent 1024, so the models that use doubles
    evaluate to the bits the program computes.  The lemmas give the order
    facts and the sign facts the components rely on. *)

From Stdlib Require Import SpecFloat.
From S2P Require Import Prelude.

Definition double : Type := spec_float.
Definition prec : Z := 53.
Definition emax : Z := 1024.

Definition dadd (x y : double) : double := SFadd prec emax x y.
Definition dsub (x y : double) : double := SFsub prec emax x y.
Definition dmul (x y : double) : double := SFmul prec emax x y.
Definition ddiv (x y : double) : double := SFdiv prec emax x y.
Definition dabs (x : double) : double := SFabs x.
Definition dltb (x y : double) : bool := SFltb x y.
Definition dleb (x y : double) : bool := SFleb x y.
Definition deqb (x y : double) : bool := SFeqb x y.

(** Conversion of an integer to [double]. *)
Definition d_of_Z (z : Z) : double := binary_normalize prec emax z 0 false.
Arguments d_of_Z : simpl never.

(** The value of [(uint64_t) x] and [(uint32_t) x]: truncation towards zero.
    C leaves the conversion undefined for NaN and for values outside the
    target type; it is 0 here for NaN and the infinities. *)
Definition Z_of_d (x : double) : Z :=
  match x with
  | S754_finite s m e =>
      let a := if 0 <=? e then Z.shiftl (Z.pos m) e else Z.shiftr (Z.pos m) (- e) in
      if s then - a else a
  | _ => 0
  end.

Create HintDb double.

(** ** Order *)

Definition dlt (x y : double) : Prop := dltb x y = true.
Definition is_nan (x : double) : bool :=
  match x with S754_nan => true | _ => false end.

(** The order of two doubles that are not NaN is the order of these keys. *)
Definition dkey (x : double) : Z * (Z * Z) :=
  match x with
  | S754_infinity true => (-2, (0, 0))
  | S754_finite true m e => (-1, (- e, - Z.pos m))
  | S754_zero _ | S754_nan => (0, (0, 0))
  | S754_finite false m e => (1, (e, Z.pos m))
  | S754_infinity false => (2, (0, 0))
  end.

Definition key_lt (k1 k2 : Z * (Z * Z)) : Prop :=
  k1.1 < k2.1 \/ k1.1 = k2.1 /\
  (k1.2.1 < k2.2.1 \/ k1.2.1 = k2.2.1 /\ k1.2.2 < k2.2.2).

Lemma dlt_key x y :
  is_nan x = false -> is_nan y = false -> dlt x y <-> key_lt (dkey x) (dkey y).
Proof.
  unfold dlt, dltb, SFltb, SFcompare, key_lt.
  destruct x as [[]|[]| |[] m e], y as [[]|[]| |[] m' e']; simpl; intros Hx Hy;
    try discriminate; try (split; [discriminate|lia]); try (split; [lia|done]).
  all: change (Pos.compare_cont Eq m m') with (Pos.compare m m').
  all: destruct (Z.compare_spec e e'), (Pos.compare_spec m m'); simpl; subst;
    (split; [try discriminate; lia|try done; lia]).
Qed.

Lemma dlt_irrefl x : ~ dlt x x.
Proof.
  destruct (is_nan x) eqn:Hx.
  - by destruct x.
  - rewrite (dlt_key x x) by done. unfold key_lt. lia.
Qed.

Lemma dlt_not_nan x y : dlt x y -> is_nan x = false /\ is_nan y = false.
Proof. destruct x, y; split; done. Qed.

Lemma dlt_trans x y z : dlt x y -> dlt y z -> dlt x z.
Proof.
  intros H1 H2. destruct (dlt_not_nan _ _ H1), (dlt_not_nan _ _ H2).
  rewrite dlt_key in H1, H2 |- * by done. unfold key_lt in *. lia.
Qed.

Lemma dnlt_trans x y z :
  is_nan y = false -> ~ dlt x y -> ~ dlt y z -> ~ dlt x z.
Proof.
  intros Hy H1 H2 H3. destruct (dlt_not_nan _ _ H3).
  rewrite dlt_key in H1, H2, H3 by done. unfold key_lt in *. lia.
Qed.

Lemma dltb_true x y : dltb x y = true <-> dlt x y.
Proof. done. Qed.
Lemma dltb_false x y : dltb x y = false <-> ~ dlt x y.
Proof. unfold dlt. destruct (dltb x y); naive_solver. Qed.

(** ** Sign

    [dsigned b x]: [x] is not NaN and its sign bit is [b].  [dpos] is closed
    under the arithmetic of the round trip time estimator. *)

Definition dsigned (b : bool) (x : double) : Prop :=
  match x with
  | S754_nan => False
  | S754_zero s | S754_infinity s | S754_finite s _ _ => s = b
  end.
Abbreviation dpos := (dsigned false).
Definition dfinite_pos (x : double) : Prop :=
  match x with S754_finite false _ _ => True | _ => False end.
Definition dfinite (x : double) : Prop :=
  match x with S754_finite _ _ _ | S754_zero _ => True | _ => False end.

#[export] Instance dsigned_dec b x : Decision (dsigned b x).
Proof. destruct x; simpl; apply _. Defined.

Lemma iter_pos_inv {A} (P : A -> Prop) (f : A -> A) :
  (forall a, P a -> P (f a)) -> forall n a, P a -> P (SpecFloat.iter_pos f n a).
Proof. intros Hf n. induction n; simpl; auto. Qed.

Lemma shr_nonneg mrs e n : 0 <= shr_m mrs -> 0 <= shr_m (shr mrs e n).1.
Proof.
  intros H. unfold shr. destruct n; [done| |done].
  apply (iter_pos_inv (fun r => 0 <= shr_m r)); [|done].
  intros [m r s]; simpl. destruct m as [|[]|[]]; simpl; lia.
Qed.

Lemma binary_round_aux_signed s m e l :
  0 <= m -> dsigned s (binary_round_aux prec emax s m e l).
Proof.
  intros Hm. unfold binary_round_aux, shr_fexp.
  match goal with |- context [shr ?r ?e ?n] =>
    pose proof (shr_nonneg r e n) as H1; destruct (shr r e n) as [mrs' e'] end.
  match goal with |- context [shr ?r ?e ?n] =>
    pose proof (shr_nonneg r e n) as H2; destruct (shr r e n) as [mrs'' e''] end.
  simpl in *. assert (0 <= shr_m mrs') as H1'.
  { apply H1. by destruct l as [|[]]. }
  assert (0 <= shr_m mrs'') as H2'.
  { apply H2. unfold round_nearest_even.
    destruct (loc_of_shr_record mrs') as [|[]]; try case_match; lia. }
  destruct (shr_m mrs''); [done| |lia]. by case_match.
Qed.

Lemma binary_round_signed s m e : dsigned s (binary_round prec emax s m e).
Proof. unfold binary_round. case_match. apply binary_round_aux_signed. lia. Qed.

Lemma binary_normalize_pos m e : 0 <= m -> dpos (binary_normalize prec emax m e false).
Proof. intros Hm. destruct m; [done|apply binary_round_signed|lia]. Qed.

Lemma d_of_Z_pos z : 0 <= z -> dpos (d_of_Z z).
Proof. apply binary_normalize_pos. Qed.

Lemma dadd_pos x y : dpos x -> dpos y -> dpos (dadd x y).
Proof.
  unfold dadd, SFadd. destruct x as [[]|[]| |[] m e], y as [[]|[]| |[] m' e'];
    simpl; intros Hx Hy; try done.
  apply binary_round_signed.
Qed.

Lemma dmul_pos x y : dfinite_pos x -> dpos y -> dpos (dmul x y).
Proof.
  unfold dmul, SFmul. destruct x as [[]|[]| |[] m e], y as [[]|[]| |[] m' e'];
    simpl; intros Hx Hy; try done.
  apply binary_round_aux_signed. lia.
Qed.

Lemma dabs_not_nan x : is_nan x = false -> dpos (dabs x).
Proof. by destruct x. Qed.

Lemma dsigned_not_nan b x : dsigned b x -> is_nan x = false.
Proof. by destruct x. Qed.

Lemma dsub_not_nan x y : is_nan x = false -> dfinite y -> is_nan (dsub x y) = false.
Proof.
  unfold dsub, SFsub. destruct x as [[]|[]| |[] m e], y as [[]|[]| |[] m' e'];
    intros Hx Hy; try done.
  all: unfold binary_normalize; destruct (Z.sub _ _); [done|..];
    eapply dsigned_not_nan, binary_round_signed.
Qed.

Lemma dabs_dsub_pos x y : dpos x -> dfinite y -> dpos (dabs (dsub x y)).
Proof. intros Hx Hy. eapply dabs_not_nan, dsub_not_nan, Hy. by eapply dsigned_not_nan. Qed.

Lemma ddiv_pos x y : dpos x -> dfinite_pos y -> dpos (ddiv x y).
Proof.
  unfold ddiv, SFdiv. destruct x as [[]|[]| |[] m e], y as [[]|[]| |[] m' e'];
    simpl; intros Hx Hy; try done.
  unfold SFdiv_core_binary. cbv zeta.
  match goal with |- context [Z.div_eucl ?a ?b] =>
    pose proof (Z_div_pos a b) as Hd; unfold Z.div in Hd; assert (0 <= a) as Ha end.
  { case_match; [lia| |lia]. apply Z.shiftl_nonneg. lia. }
  destruct (Z.div_eucl _ _) as [q r]. apply binary_round_aux_signed, Hd; [lia|done].
Qed.

#[export] Hint Resolve ddiv_pos dadd_pos dmul_pos dabs_dsub_pos d_of_Z_pos : double.

(** ** Small integers are exact *)

#[export] Instance double_eq_dec : EqDecision double.
Proof. unfold double. intros x y. unfold Decision. decide equality; (apply Bool.bool_dec || apply Z.eq_dec || apply Pos.eq_dec). Defined.

Definition small : list Z := seqZ 0 101.

Lemma small_check (f : Z -> bool) : forallb f small = true -> forall a, 0 <= a <= 100 -> f a = true.
Proof.
  intros Hf a Ha. rewrite forallb_forall in Hf. apply Hf. apply list_elem_of_In, elem_of_seqZ. lia.
Qed.

Lemma d_of_Z_lt a b : 0 <= a <= 100 -> 0 <= b <= 100 -> dlt (d_of_Z a) (d_of_Z b) <-> a < b.
Proof.
  intros Ha Hb. unfold dlt.
  assert (Bool.eqb (dltb (d_of_Z a) (d_of_Z b)) (a <? b) = true) as Heq.
  { revert b Hb. apply small_check. revert a Ha.
    apply (small_check (fun a => forallb (fun b => Bool.eqb (dltb (d_of_Z a) (d_of_Z b)) (a <? b)) small)).
    vm_compute. reflexivity. }
  apply Bool.eqb_prop in Heq. rewrite Heq. apply Z.ltb_lt.
Qed.

Lemma d_of_Z_pred a : 1 <= a <= 100 -> dsub (d_of_Z a) (d_of_Z 1) = d_of_Z (a - 1).
Proof.
  intros Ha.
  assert (((a =? 0) || bool_decide (dsub (d_of_Z a) (d_of_Z 1) = d_of_Z (a - 1))) = true) as Heq.
  { assert (0 <= a <= 100) as Ha' by lia. clear Ha. revert a Ha'. apply small_check. vm_compute. reflexivity. }
  apply orb_true_iff in Heq as [Heq|Heq]; [apply Z.eqb_eq in Heq; lia|].
  by apply bool_decide_eq_true_1 in Heq.
Qed.
