(* ===== verification/CString.v ===== *)
(** * C strings and the string helpers of the program

    [mystr_eq] of [src/src/tool.c], [strlcpy] of [src/src/strlcpy.c] and
    [strlcat] of [src/src/strlcat.c], with the C library functions the program
    uses on strings.  A [char *] that may be [NULL] is an [option string]; a
    [char] buffer is a [list ascii], and an index outside it is [None]. *)

From Stdlib Require Import Ascii String.
From S2P Require Import Prelude.

(** ** Strings as values *)

(** The first [n] characters. *)
Definition str_take (n : nat) (s : string) : string := String.substring 0 n s.

(** What [snprintf] leaves in a buffer of [n] bytes, [n > 0]. *)
Definition snprintf (n : nat) (s : string) : string := str_take (n - 1) s.

Lemma str_take_short n s : (String.length s <= n)%nat -> str_take n s = s.
Proof.
  unfold str_take. revert n. induction s as [|c s IH]; intros [|n] H; simpl in *; try done; try lia.
  f_equal. apply IH. lia.
Qed.

Lemma str_take_length n s : String.length (str_take n s) = Nat.min n (String.length s).
Proof.
  unfold str_take. revert n. induction s as [|c s IH]; intros [|n]; simpl; try done.
  by rewrite IH.
Qed.

Lemma str_take_list n s :
  list_ascii_of_string (str_take n s) = take n (list_ascii_of_string s).
Proof.
  unfold str_take. revert n. induction s as [|c s IH]; intros [|n]; simpl; try done.
  by rewrite IH.
Qed.

Lemma length_append s1 s2 :
  String.length (s1 ++ s2) = (String.length s1 + String.length s2)%nat.
Proof. induction s1; simpl; auto. Qed.

(** The bytes of a string. *)
Definition bytes_of_string (s : string) : list Z := (fun c => Z.of_nat (nat_of_ascii c)) <$> list_ascii_of_string s.

(** ** [tool.c] *)

Definition mystr_eq (s1 s2 : option string) : bool :=
  match s1, s2 with
  | Some a, Some b => bool_decide (a = b)
  | _, _ => false
  end.

Lemma mystr_eq_true s1 s2 : mystr_eq s1 s2 = true <-> exists s, s1 = Some s /\ s2 = Some s.
Proof.
  destruct s1, s2; simpl; [rewrite bool_decide_eq_true|..]; naive_solver.
Qed.

(** ** [strlcpy.c] *)

Definition NUL : ascii := "000"%char.

(** The loop that copies while [--nleft] is not zero and stops after a
    terminator.  The result is the buffer, the two positions and [nleft]. *)
Fixpoint strlcpy_copy (nleft : nat) (dst src : list ascii) (d s : nat) :
    option (list ascii * nat * nat * nat) :=
  match nleft with
  | O | 1%nat => Some (dst, d, s, O)
  | S n =>
      c ← src !! s;
      _ ← dst !! d;
      if decide (c = NUL) then Some (<[d := c]> dst, S d, S s, n)
      else strlcpy_copy n (<[d := c]> dst) src (S d) (S s)
  end.

(** The loop that skips the rest of the source: the position after the
    terminator. *)
Fixpoint skip_nul (src : list ascii) (s : nat) : option nat :=
  match src with
  | [] => None
  | c :: src => if decide (c = NUL) then Some (S s) else skip_nul src (S s)
  end.

Definition strlcpy (dst src : list ascii) (dsize : nat) : option (list ascii * nat) :=
  '(dst, d, s, nleft) ← (if decide (dsize = O) then Some (dst, O, O, O)
                         else strlcpy_copy dsize dst src O O);
  if decide (nleft = O) then
    dst ← (if decide (dsize = O) then Some dst
           else _ ← dst !! d; Some (<[d := NUL]> dst));
    s' ← skip_nul (drop s src) s;
    Some (dst, s' - 1)%nat
  else Some (dst, s - 1)%nat.

(** ** [strlcat.c] *)

(** The loop that finds the end of [dst] without going past its end. *)
Fixpoint strlcat_end (n : nat) (dst : list ascii) (d : nat) : option nat :=
  match n with
  | O => Some d
  | S n => c ← dst !! d;
           if decide (c = NUL) then Some d else strlcat_end n dst (S d)
  end.

(** The loop that appends the characters of [src] while [n] is not zero. *)
Fixpoint strlcat_copy (n : nat) (src dst : list ascii) (d s : nat) :
    option (list ascii * nat * nat) :=
  match src with
  | [] => None
  | c :: src =>
      if decide (c = NUL) then Some (dst, d, s)
      else match n with
           | O => strlcat_copy O src dst d (S s)
           | S n => _ ← dst !! d; strlcat_copy n src (<[d := c]> dst) (S d) (S s)
           end
  end.

Definition strlcat (dst src : list ascii) (dsize : nat) : option (list ascii * nat) :=
  dlen ← strlcat_end dsize dst O;
  if decide ((dsize - dlen)%nat = O) then
    s ← skip_nul src O; Some (dst, dlen + (s - 1))%nat
  else
    '(dst, d, s) ← strlcat_copy (dsize - dlen - 1) src dst dlen O;
    _ ← dst !! d;
    Some (<[d := NUL]> dst, dlen + s)%nat.

(** The buffer form of a string, and of a string in a larger buffer. *)
Definition c_str (s : string) : list ascii := list_ascii_of_string s ++ [NUL].
Definition holds (buf : list ascii) (s : string) : Prop := exists rest, buf = c_str s ++ rest.
Definition no_nul (s : string) : Prop := NUL ∉ list_ascii_of_string s.

(** String-level effect of the two functions, which the other files use. *)
Definition strlcat_s (dst src : string) (dsize : nat) : string :=
  str_take (dsize - 1) (dst ++ src).
Definition strlcpy_s (src : string) (dsize : nat) : string := str_take (dsize - 1) src.

(** ** C library: [atoi] *)

Definition is_space (c : ascii) : bool :=
  let n := nat_of_ascii c in (n =? 32)%nat || ((9 <=? n) && (n <=? 13))%nat.
Definition digit_val (c : ascii) : option Z :=
  let n := Z.of_nat (nat_of_ascii c) in
  if (48 <=? n) && (n <=? 57) then Some (n - 48) else None.

Fixpoint strtol_digits (s : string) (acc : Z) : Z :=
  match s with
  | EmptyString => acc
  | String c s => match digit_val c with
                  | Some v => strtol_digits s (acc * 10 + v)
                  | None => acc
                  end
  end.

Fixpoint strtol (s : string) : Z :=
  match s with
  | EmptyString => 0
  | String c s' =>
      if is_space c then strtol s'
      else if decide (c = "-"%char) then - strtol_digits s' 0
      else if decide (c = "+"%char) then strtol_digits s' 0
      else strtol_digits s 0
  end.

(** [atoi] is [(int) strtol(s, NULL, 10)], [strtol] saturating at the bounds of
    [long]. *)
Definition atoi (s : string) : Z := i32 (Z.max (- 2 ^ 63) (Z.min (2 ^ 63 - 1) (strtol s))).

(** ** Correctness of the buffer functions *)

Lemma strlcpy_copy_S n dst src d s :
  strlcpy_copy (S (S n)) dst src d s =
  (c ← src !! s;
   _ ← dst !! d;
   if decide (c = NUL) then Some (<[d := c]> dst, S d, S s, S n)
   else strlcpy_copy (S n) (<[d := c]> dst) src (S d) (S s)).
Proof. done. Qed.

Lemma strlcpy_copy_spec n pre rest p cs :
  NUL ∉ cs -> (1 <= n <= length rest)%nat ->
  strlcpy_copy n (pre ++ rest) (p ++ cs ++ [NUL]) (length pre) (length p) =
  if decide (length cs < n - 1)%nat
  then Some (pre ++ cs ++ NUL :: drop (S (length cs)) rest,
             length pre + S (length cs), length p + S (length cs),
             n - S (length cs))%nat
  else Some (pre ++ take (n - 1) cs ++ drop (n - 1) rest,
             length pre + (n - 1), length p + (n - 1), O)%nat.
Proof.
  revert pre rest p cs. induction n as [|[|n] IH]; intros pre rest p cs Hcs Hn; [lia|..].
  - destruct (decide _); [lia|]. simpl. by rewrite !Nat.add_0_r.
  - destruct rest as [|r rest]; simpl in Hn; [lia|].
    rewrite strlcpy_copy_S, (list_lookup_middle pre rest r (length pre)) by done.
    destruct cs as [|c cs].
    + rewrite app_nil_l, (list_lookup_middle p [] NUL (length p)) by done.
      cbn [mbind option_bind]. rewrite decide_True by done. rewrite decide_True by (simpl; lia).
      rewrite insert_app_r_alt, Nat.sub_diag by lia. simpl.
      repeat f_equal; simpl; lia.
    + rewrite <- app_comm_cons, (list_lookup_middle p _ c (length p)) by done.
      cbn [mbind option_bind].
      destruct (decide (c = NUL)) as [->|Hc]; [set_solver|].
      rewrite insert_app_r_alt, Nat.sub_diag by lia. cbn [insert list_insert].
      rewrite (cons_middle c pre), (cons_middle c p).
      replace (S (length pre)) with (length (pre ++ [c])) by (rewrite length_app; simpl; lia).
      replace (S (length p)) with (length (p ++ [c])) by (rewrite length_app; simpl; lia).
      rewrite !app_assoc, <- (app_assoc (p ++ [c]) cs).
      rewrite IH by (try lia; set_solver). rewrite <- !app_assoc, !length_app. simpl.
      rewrite !Nat.sub_0_r.
      do 2 destruct (decide _); try lia; simpl;
        f_equal; rewrite !pair_eq; repeat split; done || lia.
Qed.

Lemma skip_nul_spec cs s : NUL ∉ cs -> skip_nul (cs ++ [NUL]) s = Some (s + S (length cs))%nat.
Proof.
  revert s. induction cs as [|c cs IH]; intros s Hcs; simpl.
  - by rewrite Nat.add_1_r.
  - rewrite decide_False by set_solver. rewrite IH by set_solver. f_equal. lia.
Qed.

Lemma length_list_ascii s : length (list_ascii_of_string s) = String.length s.
Proof. induction s; simpl; congruence. Qed.

Lemma list_ascii_append s1 s2 :
  list_ascii_of_string (s1 +:+ s2) = list_ascii_of_string s1 ++ list_ascii_of_string s2.
Proof. induction s1 as [|c s1 IH]; [done|]. simpl. by rewrite <- IH. Qed.

(** [strlcpy] into a buffer of at least [dsize] bytes stays inside it,
    leaves in it the first [dsize - 1] characters of the source, terminated,
    and returns the length of the source. *)
Theorem strlcpy_correct dst s dsize :
  no_nul s -> (0 < dsize <= length dst)%nat ->
  exists buf,
    strlcpy dst (c_str s) dsize = Some (buf, String.length s) /\
    length buf = length dst /\ holds buf (strlcpy_s s dsize).
Proof.
  intros Hs Hd. unfold strlcpy, strlcpy_s, holds, c_str.
  pose proof (length_list_ascii s) as Hl. rewrite decide_False by lia.
  pose proof (strlcpy_copy_spec dsize [] dst [] (list_ascii_of_string s) Hs) as E.
  simpl in E. rewrite E by lia. clear E.
  rewrite str_take_list, Hl. destruct (decide (_ < _)%nat); simpl.
  - rewrite decide_False by lia. eexists. split_and!; [repeat f_equal; lia|..].
    + rewrite length_app. simpl. rewrite length_drop. lia.
    + rewrite take_ge by lia. exists (drop (S (String.length s)) dst). by rewrite <- app_assoc.
  - rewrite (decide_False (P:=dsize = O)) by lia.
    destruct (lookup_lt_is_Some_2 (take (dsize - 1) (list_ascii_of_string s) ++ drop (dsize - 1) dst) (dsize - 1))
      as [x Hx]; [rewrite length_app, length_take, length_drop; lia|].
    rewrite Hx. simpl. rewrite drop_app_le by lia.
    rewrite skip_nul_spec.
    2:{ intros H. apply Hs. rewrite <- (take_drop (dsize - 1)). set_solver. }
    simpl. eexists. split_and!.
    + repeat f_equal. rewrite length_drop. lia.
    + rewrite length_insert, length_app, length_take, length_drop. lia.
    + exists (drop dsize dst).
      assert (length (take (dsize - 1) (list_ascii_of_string s)) = (dsize - 1)%nat) as Ht
        by (rewrite length_take; lia).
      rewrite <- app_assoc, insert_app_r_alt, Ht, Nat.sub_diag by lia. f_equal.
      destruct (drop (dsize - 1) dst) as [|y l] eqn:Ed.
      { apply (f_equal length) in Ed. rewrite length_drop in Ed. simpl in Ed. lia. }
      simpl. f_equal. replace dsize with (dsize - 1 + 1)%nat at 1 by lia.
      by rewrite <- drop_drop, Ed.
Qed.

Lemma strlcpy_correct_witness : no_nul "hello" /\ exists buf,
  strlcpy (list_ascii_of_string "xxxxxx") (c_str "hello") 4 = Some (buf, 5%nat) /\
  length buf = 6%nat /\ holds buf "hel".
Proof.
  assert (no_nul "hello") as Hn by (apply (bool_decide_unpack _); vm_compute; exact I).
  split; [exact Hn|]. apply (strlcpy_correct (list_ascii_of_string "xxxxxx") "hello" 4); [exact Hn|].
  split; vm_compute; lia.
Defined.

Lemma strlcat_end_spec n pre ds rest :
  NUL ∉ ds -> (length ds < n)%nat ->
  strlcat_end n (pre ++ ds ++ NUL :: rest) (length pre) = Some (length pre + length ds)%nat.
Proof.
  revert pre n. induction ds as [|c ds IH]; intros pre [|n] Hds Hn; simpl in *; try lia.
  - rewrite (list_lookup_middle pre rest NUL (length pre)) by done. simpl. f_equal. lia.
  - rewrite (list_lookup_middle pre _ c (length pre)) by done. simpl.
    rewrite decide_False by set_solver.
    rewrite (cons_middle c pre), !app_assoc, <- (app_assoc (pre ++ [c])).
    replace (S (length pre)) with (length (pre ++ [c])) by (rewrite length_app; simpl; lia).
    rewrite IH by (set_solver || lia). rewrite length_app. simpl. f_equal. lia.
Qed.

Lemma strlcat_copy_spec cs n pre rest s :
  NUL ∉ cs -> (n < length rest)%nat ->
  strlcat_copy n (cs ++ [NUL]) (pre ++ rest) (length pre) s =
  Some (pre ++ take n cs ++ drop (n `min` length cs) rest,
        length pre + n `min` length cs, s + length cs)%nat.
Proof.
  revert n pre rest s. induction cs as [|c cs IH]; intros n pre rest s Hcs Hn; simpl.
  - rewrite take_nil, Nat.min_0_r, !Nat.add_0_r. done.
  - rewrite decide_False by set_solver. destruct n as [|n].
    + pose proof (IH O pre rest (S s)) as E. rewrite E by (set_solver || lia). simpl.
      repeat f_equal. lia.
    + destruct rest as [|r rest]; simpl in *; [lia|].
      rewrite (list_lookup_middle pre rest r (length pre)) by done. simpl.
      rewrite insert_app_r_alt, Nat.sub_diag by lia. simpl.
      rewrite (cons_middle c pre), app_assoc.
      replace (S (length pre)) with (length (pre ++ [c])) by (rewrite length_app; simpl; lia).
      rewrite IH by (set_solver || lia). rewrite <- app_assoc, length_app. simpl.
      f_equal. rewrite !pair_eq. repeat split; lia.
Qed.

(** [strlcat] onto a terminated string of a buffer of at least [dsize]
    bytes stays inside it, leaves the concatenation cut to [dsize - 1]
    characters, terminated, and returns the length it tried to make. *)
Theorem strlcat_correct dst d s dsize :
  no_nul d -> no_nul s -> holds dst d ->
  (String.length d < dsize <= length dst)%nat ->
  exists buf,
    strlcat dst (c_str s) dsize = Some (buf, String.length d + String.length s)%nat /\
    length buf = length dst /\ holds buf (strlcat_s d s dsize).
Proof.
  intros Hd Hs [rest ->] Hn. unfold strlcat, strlcat_s, holds, c_str in *.
  rewrite length_app, length_app in Hn. simpl in Hn.
  pose proof (length_list_ascii d) as Ld. pose proof (length_list_ascii s) as Ls.
  rewrite <- app_assoc. simpl.
  pose proof (strlcat_end_spec dsize [] (list_ascii_of_string d) rest Hd) as E1.
  simpl in E1. rewrite E1 by lia. simpl. rewrite decide_False by lia.
  rewrite strlcat_copy_spec by (done || (simpl; lia)). simpl.
  set (n := (dsize - length (list_ascii_of_string d) - 1)%nat).
  set (ds := list_ascii_of_string d) in *. set (cs := list_ascii_of_string s) in *.
  set (k := (n `min` length cs)%nat).
  assert (length (ds ++ take n cs) = (length ds + k)%nat) as Hlen
    by (rewrite length_app, length_take; lia).
  destruct (drop k (NUL :: rest)) as [|y l] eqn:Ek.
  { apply (f_equal length) in Ek. rewrite length_drop in Ek. simpl in Ek. lia. }
  rewrite app_assoc, (list_lookup_middle _ l y) by done. simpl.
  eexists. split_and!; [by rewrite Ld, Ls|..].
  - rewrite length_insert. apply (f_equal length) in Ek. rewrite length_drop in Ek.
    simpl in *. rewrite !length_app in *. simpl. rewrite length_take in *. lia.
  - exists l. rewrite str_take_list, insert_app_r_alt, Hlen, <- Ld, Nat.sub_diag by lia.
    simpl. rewrite cons_middle, app_assoc. f_equal. f_equal.
    rewrite list_ascii_append. fold ds cs. rewrite take_app, (take_ge ds) by lia. do 2 f_equal. lia.
Qed.

Lemma strlcat_correct_witness : no_nul "ab" /\ no_nul "cdef" /\ exists buf,
  strlcat (c_str "ab" ++ list_ascii_of_string "xxx") (c_str "cdef") 5 = Some (buf, 6%nat) /\
  length buf = 6%nat /\ holds buf "abcd".
Proof.
  assert (no_nul "ab") as H1 by (apply (bool_decide_unpack _); vm_compute; exact I).
  assert (no_nul "cdef") as H2 by (apply (bool_decide_unpack _); vm_compute; exact I).
  split; [exact H1|]. split; [exact H2|].
  apply (strlcat_correct (c_str "ab" ++ list_ascii_of_string "xxx") "ab" "cdef" 5); [exact H1|exact H2| |].
  - exists (list_ascii_of_string "xxx"). reflexivity.
  - split; vm_compute; lia.
Defined.
