(* ===== verification/Timestamp.v ===== *)
(** * Millisecond timestamps ([src/src/timestamp.c])

    The 64-bit clock, its 16-bit form carried by the packets (65535 means "no
    timestamp" on the wire) and the difference of two 16-bit stamps. *)

From S2P Require Import Prelude Double.

(** [uint64_t _now = now * 1000.0;] *)
Definition mlvpn_timestamp64 (now : double) : Z := u64 (Z_of_d (dmul now (d_of_Z 1000))).

Definition mlvpn_timestamp16 (now : Z) : Z :=
  let ts := u16 (now mod 65536) in
  if ts =? u16 (-1) then u16 (ts + 1) else ts.

Definition mlvpn_timestamp16_diff (tsnew tsold : Z) : Z :=
  let diff := tsnew - tsold in
  let diff := if diff <? 0 then diff + 65536 else diff in
  u16 diff.

Lemma timestamp16_range now : 0 <= mlvpn_timestamp16 now < 65535.
Proof.
  unfold mlvpn_timestamp16, u16, wrap. change (2 ^ 16) with 65536.
  destruct (Z.eqb_spec ((now mod 65536) mod 65536) ((-1) mod 65536)) as [->|Hne]; [done|].
  change ((-1) mod 65536) with 65535 in Hne.
  pose proof (Z.mod_pos_bound (now mod 65536) 65536). lia.
Qed.

Lemma timestamp16_diff_range a b :
  0 <= mlvpn_timestamp16_diff a b < 65536.
Proof. unfold mlvpn_timestamp16_diff, u16, wrap. apply Z.mod_pos_bound. lia. Qed.

(** The difference is taken modulo 65536, so a stamp taken less than 65536 ms
    before another one is measured exactly across the wrap of the clock. *)
Lemma timestamp16_diff_mod a b :
  in_width 16 a -> in_width 16 b -> mlvpn_timestamp16_diff a b = (a - b) mod 65536.
Proof.
  unfold in_width, mlvpn_timestamp16_diff, u16, wrap. change (2 ^ 16) with 65536.
  intros Ha Hb. destruct (Z.ltb_spec (a - b) 0); [|done].
  by rewrite <- (Z_mod_plus_full (a - b) 1), Z.mul_1_l.
Qed.

(** One millisecond is lost when the low 16 bits of either clock are all ones:
    that stamp is replaced by the next one, 0. *)
Definition stamp_skew (now : Z) : Z := if now mod 65536 =? 65535 then 1 else 0.

Lemma timestamp16_skew now : mlvpn_timestamp16 now = (now + stamp_skew now) mod 65536.
Proof.
  unfold mlvpn_timestamp16, stamp_skew, u16, wrap. change (2 ^ 16) with 65536.
  change ((-1) mod 65536) with 65535. rewrite Z.mod_mod by lia.
  destruct (Z.eqb_spec (now mod 65536) 65535) as [E|E].
  - by rewrite Zplus_mod_idemp_l.
  - by rewrite Z.add_0_r.
Qed.

(** The difference of the 16-bit stamps of two clocks less than 65536 ms
    apart is the time between them, across the wrap of the stamps, up to the
    one millisecond of a stamp whose bits are all ones. *)
Theorem timestamp16_elapsed sent now :
  0 <= sent <= now ->
  now + stamp_skew now - (sent + stamp_skew sent) < 65536 ->
  sent + stamp_skew sent <= now + stamp_skew now ->
  mlvpn_timestamp16_diff (mlvpn_timestamp16 now) (mlvpn_timestamp16 sent) =
  now + stamp_skew now - (sent + stamp_skew sent).
Proof.
  intros Hs Hlt Hle. pose proof (timestamp16_range now). pose proof (timestamp16_range sent).
  rewrite timestamp16_diff_mod by (unfold in_width; lia).
  rewrite !timestamp16_skew, <- Zminus_mod. apply Z.mod_small. lia.
Qed.

Lemma timestamp16_elapsed_witness : mlvpn_timestamp16_diff (mlvpn_timestamp16 131200) (mlvpn_timestamp16 131000) = 200.
Proof. apply (timestamp16_elapsed 131000 131200); vm_compute; intuition discriminate. Defined.
