(* ===== verification/Pkt.v ===== *)
(** * Packets and their wire format ([src/src/pkt.h])

    [mlvpn_pkt_t] is the packet the program handles, [mlvpn_proto_t] the packed
    header and payload sent in a UDP datagram.  [encode_proto] and
    [decode_proto] give the bytes of the packed structure on a little-endian
    target compiled with GCC: the bit fields of the second half word are
    allocated from the low order bits, and the multi-byte fields are in the
    byte order the program stores them in (it converts them to big endian
    itself). *)

From S2P Require Import Prelude.

Definition DEFAULT_MTU : nat := 1500.

(** The packet types of the wire protocol. *)
Definition MLVPN_PKT_AUTH : Z := 0.
Definition MLVPN_PKT_AUTH_OK : Z := 1.
Definition MLVPN_PKT_KEEPALIVE : Z := 2.
Definition MLVPN_PKT_DATA : Z := 3.
Definition MLVPN_PKT_DISCONNECT : Z := 4.

(** The fields [len], [type], [reorder], [seq] and [data]; [data] is the whole
    array of [DEFAULT_MTU] bytes, of which [len] are in use. *)
Record mlvpn_pkt_t := Pkt {
  pkt_len : Z;
  pkt_type : Z;
  pkt_reorder : Z;
  pkt_seq : Z;
  pkt_data : list Z
}.
#[export] Instance mlvpn_pkt_fields : Fields mlvpn_pkt_t :=
  fun p => Pkt (pkt_len p) (pkt_type p) (pkt_reorder p) (pkt_seq p) (pkt_data p).

Definition zeroes (n : nat) : list Z := replicate n 0.

(** [calloc]ed or [memset] packet. *)
Definition zero_pkt : mlvpn_pkt_t := Pkt 0 0 0 0 (zeroes DEFAULT_MTU).

(** [memcpy(dst, src, n)] between two byte arrays. *)
Definition memcpy (dst src : list Z) (n : nat) : list Z := take n src ++ drop n dst.

Definition payload (p : mlvpn_pkt_t) : list Z := take (Z.to_nat (pkt_len p)) (pkt_data p).

Record mlvpn_proto_t := Proto {
  proto_len : Z;
  proto_version : Z;
  proto_flags : Z;
  proto_reorder : Z;
  proto_unused : Z;
  proto_timestamp : Z;
  proto_timestamp_reply : Z;
  proto_flow_id : Z;
  proto_seq : Z;
  proto_data_seq : Z;
  proto_data : list Z
}.
#[export] Instance mlvpn_proto_fields : Fields mlvpn_proto_t :=
  fun p => Proto (proto_len p) (proto_version p) (proto_flags p) (proto_reorder p)
    (proto_unused p) (proto_timestamp p) (proto_timestamp_reply p) (proto_flow_id p)
    (proto_seq p) (proto_data_seq p) (proto_data p).

Definition zero_proto : mlvpn_proto_t := Proto 0 0 0 0 0 0 0 0 0 0 (zeroes DEFAULT_MTU).

(** [sizeof(mlvpn_proto_t)] and [PKTHDRSIZ]. *)
Definition PKTHDRSIZ : nat := 2 + 2 + 2 + 2 + 4 + 8 + 8.
Definition sizeof_proto : nat := PKTHDRSIZ + DEFAULT_MTU.

Definition IPV4_OVERHEAD : nat := 20.
Definition UDP_OVERHEAD : nat := 8.
Definition IP4_UDP_OVERHEAD : nat := IPV4_OVERHEAD + UDP_OVERHEAD.

(** ** Byte order *)

(** The [n] bytes of an integer in memory, least significant first. *)
Fixpoint le_bytes (n : nat) (z : Z) : list Z :=
  match n with
  | O => []
  | S n => z mod 256 :: le_bytes n (z / 256)
  end.

Fixpoint of_le_bytes (bs : list Z) : Z :=
  match bs with
  | [] => 0
  | b :: bs => b + 256 * of_le_bytes bs
  end.

(** [htobe16], [be16toh] and their 32- and 64-bit forms: the byte swap. *)
Definition bswap (n : nat) (z : Z) : Z := of_le_bytes (reverse (le_bytes n z)).
Definition htobe16 (z : Z) : Z := bswap 2 z.
Definition htobe32 (z : Z) : Z := bswap 4 z.
Definition htobe64 (z : Z) : Z := bswap 8 z.
Definition be16toh (z : Z) : Z := bswap 2 z.
Definition be32toh (z : Z) : Z := bswap 4 z.
Definition be64toh (z : Z) : Z := bswap 8 z.

(** The half word of the bit fields [version:4], [flags:6], [reorder:1] and
    [unused:5]. *)
Definition pack_bits (p : mlvpn_proto_t) : Z :=
  proto_version p mod 2 ^ 4 + 2 ^ 4 * (proto_flags p mod 2 ^ 6) +
  2 ^ 10 * (proto_reorder p mod 2) + 2 ^ 11 * (proto_unused p mod 2 ^ 5).

Definition encode_hdr (p : mlvpn_proto_t) : list Z :=
  le_bytes 2 (proto_len p) ++ le_bytes 2 (pack_bits p) ++
  le_bytes 2 (proto_timestamp p) ++ le_bytes 2 (proto_timestamp_reply p) ++
  le_bytes 4 (proto_flow_id p) ++ le_bytes 8 (proto_seq p) ++
  le_bytes 8 (proto_data_seq p).

(** The first [wlen] bytes of the structure, as [sendto] sends them. *)
Definition encode_proto (p : mlvpn_proto_t) (wlen : nat) : list Z :=
  take wlen (encode_hdr p ++ proto_data p).

(** [memcpy(&proto, bytes, len)] into a structure of zeroes. *)
Definition decode_proto (bytes : list Z) : mlvpn_proto_t :=
  let mem := memcpy (zeroes sizeof_proto) bytes (length bytes) in
  let field off n := of_le_bytes (take n (drop off mem)) in
  let bits := field 2%nat 2%nat in
  Proto (field 0%nat 2%nat)
    (bits mod 2 ^ 4) (bits / 2 ^ 4 mod 2 ^ 6) (bits / 2 ^ 10 mod 2) (bits / 2 ^ 11 mod 2 ^ 5)
    (field 4%nat 2%nat) (field 6%nat 2%nat) (field 8%nat 4%nat)
    (field 12%nat 8%nat) (field 20%nat 8%nat)
    (take DEFAULT_MTU (drop PKTHDRSIZ mem)).

(** ** Lemmas *)

Definition bytes (l : list Z) : Prop := Forall (fun b => 0 <= b < 256) l.

Lemma length_le_bytes n z : length (le_bytes n z) = n.
Proof. revert z. induction n; intros z; simpl; auto. Qed.

Lemma le_bytes_bytes n z : bytes (le_bytes n z).
Proof.
  revert z. induction n; intros z; constructor; [|apply IHn]. apply Z.mod_pos_bound. lia.
Qed.

Lemma of_le_le n z : of_le_bytes (le_bytes n z) = z mod 256 ^ Z.of_nat n.
Proof.
  revert z. induction n as [|n IH]; intros z; [by rewrite Z.mod_1_r|].
  cbn [le_bytes of_le_bytes]. rewrite IH, Nat2Z.inj_succ, Z.pow_succ_r by lia.
  rewrite Z.rem_mul_r by lia. lia.
Qed.

Lemma le_of_le bs : bytes bs -> le_bytes (length bs) (of_le_bytes bs) = bs.
Proof.
  induction bs as [|b bs IH]; intros Hb; [done|]. inversion_clear Hb. simpl.
  assert ((b + 256 * of_le_bytes bs) mod 256 = b) as ->
    by (rewrite Z.mul_comm, Z_mod_plus_full; apply Z.mod_small; lia).
  assert ((b + 256 * of_le_bytes bs) / 256 = of_le_bytes bs) as ->
    by (Z.to_euclidean_division_equations; lia).
  f_equal. by apply IH.
Qed.

Lemma of_le_bytes_range bs : bytes bs -> 0 <= of_le_bytes bs < 256 ^ Z.of_nat (length bs).
Proof.
  induction 1 as [|b bs Hb _ IH]; [done|]. cbn [of_le_bytes length].
  rewrite Nat2Z.inj_succ, Z.pow_succ_r by lia. lia.
Qed.

Lemma bytes_app l1 l2 : bytes (l1 ++ l2) <-> bytes l1 /\ bytes l2.
Proof. apply Forall_app. Qed.

Lemma bytes_reverse l : bytes l -> bytes (reverse l).
Proof. apply Forall_reverse. Qed.

Lemma bytes_take n l : bytes l -> bytes (take n l).
Proof. apply Forall_take. Qed.
Lemma bytes_drop n l : bytes l -> bytes (drop n l).
Proof. apply Forall_drop. Qed.
Lemma bytes_zeroes n : bytes (zeroes n).
Proof. apply Forall_replicate. lia. Qed.

Lemma bswap_range n z : 0 <= bswap n z < 256 ^ Z.of_nat n.
Proof.
  unfold bswap. pose proof (of_le_bytes_range (reverse (le_bytes n z))) as H.
  rewrite length_reverse, length_le_bytes in H. apply H, bytes_reverse, le_bytes_bytes.
Qed.

Lemma bswap_bswap n z : bswap n (bswap n z) = z mod 256 ^ Z.of_nat n.
Proof.
  unfold bswap at 1. unfold bswap.
  replace n with (length (reverse (le_bytes n z))) at 1
    by (rewrite length_reverse; apply length_le_bytes).
  rewrite le_of_le by apply bytes_reverse, le_bytes_bytes.
  rewrite reverse_involutive. apply of_le_le.
Qed.

Lemma length_zeroes n : length (zeroes n) = n.
Proof. apply length_replicate. Qed.

Lemma length_memcpy dst src n :
  (n <= length src)%nat -> (n <= length dst)%nat -> length (memcpy dst src n) = length dst.
Proof. intros. unfold memcpy. rewrite length_app, length_take, length_drop. lia. Qed.

Lemma bytes_memcpy dst src n : bytes dst -> bytes src -> bytes (memcpy dst src n).
Proof. intros. apply bytes_app. auto using bytes_take, bytes_drop. Qed.

Lemma take_memcpy dst src n : (n <= length src)%nat -> take n (memcpy dst src n) = take n src.
Proof. intros. unfold memcpy. rewrite take_app_le, take_take by (rewrite length_take; lia). f_equal. lia. Qed.

Lemma length_encode_hdr p : length (encode_hdr p) = PKTHDRSIZ.
Proof. unfold encode_hdr. by rewrite !length_app, !length_le_bytes. Qed.

(** The fields of a header fit their widths. *)
Record proto_wf (p : mlvpn_proto_t) : Prop := {
  pw_len : in_width 16 (proto_len p);
  pw_version : in_width 4 (proto_version p);
  pw_flags : in_width 6 (proto_flags p);
  pw_reorder : in_width 1 (proto_reorder p);
  pw_unused : in_width 5 (proto_unused p);
  pw_timestamp : in_width 16 (proto_timestamp p);
  pw_timestamp_reply : in_width 16 (proto_timestamp_reply p);
  pw_flow_id : in_width 32 (proto_flow_id p);
  pw_seq : in_width 64 (proto_seq p);
  pw_data_seq : in_width 64 (proto_data_seq p);
  pw_data : length (proto_data p) = DEFAULT_MTU
}.

Lemma field_here n z rest : of_le_bytes (take n (le_bytes n z ++ rest)) = z mod 256 ^ Z.of_nat n.
Proof. by rewrite take_app_length', of_le_le by (by rewrite length_le_bytes). Qed.
Lemma drop_field off n z rest :
  (n <= off)%nat -> drop off (le_bytes n z ++ rest) = drop (off - n) rest.
Proof. intros. by rewrite drop_app_ge, length_le_bytes by (rewrite length_le_bytes; lia). Qed.

(** Reads every field of an encoded header. *)
Ltac drop_fields :=
  repeat match goal with
  | |- context [drop ?off (le_bytes ?n ?z ++ ?rest)] =>
      match off with
      | O => rewrite (drop_0 (le_bytes n z ++ rest))
      | _ => rewrite (drop_field off n z rest) by lia; simpl (off - n)%nat
      end
  end;
  rewrite !field_here.

(** The bit fields survive the packing. *)
Lemma pack_bits_roundtrip p :
  proto_wf p ->
  0 <= pack_bits p < 2 ^ 16 /\
  pack_bits p mod 2 ^ 4 = proto_version p /\
  pack_bits p / 2 ^ 4 mod 2 ^ 6 = proto_flags p /\
  pack_bits p / 2 ^ 10 mod 2 = proto_reorder p /\
  pack_bits p / 2 ^ 11 mod 2 ^ 5 = proto_unused p.
Proof.
  intros []. unfold in_width, pack_bits in *.
  change (2 ^ 1) with 2 in *. rewrite !Z.mod_small by done.
  change (2 ^ 4) with 16 in *. change (2 ^ 6) with 64 in *. change (2 ^ 5) with 32 in *.
  change (2 ^ 10) with 1024 in *. change (2 ^ 11) with 2048 in *. change (2 ^ 16) with 65536.
  split_and!; try lia; (Z.to_euclidean_division_equations; lia).
Qed.

Theorem decode_encode_proto p k :
  proto_wf p -> (k <= DEFAULT_MTU)%nat ->
  decode_proto (encode_proto p (PKTHDRSIZ + k)) =
  p <| proto_data := take k (proto_data p) ++ zeroes (DEFAULT_MTU - k) |>.
Proof.
  intros Hp Hk. pose proof (pack_bits_roundtrip p Hp) as (Hb & B1 & B2 & B3 & B4).
  destruct Hp. unfold in_width in *.
  assert (encode_proto p (PKTHDRSIZ + k) = encode_hdr p ++ take k (proto_data p)) as ->.
  { unfold encode_proto. rewrite <- (length_encode_hdr p), take_app_add. done. }
  assert (length (encode_hdr p ++ take k (proto_data p)) = (PKTHDRSIZ + k)%nat) as Hlen.
  { rewrite length_app, length_encode_hdr, length_take. lia. }
  unfold decode_proto, memcpy. rewrite Hlen, (take_ge (_ ++ _)) by lia.
  assert (drop (PKTHDRSIZ + k) (zeroes sizeof_proto) = zeroes (DEFAULT_MTU - k)) as ->.
  { unfold zeroes. by rewrite drop_replicate. }
  set (tail := take k (proto_data p)). set (z := zeroes (DEFAULT_MTU - k)).
  assert (take DEFAULT_MTU (drop PKTHDRSIZ ((encode_hdr p ++ tail) ++ z)) = tail ++ z) as ->.
  { rewrite <- app_assoc, <- (length_encode_hdr p), drop_app_length.
    apply take_ge. unfold tail, z. rewrite length_app, length_take, length_zeroes. lia. }
  unfold encode_hdr. rewrite <- !app_assoc. drop_fields.
  change (256 ^ Z.of_nat 2) with (2 ^ 16). change (256 ^ Z.of_nat 4) with (2 ^ 32).
  change (256 ^ Z.of_nat 8) with (2 ^ 64).
  rewrite !(Z.mod_small _ (2 ^ 16)), !(Z.mod_small _ (2 ^ 32)), !(Z.mod_small _ (2 ^ 64))
    by done.
  by rewrite B1, B2, B3, B4.
Qed.
