(* ===== verification/Buffer.v ===== *)
(** * Packet buffers ([src/src/buffer.c], [src/src/buffer.h])

    [Ring]: the circular buffer and the packet ring built on it.  A ring of
    [size] usable packets has [size + 1] slots; the pointers of the [pkts]
    array never change, so a packet pointer is the index of its slot.  The
    ring implements a bounded FIFO that drops its oldest packet when a writer
    finds it full ([BoundedFifo]).

    [Free]: the pool of packets of the reordering stage, two tail queues of
    entries ([free_head], [used_head]) over one store. *)

From S2P Require Import Prelude Pkt.

(** ** What a packet queue promises *)

Class BoundedFifo (Q : Type) := {
  q_valid : Q -> Prop;
  q_contents : Q -> list mlvpn_pkt_t;
  q_capacity : Q -> nat;
  q_is_empty : Q -> bool;
  q_is_full : Q -> bool;
  q_pop : Q -> mlvpn_pkt_t * Q;
  q_push : (mlvpn_pkt_t -> mlvpn_pkt_t) -> Q -> Q;
  q_clear : Q -> Q;
  q_empty_spec q : q_valid q -> q_is_empty q = true <-> q_contents q = [];
  q_full_spec q : q_valid q -> q_is_full q = true <-> length (q_contents q) = q_capacity q;
  q_bound q : q_valid q -> (length (q_contents q) <= q_capacity q)%nat;
  q_pop_spec q p l :
    q_valid q -> q_contents q = p :: l ->
    (q_pop q).1 = p /\ q_contents (q_pop q).2 = l /\
    q_valid (q_pop q).2 /\ q_capacity (q_pop q).2 = q_capacity q;
  q_push_spec q f :
    q_valid q -> (0 < q_capacity q)%nat ->
    exists slot,
      q_contents (q_push f q) =
        drop (length (q_contents q) + 1 - q_capacity q) (q_contents q) ++
        [f (slot <| pkt_len := 0 |> <| pkt_type := MLVPN_PKT_DATA |>)] /\
      q_valid (q_push f q) /\ q_capacity (q_push f q) = q_capacity q;
  q_clear_spec q :
    q_valid q -> q_contents (q_clear q) = [] /\ q_valid (q_clear q) /\
    q_capacity (q_clear q) = q_capacity q
}.

(** ** The circular buffer *)
Module Ring.

Record circular_buffer_t := CB { cb_size : Z; cb_start : Z; cb_end : Z }.
#[export] Instance cb_fields : Fields circular_buffer_t :=
  fun b => CB (cb_size b) (cb_start b) (cb_end b).

Definition mlvpn_cb_reset (buf : circular_buffer_t) : circular_buffer_t :=
  buf <| cb_start := 0 |> <| cb_end := 0 |>.

Definition mlvpn_cb_init (size : Z) : circular_buffer_t :=
  mlvpn_cb_reset (CB (size + 1) 0 0).

Definition mlvpn_cb_is_full (buf : circular_buffer_t) : bool :=
  Z.rem (cb_end buf + 1) (cb_size buf) =? cb_start buf.

Definition mlvpn_cb_is_empty (buf : circular_buffer_t) : bool :=
  cb_end buf =? cb_start buf.

(** The slot read, and the buffer after it. *)
Definition mlvpn_cb_read (buf : circular_buffer_t) : Z * circular_buffer_t :=
  (cb_start buf, buf <| cb_start := Z.rem (cb_start buf + 1) (cb_size buf) |>).

Definition mlvpn_cb_write (buf : circular_buffer_t) : Z * circular_buffer_t :=
  let ret := cb_end buf in
  let buf := buf <| cb_end := Z.rem (cb_end buf + 1) (cb_size buf) |> in
  let buf := if cb_end buf =? cb_start buf
             then buf <| cb_start := Z.rem (cb_start buf + 1) (cb_size buf) |>
             else buf in
  (ret, buf).

(** [circular_buffer_t] whose [data] is a [pktbuffer_t]. *)
Record pktbuffer := PB { pb_cb : circular_buffer_t; pb_pkts : list mlvpn_pkt_t }.
#[export] Instance pb_fields : Fields pktbuffer := fun b => PB (pb_cb b) (pb_pkts b).

Definition mlvpn_pktbuffer_reset (buf : pktbuffer) : pktbuffer :=
  buf <| pb_cb := mlvpn_cb_reset (pb_cb buf) |>.

Definition mlvpn_pktbuffer_init (size : Z) : pktbuffer :=
  let buf := mlvpn_cb_init size in
  mlvpn_pktbuffer_reset (PB buf (replicate (Z.to_nat (cb_size buf)) zero_pkt)).

(** Write through the packet pointer of a slot. *)
Definition pkt_store (slot : Z) (f : mlvpn_pkt_t -> mlvpn_pkt_t) (buf : pktbuffer) : pktbuffer :=
  buf <| pb_pkts := alter f (Z.to_nat slot) (pb_pkts buf) |>.
Definition pkt_load (slot : Z) (buf : pktbuffer) : mlvpn_pkt_t :=
  default zero_pkt (pb_pkts buf !! Z.to_nat slot).

(** Returns the slot of the new packet, initialised. *)
Definition mlvpn_pktbuffer_write (buf : pktbuffer) : Z * pktbuffer :=
  let '(slot, cb) := mlvpn_cb_write (pb_cb buf) in
  (slot, pkt_store slot (fun p => p <| pkt_len := 0 |> <| pkt_type := MLVPN_PKT_DATA |>)
           (buf <| pb_cb := cb |>)).

Definition mlvpn_pktbuffer_read (buf : pktbuffer) : Z * pktbuffer :=
  let '(slot, cb) := mlvpn_cb_read (pb_cb buf) in
  (slot, buf <| pb_cb := cb |>).

Definition is_full (buf : pktbuffer) : bool := mlvpn_cb_is_full (pb_cb buf).
Definition is_empty (buf : pktbuffer) : bool := mlvpn_cb_is_empty (pb_cb buf).

(** The idioms of the callers: obtain a packet and fill it, take the next
    packet. *)
Definition push (f : mlvpn_pkt_t -> mlvpn_pkt_t) (buf : pktbuffer) : pktbuffer :=
  let '(slot, buf) := mlvpn_pktbuffer_write buf in pkt_store slot f buf.
Definition pop (buf : pktbuffer) : mlvpn_pkt_t * pktbuffer :=
  let '(slot, buf) := mlvpn_pktbuffer_read buf in (pkt_load slot buf, buf).

(** *** Abstraction *)

Definition slot_at (size start : Z) (i : nat) : nat := Z.to_nat ((start + Z.of_nat i) mod size).
Definition slots_from (size start : Z) (n : nat) : list nat := slot_at size start <$> seq 0 n.

Definition cb_count (b : circular_buffer_t) : nat :=
  Z.to_nat ((cb_end b - cb_start b) mod cb_size b).
Definition cb_slots (b : circular_buffer_t) : list nat :=
  slots_from (cb_size b) (cb_start b) (cb_count b).
Definition contents (b : pktbuffer) : list mlvpn_pkt_t :=
  (fun s => default zero_pkt (pb_pkts b !! s)) <$> cb_slots (pb_cb b).
Definition capacity (b : pktbuffer) : nat := Z.to_nat (cb_size (pb_cb b) - 1).

Record cb_valid (b : circular_buffer_t) : Prop := {
  cv_size : 0 < cb_size b;
  cv_start : 0 <= cb_start b < cb_size b;
  cv_end : 0 <= cb_end b < cb_size b
}.
Definition valid (b : pktbuffer) : Prop :=
  cb_valid (pb_cb b) /\ length (pb_pkts b) = Z.to_nat (cb_size (pb_cb b)).

Lemma slot_at_lt size start i : 0 < size -> (slot_at size start i < Z.to_nat size)%nat.
Proof.
  intros. unfold slot_at. pose proof (Z.mod_pos_bound (start + Z.of_nat i) size). lia.
Qed.

Lemma slot_at_inj size start i j :
  0 < size -> Z.of_nat i < size -> Z.of_nat j < size ->
  slot_at size start i = slot_at size start j -> i = j.
Proof.
  unfold slot_at. intros Hs Hi Hj Heq.
  apply Z2Nat.inj in Heq; try (apply Z.mod_pos_bound; lia).
  rewrite !Z.mod_eq in Heq by lia.
  set (d := (start + Z.of_nat i) / size - (start + Z.of_nat j) / size) in *.
  assert (size * d = Z.of_nat i - Z.of_nat j) as Hd by (unfold d; lia).
  destruct (Z.lt_trichotomy d 0) as [?|[->|?]]; nia.
Qed.

Lemma slots_from_S size start n :
  slots_from size start (S n) = slots_from size start n ++ [slot_at size start n].
Proof. unfold slots_from. by rewrite seq_S, fmap_app. Qed.

Lemma slot_at_shift size start i :
  0 < size -> slot_at size start (S i) = slot_at size ((start + 1) mod size) i.
Proof.
  intros. unfold slot_at. rewrite Zplus_mod_idemp_l. do 2 f_equal. lia.
Qed.

Lemma slots_from_cons size start n :
  0 < size -> 0 <= start < size ->
  slots_from size start (S n) = Z.to_nat start :: slots_from size ((start + 1) mod size) n.
Proof.
  intros. unfold slots_from. rewrite <- cons_seq, fmap_cons. f_equal.
  - unfold slot_at. rewrite Z.add_0_r, Z.mod_small; done.
  - rewrite <- fmap_S_seq, <- list_fmap_compose. apply list_fmap_ext. intros i x _.
    by apply slot_at_shift.
Qed.

Lemma slots_from_elem size start n i :
  i ∈ slots_from size start n <-> exists k, i = slot_at size start k /\ (k < n)%nat.
Proof.
  unfold slots_from. rewrite list_elem_of_fmap. setoid_rewrite elem_of_seq.
  naive_solver lia.
Qed.

Lemma cb_slots_end (b : circular_buffer_t) :
  cb_valid b -> slot_at (cb_size b) (cb_start b) (cb_count b) = Z.to_nat (cb_end b).
Proof.
  intros [Hs Hst He]. unfold slot_at, cb_count. f_equal.
  pose proof (Z.mod_pos_bound (cb_end b - cb_start b) (cb_size b) Hs).
  rewrite Z2Nat.id, Zplus_mod_idemp_r by lia.
  replace (cb_start b + (cb_end b - cb_start b)) with (cb_end b) by lia.
  by apply Z.mod_small.
Qed.

Lemma rem_mod a b : 0 <= a -> 0 < b -> Z.rem a b = a mod b.
Proof. intros. by apply Z.rem_mod_nonneg. Qed.

(** *** The operations on the abstraction *)

Lemma cb_count_cases b :
  cb_valid b ->
  Z.of_nat (cb_count b) = cb_end b - cb_start b /\ cb_start b <= cb_end b \/
  Z.of_nat (cb_count b) = cb_end b - cb_start b + cb_size b /\ cb_end b < cb_start b.
Proof.
  intros [Hs Hst He]. unfold cb_count.
  destruct (Z.le_gt_cases (cb_start b) (cb_end b)).
  - left. rewrite Z.mod_small by lia. lia.
  - right. rewrite <- (Z_mod_plus_full _ 1), Z.mod_small by lia. lia.
Qed.

Lemma is_empty_spec b : valid b -> is_empty b = true <-> contents b = [].
Proof.
  intros [Hv _]. unfold is_empty, mlvpn_cb_is_empty, contents, cb_slots.
  rewrite Z.eqb_eq. split.
  - intros Heq. unfold cb_count. destruct Hv. by rewrite Heq, Z.sub_diag, Z.mod_0_l by lia.
  - intros Hnil%fmap_nil_inv. unfold slots_from in Hnil. apply fmap_nil_inv in Hnil.
    destruct (cb_count_cases _ Hv), Hv; destruct (cb_count (pb_cb b)); try done; lia.
Qed.

Lemma rem_succ x n : 0 <= x < n -> Z.rem (x + 1) n = if x + 1 =? n then 0 else x + 1.
Proof.
  intros. rewrite rem_mod by lia. destruct (Z.eqb_spec (x + 1) n) as [->|].
  - apply Z.mod_same. lia.
  - apply Z.mod_small. lia.
Qed.

Lemma length_contents b : length (contents b) = cb_count (pb_cb b).
Proof. unfold contents, cb_slots, slots_from. by rewrite !length_fmap, length_seq. Qed.

Lemma is_full_spec b : valid b -> is_full b = true <-> length (contents b) = capacity b.
Proof.
  intros [Hv _]. rewrite length_contents. unfold is_full, mlvpn_cb_is_full, capacity.
  destruct (cb_count_cases _ Hv) as [[Hc ?]|[Hc ?]], Hv as [Hs Hst He];
    rewrite Z.eqb_eq, rem_succ by lia; destruct (Z.eqb_spec (cb_end (pb_cb b) + 1) (cb_size (pb_cb b)));
    lia.
Qed.

Lemma contents_bound b : valid b -> (length (contents b) <= capacity b)%nat.
Proof.
  intros [Hv _]. rewrite length_contents. unfold capacity.
  destruct (cb_count_cases _ Hv), Hv; lia.
Qed.

Lemma cb_read_valid b : cb_valid b -> cb_valid (mlvpn_cb_read b).2.
Proof.
  intros [Hs Hst He]. split; simpl; [done| |done]. rewrite rem_succ by lia.
  case_match; lia.
Qed.

Lemma cb_read_count b :
  cb_valid b -> (0 < cb_count b)%nat -> cb_count (mlvpn_cb_read b).2 = (cb_count b - 1)%nat.
Proof.
  intros Hv Hc. pose proof (cb_count_cases _ Hv). pose proof (cb_count_cases _ (cb_read_valid _ Hv)) as H'.
  simpl in H'. destruct Hv as [Hs Hst He]. rewrite rem_succ in H' by lia. simpl.
  rewrite rem_succ by lia.
  destruct (Z.eqb_spec (cb_start b + 1) (cb_size b)); lia.
Qed.

Lemma cb_write_valid b : cb_valid b -> cb_valid (mlvpn_cb_write b).2.
Proof.
  intros [Hs Hst He]. unfold mlvpn_cb_write. simpl.
  case_match; split; simpl; rewrite ?rem_succ by lia; repeat case_match; lia.
Qed.

Lemma cb_write_size b : cb_size (mlvpn_cb_write b).2 = cb_size b.
Proof. unfold mlvpn_cb_write. simpl. by destruct (_ =? _). Qed.

Lemma cb_write_count b :
  cb_valid b -> 1 < cb_size b ->
  cb_count (mlvpn_cb_write b).2 =
    (if mlvpn_cb_is_full b then cb_count b else S (cb_count b)) /\
  cb_start (mlvpn_cb_write b).2 =
    (if mlvpn_cb_is_full b then (cb_start b + 1) mod cb_size b else cb_start b).
Proof.
  intros Hv H1. pose proof (cb_count_cases _ Hv). pose proof (cb_count_cases _ (cb_write_valid _ Hv)) as H'.
  destruct Hv as [Hs Hst He]. unfold mlvpn_cb_write, mlvpn_cb_is_full in *. simpl in *.
  destruct (Z.eqb_spec (Z.rem (cb_end b + 1) (cb_size b)) (cb_start b)) as [E|E]; simpl in *.
  - rewrite <- rem_mod by lia. split; [|done].
    rewrite !rem_succ in * by lia. repeat case_match; lia.
  - split; [|done]. rewrite !rem_succ in * by lia. repeat case_match; lia.
Qed.

Lemma pop_spec b p l :
  valid b -> contents b = p :: l ->
  (pop b).1 = p /\ contents (pop b).2 = l /\ valid (pop b).2 /\
  capacity (pop b).2 = capacity b.
Proof.
  intros [Hv Hl] Hc. pose proof (length_contents b) as Hn. rewrite Hc in Hn. simpl in Hn.
  pose proof (cb_read_count _ Hv ltac:(lia)) as Hcnt. pose proof (cb_read_valid _ Hv).
  unfold contents, cb_slots in Hc. rewrite <- Hn in Hc.
  destruct (Hv) as [Hs Hst He]. rewrite slots_from_cons, fmap_cons in Hc by done.
  injection Hc as Hp Htl. split_and!; [done| |done|done].
  unfold contents, cb_slots. change (pb_cb (pop b).2) with (mlvpn_cb_read (pb_cb b)).2.
  rewrite Hcnt, <- Hn. simpl. rewrite rem_mod, Nat.sub_0_r by lia. done.
Qed.

Lemma slots_from_not_end b :
  cb_valid b -> Z.to_nat (cb_end b) ∉ cb_slots b.
Proof.
  intros Hv. rewrite <- cb_slots_end by done. unfold cb_slots.
  intros (k & Heq & Hk)%slots_from_elem.
  pose proof (cb_count_cases _ Hv). destruct Hv.
  apply slot_at_inj in Heq; lia.
Qed.

Lemma push_slots b :
  cb_valid b -> 1 < cb_size b ->
  cb_slots (mlvpn_cb_write b).2 =
  (if mlvpn_cb_is_full b then tail (cb_slots b) else cb_slots b) ++ [Z.to_nat (cb_end b)].
Proof.
  intros Hv H1. pose proof (cb_write_count b Hv H1) as [Hc Hst].
  rewrite <- cb_slots_end by done.
  unfold cb_slots. rewrite Hc, Hst.
  rewrite cb_write_size.
  destruct (mlvpn_cb_is_full b) eqn:Hf; [|apply slots_from_S].
  destruct (cb_count b) as [|n] eqn:Hn.
  - exfalso. unfold mlvpn_cb_is_full in Hf. pose proof (cb_count_cases _ Hv). destruct Hv.
    apply Z.eqb_eq in Hf. rewrite rem_succ in Hf by lia.
    destruct (Z.eqb_spec (cb_end b + 1) (cb_size b)); lia.
  - destruct Hv. rewrite (slots_from_cons _ (cb_start b)) by done. simpl.
    by rewrite slots_from_S, slot_at_shift.
Qed.

Lemma slots_alter_other g (e : nat) (pkts : list mlvpn_pkt_t) (ss : list nat) :
  e ∉ ss ->
  (fun s => default zero_pkt (alter g e pkts !! s)) <$> ss =
  (fun s => default zero_pkt (pkts !! s)) <$> ss.
Proof.
  intros Hss. apply list_fmap_ext. intros i x Hx. rewrite list_lookup_alter_ne; [done|].
  intros <-. apply Hss. by eapply list_elem_of_lookup_2.
Qed.

Lemma push_spec b f :
  valid b -> (0 < capacity b)%nat ->
  exists slot,
    contents (push f b) =
      drop (length (contents b) + 1 - capacity b) (contents b) ++
      [f (slot <| pkt_len := 0 |> <| pkt_type := MLVPN_PKT_DATA |>)] /\
    valid (push f b) /\ capacity (push f b) = capacity b.
Proof.
  intros Hvb Hcap. pose proof Hvb as [Hv Hl]. unfold capacity in *.
  assert (1 < cb_size (pb_cb b)) as H1 by lia.
  pose proof (cb_write_size (pb_cb b)) as Hsz.
  assert (pb_cb (push f b) = (mlvpn_cb_write (pb_cb b)).2) as Hcb by done.
  set (e := Z.to_nat (cb_end (pb_cb b))).
  assert (is_Some (pb_pkts b !! e)) as [slot Hslot].
  { apply lookup_lt_is_Some. unfold e. destruct Hv. lia. }
  assert (pb_pkts (push f b) =
    alter (fun p => f (p <| pkt_len := 0 |> <| pkt_type := MLVPN_PKT_DATA |>)) e (pb_pkts b)) as Hp.
  { unfold push. simpl. by rewrite list_alter_alter_eq. }
  exists slot. split_and!.
  - unfold contents at 1. rewrite Hcb, push_slots, fmap_app, Hp by done. f_equal.
    + pose proof (is_full_spec b Hvb) as Hfull. unfold is_full, capacity in Hfull.
      pose proof (contents_bound b Hvb) as Hb. unfold capacity in Hb.
      pose proof (slots_from_not_end _ Hv) as Hnot.
      destruct (mlvpn_cb_is_full (pb_cb b)).
      * rewrite (proj1 Hfull eq_refl). replace (_ + 1 - _)%nat with 1%nat by lia.
        rewrite slots_alter_other by (destruct (cb_slots (pb_cb b)); set_solver).
        unfold contents. by destruct (cb_slots (pb_cb b)).
      * assert (length (contents b) <> Z.to_nat (cb_size (pb_cb b) - 1)) by naive_solver.
        replace (_ + 1 - _)%nat with O by lia. by rewrite slots_alter_other.
    + simpl. by rewrite list_lookup_alter_eq, Hslot.
  - split; [rewrite Hcb; by apply cb_write_valid|]. rewrite Hcb, Hp, length_alter. congruence.
  - rewrite Hcb. by rewrite Hsz.
Qed.

Lemma clear_spec b :
  valid b -> contents (mlvpn_pktbuffer_reset b) = [] /\ valid (mlvpn_pktbuffer_reset b) /\
  capacity (mlvpn_pktbuffer_reset b) = capacity b.
Proof.
  intros [[Hs Hst He] Hl]. split_and!; [|split; [split|]|]; simpl; try lia; done.
Qed.

Lemma init_spec size :
  0 <= size -> valid (mlvpn_pktbuffer_init size) /\ contents (mlvpn_pktbuffer_init size) = [] /\
  capacity (mlvpn_pktbuffer_init size) = Z.to_nat size.
Proof.
  intros Hs. split_and!; [split; [split|]|..]; simpl; try lia.
  - by rewrite length_replicate.
  - done.
  - unfold capacity. simpl. f_equal. lia.
Qed.

(** *** A property of every slot

    The packets of a ring are overwritten in place: a property the writers
    establish for the slot they fill, whatever it held, holds of every slot. *)
Record ring_inv (P : mlvpn_pkt_t -> Prop) (cap : nat) (b : pktbuffer) : Prop := {
  ri_valid : valid b;
  ri_capacity : capacity b = cap;
  ri_slots : Forall P (pb_pkts b)
}.

Section ring_inv.
Variables (P : mlvpn_pkt_t -> Prop) (cap : nat).
Hypothesis cap_pos : (0 < cap)%nat.

Lemma push_inv f b :
  ring_inv P cap b ->
  (forall slot, P slot -> P (f (slot <| pkt_len := 0 |> <| pkt_type := MLVPN_PKT_DATA |>))) ->
  ring_inv P cap (push f b) /\ is_empty (push f b) = false.
Proof.
  intros [Hv Hc Hs] Hf. destruct (push_spec b f Hv) as (slot & Hcont & Hv' & Hc'); [lia|].
  split.
  - split; [done|congruence|]. unfold push. simpl. rewrite list_alter_alter_eq.
    apply Forall_alter; [done|]. intros p Hp Hpp. by apply Hf.
  - apply not_true_iff_false. rewrite is_empty_spec by done. rewrite Hcont.
    intros Hnil. by apply app_nil in Hnil as [_ ?].
Qed.

Lemma read_inv b slot b' :
  ring_inv P cap b -> mlvpn_pktbuffer_read b = (slot, b') ->
  ring_inv P cap b' /\ P (pkt_load slot b').
Proof.
  intros [Hv Hc Hs] Hr. unfold mlvpn_pktbuffer_read in Hr. simpl in Hr. injection Hr as <- <-.
  pose proof Hv as [Hcb Hl]. split.
  - split; [|done|done]. split; [|done]. by apply cb_read_valid.
  - unfold pkt_load. simpl. destruct (lookup_lt_is_Some_2 (pb_pkts b) (Z.to_nat (cb_start (pb_cb b)))) as [p Hp].
    { destruct Hcb. lia. }
    rewrite Hp. simpl. by eapply Forall_lookup_1.
Qed.

Lemma store_inv slot f b :
  ring_inv P cap b -> (forall p, P p -> P (f p)) -> ring_inv P cap (pkt_store slot f b).
Proof.
  intros [[Hv Hl] Hc Hs] Hf. split; [split; [done|]|done|]; simpl.
  - by rewrite length_alter.
  - apply Forall_alter; [done|]. auto.
Qed.

Lemma reset_ring_inv b :
  ring_inv P cap b -> ring_inv P cap (mlvpn_pktbuffer_reset b) /\ is_empty (mlvpn_pktbuffer_reset b) = true.
Proof.
  intros [Hv Hc Hs]. destruct (clear_spec b Hv) as (Hn & Hv' & Hc'). split; [|done].
  split; [done|congruence|done].
Qed.
End ring_inv.

#[export] Instance pktbuffer_fifo : BoundedFifo pktbuffer := {|
  q_valid := valid;
  q_contents := contents;
  q_capacity := capacity;
  q_is_empty := is_empty;
  q_is_full := is_full;
  q_pop := pop;
  q_push := push;
  q_clear := mlvpn_pktbuffer_reset;
  q_empty_spec := is_empty_spec;
  q_full_spec := is_full_spec;
  q_bound := contents_bound;
  q_pop_spec := pop_spec;
  q_push_spec := push_spec;
  q_clear_spec := clear_spec
|}.

End Ring.
Export Ring (circular_buffer_t, pktbuffer, pktbuffer_fifo).
#[export] Existing Instance Ring.pktbuffer_fifo.

(** ** Clients of a packet queue *)

Section fifo_clients.
Context {Q : Type} `{BoundedFifo Q}.
Implicit Types q : Q.

(** Take [n] packets, in the order they come out. *)
Fixpoint pop_n (n : nat) (q : Q) : list mlvpn_pkt_t * Q :=
  match n with
  | O => ([], q)
  | S n => let '(p, q) := q_pop q in let '(l, q) := pop_n n q in (p :: l, q)
  end.

(** Fill one packet per element of [l]. *)
Fixpoint push_all {A} (fill : A -> mlvpn_pkt_t -> mlvpn_pkt_t) (l : list A) (q : Q) : Q :=
  match l with
  | [] => q
  | a :: l => push_all fill l (q_push (fill a) q)
  end.

Lemma pop_n_contents n q :
  q_valid q -> (n <= length (q_contents q))%nat ->
  (pop_n n q).1 = take n (q_contents q) /\ q_contents (pop_n n q).2 = drop n (q_contents q).
Proof.
  revert q. induction n as [|n IH]; intros q Hv Hn; [done|].
  destruct (q_contents q) as [|p l] eqn:Hc; simpl in *; [lia|].
  destruct (q_pop_spec q p l Hv Hc) as (Hp & Hl & Hv' & _).
  destruct (q_pop q) as [p' q']. simpl in *.
  destruct (IH q' Hv') as [H1 H2]; [rewrite Hl; lia|].
  destruct (pop_n n q'). simpl in *. split; [congruence|]. by rewrite H2, Hl.
Qed.

(** A filler that decides the packet it leaves, whatever the slot held. *)
Definition fills {A} (fill : A -> mlvpn_pkt_t -> mlvpn_pkt_t) (pkt : A -> mlvpn_pkt_t) : Prop :=
  forall a slot, fill a (slot <| pkt_len := 0 |> <| pkt_type := MLVPN_PKT_DATA |>) = pkt a.

Lemma push_all_contents {A} (fill : A -> mlvpn_pkt_t -> mlvpn_pkt_t) pkt l q :
  fills fill pkt -> q_valid q -> (0 < q_capacity q)%nat ->
  let all := q_contents q ++ (pkt <$> l) in
  q_contents (push_all fill l q) = drop (length all - q_capacity q) all /\
  q_valid (push_all fill l q) /\ q_capacity (push_all fill l q) = q_capacity q.
Proof.
  intros Hf. revert q. induction l as [|a l IH]; intros q Hv Hcap all; unfold all; clear all.
  - rewrite fmap_nil, app_nil_r. pose proof (q_bound q Hv).
    replace (_ - _)%nat with O by lia. done.
  - rewrite fmap_cons. cbn [push_all].
    destruct (q_push_spec q (fill a) Hv Hcap) as (slot & Hc & Hv' & Hcap').
    rewrite (Hf a slot) in Hc.
    destruct (IH _ Hv') as (H1 & H2 & H3); [lia|]. split_and!; [|done|congruence].
    rewrite H1, Hc, Hcap'. pose proof (q_bound q Hv).
    set (k := (length (q_contents q) + 1 - q_capacity q)%nat).
    replace ((drop k (q_contents q) ++ [pkt a]) ++ (pkt <$> l))
      with (drop k (q_contents q ++ pkt a :: (pkt <$> l)))
      by (rewrite drop_app_le, <- app_assoc by lia; done).
    rewrite drop_drop, length_drop, !length_app. f_equal. simpl. unfold k. lia.
Qed.
End fifo_clients.



(** ** The packet pool of the reordering stage *)
Module Free.

(** An entry is a number below [fb_size]; [fb_store] holds its packet. *)
Record freebuffer_t := FB {
  fb_size : Z;
  fb_used : Z;
  free_head : list nat;
  used_head : list nat;
  fb_store : list mlvpn_pkt_t
}.
#[export] Instance fb_fields : Fields freebuffer_t :=
  fun b => FB (fb_size b) (fb_used b) (free_head b) (used_head b) (fb_store b).

(** Each new entry goes to the head of [free_head]. *)
Definition mlvpn_freebuffer_init (size : nat) : freebuffer_t :=
  FB (Z.of_nat size) 0 (fold_left (fun fh e => e :: fh) (seq 0 size) []) []
     (replicate size zero_pkt).

(** The loop that moves the used entries, first one first, to the head of
    [free_head]. *)
Fixpoint move_all (used free : list nat) : list nat :=
  match used with
  | [] => free
  | e :: used => move_all used (e :: free)
  end.

Definition mlvpn_freebuffer_reset (fb : freebuffer_t) : freebuffer_t :=
  fb <| free_head := move_all (used_head fb) (free_head fb) |> <| used_head := [] |>
     <| fb_used := 0 |>.

Definition mlvpn_freebuffer_get (fb : freebuffer_t) : option nat * freebuffer_t :=
  match free_head fb with
  | e :: rest =>
      (Some e, fb <| free_head := rest |> <| used_head := used_head fb ++ [e] |>
                  <| fb_used := u32 (fb_used fb + 1) |>)
  | [] => (None, fb)
  end.

Definition mlvpn_freebuffer_drain_used (fb : freebuffer_t) : option nat * freebuffer_t :=
  match used_head fb with
  | e :: rest =>
      (Some e, fb <| used_head := rest |> <| free_head := e :: free_head fb |>
                  <| fb_used := u32 (fb_used fb - 1) |>)
  | [] => (None, fb)
  end.

(** The [TAILQ_FOREACH] that looks for [pkt] and removes its entry. *)
Fixpoint find_remove (pkt : nat) (l : list nat) : option (list nat) :=
  match l with
  | [] => None
  | p :: l => if (p =? pkt)%nat then Some l else cons p <$> find_remove pkt l
  end.

(** [None] is the [fatalx] at the end of the function: the packet is not among
    the used ones. *)
Definition mlvpn_freebuffer_free (fb : freebuffer_t) (pkt : nat) : option freebuffer_t :=
  match find_remove pkt (used_head fb) with
  | Some used =>
      Some (fb <| used_head := used |> <| free_head := pkt :: free_head fb |>
               <| fb_used := u32 (fb_used fb - 1) |>)
  | None => None
  end.

(** Access to the packet of an entry. *)
Definition entry_pkt (fb : freebuffer_t) (e : nat) : mlvpn_pkt_t :=
  default zero_pkt (fb_store fb !! e).
Definition store_pkt (e : nat) (p : mlvpn_pkt_t) (fb : freebuffer_t) : freebuffer_t :=
  fb <| fb_store := <[e := p]> (fb_store fb) |>.

(** *** Invariant: the two queues partition the entries and [used] counts *)
Record pool_inv (fb : freebuffer_t) : Prop := {
  pi_perm : free_head fb ++ used_head fb ≡ₚ seq 0 (Z.to_nat (fb_size fb));
  pi_used : fb_used fb = Z.of_nat (length (used_head fb));
  pi_size : 0 <= fb_size fb < 2 ^ 32;
  pi_store : length (fb_store fb) = Z.to_nat (fb_size fb)
}.

Lemma pool_nodup fb : pool_inv fb -> NoDup (free_head fb ++ used_head fb).
Proof. intros []. rewrite pi_perm0. apply NoDup_seq. Qed.

Lemma pool_length fb :
  pool_inv fb -> (length (free_head fb) + length (used_head fb))%nat = Z.to_nat (fb_size fb).
Proof.
  intros []. by rewrite <- length_app, pi_perm0, length_seq.
Qed.

Lemma move_all_perm used free : move_all used free ≡ₚ free ++ used.
Proof.
  revert free. induction used as [|e used IH]; intros free; simpl.
  - by rewrite app_nil_r.
  - rewrite IH. simpl. by rewrite Permutation_middle.
Qed.

Lemma fold_cons (l acc : list nat) : fold_left (fun fh e => e :: fh) l acc = reverse l ++ acc.
Proof.
  revert acc. induction l as [|x l IH]; intros acc; simpl; [done|].
  by rewrite IH, reverse_cons, <- app_assoc.
Qed.

Lemma init_inv size : Z.of_nat size < 2 ^ 32 -> pool_inv (mlvpn_freebuffer_init size).
Proof.
  intros Hs. split; simpl; try lia.
  - rewrite fold_cons, !app_nil_r, Nat2Z.id. apply reverse_Permutation.
  - rewrite length_replicate. lia.
Qed.

Lemma reset_inv fb : pool_inv fb -> pool_inv (mlvpn_freebuffer_reset fb).
Proof.
  intros []. split; simpl; try done. by rewrite app_nil_r, move_all_perm.
Qed.

Lemma u32_small z : 0 <= z < 2 ^ 32 -> u32 z = z.
Proof. apply Z.mod_small. Qed.

Lemma get_inv fb : pool_inv fb -> pool_inv (mlvpn_freebuffer_get fb).2.
Proof.
  intros Hi. pose proof (pool_length fb Hi) as Hl. destruct Hi. unfold mlvpn_freebuffer_get.
  destruct (free_head fb) as [|e rest] eqn:Hf; [simpl; split; rewrite ?Hf; done|].
  split; simpl; try done.
  - rewrite <- pi_perm0. by rewrite app_assoc, Permutation_app_comm.
  - rewrite pi_used0, length_app, u32_small; simpl in *; lia.
Qed.

Lemma drain_used_inv fb : pool_inv fb -> pool_inv (mlvpn_freebuffer_drain_used fb).2.
Proof.
  intros Hi. pose proof (pool_length fb Hi) as Hl. destruct Hi. unfold mlvpn_freebuffer_drain_used.
  destruct (used_head fb) as [|e rest] eqn:Hf; [simpl; split; rewrite ?Hf; done|].
  split; simpl; try done.
  - rewrite <- pi_perm0. by rewrite Permutation_middle.
  - rewrite pi_used0, u32_small; simpl in *; lia.
Qed.

Lemma find_remove_perm pkt l l' : find_remove pkt l = Some l' -> l ≡ₚ pkt :: l'.
Proof.
  revert l'. induction l as [|p l IH]; intros l' H; simpl in *; [done|].
  case_match eqn:Hp; simplify_eq.
  - by apply Nat.eqb_eq in Hp as ->.
  - apply fmap_Some in H as (k & Hk & ->). rewrite (IH k Hk). constructor.
Qed.

Lemma find_remove_Some pkt l : pkt ∈ l <-> is_Some (find_remove pkt l).
Proof.
  induction l as [|p l IH]; simpl.
  - split; [set_solver|]. by intros [? ?].
  - case_match eqn:Hp.
    + apply Nat.eqb_eq in Hp as ->. split; [by eexists|set_solver].
    + apply Nat.eqb_neq in Hp. rewrite fmap_is_Some, <- IH. set_solver.
Qed.

Lemma free_inv fb pkt fb' :
  pool_inv fb -> mlvpn_freebuffer_free fb pkt = Some fb' -> pool_inv fb'.
Proof.
  intros Hi. pose proof (pool_length fb Hi) as Hl. destruct Hi. unfold mlvpn_freebuffer_free.
  destruct (find_remove _ _) as [used|] eqn:Hr; [|done]. intros [= <-].
  apply find_remove_perm in Hr as Hperm.
  split; simpl; try done.
  - rewrite <- pi_perm0, Hperm. by rewrite Permutation_middle.
  - apply Permutation_length in Hperm. simpl in Hperm. rewrite pi_used0, u32_small; lia.
Qed.

Lemma free_Some fb pkt :
  pkt ∈ used_head fb <-> is_Some (mlvpn_freebuffer_free fb pkt).
Proof.
  rewrite find_remove_Some. unfold mlvpn_freebuffer_free, is_Some. case_match; naive_solver.
Qed.

Lemma free_used fb pkt fb' :
  mlvpn_freebuffer_free fb pkt = Some fb' -> used_head fb ≡ₚ pkt :: used_head fb'.
Proof.
  unfold mlvpn_freebuffer_free. case_match eqn:Hr; [|done]. intros [= <-].
  by apply find_remove_perm.
Qed.

Lemma get_None fb : pool_inv fb ->
  (mlvpn_freebuffer_get fb).1 = None <-> fb_used fb = fb_size fb.
Proof.
  intros Hi. pose proof (pool_length fb Hi) as Hl. destruct Hi. unfold mlvpn_freebuffer_get.
  destruct (free_head fb); simpl in *; split; try done; lia.
Qed.

(** Taking every used packet: [while ((pkt = drain_used(fb)) != NULL)].  The
    fuel is the number of used entries. *)
Fixpoint drain_all_fuel (fuel : nat) (fb : freebuffer_t) : list nat * freebuffer_t :=
  match mlvpn_freebuffer_drain_used fb, fuel with
  | (Some e, fb), S fuel => let '(l, fb) := drain_all_fuel fuel fb in (e :: l, fb)
  | (_, fb), _ => ([], fb)
  end.
Definition drain_all (fb : freebuffer_t) : list nat * freebuffer_t :=
  drain_all_fuel (length (used_head fb)) fb.

(** Emptying the pool gives back the used packets in the order in which
    they were obtained, leaves none in use and keeps the partition of the
    entries. *)
Theorem drain_all_order fb :
  pool_inv fb ->
  (drain_all fb).1 = used_head fb /\ used_head (drain_all fb).2 = [] /\
  fb_used (drain_all fb).2 = 0 /\ pool_inv (drain_all fb).2 /\
  fb_store (drain_all fb).2 = fb_store fb.
Proof.
  unfold drain_all. remember (length (used_head fb)) as n eqn:Hn. revert fb Hn.
  induction n as [|n IH]; intros fb Hn Hi; simpl.
  - destruct (used_head fb) eqn:Hu; [|done]. unfold mlvpn_freebuffer_drain_used. rewrite Hu.
    simpl. split_and!; try done. by rewrite (pi_used fb), Hu.
  - pose proof (drain_used_inv fb Hi) as Hi'.
    destruct (used_head fb) as [|e rest] eqn:Hu; [done|].
    assert (mlvpn_freebuffer_drain_used fb =
      (Some e, fb <| used_head := rest |> <| free_head := e :: free_head fb |>
                  <| fb_used := u32 (fb_used fb - 1) |>)) as Hd
      by (unfold mlvpn_freebuffer_drain_used; by rewrite Hu).
    rewrite Hd in *. injection Hn as Hn. cbn [snd] in Hi'.
    match type of Hi' with pool_inv ?f =>
      destruct (IH f Hn Hi') as (H1 & H2 & H3 & H4 & H5) end.
    destruct (drain_all_fuel n _). simpl in *. split_and!; try done. by f_equal.
Qed.

Lemma drain_all_order_witness :
  let fb := (mlvpn_freebuffer_get (mlvpn_freebuffer_get (mlvpn_freebuffer_init 4)).2).2 in
  (drain_all fb).1 = [3; 2]%nat /\ (drain_all fb).1 = used_head fb.
Proof.
  intros fb. split; [reflexivity|]. apply (drain_all_order fb). unfold fb.
  apply get_inv, get_inv, init_inv. reflexivity.
Defined.

End Free.
Export Free (freebuffer_t).
