(* ===== verification/Reorder.v ===== *)
(** * The reorder buffer ([src/src/reorder.c])

    Two rings of packet pointers: [order_buf], the window of the sequence
    numbers that follow [min_seqn], and [ready_buf], the packets that left the
    window and wait for the next drain.  A packet pointer is the pool entry
    that holds the packet.

    The second half relates the rings to lists (the window as seen from its
    head, the ready packets from the oldest) and proves that one
    insertion followed by a drain delivers what the window specification
    [window_step] says, for every size that is a power of two. *)

From stdpp Require Import sorting.
From S2P Require Import Prelude Buffer.

(** ** The code *)
Module Reorder.

Record cir_buffer := Cir {
  size : Z;
  mask : Z;
  head : Z;
  tail : Z;
  pkts : list (option nat)
}.
#[export] Instance cir_fields : Fields cir_buffer :=
  fun c => Cir (size c) (mask c) (head c) (tail c) (pkts c).

Record mlvpn_reorder_buffer := RB {
  min_seqn : Z;
  memsize : Z;
  ready_buf : cir_buffer;
  order_buf : cir_buffer;
  is_initialized : bool
}.
#[export] Instance rb_fields : Fields mlvpn_reorder_buffer :=
  fun b => RB (min_seqn b) (memsize b) (ready_buf b) (order_buf b) (is_initialized b).

(** [sizeof(struct mlvpn_reorder_buffer)] and of a pointer on an LP64 target. *)
Definition sizeof_rb : Z := 72.
Definition sizeof_ptr : Z := 8.
Definition bytes_needed (size : Z) : Z := u32 (sizeof_rb + u32 (2 * size) * sizeof_ptr).

(** [memset] and the assignments that follow it: [size] entries of each array,
    all [NULL]. *)
Definition cleared (size : Z) : cir_buffer :=
  Cir size (u32 (size - 1)) 0 0 (replicate (Z.to_nat size) None).

(** [None] is the [NULL] result: the memory given is too small. *)
Definition mlvpn_reorder_init (bufsize size : Z) : option mlvpn_reorder_buffer :=
  if bufsize <? bytes_needed size then None
  else Some (RB 0 bufsize (cleared size) (cleared size) false).

(** The result of [mlvpn_reorder_init] is ignored: the block [calloc] gave is
    returned either way. *)
Definition mlvpn_reorder_create (size : Z) : mlvpn_reorder_buffer :=
  let bufsize := bytes_needed size in
  default (RB 0 0 (Cir 0 0 0 0 []) (Cir 0 0 0 0 []) false) (mlvpn_reorder_init bufsize size).

Definition mlvpn_reorder_reset (b : mlvpn_reorder_buffer) : mlvpn_reorder_buffer :=
  default b (mlvpn_reorder_init (memsize b) (size (order_buf b))).

Definition next (c : cir_buffer) (x : Z) : Z := Z.land (u32 (x + 1)) (mask c).
Definition at_slot (c : cir_buffer) (x : Z) : option nat := default None (pkts c !! Z.to_nat x).
Definition set_slot (x : Z) (p : option nat) (c : cir_buffer) : cir_buffer :=
  c <| pkts := <[Z.to_nat x := p]> (pkts c) |>.

(** [order_buf->head = (order_buf->head + 1) & order_buf->mask], and the slot
    of the old head cleared ([None] when it was already [NULL]). *)
Definition take_head (c : cir_buffer) : cir_buffer :=
  (set_slot (head c) None c) <| head := next c (head c) |>.

(** Inner loop of [mlvpn_reorder_fill_overflow]; [None] when the fuel is not
    enough. *)
Fixpoint move_ready (fuel : nat) (b : mlvpn_reorder_buffer) (adv : Z) :
    option (mlvpn_reorder_buffer * Z) :=
  match at_slot (order_buf b) (head (order_buf b)) with
  | None => Some (b, adv)
  | Some p =>
      match fuel with
      | O => None
      | S fuel =>
          let ready := set_slot (head (ready_buf b)) (Some p) (ready_buf b) in
          let b := b <| ready_buf := ready |> <| order_buf := take_head (order_buf b) |> in
          let adv := u32 (adv + 1) in
          if next ready (head ready) =? tail ready then Some (b, adv)
          else move_ready fuel (b <| ready_buf := ready <| head := next ready (head ready) |> |>) adv
      end
  end.

(** Outer loop. *)
Fixpoint fill_loop (fuel : nat) (n : Z) (b : mlvpn_reorder_buffer) (adv : Z) :
    option (mlvpn_reorder_buffer * Z) :=
  if (adv <? n) && negb (next (ready_buf b) (head (ready_buf b)) =? tail (ready_buf b)) then
    match fuel with
    | O => None
    | S fuel =>
        let '(b, adv) :=
          match at_slot (order_buf b) (head (order_buf b)) with
          | None => (b <| order_buf := (order_buf b) <| head := next (order_buf b) (head (order_buf b)) |> |>,
                     u32 (adv + 1))
          | Some _ => (b, adv)
          end in
        '(b, adv) ← move_ready (length (pkts (order_buf b))) b adv;
        fill_loop fuel n b adv
    end
  else Some (b, adv).

Definition mlvpn_reorder_fill_overflow (b : mlvpn_reorder_buffer) (n : Z) :
    option (Z * mlvpn_reorder_buffer) :=
  '(b, adv) ← fill_loop (Z.to_nat n) n b 0;
  Some (adv, b <| min_seqn := u64 (min_seqn b + adv) |>).

Definition store_at (b : mlvpn_reorder_buffer) (offset : Z) (pkt : nat) : mlvpn_reorder_buffer :=
  let position := u32 (Z.land (u64 (head (order_buf b) + offset)) (mask (order_buf b))) in
  b <| order_buf := set_slot position (Some pkt) (order_buf b) |>.

(** [pkt] is the pool entry, [seq] the [seq] field of its packet. *)
Definition mlvpn_reorder_insert (b : mlvpn_reorder_buffer) (pkt : nat) (seq : Z) :
    option (Z * mlvpn_reorder_buffer) :=
  let b := if is_initialized b then b
           else b <| min_seqn := seq |> <| is_initialized := true |> in
  let size := size (order_buf b) in
  let offset := u64 (seq - min_seqn b) in
  if offset <? size then Some (0, store_at b offset pkt)
  else if offset <? u32 (2 * size) then
    let n := u64 (offset + 1 - size) in
    '(moved, b) ← mlvpn_reorder_fill_overflow b (u32 n);
    if moved <? n then Some (-1, b)
    else Some (0, store_at b (u64 (seq - min_seqn b)) pkt)
  else Some (-2, b).

(** The loops of [mlvpn_reorder_drain]; [room] is [max_pkts - drain_cnt].  The
    packets come in the order they are written to the caller's array; a
    pointer read from the ready ring that is [NULL] is kept as such. *)
Fixpoint drain_ready (room : nat) (b : mlvpn_reorder_buffer) :
    list (option nat) * nat * mlvpn_reorder_buffer :=
  match room with
  | O => ([], O, b)
  | S room' =>
      let r := ready_buf b in
      if tail r =? head r then ([], room, b)
      else
        let '(l, room, b) := drain_ready room' (b <| ready_buf := r <| tail := next r (tail r) |> |>) in
        (at_slot r (tail r) :: l, room, b)
  end.

Fixpoint drain_order (room : nat) (b : mlvpn_reorder_buffer) :
    list (option nat) * mlvpn_reorder_buffer :=
  match room with
  | O => ([], b)
  | S room =>
      match at_slot (order_buf b) (head (order_buf b)) with
      | None => ([], b)
      | Some p =>
          let '(l, b) := drain_order room
            (b <| order_buf := take_head (order_buf b) |>
               <| min_seqn := u64 (min_seqn b + 1) |>) in
          (Some p :: l, b)
      end
  end.

Definition mlvpn_reorder_drain (b : mlvpn_reorder_buffer) (max_pkts : nat) :
    list (option nat) * mlvpn_reorder_buffer :=
  let '(l1, room, b) := drain_ready max_pkts b in
  let '(l2, b) := drain_order room b in
  (l1 ++ l2, b).

(** ** The rings as lists *)

Definition pow2 (s : Z) : Prop := exists k, 0 <= k < 31 /\ s = 2 ^ k.

Record cir_valid (c : cir_buffer) : Prop := {
  cv_pow2 : pow2 (size c);
  cv_mask : mask c = size c - 1;
  cv_head : 0 <= head c < size c;
  cv_tail : 0 <= tail c < size c;
  cv_pkts : length (pkts c) = Z.to_nat (size c)
}.

Definition slots_view (c : cir_buffer) (l : list nat) : list (option nat) :=
  (fun s => default None (pkts c !! s)) <$> l.

(** The window, from the slot of [min_seqn] on. *)
Definition window (c : cir_buffer) : list (option nat) :=
  slots_view c (Ring.slots_from (size c) (head c) (Z.to_nat (size c))).

(** The packets between [tail] and [head]. *)
Definition ready_ring (c : cir_buffer) : circular_buffer_t := Ring.CB (size c) (tail c) (head c).
Definition ready (c : cir_buffer) : list (option nat) :=
  slots_view c (Ring.cb_slots (ready_ring c)).

Lemma pow2_bounds s : pow2 s -> 0 < s < 2 ^ 31.
Proof.
  intros (k & Hk & ->). split; [by apply Z.pow_pos_nonneg; lia|].
  apply Z.pow_lt_mono_r; lia.
Qed.

Lemma land_mask s x : pow2 s -> Z.land x (s - 1) = x mod s.
Proof.
  intros (k & Hk & ->). rewrite <- Z.land_ones by lia. f_equal. rewrite Z.ones_equiv. lia.
Qed.

Lemma next_mod c x : cir_valid c -> 0 <= x < size c -> next c x = (x + 1) mod size c.
Proof.
  intros [Hp Hm _ _ _] Hx. pose proof (pow2_bounds _ Hp). unfold next.
  rewrite Hm, land_mask by done. f_equal. apply Z.mod_small. lia.
Qed.

Lemma next_range c x : cir_valid c -> 0 <= x < size c -> 0 <= next c x < size c.
Proof.
  intros Hv Hx. rewrite next_mod by done. apply Z.mod_pos_bound. lia.
Qed.

Lemma length_window c : length (window c) = Z.to_nat (size c).
Proof. unfold window, slots_view, Ring.slots_from. by rewrite !length_fmap, length_seq. Qed.

Lemma slots_view_other c c' l :
  (forall s, s ∈ l -> pkts c' !! s = pkts c !! s) -> slots_view c' l = slots_view c l.
Proof.
  intros H. apply list_fmap_ext. intros i s Hs. rewrite H; [done|].
  by eapply list_elem_of_lookup_2.
Qed.

Lemma set_slot_valid x p c : cir_valid c -> cir_valid (set_slot x p c).
Proof. intros []. split; simpl; try done. by rewrite length_insert. Qed.
Lemma set_head_valid x c : cir_valid c -> 0 <= x < size c -> cir_valid (c <| head := x |>).
Proof. intros [] ?. by split. Qed.
Lemma set_tail_valid x c : cir_valid c -> 0 <= x < size c -> cir_valid (c <| tail := x |>).
Proof. intros [] ?. by split. Qed.

Lemma window_head c : cir_valid c -> at_slot c (head c) = default None (window c !! O).
Proof.
  intros [Hp Hm Hh Ht Hl]. unfold window, at_slot.
  destruct (Z.to_nat (size c)) as [|m] eqn:Hs; [lia|].
  rewrite Ring.slots_from_cons by lia. done.
Qed.

(** Clearing the head slot and moving on drops the head of the window. *)
Lemma window_take_head c :
  cir_valid c -> cir_valid (take_head c) /\
  window (take_head c) = drop 1 (window c) ++ [None].
Proof.
  intros Hv. split.
  { apply set_head_valid; [by apply set_slot_valid|]. apply (next_range c); [done|]. apply Hv. }
  destruct (Hv) as [Hp Hm Hh Ht Hl]. unfold window.
  change (size (take_head c)) with (size c). simpl (head (take_head c)).
  destruct (Z.to_nat (size c)) as [|m] eqn:Hs; [lia|].
  rewrite Ring.slots_from_S, (Ring.slots_from_cons _ (head c)) by lia.
  rewrite next_mod by done. unfold slots_view. rewrite fmap_app, fmap_cons. simpl. f_equal.
  - rewrite drop_0. apply (slots_view_other c (take_head c)). intros s Hin. simpl.
    apply list_lookup_insert_ne. intros <-.
    apply Ring.slots_from_elem in Hin as (k & Heq & Hk).
    rewrite <- Ring.slot_at_shift in Heq by lia.
    assert (Z.to_nat (head c) = Ring.slot_at (size c) (head c) 0) as H0.
    { unfold Ring.slot_at. by rewrite Z.add_0_r, Z.mod_small. }
    rewrite H0 in Heq. apply Ring.slot_at_inj in Heq; lia.
  - rewrite <- Ring.slot_at_shift by lia. unfold Ring.slot_at.
    replace (head c + Z.of_nat (S m)) with (head c + 1 * size c) by lia.
    rewrite Z_mod_plus_full, Z.mod_small by done.
    rewrite list_lookup_insert_eq by lia. done.
Qed.

Lemma set_slot_same c x : at_slot c x = None -> (Z.to_nat x < length (pkts c))%nat -> set_slot x None c = c.
Proof.
  intros H Hx. destruct c. unfold set_slot, at_slot in *. simpl in *. f_equal.
  apply list_insert_id. destruct (lookup_lt_is_Some_2 _ _ Hx) as [y Hy].
  rewrite Hy in *. simpl in *. congruence.
Qed.

(** Skipping an empty head slot is [take_head] too. *)
Lemma skip_take_head c :
  cir_valid c -> at_slot c (head c) = None -> c <| head := next c (head c) |> = take_head c.
Proof.
  intros [Hp Hm Hh Ht Hl] H. unfold take_head. rewrite set_slot_same; [done|done|]. lia.
Qed.

Lemma window_store c i p :
  cir_valid c -> (i < Z.to_nat (size c))%nat ->
  window (set_slot (Z.land (head c + Z.of_nat i) (mask c)) (Some p) c) = <[i := Some p]> (window c).
Proof.
  intros [Hp Hm Hh Ht Hl] Hi. rewrite Hm, land_mask by done.
  apply list_eq. intros j. unfold window, slots_view.
  change (size (set_slot _ _ c)) with (size c). change (head (set_slot _ _ c)) with (head c).
  destruct (decide (j < Z.to_nat (size c))%nat) as [Hj|Hj].
  2: { rewrite !lookup_ge_None_2; rewrite ?length_insert, ?length_fmap; unfold Ring.slots_from;
       rewrite ?length_fmap, ?length_seq; (done || lia). }
  rewrite list_lookup_fmap. unfold Ring.slots_from at 1. rewrite list_lookup_fmap, lookup_seq_lt by done.
  simpl. fold (Ring.slot_at (size c) (head c) i).
  destruct (decide (i = j)) as [<-|Hij].
  - rewrite !list_lookup_insert_eq; [done| |].
    + unfold Ring.slots_from. by rewrite !length_fmap, length_seq.
    + rewrite Hl. apply Ring.slot_at_lt. lia.
  - rewrite !list_lookup_insert_ne; [|done|].
    + unfold Ring.slots_from. rewrite !list_lookup_fmap, lookup_seq_lt by done. done.
    + intros Heq. apply Hij. apply (Ring.slot_at_inj (size c) (head c)); lia || done.
Qed.

(** *** The ready ring *)

Lemma ready_ring_valid c : cir_valid c -> Ring.cb_valid (ready_ring c).
Proof. intros []. split; simpl; lia. Qed.

Lemma length_ready c : length (ready c) = Ring.cb_count (ready_ring c).
Proof. unfold ready, slots_view, Ring.cb_slots, Ring.slots_from. by rewrite !length_fmap, length_seq. Qed.

Lemma next_cases c x :
  cir_valid c -> 0 <= x < size c ->
  next c x = (if x + 1 =? size c then 0 else x + 1).
Proof. intros Hv Hx. rewrite next_mod, <- Ring.rem_mod by lia || done. by apply Ring.rem_succ. Qed.

Lemma ready_full c :
  cir_valid c ->
  next c (head c) = tail c <-> Z.of_nat (length (ready c)) = size c - 1.
Proof.
  intros Hv. rewrite length_ready. pose proof (Ring.cb_count_cases _ (ready_ring_valid _ Hv)) as Hc.
  rewrite next_cases by (done || apply Hv). simpl in Hc. destruct Hv.
  destruct (Z.eqb_spec (head c + 1) (size c)); lia.
Qed.

Lemma ready_bound c : cir_valid c -> Z.of_nat (length (ready c)) <= size c - 1.
Proof.
  intros Hv. rewrite length_ready. pose proof (Ring.cb_count_cases _ (ready_ring_valid _ Hv)) as Hc.
  simpl in Hc. destruct Hv. lia.
Qed.

Lemma ready_empty c : cir_valid c -> tail c = head c <-> ready c = [].
Proof.
  intros Hv. rewrite <- length_zero_iff_nil, length_ready.
  pose proof (Ring.cb_count_cases _ (ready_ring_valid _ Hv)) as Hc. simpl in Hc. destruct Hv. lia.
Qed.

Lemma ready_push c p :
  cir_valid c -> next c (head c) <> tail c ->
  ready ((set_slot (head c) (Some p) c) <| head := next c (head c) |>) = ready c ++ [Some p].
Proof.
  intros Hv Hfull. pose proof (ready_ring_valid _ Hv) as Hrv.
  pose proof (Ring.slots_from_not_end _ Hrv) as Hnot. simpl in Hnot.
  assert (1 < size c) as H1.
  { rewrite next_cases in Hfull by (done || apply Hv). destruct Hv.
    destruct (Z.eqb_spec (head c + 1) (size c)); lia. }
  assert (Ring.mlvpn_cb_is_full (ready_ring c) = false) as Hnf.
  { apply Z.eqb_neq. simpl. rewrite Ring.rem_mod by (destruct Hv; lia).
    rewrite <- next_mod by (done || apply Hv). done. }
  pose proof (Ring.push_slots (ready_ring c) Hrv H1) as Hs. rewrite Hnf in Hs.
  assert (ready_ring ((set_slot (head c) (Some p) c) <| head := next c (head c) |>) =
    (Ring.mlvpn_cb_write (ready_ring c)).2) as Hrr.
  { unfold Ring.mlvpn_cb_write. simpl. unfold Ring.mlvpn_cb_is_full in Hnf. simpl in Hnf.
    rewrite Hnf. unfold ready_ring. simpl. f_equal.
    rewrite Ring.rem_mod by (destruct Hv; lia). by rewrite next_mod by (done || apply Hv). }
  unfold ready. rewrite Hrr, Hs. unfold slots_view at 1. rewrite fmap_app. f_equal.
  - apply (slots_view_other c). intros s Hin. simpl. apply list_lookup_insert_ne. by intros <-.
  - simpl. rewrite list_lookup_insert_eq; [done|]. destruct Hv. lia.
Qed.

Lemma ready_pop c :
  cir_valid c -> tail c <> head c ->
  ready c = at_slot c (tail c) :: ready (c <| tail := next c (tail c) |>).
Proof.
  intros Hv Hne. pose proof (ready_ring_valid _ Hv) as Hrv.
  pose proof (Ring.cb_count_cases _ Hrv) as Hc. simpl in Hc.
  assert (0 < Ring.cb_count (ready_ring c))%nat as Hpos by (destruct Hv; lia).
  pose proof (Ring.cb_read_count _ Hrv Hpos) as Hr.
  assert (ready_ring (c <| tail := next c (tail c) |>) = (Ring.mlvpn_cb_read (ready_ring c)).2) as Hrr.
  { unfold ready_ring. simpl. f_equal. rewrite Ring.rem_mod by (destruct Hv; lia).
    by rewrite next_mod by (done || apply Hv). }
  unfold ready. rewrite Hrr. unfold Ring.cb_slots. rewrite Hr.
  destruct (Ring.cb_count (ready_ring c)) as [|n] eqn:Hn; [lia|].
  rewrite Ring.slots_from_cons by (simpl; destruct Hv; lia).
  unfold slots_view. rewrite fmap_cons. simpl. rewrite Nat.sub_0_r.
  rewrite Ring.rem_mod by (destruct Hv; lia). done.
Qed.

(** *** The loops on the lists *)

Record rb_valid (b : mlvpn_reorder_buffer) : Prop := {
  rv_order : cir_valid (order_buf b);
  rv_ready : cir_valid (ready_buf b);
  rv_size : size (ready_buf b) = size (order_buf b)
}.

Abbreviation win b := (window (order_buf b)).
Abbreviation rdy b := (ready (ready_buf b)).

(** What the loops leave alone. *)
Definition same_meta (b b' : mlvpn_reorder_buffer) : Prop :=
  min_seqn b' = min_seqn b /\ memsize b' = memsize b /\ is_initialized b' = is_initialized b /\
  size (order_buf b') = size (order_buf b).

(** Number of packets at the front of a window, and the window [k] numbers
    further. *)
Fixpoint lead (w : list (option nat)) : nat :=
  match w with
  | Some _ :: w => S (lead w)
  | _ => O
  end.
Definition shift (k : nat) (w : list (option nat)) : list (option nat) :=
  drop k w ++ replicate k None.
Definition somes (w : list (option nat)) : list nat := omap id w.

Lemma lead_app_None w w' : lead (w ++ None :: w') = lead w.
Proof. induction w as [|[p|] w IH]; simpl; auto. Qed.
Lemma lead_le w : (lead w <= length w)%nat.
Proof. induction w as [|[p|] w IH]; simpl; lia. Qed.
Lemma replicate_S_end' {A} n (x : A) : x :: replicate n x = replicate n x ++ [x].
Proof. induction n; simpl; congruence. Qed.

Lemma shift_shift a k w : (a + k <= length w)%nat -> shift k (shift a w) = shift (a + k) w.
Proof.
  intros H. unfold shift. rewrite drop_app_le by (rewrite length_drop; lia).
  rewrite drop_drop, <- app_assoc, <- replicate_add. done.
Qed.
Lemma length_shift k w : (k <= length w)%nat -> length (shift k w) = length w.
Proof. intros. unfold shift. rewrite length_app, length_drop, length_replicate. lia. Qed.
Lemma shift_1 w : shift 1 w = drop 1 w ++ [None].
Proof. done. Qed.
Lemma shift_0 w : shift 0 w = w.
Proof. unfold shift. by rewrite drop_0, app_nil_r. Qed.
Lemma lead_shift k w : lead (shift k w) = lead (drop k w).
Proof.
  unfold shift. destruct k; [by rewrite app_nil_r|]. apply lead_app_None.
Qed.
Lemma take_lead_shift w k j : (j <= length (drop k w))%nat -> take j (shift k w) = take j (drop k w).
Proof. intros. unfold shift. by apply take_app_le. Qed.

(** One step of the inner loop when the ready ring has room. *)
Definition moved (b : mlvpn_reorder_buffer) (p : nat) : mlvpn_reorder_buffer :=
  let r := ready_buf b in
  b <| ready_buf := (set_slot (head r) (Some p) r) <| head := next r (head r) |> |>
    <| order_buf := take_head (order_buf b) |>.

Lemma moved_spec b p w :
  rb_valid b -> win b = Some p :: w ->
  Z.of_nat (length (rdy b)) < size (order_buf b) - 1 ->
  rb_valid (moved b p) /\ win (moved b p) = w ++ [None] /\
  rdy (moved b p) = rdy b ++ [Some p] /\ same_meta b (moved b p).
Proof.
  intros [Ho Hr Hs] Hw Hroom.
  destruct (window_take_head _ Ho) as [Hv Hw']. rewrite Hw in Hw'.
  assert (next (ready_buf b) (head (ready_buf b)) <> tail (ready_buf b)) as Hnf.
  { intros H. apply ready_full in H; [lia|done]. }
  split_and!; try done.
  - split; [done| |done].
    apply (set_head_valid _ (set_slot (head (ready_buf b)) (Some p) (ready_buf b)));
      [by apply set_slot_valid|]. apply (next_range (ready_buf b)); [done|apply Hr].
  - by apply ready_push.
Qed.

Lemma move_ready_spec fuel : forall b adv,
  rb_valid b -> (lead (win b) <= fuel)%nat ->
  Z.of_nat (length (rdy b) + lead (win b)) <= size (order_buf b) - 1 ->
  0 <= adv -> adv + Z.of_nat (lead (win b)) < 2 ^ 32 ->
  exists b', move_ready fuel b adv = Some (b', adv + Z.of_nat (lead (win b))) /\
    rb_valid b' /\ win b' = shift (lead (win b)) (win b) /\
    rdy b' = rdy b ++ take (lead (win b)) (win b) /\ same_meta b b'.
Proof.
  induction fuel as [|fuel IH]; intros b adv Hv Hf Hroom Ha Hadv; simpl;
    rewrite (window_head _ (rv_order _ Hv)); destruct (win b) as [|[p|] w] eqn:Hw; simpl in *; try lia.
  1, 2, 3, 5: exists b; rewrite Z.add_0_r, shift_0, app_nil_r; done.
  destruct (moved_spec b p w Hv Hw ltac:(lia)) as (Hv1 & Hw1 & Hr1 & Hm1).
  change (next (set_slot _ _ (ready_buf b))) with (next (ready_buf b)).
  destruct (Z.eqb_spec (next (ready_buf b) (head (ready_buf b))) (tail (ready_buf b))) as [E|E].
  { exfalso. apply ready_full in E; [|apply Hv]. pose proof (rv_size _ Hv). lia. }
  assert (lead (win (moved b p)) = lead w) as Hl by (rewrite Hw1; apply lead_app_None).
  pose proof (proj2 (proj2 (proj2 Hm1))) as Hsz.
  rewrite Free.u32_small by lia.
  destruct (IH (moved b p) (adv + 1)) as (b' & Hb' & Hv' & Hw' & Hr' & Hm');
    rewrite ?Hl, ?Hsz, ?Hr1, ?length_app; simpl; try lia; try done.
  exists b'. split_and!; [|done|..].
  - rewrite Hl in Hb'. etransitivity; [exact Hb'|]. do 2 f_equal. lia.
  - rewrite Hw', Hl, Hw1. unfold shift. simpl.
    rewrite drop_app_le by apply lead_le. rewrite <- app_assoc. done.
  - rewrite Hr', Hr1, Hl, Hw1, <- app_assoc. simpl. rewrite take_app_le by apply lead_le. done.
  - destruct Hm1 as (?&?&?&?), Hm' as (?&?&?&?). repeat split; congruence.
Qed.

Definition run_end (n : nat) (w : list (option nat)) : nat := n + lead (drop n w).

Lemma somes_app w w' : somes (w ++ w') = somes w ++ somes w'.
Proof. apply omap_app. Qed.
Lemma somes_replicate k : somes (replicate k None) = [].
Proof. by induction k. Qed.
Lemma somes_shift k w : somes (shift k w) = somes (drop k w).
Proof. unfold shift. by rewrite somes_app, somes_replicate, app_nil_r. Qed.
Lemma somes_split k w : somes w = somes (take k w) ++ somes (drop k w).
Proof. by rewrite <- somes_app, take_drop. Qed.
Lemma length_somes w : (length (somes w) <= length w)%nat.
Proof. induction w as [|[p|] w IH]; simpl; lia. Qed.
Lemma somes_lead w : take (lead w) w = Some <$> somes (take (lead w) w).
Proof.
  unfold somes in *. induction w as [|[p|] w IH]; simpl; [done| |done].
  f_equal. apply IH.
Qed.
Lemma length_somes_lead w : (lead w <= length (somes w))%nat.
Proof. induction w as [|[p|] w IH]; simpl; lia. Qed.
Lemma lead_drop j w : (j <= lead w)%nat -> lead (drop j w) = (lead w - j)%nat.
Proof.
  revert w. induction j as [|j IH]; intros w Hj; [rewrite drop_0; lia|].
  destruct w as [|[p|] w]; simpl in *; try lia. apply IH. lia.
Qed.
Lemma run_end_le n w : (n <= length w)%nat -> (run_end n w <= length w)%nat.
Proof. intros. unfold run_end. pose proof (lead_le (drop n w)). rewrite length_drop in *. lia. Qed.

(** One iteration of the outer loop moves the window [run_end 1] further. *)
Definition fill_body (b : mlvpn_reorder_buffer) (adv : Z) : option (mlvpn_reorder_buffer * Z) :=
  let '(b, adv) :=
    match at_slot (order_buf b) (head (order_buf b)) with
    | None => (b <| order_buf := (order_buf b) <| head := next (order_buf b) (head (order_buf b)) |> |>,
               u32 (adv + 1))
    | Some _ => (b, adv)
    end in
  move_ready (length (pkts (order_buf b))) b adv.

Lemma fill_loop_unfold fuel n b adv :
  fill_loop fuel n b adv =
  if (adv <? n) && negb (next (ready_buf b) (head (ready_buf b)) =? tail (ready_buf b)) then
    match fuel with
    | O => None
    | S fuel => '(b, adv) ← fill_body b adv; fill_loop fuel n b adv
    end
  else Some (b, adv).
Proof.
  destruct fuel; [done|]. simpl. unfold fill_body. destruct (_ && _); [|done].
  by destruct (at_slot _ _).
Qed.

Lemma fill_body_spec b adv :
  rb_valid b -> 0 <= adv < 2 ^ 31 ->
  Z.of_nat (length (rdy b) + length (somes (win b))) <= size (order_buf b) - 1 ->
  let a := run_end 1 (win b) in
  exists b', fill_body b adv = Some (b', adv + Z.of_nat a) /\
    rb_valid b' /\ win b' = shift a (win b) /\
    rdy b' = rdy b ++ (Some <$> somes (take a (win b))) /\ same_meta b b'.
Proof.
  intros Hv Hadv Hroom. pose proof (length_somes_lead (win b)) as Hls.
  pose proof (pow2_bounds _ (cv_pow2 _ (rv_order _ Hv))) as Hp.
  pose proof (window_head _ (rv_order _ Hv)) as Hh.
  pose proof (length_window (order_buf b)) as Hlw.
  pose proof (cv_pkts _ (rv_order _ Hv)) as Hlen.
  unfold fill_body, run_end. destruct (win b) as [|[p|] w] eqn:Hw; [simpl in Hlw; lia|..].
  - rewrite Hh. simpl (default _ _). cbv iota beta.
    destruct (move_ready_spec (length (pkts (order_buf b))) b adv)
      as (b' & Hb & Hv' & Hw' & Hr' & Hm); rewrite ?Hw, ?Hlen; simpl; simpl in Hlw; try (simpl in *; lia); [done|..].
    exists b'. rewrite Hw in *. simpl in *. rewrite <- Hlen. split_and!; try done.
    rewrite Hr'. by rewrite somes_lead at 1.
  - rewrite Hh. simpl (default _ _). cbv iota beta.
    set (b1 := b <| order_buf := (order_buf b) <| head := next (order_buf b) (head (order_buf b)) |> |>).
    assert (order_buf b1 = take_head (order_buf b)) as Ho1.
    { apply skip_take_head; [apply Hv|]. by rewrite Hh. }
    destruct (window_take_head _ (rv_order _ Hv)) as [Hv1 Hw1]. rewrite Hw in Hw1. simpl in Hw1.
    rewrite drop_0 in Hw1. rewrite <- Ho1 in Hv1, Hw1.
    assert (lead (win b1) = lead w) as Hl1 by (rewrite Hw1; apply lead_app_None).
    assert (size (order_buf b1) = size (order_buf b)) as Hs1 by by rewrite Ho1.
    assert (length (pkts (order_buf b1)) = Z.to_nat (size (order_buf b))) as Hlen1
      by (by rewrite (cv_pkts _ Hv1), Hs1).
    pose proof (length_somes_lead w) as Hls1. simpl in Hls, Hroom, Hlw. pose proof (lead_le w).
    assert (rb_valid b1) as Hvb1 by (split; [done|apply Hv|rewrite Hs1; apply Hv]).
    rewrite Free.u32_small by lia.
    destruct (move_ready_spec (length (pkts (order_buf b1))) b1 (adv + 1))
      as (b' & Hb & Hv' & Hw' & Hr' & Hm); rewrite ?Hl1, ?Hs1, ?Hlen1; try lia; [done|..].
    + change (rdy b1) with (rdy b). lia.
    + exists b'. rewrite Hl1, Hlen1 in *. simpl. rewrite drop_0. split_and!; try done.
      * rewrite Hb. do 2 f_equal. lia.
      * rewrite Hw', Hw1. unfold shift. rewrite drop_app_le, <- app_assoc by done. done.
      * rewrite Hr', Hw1, take_app_le by done. change (rdy b1) with (rdy b).
        by rewrite somes_lead at 1.
Qed.

(** The runs of a window that has moved. *)
Lemma run_end_shift a m w : (0 < a <= m)%nat -> (m <= length w)%nat ->
  run_end (m - a) (shift a w) = (run_end m w - a)%nat /\ (a <= run_end m w)%nat.
Proof.
  intros Ha Hm. unfold run_end, shift. rewrite drop_app_le by (rewrite length_drop; lia). rewrite drop_drop.
  replace (a + (m - a))%nat with m by lia. destruct a; [lia|]. rewrite replicate_S, lead_app_None. lia.
Qed.

(** The first place is free, so that fewer packets than places leave. *)
Lemma somes_first_run w : lead w = O -> (run_end 1 w <= length w)%nat ->
  (length (somes (take (run_end 1 w) w)) < run_end 1 w)%nat.
Proof.
  intros Hl Hle. unfold run_end in *. destruct w as [|[p|] w]; simpl in *; try lia.
  pose proof (length_somes (take (lead (drop 0 w)) w)) as Hs. rewrite length_take in Hs. lia.
Qed.

Lemma fill_loop_spec fuel : forall b adv n,
  rb_valid b -> 2 <= size (order_buf b) -> 0 <= adv < n -> n <= size (order_buf b) ->
  (Z.to_nat (n - adv) <= fuel)%nat ->
  Z.of_nat (length (rdy b) + length (somes (win b))) <= size (order_buf b) - 1 ->
  Z.of_nat (length (rdy b)) < adv \/ rdy b = [] /\ lead (win b) = O ->
  let k := run_end (Z.to_nat (n - adv)) (win b) in
  exists b', fill_loop fuel n b adv = Some (b', adv + Z.of_nat k) /\
    rb_valid b' /\ win b' = shift k (win b) /\
    rdy b' = rdy b ++ (Some <$> somes (take k (win b))) /\ same_meta b b'.
Proof.
  induction fuel as [|fuel IH]; intros b adv n Hv H2 Hadv Hn Hf Hroom Hrdy; [lia|].
  rewrite fill_loop_unfold.
  assert (next (ready_buf b) (head (ready_buf b)) <> tail (ready_buf b)) as Hnf.
  { intros E. apply ready_full in E; [|apply Hv]. rewrite (rv_size _ Hv) in E.
    destruct Hrdy as [|[Hr _]]; [lia|]. rewrite Hr in E. simpl in E. lia. }
  rewrite (proj2 (Z.ltb_lt adv n)), (proj2 (Z.eqb_neq _ _) Hnf) by lia. cbn [andb negb].
  pose proof (pow2_bounds _ (cv_pow2 _ (rv_order _ Hv))) as Hp.
  destruct (fill_body_spec b adv Hv) as (b1 & Hb1 & Hv1 & Hw1 & Hr1 & Hm1); [lia|done|].
  rewrite Hb1. cbn [mbind option_bind].
  pose proof (length_window (order_buf b)) as Hlw.
  set (w := win b) in *. set (a := run_end 1 w) in *. set (m := Z.to_nat (n - adv)) in *.
  assert (a = S (lead (drop 1 w))) as Ha by done.
  pose proof (run_end_le 1 w ltac:(lia)) as Hale. fold a in Hale.
  assert (drop m w = drop (m - 1) (drop 1 w)) as Hdm.
  { rewrite drop_drop. f_equal. lia. }
  destruct (Z.le_gt_cases n (adv + Z.of_nat a)) as [Hstop|Hgo].
  - assert (run_end m w = a) as ->.
    { unfold run_end. rewrite Hdm, lead_drop by lia. lia. }
    rewrite fill_loop_unfold, (proj2 (Z.ltb_ge _ _)) by lia. exists b1. done.
  - destruct Hm1 as (Hm11 & Hm12 & Hm13 & Hsz).
    destruct (IH b1 (adv + Z.of_nat a) n) as (b2 & Hb2 & Hv2 & Hw2 & Hr2 & Hm2);
      rewrite ?Hsz; try lia; try done.
    + rewrite Hr1, Hw1, somes_shift, length_app, length_fmap.
      pose proof (f_equal length (somes_split a w)) as E. rewrite length_app in E. lia.
    + left. rewrite Hr1, length_app, length_fmap.
      pose proof (length_somes (take a w)) as Hs. rewrite length_take in Hs.
      destruct Hrdy as [|[-> Hl0]]; [lia|]. pose proof (somes_first_run w Hl0 Hale) as Hs'.
      fold a in Hs'. simpl. lia.
    + set (k' := run_end _ (win b1)) in *.
      assert (Z.to_nat (n - (adv + Z.of_nat a)) = m - a)%nat as Hma by lia.
      assert (k' = run_end m w - a /\ a <= run_end m w)%nat as [Hk' Hak].
      { unfold k'. rewrite Hma, Hw1. apply run_end_shift; lia. }
      pose proof (run_end_le m w ltac:(lia)) as Hmle.
      exists b2. split_and!; try done.
      * rewrite Hb2. do 2 f_equal. lia.
      * rewrite Hw2, Hw1, shift_shift by lia. f_equal. lia.
      * rewrite Hr2, Hr1, <- app_assoc, <- fmap_app, <- somes_app, Hw1. do 3 f_equal.
        rewrite take_lead_shift by (rewrite length_drop; lia).
        rewrite take_take_drop. f_equal. lia.
      * destruct Hm2 as (?&?&?&?). repeat split; congruence.
Qed.

(** *** Drains *)

Lemma drain_ready_spec room : forall b,
  rb_valid b -> (length (rdy b) <= room)%nat ->
  exists b', drain_ready room b = (rdy b, (room - length (rdy b))%nat, b') /\
    rb_valid b' /\ rdy b' = [] /\ win b' = win b /\ same_meta b b'.
Proof.
  induction room as [|room IH]; intros b Hv Hr.
  - exists b. destruct (rdy b) eqn:E; simpl in *; [done|lia].
  - simpl. destruct (Z.eqb_spec (tail (ready_buf b)) (head (ready_buf b))) as [E|E].
    { exists b. apply ready_empty in E; [|apply Hv]. rewrite E. simpl. done. }
    rewrite (ready_pop _ (rv_ready _ Hv) E) in *. simpl in Hr.
    set (b1 := b <| ready_buf := (ready_buf b) <| tail := next (ready_buf b) (tail (ready_buf b)) |> |>).
    assert (rb_valid b1) as Hv1.
    { split; [apply Hv| |apply Hv]. apply set_tail_valid; [apply Hv|].
      apply next_range; [apply Hv|apply Hv]. }
    destruct (IH b1 Hv1) as (b' & Hb & Hv' & Hr' & Hw' & Hm); [simpl; lia|].
    exists b'. subst b1. simpl in Hb |- *. rewrite Hb. done.
Qed.

Lemma drain_order_spec room : forall b,
  rb_valid b -> (lead (win b) <= room)%nat ->
  exists b', drain_order room b = (take (lead (win b)) (win b), b') /\
    rb_valid b' /\ rdy b' = rdy b /\ win b' = shift (lead (win b)) (win b) /\
    (0 <= min_seqn b < 2 ^ 64 -> min_seqn b' = u64 (min_seqn b + Z.of_nat (lead (win b)))) /\
    memsize b' = memsize b /\ is_initialized b' = is_initialized b /\
    size (order_buf b') = size (order_buf b).
Proof.
  assert (forall b : mlvpn_reorder_buffer, 0 <= min_seqn b < 2 ^ 64 ->
    min_seqn b = u64 (min_seqn b + 0)) as Hmin0.
  { intros b Hb. unfold u64, wrap. rewrite Z.add_0_r. by rewrite Z.mod_small. }
  induction room as [|room IH]; intros b Hv Hr; simpl.
  - assert (lead (win b) = O) as -> by lia. exists b. rewrite shift_0. by split_and!; auto.
  - rewrite (window_head _ (rv_order _ Hv)).
    destruct (window_take_head _ (rv_order _ Hv)) as [Hv1 Hw1].
    destruct (win b) as [|[p|] w] eqn:Hw; simpl; simpl in Hr.
    1, 3: exists b; rewrite shift_0, Hw; by split_and!; auto.
    set (b1 := b <| order_buf := take_head (order_buf b) |> <| min_seqn := u64 (min_seqn b + 1) |>).
    simpl in Hw1. rewrite drop_0 in Hw1. change (win b1 = w ++ [None]) in Hw1.
    assert (lead (win b1) = lead w) as Hl1 by (rewrite Hw1; apply lead_app_None).
    destruct (IH b1) as (b' & Hb & Hv' & Hr' & Hw' & Hmin & Hm1 & Hm2 & Hm3);
      [split; [done|apply Hv|apply Hv]|lia|].
    exists b'. rewrite Hl1, Hw1 in *. split_and!; try done.
    + subst b1. simpl in Hb. rewrite Hb. by rewrite take_app_le by apply lead_le.
    + rewrite Hw'. unfold shift. simpl. by rewrite drop_app_le, <- app_assoc by apply lead_le.
    + intros Hb0. rewrite Hmin; simpl; unfold u64, wrap; [|apply Z.mod_pos_bound; lia].
      rewrite Zplus_mod_idemp_l. f_equal. lia.
Qed.

Lemma drain_spec b max_pkts :
  rb_valid b -> (length (rdy b) + lead (win b) <= max_pkts)%nat ->
  exists b', mlvpn_reorder_drain b max_pkts = (rdy b ++ take (lead (win b)) (win b), b') /\
    rb_valid b' /\ rdy b' = [] /\ win b' = shift (lead (win b)) (win b) /\
    (0 <= min_seqn b < 2 ^ 64 -> min_seqn b' = u64 (min_seqn b + Z.of_nat (lead (win b)))) /\
    memsize b' = memsize b /\ is_initialized b' = is_initialized b /\
    size (order_buf b') = size (order_buf b).
Proof.
  intros Hv Hm. unfold mlvpn_reorder_drain.
  destruct (drain_ready_spec max_pkts b Hv) as (b1 & Hb1 & Hv1 & Hr1 & Hw1 & Hm1); [lia|].
  rewrite Hb1. destruct Hm1 as (H1 & H2 & H3 & H4).
  destruct (drain_order_spec (max_pkts - length (rdy b)) b1 Hv1)
    as (b2 & Hb2 & Hv2 & Hr2 & Hw2 & Hmin & H5 & H6 & H7); [rewrite Hw1; lia|].
  rewrite Hb2. exists b2. rewrite Hw1, H1 in *. rewrite Hr1 in Hr2. split_and!; try done; congruence.
Qed.

(** ** One received packet

    [receive] is what the network side does with a packet: insert it and
    drain up to [drain_max] packets.  The specification sees the window as a
    list from [min] on: the window moves just far enough to hold [seq], what
    it leaves behind is delivered, then the run at its front. *)

Definition drain_max : nat := 1024.

Definition receive (b : mlvpn_reorder_buffer) (pkt : nat) (seq : Z) :
    option (Z * list (option nat) * mlvpn_reorder_buffer) :=
  '(ret, b) ← mlvpn_reorder_insert b pkt seq;
  if ret =? 0 then
    let '(l, b) := mlvpn_reorder_drain b drain_max in Some (ret, l, b)
  else Some (ret, [], b).

Definition window_step (min : Z) (w : list (option nat)) (pkt : nat) (seq : Z) :
    option (list nat * Z * list (option nat)) :=
  let offset := u64 (seq - min) in
  let n := Z.of_nat (length w) in
  if offset <? 2 * n then
    let k := if offset <? n then O else run_end (Z.to_nat (offset + 1 - n)) w in
    let w1 := <[(Z.to_nat offset - k)%nat := Some pkt]> (shift k w) in
    Some (somes (take k w) ++ somes (take (lead w1) w1),
          u64 (min + Z.of_nat (k + lead w1)), shift (lead w1) w1)
  else None.

(** Between two packets nothing is ready and the front of the window is free. *)
Record quiet (b : mlvpn_reorder_buffer) : Prop := {
  qt_valid : rb_valid b;
  qt_ready : rdy b = [];
  qt_lead : lead (win b) = O;
  qt_min : 0 <= min_seqn b < 2 ^ 64;
  qt_mem : memsize b = bytes_needed (size (order_buf b));
  qt_size : 2 <= size (order_buf b) <= Z.of_nat drain_max
}.

Lemma window_replicate c : cir_valid c -> pkts c = replicate (Z.to_nat (size c)) None ->
  window c = replicate (Z.to_nat (size c)) None.
Proof.
  intros Hv Hp. apply list_eq. intros i. unfold window, slots_view. rewrite Hp.
  rewrite list_lookup_fmap. unfold Ring.slots_from. rewrite list_lookup_fmap.
  destruct (decide (i < Z.to_nat (size c))%nat) as [Hi|Hi].
  - rewrite lookup_seq_lt, lookup_replicate_2 by done. simpl.
    rewrite lookup_replicate_2; [done|]. apply Ring.slot_at_lt. destruct Hv. lia.
  - rewrite lookup_seq_ge by lia. symmetry. apply lookup_replicate_None. lia.
Qed.

Lemma lead_replicate n : lead (replicate n None) = O.
Proof. by destruct n. Qed.

Lemma cleared_valid s : pow2 s -> cir_valid (cleared s) /\ ready (cleared s) = [] /\
  window (cleared s) = replicate (Z.to_nat s) None.
Proof.
  intros Hp. pose proof (pow2_bounds _ Hp).
  assert (cir_valid (cleared s)) as Hv.
  { split; simpl; try lia; [done| |by rewrite length_replicate]. rewrite Free.u32_small; lia. }
  split_and!; [done| |by apply window_replicate]. by apply ready_empty.
Qed.

(** Creation and reset give an empty, quiet buffer. *)
Lemma create_quiet s : pow2 s -> 2 <= s <= Z.of_nat drain_max ->
  let b := mlvpn_reorder_create s in
  quiet b /\ win b = replicate (Z.to_nat s) None /\ is_initialized b = false /\
  size (order_buf b) = s.
Proof.
  intros Hp Hs. unfold mlvpn_reorder_create, mlvpn_reorder_init. rewrite Z.ltb_irrefl. simpl.
  destruct (cleared_valid s Hp) as (Hv & Hr & Hw). split_and!; try done.
  split; simpl; try done. by rewrite Hw, lead_replicate.
Qed.

Lemma reset_quiet b : quiet b ->
  let b' := mlvpn_reorder_reset b in
  quiet b' /\ win b' = replicate (Z.to_nat (size (order_buf b))) None /\
  is_initialized b' = false /\ size (order_buf b') = size (order_buf b).
Proof.
  intros Hq. unfold mlvpn_reorder_reset, mlvpn_reorder_init.
  rewrite (qt_mem _ Hq), Z.ltb_irrefl. simpl.
  pose proof (cv_pow2 _ (rv_order _ (qt_valid _ Hq))) as Hp.
  destruct (cleared_valid _ Hp) as (Hv & Hr & Hw). rewrite Hw.
  split_and!; try done.
  split; simpl; try done; [|apply Hq]. by rewrite Hw, lead_replicate.
Qed.

Lemma store_at_spec b off pkt :
  rb_valid b -> 0 <= off < size (order_buf b) ->
  rb_valid (store_at b off pkt) /\ win (store_at b off pkt) = <[Z.to_nat off := Some pkt]> (win b).
Proof.
  intros Hv Hoff. pose proof (rv_order _ Hv) as Ho. pose proof (pow2_bounds _ (cv_pow2 _ Ho)).
  assert (u64 (head (order_buf b) + off) = head (order_buf b) + Z.of_nat (Z.to_nat off)) as E1.
  { unfold u64, wrap. pose proof (cv_head _ Ho). rewrite Z2Nat.id, Z.mod_small by lia. done. }
  unfold store_at. rewrite E1. rewrite Free.u32_small.
  - split; [|by apply window_store; [|lia]].
    split; [by apply set_slot_valid|apply Hv|apply Hv].
  - rewrite (cv_mask _ Ho), land_mask by apply Ho.
    pose proof (Z.mod_pos_bound (head (order_buf b) + Z.of_nat (Z.to_nat off)) (size (order_buf b))). lia.
Qed.

(** What [mlvpn_reorder_insert] does on its first packet. *)
Definition started (b : mlvpn_reorder_buffer) (seq : Z) : mlvpn_reorder_buffer :=
  if is_initialized b then b else b <| min_seqn := seq |> <| is_initialized := true |>.

Lemma started_quiet b seq : quiet b -> 0 <= seq < 2 ^ 64 -> quiet (started b seq).
Proof.
  intros [] Hs. unfold started. destruct (is_initialized b); split; try done.
  destruct qt_valid0. by split.
Qed.

Lemma insert_spec b pkt seq :
  quiet b -> is_initialized b = true ->
  let off := u64 (seq - min_seqn b) in
  let n := size (order_buf b) in
  let k := if off <? n then O else run_end (Z.to_nat (off + 1 - n)) (win b) in
  if off <? 2 * n then
    exists b', mlvpn_reorder_insert b pkt seq = Some (0, b') /\ rb_valid b' /\
      rdy b' = Some <$> somes (take k (win b)) /\
      win b' = <[(Z.to_nat off - k)%nat := Some pkt]> (shift k (win b)) /\
      min_seqn b' = u64 (min_seqn b + Z.of_nat k) /\ memsize b' = memsize b /\
      is_initialized b' = true /\ size (order_buf b') = size (order_buf b)
  else mlvpn_reorder_insert b pkt seq = Some (-2, b).
Proof.
  intros [Hv Hr Hl Hmin Hmem Hsz] Hi off n k. unfold mlvpn_reorder_insert. rewrite Hi.
  fold n off. unfold drain_max in Hsz. fold n in Hsz.
  rewrite (Free.u32_small (2 * n)) by lia.
  assert (0 <= off < 2 ^ 64) as Hoff by (apply Z.mod_pos_bound; lia).
  destruct (Z.ltb_spec off n) as [Hlt|Hge].
  - rewrite (proj2 (Z.ltb_lt off (2 * n))) by lia. unfold k.
    destruct (store_at_spec b off pkt Hv (conj (proj1 Hoff) Hlt)) as [Hv' Hw'].
    exists (store_at b off pkt). rewrite Hw', shift_0, Nat.sub_0_r, Z.add_0_r. split_and!; try done.
    symmetry. by apply Z.mod_small.
  - destruct (Z.ltb_spec off (2 * n)) as [Hlt2|Hge2]; [|done].
    set (m := off + 1 - n) in *.
    assert (u64 m = m) as -> by (apply Z.mod_small; lia). rewrite Free.u32_small by lia.
    unfold mlvpn_reorder_fill_overflow.
    pose proof (length_window (order_buf b)) as Hlw. fold n in Hlw.
    destruct (fill_loop_spec (Z.to_nat m) b 0 m) as (b1 & Hb1 & Hv1 & Hw1 & Hr1 & Hm1);
      fold n; try lia; try done.
    { rewrite Hr. simpl. destruct (win b) as [|[p|] w]; simpl in *; try lia.
      pose proof (length_somes w). lia. }
    { by right. }
    rewrite Z.sub_0_r in *. fold k in Hb1, Hw1, Hr1. rewrite Hb1. cbn [mbind option_bind].
    assert (Z.to_nat m <= k /\ k <= Z.to_nat n)%nat as [Hmk Hkn].
    { split; [unfold k, run_end; lia|]. unfold k. rewrite <- Hlw. apply run_end_le. lia. }
    rewrite (proj2 (Z.ltb_ge _ m)) by lia. destruct Hm1 as (Hmin1 & H1 & H2 & H3).
    set (b2 := b1 <| min_seqn := u64 (min_seqn b1 + (0 + Z.of_nat k)) |>).
    assert (u64 (seq - min_seqn b2) = off - Z.of_nat k) as Ho2.
    { transitivity ((off - Z.of_nat k) mod 2 ^ 64); [|apply Z.mod_small; lia].
      unfold off, b2, u64, wrap. simpl. rewrite Hmin1, Zminus_mod_idemp_l, Zminus_mod_idemp_r.
      f_equal. lia. }
    rewrite Ho2. assert (rb_valid b2) as Hvb2 by (destruct Hv1; by split).
    destruct (store_at_spec b2 (off - Z.of_nat k) pkt Hvb2) as [Hv' Hw'].
    { simpl. rewrite H3. fold n. lia. }
    eexists. split; [reflexivity|]. rewrite Hw'. split_and!; try done.
    + change (rdy (store_at b2 _ pkt)) with (rdy b1). by rewrite Hr1, Hr.
    + change (win b2) with (win b1). rewrite Hw1. f_equal. lia.
    + simpl. rewrite Hmin1. done.
    + simpl. congruence.
Qed.

Lemma length_somes_insert i p w : (length (somes (<[i := Some p]> w)) <= S (length (somes w)))%nat.
Proof.
  revert i. induction w as [|[q|] w IH]; intros [|i]; simpl; try lia; specialize (IH i); simpl in *; lia.
Qed.

Lemma insert_started b pkt seq :
  mlvpn_reorder_insert b pkt seq = mlvpn_reorder_insert (started b seq) pkt seq.
Proof.
  unfold started, mlvpn_reorder_insert. destruct (is_initialized b) eqn:E; simpl; by rewrite ?E.
Qed.

Lemma started_initialized b seq : is_initialized (started b seq) = true.
Proof. unfold started. by destruct (is_initialized b) eqn:E. Qed.

Lemma quiet_somes b : quiet b -> Z.of_nat (length (somes (win b))) <= size (order_buf b) - 1.
Proof.
  intros [Hv _ Hl _ _ Hs]. pose proof (length_window (order_buf b)) as Hlw.
  destruct (win b) as [|[p|] w]; simpl in *; try lia. pose proof (length_somes w). lia.
Qed.

Lemma receive_spec b pkt seq :
  quiet b -> 0 <= seq < 2 ^ 64 ->
  let b0 := started b seq in
  match window_step (min_seqn b0) (win b0) pkt seq with
  | Some (out, min, w) =>
      exists b', receive b pkt seq = Some (0, Some <$> out, b') /\ quiet b' /\
        min_seqn b' = min /\ win b' = w /\ is_initialized b' = true /\
        size (order_buf b') = size (order_buf b)
  | None => receive b pkt seq = Some (-2, [], b0)
  end.
Proof.
  intros Hq Hseq b0. pose proof (started_quiet b seq Hq Hseq) as Hq0. fold b0 in Hq0.
  pose proof (insert_spec b0 pkt seq Hq0 (started_initialized b seq)) as Hins. cbv zeta in Hins.
  unfold receive. rewrite insert_started. fold b0. unfold window_step.
  assert (size (order_buf b0) = size (order_buf b)) as Hsz0
    by (unfold b0, started; by destruct (is_initialized b)).
  rewrite length_window, Z2Nat.id by (pose proof (qt_size _ Hq0); lia).
  set (off := u64 (seq - min_seqn b0)) in *. set (n := size (order_buf b0)) in *.
  set (k := if off <? n then O else _) in *.
  destruct (Z.ltb_spec off (2 * n)) as [Hlt|Hge]; [|rewrite Hins; done].
  destruct Hins as (b1 & Hb1 & Hv1 & Hr1 & Hw1 & Hm1 & Hmem1 & Hi1 & Hs1).
  set (w1 := <[_ := _]> _) in *. rewrite Hb1. cbn [mbind option_bind]. simpl (0 =? 0).
  pose proof (quiet_somes b0 Hq0) as Hcnt. fold n in Hcnt.
  assert (length (rdy b1) + lead (win b1) <= drain_max)%nat as Hmax.
  { rewrite Hr1, Hw1, length_fmap. pose proof (length_somes_lead w1).
    pose proof (length_somes_insert (Z.to_nat off - k) pkt (shift k (win b0))) as Hsi.
    fold w1 in Hsi. rewrite somes_shift in Hsi.
    pose proof (f_equal length (somes_split k (win b0))) as E. rewrite length_app in E.
    pose proof (qt_size _ Hq0) as Hqs. fold n in Hqs. lia. }
  destruct (drain_spec b1 drain_max Hv1 Hmax) as (b2 & Hb2 & Hv2 & Hr2 & Hw2 & Hmin2 & Hmem2 & Hi2 & Hs2).
  rewrite Hb2. rewrite Hw1, Hm1 in *.
  assert (0 <= u64 (min_seqn b0 + Z.of_nat k) < 2 ^ 64) as Hmk by (apply Z.mod_pos_bound; lia).
  specialize (Hmin2 Hmk).
  assert (min_seqn b2 = u64 (min_seqn b0 + Z.of_nat (k + lead w1))) as Hmin.
  { rewrite Hmin2. unfold u64, wrap. rewrite Zplus_mod_idemp_l. f_equal. lia. }
  exists b2. split_and!; try done; [| |congruence..].
  - rewrite Hr1, fmap_app, <- somes_lead. done.
  - split; try done.
    + rewrite Hw2, lead_shift, lead_drop by done. lia.
    + rewrite Hmin. apply Z.mod_pos_bound. lia.
    + rewrite Hmem2, Hmem1, (qt_mem _ Hq0), Hs2, Hs1. done.
    + rewrite Hs2, Hs1. apply Hq0.
Qed.

Lemma somes_insert_sub w i p : somes (<[i := Some p]> w) ⊆+ p :: somes w.
Proof.
  revert i. induction w as [|x w IH]; intros [|i]; simpl.
  1, 2: apply submseteq_nil_l.
  - destruct x as [q|]; simpl; [|done]. apply submseteq_skip, submseteq_cons. done.
  - unfold somes in *. destruct x as [q|]; simpl; [|apply IH].
    rewrite (Permutation_swap q p). apply submseteq_skip, IH.
Qed.

(** Whatever is delivered or held afterwards was held before or is the new
    packet. *)
Lemma window_step_sub min w pkt seq out min' w' :
  window_step min w pkt seq = Some (out, min', w') -> out ++ somes w' ⊆+ pkt :: somes w.
Proof.
  unfold window_step. destruct (u64 _ <? 2 * _); [|done].
  set (k := if u64 _ <? _ then O else _). intros [= <- _ <-].
  rewrite somes_shift, <- app_assoc, <- somes_split.
  etransitivity; [apply submseteq_app; [done|apply somes_insert_sub]|].
  rewrite somes_shift, <- Permutation_middle. by rewrite <- somes_split.
Qed.

(** ** Sequence numbers

    [seqof] gives the sequence number of a packet; numbers stay below [2 ^ 63]
    here, so that a packet is late or early and never both. *)
Section sequences.
Variable seqof : nat -> Z.

(** The slot [i] of the window is for the number [min + i]. *)
Definition numbered (min : Z) (w : list (option nat)) : Prop :=
  forall i p, w !! i = Some (Some p) -> seqof p = min + Z.of_nat i.

Lemma numbered_cons min x w : numbered min (x :: w) -> numbered (min + 1) w.
Proof. intros H i p Hi. rewrite (H (S i) p Hi). lia. Qed.

Lemma numbered_take k : forall min w, numbered min w ->
  StronglySorted Z.lt (seqof <$> somes (take k w)) /\
  Forall (fun p => min <= seqof p < min + Z.of_nat k) (somes (take k w)).
Proof.
  induction k as [|k IH]; intros min w H; [split; constructor|].
  destruct w as [|x w]; [split; constructor|].
  destruct (IH (min + 1) w (numbered_cons _ _ _ H)) as [Hs Hf].
  assert (Forall (fun p => min <= seqof p < min + Z.of_nat (S k)) (somes (take k w))) as Hf'.
  { eapply Forall_impl; [exact Hf|]. simpl. intros. lia. }
  destruct x as [p|]; [|done]. simpl. pose proof (H O p eq_refl) as Hp. split.
  - constructor; [done|]. apply Forall_fmap. eapply Forall_impl; [exact Hf|].
    simpl. intros. rewrite Hp. lia.
  - constructor; [lia|done].
Qed.

Lemma shift_lookup k w i q : shift k w !! i = Some (Some q) -> w !! (k + i)%nat = Some (Some q).
Proof.
  unfold shift. rewrite lookup_app. destruct (drop k w !! i) eqn:E; [by rewrite lookup_drop in E; intros [= ->]|].
  by intros [[=] _]%lookup_replicate.
Qed.

Lemma numbered_shift min k w : numbered min w -> numbered (min + Z.of_nat k) (shift k w).
Proof. intros H i p Hi%shift_lookup. rewrite (H _ _ Hi). lia. Qed.

Lemma numbered_insert min w i p :
  numbered min w -> seqof p = min + Z.of_nat i -> numbered min (<[i := Some p]> w).
Proof.
  intros H Hp j q. destruct (decide (i = j)) as [<-|Hij].
  - destruct (decide (i < length w)%nat).
    + rewrite list_lookup_insert_eq by done. by intros [= <-].
    + rewrite list_insert_ge by lia. apply H.
  - rewrite list_lookup_insert_ne by done. apply H.
Qed.

Lemma somes_insert w i p : w !! i = Some None -> somes (<[i := Some p]> w) ≡ₚ p :: somes w.
Proof.
  revert i. induction w as [|x w IH]; intros [|i] Hi; simpl in *; try done.
  - by simplify_eq.
  - destruct x as [q|]; simpl; [|by apply IH]. unfold somes in IH. rewrite (IH i Hi).
    apply Permutation_swap.
Qed.

Lemma elem_of_somes p w : p ∈ somes w <-> exists i, w !! i = Some (Some p).
Proof.
  unfold somes. rewrite list_elem_of_omap. split.
  - intros (x & Hx & Heq). simpl in Heq. subst x. by apply list_elem_of_lookup in Hx.
  - intros [i Hi]. exists (Some p). split; [by eapply list_elem_of_lookup_2|done].
Qed.

Lemma lead_last w : lead w = O \/ exists q, w !! (lead w - 1)%nat = Some (Some q).
Proof.
  induction w as [|[p|] w IH]; simpl; try by left. right. rewrite Nat.sub_0_r.
  destruct (lead w) as [|n]; [by exists p|]. destruct IH as [|[q Hq]]; [done|].
  exists q. simpl in Hq. by rewrite Nat.sub_0_r in Hq.
Qed.

Lemma run_end_last n w :
  run_end n w = n \/ exists q, w !! (run_end n w - 1)%nat = Some (Some q).
Proof.
  unfold run_end. destruct (lead_last (drop n w)) as [->|[q Hq]]; [left; lia|].
  destruct (lead (drop n w)) as [|m] eqn:E; [left; lia|].
  right. exists q. rewrite lookup_drop in Hq. rewrite <- Hq. f_equal. lia.
Qed.

(** The bounds under which the specification is used. *)
Record window_ok (N min : Z) (w : list (option nat)) : Prop := {
  wo_numbered : numbered min w;
  wo_min : 0 <= min <= N;
  wo_held : Forall (fun p => seqof p < N) (somes w);
  wo_length : 2 <= Z.of_nat (length w) < 2 ^ 31
}.

(** A run ends with a packet that is held, if it moves at all. *)
Lemma run_end_bound N min w n :
  numbered min w -> Forall (fun p => seqof p < N) (somes w) -> min + Z.of_nat n <= N ->
  min + Z.of_nat (run_end n w) <= N.
Proof.
  intros Hnum Hheld Hn. destruct (run_end_last n w) as [->|[q Hq]]; [lia|].
  apply Hnum in Hq as Hsq. rewrite Forall_forall in Hheld.
  assert (seqof q < N) by (apply Hheld, elem_of_somes; by eexists). unfold run_end in *. lia.
Qed.

(** With numbers below half of the range the subtraction does not wrap for an
    accepted packet. *)
Lemma offset_no_wrap min n x :
  0 <= min <= 2 ^ 63 -> 0 <= x < 2 ^ 63 -> n < 2 ^ 31 -> u64 (x - min) < 2 * n ->
  min <= x /\ u64 (x - min) = x - min.
Proof.
  intros Hmin Hx Hn Hlt. destruct (Z.le_gt_cases min x); [split; [done|]; apply Z.mod_small; lia|].
  exfalso. unfold u64, wrap in Hlt. rewrite <- (Z_mod_plus_full _ 1) in Hlt. rewrite Z.mod_small in Hlt; lia.
Qed.

Lemma window_step_accept N min w p out min' w' :
  window_ok N min w -> N <= 2 ^ 63 -> 0 <= seqof p < N ->
  window_step min w p (seqof p) = Some (out, min', w') ->
  min <= seqof p /\ min <= min' /\ window_ok N min' w' /\ length w' = length w /\
  StronglySorted Z.lt (seqof <$> out) /\
  Forall (fun q => min <= seqof q < min') out /\
  (Forall (fun q => seqof q <> seqof p) (somes w) -> out ++ somes w' ≡ₚ p :: somes w) /\
  (seqof p < min + Z.of_nat (length w) -> min' = min + Z.of_nat (lead (<[Z.to_nat (seqof p - min) := Some p]> w))).
Proof.
  intros [Hnum Hmin Hheld Hlen] HN Hp. unfold window_step.
  set (n := Z.of_nat (length w)) in *. set (off := u64 (seqof p - min)).
  destruct (Z.ltb_spec off (2 * n)) as [Hlt|]; [|done].
  assert (min <= seqof p /\ off = seqof p - min) as [Hge Hoff].
  { apply (offset_no_wrap _ n); [lia..|done]. }
  clearbody off. subst off. set (off := seqof p - min) in *.
  set (k := if off <? n then O else _). set (w1 := <[_ := _]> _).
  assert (Z.of_nat k <= off /\ off - Z.of_nat k < n /\ (k <= length w)%nat) as (Hk1 & Hk2 & Hk3).
  { unfold k. destruct (Z.ltb_spec off n); [lia|]. pose proof (run_end_le (Z.to_nat (off + 1 - n)) w ltac:(lia)).
    unfold run_end in *. lia. }
  assert (length w1 = length w) as Hl1 by (unfold w1; rewrite length_insert; by apply length_shift).
  assert (numbered (min + Z.of_nat k) w1) as Hnum1.
  { apply numbered_insert; [by apply numbered_shift|]. lia. }
  assert (Forall (fun q => seqof q < N) (somes w1)) as Hheld1.
  { apply Forall_forall. intros q (i & Hi)%elem_of_somes. unfold w1 in Hi.
    apply list_lookup_insert_Some in Hi as [(_ & [= ->] & _)|[_ Hi]]; [lia|].
    apply shift_lookup in Hi. rewrite Forall_forall in Hheld. apply Hheld.
    apply elem_of_somes. by eexists. }
  assert (0 <= min + Z.of_nat (k + lead w1) <= N) as Hmin'.
  { split; [lia|]. rewrite Nat2Z.inj_add, Z.add_assoc. apply (run_end_bound N _ w1 0); [done..|].
    rewrite Z.add_0_r. unfold k. destruct (Z.ltb_spec off n); [lia|]. apply run_end_bound; [done..|]. lia. }
  intros [= <- <- <-]. unfold u64, wrap. rewrite Z.mod_small by lia.
  pose proof (lead_le w1) as Hle1.
  destruct (numbered_take k min w Hnum) as [Hs1 Hf1].
  destruct (numbered_take (lead w1) _ w1 Hnum1) as [Hs2 Hf2].
  split_and!; [done|lia| |by rewrite length_shift| | | |].
  - split; [|done| |rewrite length_shift by done; lia].
    + rewrite Nat2Z.inj_add, Z.add_assoc. by apply numbered_shift.
    + rewrite somes_shift. rewrite (somes_split (lead w1) w1) in Hheld1.
      by apply Forall_app in Hheld1 as [_ ?].
  - rewrite fmap_app. apply StronglySorted_app_2; [|done|done].
    intros x1 x2 (p1 & -> & H1)%list_elem_of_fmap (p2 & -> & H2)%list_elem_of_fmap.
    rewrite Forall_forall in Hf1, Hf2. specialize (Hf1 _ H1). specialize (Hf2 _ H2). simpl in *. lia.
  - apply Forall_app; split; (eapply Forall_impl; [eassumption|]); simpl; intros; lia.
  - intros Hnew. rewrite <- app_assoc, somes_shift, <- somes_split. unfold w1.
    rewrite somes_insert, somes_shift.
    + rewrite <- Permutation_middle, <- somes_split. done.
    + destruct (shift k w !! (Z.to_nat off - k)%nat) as [[q|]|] eqn:E; [|done|].
      * apply shift_lookup in E as Hq. apply Hnum in Hq as Hsq. exfalso.
        rewrite Forall_forall in Hnew. apply (Hnew q); [apply elem_of_somes; by eexists|]. lia.
      * exfalso. apply lookup_ge_None in E. rewrite length_shift in E by done. lia.
  - intros Hin. unfold w1, k. rewrite (proj2 (Z.ltb_lt off n)) by lia. rewrite shift_0, Nat.sub_0_r. done.
Qed.

Lemma window_step_reject N min w p :
  window_ok N min w -> N <= 2 ^ 63 -> 0 <= seqof p < N ->
  window_step min w p (seqof p) = None ->
  seqof p < min \/ min + 2 * Z.of_nat (length w) <= seqof p.
Proof.
  intros [Hnum Hmin Hheld Hlen] HN Hp. unfold window_step.
  destruct (Z.ltb_spec (u64 (seqof p - min)) (2 * Z.of_nat (length w))) as [|Hge]; [done|].
  intros _. destruct (Z.le_gt_cases min (seqof p)); [|by left]. right.
  unfold u64, wrap in Hge. rewrite Z.mod_small in Hge; lia.
Qed.

(** A stream of packets: what was delivered, what was refused, the buffer. *)
Fixpoint receive_all (b : mlvpn_reorder_buffer) (l : list nat) :
    option (list (option nat) * list nat * mlvpn_reorder_buffer) :=
  match l with
  | [] => Some ([], [], b)
  | p :: l =>
      '(ret, out, b) ← receive b p (seqof p);
      '(d, rej, b) ← receive_all b l;
      Some (out ++ d, if ret =? 0 then rej else p :: rej, b)
  end.

Lemma receive_all_started b p l :
  receive_all b (p :: l) = receive_all (started b (seqof p)) (p :: l).
Proof.
  simpl. unfold receive. by rewrite insert_started.
Qed.

Record stream_ok (N : Z) (b : mlvpn_reorder_buffer) : Prop := {
  so_quiet : quiet b;
  so_init : is_initialized b = true;
  so_window : window_ok N (min_seqn b) (win b)
}.

(** One packet of a stream that has started. *)
Lemma receive_stream N b p :
  stream_ok N b -> N <= 2 ^ 63 -> 0 <= seqof p < N ->
  (exists out b', receive b p (seqof p) = Some (0, Some <$> out, b') /\
     window_step (min_seqn b) (win b) p (seqof p) = Some (out, min_seqn b', win b') /\
     stream_ok N b' /\ size (order_buf b') = size (order_buf b)) \/
  receive b p (seqof p) = Some (-2, [], b) /\
  (seqof p < min_seqn b \/ min_seqn b + 2 * size (order_buf b) <= seqof p).
Proof.
  intros [Hq Hi Hw] HN Hp. pose proof (receive_spec b p (seqof p) Hq ltac:(lia)) as Hr.
  assert (started b (seqof p) = b) as Hst by (unfold started; by rewrite Hi).
  cbv zeta in Hr. rewrite Hst in Hr.
  destruct (window_step _ _ _ _) as [[[out min'] w']|] eqn:Hstep.
  - left. destruct Hr as (b' & Hb & Hq' & Hm' & Hw' & Hi' & Hs'). exists out, b'.
    rewrite Hm', Hw'. split_and!; try done. split; [done|done|].
    rewrite Hm', Hw'. by destruct (window_step_accept N _ _ _ _ _ _ Hw HN Hp Hstep) as (_ & _ & ? & _).
  - right. split; [done|]. pose proof (window_step_reject N _ _ _ Hw HN Hp Hstep) as H.
    rewrite length_window, Z2Nat.id in H by (pose proof (qt_size _ Hq); lia). done.
Qed.

Lemma receive_all_spec N l : N <= 2 ^ 63 -> forall b,
  stream_ok N b -> Forall (fun p => 0 <= seqof p < N) l ->
  exists d rej b', receive_all b l = Some (Some <$> d, rej, b') /\ stream_ok N b' /\
    min_seqn b <= min_seqn b' /\
    StronglySorted Z.lt (seqof <$> d) /\
    Forall (fun p => min_seqn b <= seqof p < min_seqn b') d /\
    (NoDup (seqof <$> l ++ somes (win b)) -> d ++ rej ++ somes (win b') ≡ₚ l ++ somes (win b)).
Proof.
  intros HN. induction l as [|p l IH]; intros b Hb Hl; simpl.
  { exists [], [], b. split_and!; try done. constructor. }
  inversion Hl as [|? ? Hp Hl']; subst.
  destruct (receive_stream N b p Hb HN Hp) as [(out & b1 & Hr & Hstep & Hb1 & Hs1)|[Hr _]].
  - destruct (window_step_accept N _ _ _ _ _ _ (so_window _ _ Hb) HN Hp Hstep)
      as (_ & Hm1 & _ & _ & Hso & Hfo & Hperm & _).
    destruct (IH b1 Hb1 Hl') as (d & rej & b' & Hd & Hb' & Hm' & Hsd & Hfd & Hpd).
    rewrite Hr. cbn [mbind option_bind]. rewrite Hd. cbn [mbind option_bind].
    exists (out ++ d), rej, b'. rewrite !fmap_app. split_and!; try done; [lia| | |].
    + apply StronglySorted_app_2; [|done|done].
      intros x1 x2 (p1 & -> & H1)%list_elem_of_fmap (p2 & -> & H2)%list_elem_of_fmap.
      rewrite Forall_forall in Hfo, Hfd. specialize (Hfo _ H1). specialize (Hfd _ H2). simpl in *. lia.
    + apply Forall_app; split; (eapply Forall_impl; [eassumption|]); simpl; intros; lia.
    + intros Hnd. rewrite <- fmap_app in Hnd. apply NoDup_cons in Hnd as [Hnew Hnd].
      assert (out ++ somes (win b1) ≡ₚ p :: somes (win b)) as Hp1.
      { apply Hperm. apply Forall_forall. intros q Hq Heq. apply Hnew.
        rewrite <- Heq. apply list_elem_of_fmap_2. set_solver. }
      rewrite <- app_assoc, Hpd.
      * rewrite Permutation_app_swap_app. rewrite Hp1. symmetry. apply Permutation_middle.
      * assert (NoDup (seqof <$> l ++ p :: somes (win b))) as Hnd1.
        { rewrite <- Permutation_middle. simpl. by constructor. }
        rewrite <- Hp1, Permutation_app_swap_app, fmap_app in Hnd1.
        by apply NoDup_app in Hnd1 as (_ & _ & ?).
  - destruct (IH b Hb Hl') as (d & rej & b' & Hd & Hb' & Hm' & Hsd & Hfd & Hpd).
    rewrite Hr. cbn [mbind option_bind]. rewrite Hd. cbn [mbind option_bind].
    exists d, (p :: rej), b'. split_and!; try done. intros Hnd.
    apply NoDup_cons in Hnd as [_ Hnd]. simpl. rewrite <- Permutation_middle. constructor. by apply Hpd.
Qed.

Lemma create_stream N p s :
  pow2 s -> 2 <= s <= Z.of_nat drain_max -> 0 <= seqof p < N -> N <= 2 ^ 63 ->
  let b := started (mlvpn_reorder_create s) (seqof p) in
  stream_ok N b /\ somes (win b) = [] /\ min_seqn b = seqof p /\ size (order_buf b) = s.
Proof.
  intros Hp Hs Hsq HN b. destruct (create_quiet s Hp Hs) as (Hq & Hw & Hi & Hsz).
  pose proof (started_quiet _ (seqof p) Hq ltac:(lia)) as Hq'. fold b in Hq'.
  assert (win b = replicate (Z.to_nat s) None) as Hwb by (unfold b, started; rewrite Hi; done).
  assert (min_seqn b = seqof p) as Hmb by (unfold b, started; by rewrite Hi).
  split_and!; [split; [done|apply started_initialized|] | by rewrite Hwb, somes_replicate | done
    | unfold b, started; by rewrite Hi].
  rewrite Hwb, Hmb. split; [|lia|rewrite somes_replicate; constructor|].
  - intros i q Hiq. by apply lookup_replicate in Hiq as [? _].
  - rewrite length_replicate. unfold drain_max in Hs. lia.
Qed.

Lemma StronglySorted_seqZ m n : StronglySorted Z.lt (seqZ m n).
Proof.
  destruct (Z.le_gt_cases n 0); [rewrite seqZ_nil by done; constructor|].
  rewrite <- (Z2Nat.id n) by lia. generalize (Z.to_nat n) as k. clear. intros k.
  revert m. induction k as [|k IH]; intros m; [constructor|].
  rewrite seqZ_cons by lia. replace (Z.pred (Z.of_nat (S k))) with (Z.of_nat k) by lia.
  constructor; [apply IH|]. apply Forall_forall. intros x Hx%elem_of_seqZ. lia.
Qed.

(** Every number of the run at the front of a window is held. *)
Lemma lead_covers min w x :
  numbered min w -> min <= x < min + Z.of_nat (lead w) -> exists r, r ∈ somes w /\ seqof r = x.
Proof.
  revert min. induction w as [|[p|] w IH]; intros min Hn Hx; simpl in *; try lia.
  destruct (decide (x = min)) as [->|].
  - exists p. split; [constructor|]. rewrite (Hn O p eq_refl). lia.
  - destruct (IH (min + 1)) as (r & Hr & Hs); [by eapply numbered_cons|lia|].
    exists r. split; [by constructor|done].
Qed.

(** When every number below [N] has been delivered or is held, and none is at
    the front, nothing is held. *)
Lemma nothing_held N b :
  stream_ok N b -> (forall x, min_seqn b <= x < N -> x ∈ seqof <$> somes (win b)) -> somes (win b) = [].
Proof.
  intros Hb Hall. pose proof (wo_numbered _ _ _ (so_window _ _ Hb)) as Hnum.
  pose proof (wo_min _ _ _ (so_window _ _ Hb)). pose proof (qt_lead _ (so_quiet _ _ Hb)) as Hlead.
  pose proof (wo_held _ _ _ (so_window _ _ Hb)) as Hheld. rewrite Forall_forall in Hheld.
  destruct (Z.lt_trichotomy (min_seqn b) N) as [Hlt|[Heq|?]]; [exfalso| |lia].
  - destruct (proj1 (list_elem_of_fmap _ _ _) (Hall (min_seqn b) ltac:(lia))) as (q & Hq & Hin).
    apply elem_of_somes in Hin as (i & Hi). pose proof (Hnum _ _ Hi).
    assert (i = O) as -> by lia. destruct (win b) as [|[?|] ?]; naive_solver.
  - destruct (somes (win b)) as [|q rest] eqn:E; [done|exfalso].
    assert (q ∈ somes (win b)) as Hq by (rewrite E; set_solver).
    apply elem_of_somes in Hq as (i & Hi). pose proof (Hnum _ _ Hi).
    specialize (Hheld q ltac:(set_solver)). simpl in Hheld. lia.
Qed.

(** A number that is neither [p]'s nor held is not in the run that leaves. *)
Lemma not_in_run min w p x :
  numbered min w -> min <= seqof p < min + Z.of_nat (length w) -> min <= x ->
  x <> seqof p -> x ∉ seqof <$> somes w ->
  min + Z.of_nat (lead (<[Z.to_nat (seqof p - min) := Some p]> w)) <= x.
Proof.
  intros Hn Hp Hx Hne Hnot. destruct (Z.le_gt_cases (min + Z.of_nat (lead (<[Z.to_nat (seqof p - min) := Some p]> w))) x) as [|Hlt]; [done|exfalso].
  assert (numbered min (<[Z.to_nat (seqof p - min) := Some p]> w)) as Hn1 by (apply numbered_insert; [done|lia]).
  destruct (lead_covers _ _ x Hn1) as (r & Hr1 & Heq); [lia|].
  apply elem_of_somes in Hr1 as [i Hr1].
  apply list_lookup_insert_Some in Hr1 as [(_ & [= ->] & _)|[_ Hr1]]; [done|].
  apply Hnot. rewrite <- Heq. apply list_elem_of_fmap_2, elem_of_somes. by eexists.
Qed.

(** A stream whose numbers are all in one window is delivered completely. *)
Lemma receive_all_complete N l : N <= 2 ^ 63 -> forall b,
  stream_ok N b -> N <= min_seqn b + size (order_buf b) ->
  Forall (fun p => min_seqn b <= seqof p < N) l ->
  NoDup (seqof <$> l ++ somes (win b)) ->
  (forall x, min_seqn b <= x < N -> x ∈ seqof <$> l ++ somes (win b)) ->
  exists d b', receive_all b l = Some (Some <$> d, [], b') /\ somes (win b') = [].
Proof.
  intros HN. induction l as [|p l IH]; intros b Hb Hsz Hl Hnd Hall; simpl.
  - exists [], b. split; [done|]. by eapply nothing_held.
  - inversion Hl as [|? ? Hp Hl']; subst.
    pose proof (wo_min _ _ _ (so_window _ _ Hb)) as Hmin.
    assert (0 <= seqof p < N) as Hp' by lia.
    destruct (receive_stream N b p Hb HN Hp') as [(out & b1 & Hr & Hstep & Hb1 & Hs1)|[_ Hno]]; [|lia].
    destruct (window_step_accept N _ _ _ _ _ _ (so_window _ _ Hb) HN Hp' Hstep)
      as (_ & Hm1 & _ & _ & Hso & Hfo & Hperm & Hmin1).
    rewrite length_window, Z2Nat.id in Hmin1 by lia. specialize (Hmin1 ltac:(lia)).
    change (seqof <$> (p :: l) ++ somes (win b)) with (seqof p :: (seqof <$> l ++ somes (win b))) in Hnd.
    apply NoDup_cons in Hnd as [Hnew Hnd].
    assert (out ++ somes (win b1) ≡ₚ p :: somes (win b)) as Hp1.
    { apply Hperm, Forall_forall. intros q Hq Heq. apply Hnew. rewrite <- Heq.
      apply list_elem_of_fmap_2. set_solver. }
    assert (NoDup (seqof <$> out ++ l ++ somes (win b1))) as Hnd1.
    { rewrite Permutation_app_swap_app, Hp1, <- Permutation_middle. by constructor. }
    destruct (IH b1 Hb1) as (d & b' & Hd & He); [rewrite Hs1; lia| | | |].
    + apply Forall_forall. intros q Hq. rewrite Forall_forall in Hl'. specialize (Hl' q Hq). simpl in Hl'.
      split; [|lia]. rewrite Hmin1. apply not_in_run; [apply Hb|rewrite length_window; lia|lia| |].
      * intros Heq. apply Hnew. rewrite <- Heq. apply list_elem_of_fmap_2. set_solver.
      * rewrite fmap_app in Hnd. apply NoDup_app in Hnd as (_ & Hdis & _).
        apply (Hdis (seqof q)). by apply list_elem_of_fmap_2.
    + rewrite fmap_app in Hnd1. by apply NoDup_app in Hnd1 as (_ & _ & ?).
    + intros x Hx. specialize (Hall x ltac:(lia)). apply list_elem_of_fmap in Hall as (q & -> & Hq).
      apply list_elem_of_fmap_2. assert (q ∈ l ++ out ++ somes (win b1)) as Hq'.
      { rewrite Hp1. set_solver. }
      rewrite Forall_forall in Hfo. rewrite !elem_of_app in *.
      destruct Hq' as [?|[Ho|?]]; [by left| |by right]. specialize (Hfo _ Ho). simpl in Hfo. lia.
    + rewrite Hr. cbn [mbind option_bind]. rewrite Hd. cbn [mbind option_bind].
      exists (out ++ d), b'. by rewrite fmap_app.
Qed.


End sequences.



(** ** The reference machine

    What the two rings, the masks and the 64-bit arithmetic implement: a list
    of [s] places that starts at the number [min], unknown before the first
    packet.  The machine is run on packets and on resets, as the daemon does
    with its buffer. *)

Inductive reorder_input := Packet (pkt : nat) (seq : Z) | ResetBuffer.

Definition machine : Type := option Z * list (option nat).

Definition idle (s : Z) : machine := (None, replicate (Z.to_nat s) None).

Definition machine_step (m : machine) (i : reorder_input) : Z * list nat * machine :=
  match i with
  | ResetBuffer => (0, [], idle (Z.of_nat (length m.2)))
  | Packet pkt seq =>
      let min := default seq m.1 in
      match window_step min m.2 pkt seq with
      | Some (out, min', w') => (0, out, (Some min', w'))
      | None => (-2, [], (Some min, m.2))
      end
  end.

Fixpoint machine_run (m : machine) (l : list reorder_input) : list (Z * list nat) :=
  match l with
  | [] => []
  | i :: l => let '(ret, out, m) := machine_step m i in (ret, out) :: machine_run m l
  end.

Definition code_step (b : mlvpn_reorder_buffer) (i : reorder_input) :
    option (Z * list (option nat) * mlvpn_reorder_buffer) :=
  match i with
  | ResetBuffer => Some (0, [], mlvpn_reorder_reset b)
  | Packet pkt seq => receive b pkt seq
  end.

Fixpoint code_run (b : mlvpn_reorder_buffer) (l : list reorder_input) :
    option (list (Z * list (option nat))) :=
  match l with
  | [] => Some []
  | i :: l =>
      '(ret, out, b) ← code_step b i;
      outs ← code_run b l;
      Some ((ret, out) :: outs)
  end.

Definition as_machine (b : mlvpn_reorder_buffer) : machine :=
  (if is_initialized b then Some (min_seqn b) else None, win b).

(** The array [mlvpn_reorder_drain] fills holds pointers. *)
Definition answer (a : Z * list nat) : Z * list (option nat) := (a.1, Some <$> a.2).

Definition input_ok (i : reorder_input) : Prop :=
  match i with Packet _ seq => 0 <= seq < 2 ^ 64 | ResetBuffer => True end.

#[global] Instance input_ok_dec i : Decision (input_ok i).
Proof. destruct i; apply _. Defined.

Lemma as_machine_started b seq :
  min_seqn (started b seq) = default seq (as_machine b).1 /\ win (started b seq) = (as_machine b).2 /\
  as_machine (started b seq) = (Some (default seq (as_machine b).1), win b).
Proof. unfold as_machine, started. by destruct (is_initialized b) eqn:E; simpl; rewrite ?E. Qed.

(** One input: the code answers what the machine answers and the states still
    correspond. *)
Lemma code_step_spec b i :
  quiet b -> input_ok i ->
  let '(ret, out, m) := machine_step (as_machine b) i in
  exists b', code_step b i = Some (ret, Some <$> out, b') /\ quiet b' /\ as_machine b' = m.
Proof.
  intros Hq Hi. destruct i as [pkt seq|]; simpl.
  - pose proof (receive_spec b pkt seq Hq Hi) as H. simpl in H.
    destruct (as_machine_started b seq) as (Em & Ew & Ea). rewrite Em, Ew in H. simpl in H.
    destruct (window_step _ _ _ _) as [[[out min'] w']|].
    + destruct H as (b' & Hr & Hq' & <- & <- & Hi' & _). exists b'.
      split_and!; [done..|]. unfold as_machine. by rewrite Hi'.
    + exists (started b seq). split_and!; [done|by apply started_quiet|done].
  - destruct (reset_quiet b Hq) as (Hq' & Hw & Hi' & _). eexists. split_and!; [done..|].
    pose proof (length_window (order_buf b)) as Hl.
    unfold as_machine, idle. rewrite Hi', Hw, Hl, Nat2Z.id. done.
Qed.

(** C8: For every size that is a power of two from 2 to 1024, and any packets
    with any 64-bit numbers and resets in between, [mlvpn_reorder_insert],
    [mlvpn_reorder_drain] and [mlvpn_reorder_reset] on the buffer that
    [mlvpn_reorder_create] gives answer, input by input, what the reference
    machine answers, which is one list and no ring: the same return codes and
    the same packets in the same order.  In particular none of the loops of
    the code runs out of its bound. *)
Theorem reorder_reference s l :
  pow2 s -> 2 <= s <= Z.of_nat drain_max -> Forall input_ok l ->
  code_run (mlvpn_reorder_create s) l =
    Some (answer <$> machine_run (idle s) l).
Proof.
  intros Hp Hs Hl. destruct (create_quiet s Hp Hs) as (Hq & Hw & Hi & _).
  assert (as_machine (mlvpn_reorder_create s) = idle s) as <- by (unfold as_machine; by rewrite Hi, Hw).
  clear Hw Hi Hp Hs. revert Hq. generalize (mlvpn_reorder_create s) as b.
  induction Hl as [|i l Hi _ IH]; intros b Hq; [done|].
  pose proof (code_step_spec b i Hq Hi) as H. cbn [code_run machine_run].
  destruct (machine_step _ i) as [[ret out] m]. destruct H as (b' & -> & Hq' & <-).
  cbn [mbind option_bind]. by rewrite (IH b' Hq').
Qed.

Lemma reorder_reference_witness :
  code_run (mlvpn_reorder_create 4)
    [Packet 1 (2 ^ 64 - 1); Packet 2 2; Packet 3 0; Packet 4 9; Packet 5 7; ResetBuffer; Packet 6 3] =
  Some [(0, [Some 1%nat]); (0, []); (0, [Some 3%nat]); (-2, []); (0, [Some 2%nat]); (0, []); (0, [Some 6%nat])].
Proof.
  rewrite (reorder_reference 4
    [Packet 1 (2 ^ 64 - 1); Packet 2 2; Packet 3 0; Packet 4 9; Packet 5 7; ResetBuffer; Packet 6 3]).
  - reflexivity.
  - exists 2. split; [lia|reflexivity].
  - split; vm_compute; discriminate.
  - apply (bool_decide_unpack _). vm_compute. exact I.
Defined.

End Reorder.
Export Reorder (mlvpn_reorder_buffer).
