(* ===== verification/Tunnel.v ===== *)
(** * The state of the daemon ([src/src/mlvpn.h], globals of [src/src/mlvpn.c])

    The tunnels, the options, the status, the tuntap device, the scheduler's
    table and the reordering stage, in one record: the globals every event
    handler reads and writes.  A tunnel pointer is a number; [w_tuns] is the
    memory the tunnels live in and [w_rtuns] the list [rtuns], newest first.

    What the program asks of the operating system and of the libraries is the
    class [OS]: the result of the [n]-th call is [f n], so that a theorem
    about every [OS] is about every behaviour of the outside. *)

From S2P Require Import Prelude Double CString Timestamp Pkt Buffer Reorder.

(** ** Constants *)
Definition PKTBUFSIZE : Z := 1024.
Definition MLVPN_IO_TIMEOUT_DEFAULT : double := d_of_Z 1.
Definition MLVPN_IO_TIMEOUT_MAXIMUM : double := d_of_Z 60.
Definition MLVPN_IO_TIMEOUT_INCREMENT : Z := 2.
Definition MLVPN_PROTOCOL_VERSION : Z := 1.
Definition MLVPN_MAXHNAMSTR : nat := 256.
Definition MLVPN_MAXPORTSTR : nat := 6.
Definition MLVPN_IFNAMSIZ : nat := 16.
Definition MAX_TUNNELS : Z := 128.

(** ** Data *)

Inductive chap_status :=
  | MLVPN_DISCONNECTED
  | MLVPN_AUTHSENT
  | MLVPN_AUTHOK
  | MLVPN_LOSSY
  | MLVPN_HIGH_LATENCY.
#[export] Instance chap_status_eq_dec : EqDecision chap_status.
Proof. solve_decision. Defined.

(** The order of the enumeration's values, and [status >= MLVPN_AUTHOK]. *)
Definition status_rank (s : chap_status) : Z :=
  match s with
  | MLVPN_DISCONNECTED => 0
  | MLVPN_AUTHSENT => 1
  | MLVPN_AUTHOK => 2
  | MLVPN_LOSSY => 3
  | MLVPN_HIGH_LATENCY => 4
  end.
Definition status_up (s : chap_status) : bool := status_rank MLVPN_AUTHOK <=? status_rank s.

(** An entry of an [addrinfo] list: the bytes of [ai_addr] and [ai_addrlen]. *)
Record sockaddr := SA { sa_bytes : list Z; sa_len : Z }.
#[export] Instance sa_fields : Fields sockaddr := fun a => SA (sa_bytes a) (sa_len a).

(** [mlvpn_tunnel_t].  [t_addrinfo] is the list [addrinfo] points to, empty
    for [NULL].  Of the watchers, whether they are active and the repeat of
    the timer. *)
Record mlvpn_tunnel_t := Tun {
  t_name : string;
  t_bindaddr : string;
  t_bindport : string;
  t_bindfib : Z;
  t_destaddr : string;
  t_destport : string;
  t_fd : Z;
  t_server_mode : bool;
  t_disconnects : Z;
  t_conn_attempts : Z;
  t_fallback_only : Z;
  t_loss_tolerence : Z;
  t_latency_tolerence : Z;
  t_seq : Z;
  t_expected_receiver_seq : Z;
  t_saved_timestamp : Z;
  t_saved_timestamp_received_at : Z;
  t_seq_last : Z;
  t_seq_vect : Z;
  t_rtt_hit : bool;
  t_srtt : double;
  t_rttvar : double;
  t_weight : double;
  t_flow_id : Z;
  t_sentpackets : Z;
  t_recvpackets : Z;
  t_sentbytes : Z;
  t_recvbytes : Z;
  t_timeout : Z;
  t_bandwidth : Z;
  t_sbuf : pktbuffer;
  t_hpsbuf : pktbuffer;
  t_addrinfo : list sockaddr;
  t_status : chap_status;
  t_last_activity : double;
  t_last_connection_attempt : double;
  t_next_keepalive : double;
  t_last_keepalive_ack : double;
  t_last_keepalive_ack_sent : double;
  t_io_read : bool;
  t_io_write : bool;
  t_io_timeout : bool;
  t_io_timeout_repeat : double
}.
#[export] Instance tun_fields : Fields mlvpn_tunnel_t := fun t =>
  Tun (t_name t) (t_bindaddr t) (t_bindport t) (t_bindfib t) (t_destaddr t) (t_destport t)
    (t_fd t) (t_server_mode t) (t_disconnects t) (t_conn_attempts t) (t_fallback_only t)
    (t_loss_tolerence t) (t_latency_tolerence t) (t_seq t) (t_expected_receiver_seq t)
    (t_saved_timestamp t) (t_saved_timestamp_received_at t) (t_seq_last t) (t_seq_vect t)
    (t_rtt_hit t) (t_srtt t) (t_rttvar t) (t_weight t) (t_flow_id t) (t_sentpackets t)
    (t_recvpackets t) (t_sentbytes t) (t_recvbytes t) (t_timeout t) (t_bandwidth t)
    (t_sbuf t) (t_hpsbuf t) (t_addrinfo t) (t_status t) (t_last_activity t)
    (t_last_connection_attempt t) (t_next_keepalive t) (t_last_keepalive_ack t)
    (t_last_keepalive_ack_sent t) (t_io_read t) (t_io_write t) (t_io_timeout t)
    (t_io_timeout_repeat t).

Definition t_up (t : mlvpn_tunnel_t) : bool := status_up (t_status t).

(** [t->fallback_only] as a condition. *)
Definition t_fallback (t : mlvpn_tunnel_t) : bool := negb (t_fallback_only t =? 0).

(** [mlvpn_options], the fields the configuration file sets. *)
Record mlvpn_options_s := Opts {
  o_control_unix_path : string;
  o_control_bind_host : string;
  o_control_bind_port : string;
  o_ip4 : string;
  o_ip6 : string;
  o_ip4_gateway : string;
  o_ip6_gateway : string;
  o_ip4_routes : string;
  o_ip6_routes : string;
  o_mtu : Z;
  o_cleartext_data : bool;
  o_reorder_buffer_size : Z;
  o_fallback_available : bool
}.
#[export] Instance opts_fields : Fields mlvpn_options_s := fun o =>
  Opts (o_control_unix_path o) (o_control_bind_host o) (o_control_bind_port o) (o_ip4 o) (o_ip6 o) (o_ip4_gateway o) (o_ip6_gateway o) (o_ip4_routes o)
    (o_ip6_routes o) (o_mtu o) (o_cleartext_data o) (o_reorder_buffer_size o)
    (o_fallback_available o).

Record mlvpn_status_s := Stat {
  s_fallback_mode : bool;
  s_connected : Z;
  s_initialized : bool;
  s_start_time : Z;
  s_last_reload : Z
}.
#[export] Instance stat_fields : Fields mlvpn_status_s := fun s =>
  Stat (s_fallback_mode s) (s_connected s) (s_initialized s) (s_start_time s) (s_last_reload s).

Inductive tuntap_type := MLVPN_TUNTAPMODE_TUN | MLVPN_TUNTAPMODE_TAP.

Record tuntap_s := TT {
  tt_maxmtu : Z;
  tt_devname : string;
  tt_type : tuntap_type;
  tt_sbuf : pktbuffer;
  tt_io_write : bool
}.
#[export] Instance tt_fields : Fields tuntap_s := fun t =>
  TT (tt_maxmtu t) (tt_devname t) (tt_type t) (tt_sbuf t) (tt_io_write t).

(** [struct mlvpn_wrr]: the first [len] entries of its arrays. *)
Record mlvpn_wrr := Wrr { wrr_tunnel : list nat; wrr_tunval : list double }.
#[export] Instance wrr_fields : Fields mlvpn_wrr := fun w => Wrr (wrr_tunnel w) (wrr_tunval w).

(** [mlvpn_filters]: the compiled programs, by a number, and their tunnels. *)
Definition mlvpn_filters_s : Type := list (nat * nat).

(** What leaves the process. *)
Inductive effect :=
  | Sent (tun : nat) (bytes : list Z)
  | Script (args : list string) (env : list string)
  | InitScript (path : string)
  | TunWrite (bytes : list Z)
  | Title (s : string)
  | Break.

Record world := World {
  w_tuns : gmap nat mlvpn_tunnel_t;
  w_rtuns : list nat;
  w_status : mlvpn_status_s;
  w_options : mlvpn_options_s;
  w_tuntap : tuntap_s;
  w_data_seq : Z;
  w_reorder : option mlvpn_reorder_buffer;
  w_freebuf : freebuffer_t;
  w_drain_timer : bool;
  w_drain_repeat : double;
  w_wrr : mlvpn_wrr;
  w_filters : mlvpn_filters_s;
  w_process_title : option string;
  w_status_command : option string;
  w_now : double;
  w_key : list Z;
  w_calls : nat;
  w_trace : list effect
}.
#[export] Instance world_fields : Fields world := fun w =>
  World (w_tuns w) (w_rtuns w) (w_status w) (w_options w) (w_tuntap w) (w_data_seq w)
    (w_reorder w) (w_freebuf w) (w_drain_timer w) (w_drain_repeat w) (w_wrr w) (w_filters w)
    (w_process_title w) (w_status_command w) (w_now w) (w_key w) (w_calls w) (w_trace w).

(** ** The outside *)

(** Result of a system call on a socket: a count, [EAGAIN], another error. *)
Inductive io_result :=
  | IoOk (n : Z)
  | IoAgain
  | IoError.

Class OS := {
  os_sendto : nat -> io_result;
  os_tunwrite : nat -> io_result;
  os_getaddrinfo : nat -> list sockaddr;
  os_getnameinfo : nat -> Z;
  os_socket : nat -> Z;
  os_setsockopt : nat -> Z;
  os_bind : nat -> Z;
  os_randombytes_random : nat -> Z;
  os_time : nat -> Z;
  (** [pcap_offline_filter(program, data) != 0] *)
  os_pcap_offline_filter : nat -> list Z -> bool;
  (** [pcap_compile(expression)]: the program, [None] for a syntax error *)
  os_pcap_compile : string -> option nat;
  (** The value of a shift by an amount C leaves undefined: [x << n] with [n]
      at least the width, and [1 << n] with [n] at least 31. *)
  os_undefined_shift : Z -> Z -> Z;
  (** [crypto_secretbox_easy(m, nonce, key)] and [crypto_secretbox_open_easy];
      [None] for a non-zero return. *)
  secretbox_easy : list Z -> list Z -> list Z -> option (list Z);
  secretbox_open_easy : list Z -> list Z -> list Z -> option (list Z);
  os_generichash : list Z -> list Z
}.

Abbreviation W := (M world).

(** ** Access to the state *)
Section access.
Context `{OS}.

(** Consume the next result of [f]. *)
Definition ask {A} (f : nat -> A) : W A := fun w =>
  Ok (f (w_calls w)) (w <| w_calls := S (w_calls w) |>).

Definition emit (e : effect) : W unit := modify (fun w => w <| w_trace := w_trace w ++ [e] |>).

Definition tun_get (t : nat) : W mlvpn_tunnel_t := fun w =>
  match w_tuns w !! t with
  | Some tun => Ok tun w
  | None => Fault (BadAccess "tunnel")
  end.
Definition tun_put (t : nat) (tun : mlvpn_tunnel_t) : W unit :=
  modify (fun w => w <| w_tuns := <[t := tun]> (w_tuns w) |>).
Definition tun_upd (t : nat) (f : mlvpn_tunnel_t -> mlvpn_tunnel_t) : W unit :=
  tun ← tun_get t; tun_put t (f tun).
Definition tun_is (t : nat) (p : mlvpn_tunnel_t -> bool) : W bool :=
  tun ← tun_get t; mret (p tun).

(** [ev_now(EV_DEFAULT_UC)] *)
Definition ev_now : W double := gets w_now.

(** [mlvpn_rtun_tick] *)
Definition mlvpn_rtun_tick (t : nat) : W unit :=
  now ← ev_now; tun_upd t (fun x => x <| t_last_activity := now |>).

Lemma wp_tun_get t tun (Q : mlvpn_tunnel_t -> world -> Prop) w :
  w_tuns w !! t = Some tun -> Q tun w -> wp (tun_get t) Q w.
Proof. intros Ht HQ. unfold wp, tun_get. by rewrite Ht. Qed.
Lemma wp_tun_upd t tun f (Q : unit -> world -> Prop) w :
  w_tuns w !! t = Some tun -> Q tt (w <| w_tuns := <[t := f tun]> (w_tuns w) |>) -> wp (tun_upd t f) Q w.
Proof. intros Ht HQ. apply wp_bind. by eapply wp_tun_get. Qed.
Lemma wp_ask {A} (f : nat -> A) (Q : A -> world -> Prop) w :
  Q (f (w_calls w)) (w <| w_calls := S (w_calls w) |>) -> wp (ask f) Q w.
Proof. done. Qed.
End access.

(** ** An ideal outside

    Every call succeeds at once, packets are sealed by sixteen zero bytes and
    opened by dropping them; used to evaluate the model on concrete inputs. *)
Definition os_ideal : OS := {|
  os_sendto _ := IoOk 1500;
  os_tunwrite _ := IoOk 1500;
  os_getaddrinfo _ := [SA [2; 0; 20; 81; 10; 0; 0; 1] 8];
  os_getnameinfo _ := 0;
  os_socket n := Z.of_nat n + 3;
  os_setsockopt _ := 0;
  os_bind _ := 0;
  os_randombytes_random n := Z.of_nat n;
  os_time n := Z.of_nat n;
  os_pcap_offline_filter _ _ := false;
  os_pcap_compile _ := Some O;
  os_undefined_shift x _ := x;
  secretbox_easy m _ _ := Some (replicate 16 0 ++ m);
  secretbox_open_easy c _ _ := if (length c <? 16)%nat then None else Some (drop 16 c);
  os_generichash p := p
|}.

(** A tunnel as [mlvpn_rtun_new] leaves it, for the same purpose. *)
Definition tun_zero : mlvpn_tunnel_t :=
  Tun "" "" "" 0 "" "" (-1) false 0 0 0 100 1000 0 0 (u64 (-1)) 0 0 (u64 (-1)) false
    (d_of_Z 1000) (d_of_Z 500) (d_of_Z 1) 0 0 0 0 0 30 0
    (Ring.mlvpn_pktbuffer_init PKTBUFSIZE) (Ring.mlvpn_pktbuffer_init PKTBUFSIZE) []
    MLVPN_DISCONNECTED (d_of_Z 0) (d_of_Z 0) (d_of_Z 0) (d_of_Z 0) (d_of_Z 0)
    false false true MLVPN_IO_TIMEOUT_DEFAULT.

(** A state with the given tunnels, all else at its initial value. *)
Definition world_of (tuns : list mlvpn_tunnel_t) : world :=
  World (list_to_map (zip (seq 0 (length tuns)) tuns)) (seq 0 (length tuns)) (Stat false 0 false 0 0)
    (Opts "" "" "" "" "" "" "" "" "" 0 false 0 false)
    (TT 1444 "mlvpn0" MLVPN_TUNTAPMODE_TUN (Ring.mlvpn_pktbuffer_init PKTBUFSIZE) false) 0 None
    (Free.mlvpn_freebuffer_init 512) false (d_of_Z 0) (Wrr [] []) [] None None (d_of_Z 0) [] 0 [].
