(* ===== verification/Loss.v ===== *)
(** * Packet loss over the last 64 packets of a tunnel
      ([mlvpn_loss_update] and [mlvpn_loss_ratio] of [src/src/mlvpn.c])

    [seq_vect] is a 64-bit vector: bit [i] says whether the packet
    [seq_last - i] arrived.  The second part relates it to the set of the
    numbers received and the ratio to the share of the missing ones. *)

From S2P Require Import Prelude Double CString Timestamp Pkt Buffer Reorder Tunnel.

Section loss.
Context `{OS}.

(** [x <<= n] on [uint64_t], and the [int] value [1 << n] converted to it. *)
Definition shl64 (x n : Z) : Z :=
  if n <? 64 then u64 (Z.shiftl x n) else u64 (os_undefined_shift x n).
Definition int_bit (n : Z) : Z :=
  if n <? 31 then Z.shiftl 1 n else u64 (os_undefined_shift 1 n).

Definition mlvpn_loss_update (tun : mlvpn_tunnel_t) (seq : Z) : mlvpn_tunnel_t :=
  if u64 (t_seq_last tun + 64) <? seq then
    tun <| t_seq_vect := u64 (-1) |> <| t_seq_last := seq |>
  else if t_seq_last tun <? seq then
    tun <| t_seq_vect := Z.lor (shl64 (t_seq_vect tun) (seq - t_seq_last tun)) 1 |>
        <| t_seq_last := seq |>
  else if u64 (t_seq_last tun - 63) <=? seq then
    tun <| t_seq_vect := Z.lor (t_seq_vect tun) (int_bit (t_seq_last tun - seq)) |>
  else tun.

(** The loop counts the zero bits. *)
Fixpoint count_zeroes (n : nat) (i : Z) (vect : Z) (loss : Z) : Z :=
  match n with
  | O => loss
  | S n => count_zeroes n (i + 1) vect
             (if Z.land 1 (Z.shiftr vect i) =? 0 then loss + 1 else loss)
  end.
Definition mlvpn_loss_ratio (tun : mlvpn_tunnel_t) : Z :=
  count_zeroes 64 0 (t_seq_vect tun) 0 * 100 / 64.

(** ** The ratio counts the zero bits *)

Lemma bit_test v i : 0 <= i -> (Z.land 1 (Z.shiftr v i) =? 0) = negb (Z.testbit v i).
Proof.
  intros Hi. rewrite Z.land_comm. change 1 with (Z.ones 1).
  rewrite Z.land_ones, Z.pow_1_r, <- Z.bit0_mod, Z.shiftr_spec, Z.add_0_l by lia.
  by destruct (Z.testbit v i).
Qed.

Definition zero_bits (v : Z) (i n : Z) : list Z := filter (fun j => Z.testbit v j = false) (seqZ i n).

Lemma count_zeroes_spec n : forall i v loss, 0 <= i ->
  count_zeroes n i v loss = loss + Z.of_nat (length (zero_bits v i (Z.of_nat n))).
Proof.
  induction n as [|n IH]; intros i v loss Hi; unfold zero_bits; [simpl; lia|].
  cbn [count_zeroes]. rewrite IH, bit_test, seqZ_cons by lia. unfold zero_bits.
  replace (Z.pred (Z.of_nat (S n))) with (Z.of_nat n) by lia. rewrite filter_cons. unfold Z.succ.
  destruct (Z.testbit v i) eqn:E; case_decide; try done; simpl; lia.
Qed.

Lemma loss_ratio_zeroes tun :
  mlvpn_loss_ratio tun = Z.of_nat (length (zero_bits (t_seq_vect tun) 0 64)) * 100 / 64.
Proof. unfold mlvpn_loss_ratio. by rewrite count_zeroes_spec. Qed.

(** ** Loss of a stream

    [R] is the set of the numbers received; numbers below 1 count as received
    (the vector starts full). *)

Record tracks (R : gset Z) (tun : mlvpn_tunnel_t) : Prop := {
  tr_last : 0 <= t_seq_last tun;
  tr_bits i : 0 <= i < 64 ->
    Z.testbit (t_seq_vect tun) i = true <-> t_seq_last tun - i ∈ R \/ t_seq_last tun - i < 1;
  tr_max x : x ∈ R -> x <= t_seq_last tun
}.

(** What a stream must respect for every shift to be defined and every packet
    to be counted: no gap of more than 63 numbers, and a packet that is late
    by at most 30, once 63 numbers have passed. *)
Definition regular (last seq : Z) : Prop :=
  last < seq <= last + 63 \/
  seq <= last /\ 63 <= last /\ last - seq <= 30 \/
  seq < 1 /\ last < 63.

Lemma int_bit_spec n i : 0 <= n <= 30 -> 0 <= i -> Z.testbit (int_bit n) i = (i =? n).
Proof.
  intros Hn Hi. unfold int_bit. rewrite (proj2 (Z.ltb_lt _ _)) by lia.
  rewrite Z.shiftl_mul_pow2, Z.mul_1_l, Z.pow2_bits_eqb by lia. apply Z.eqb_sym.
Qed.

Lemma shl64_spec v n i : 0 <= n < 64 -> 0 <= i < 64 ->
  Z.testbit (shl64 v n) i = (n <=? i) && Z.testbit v (i - n).
Proof.
  intros Hn Hi. unfold shl64, u64, wrap. rewrite (proj2 (Z.ltb_lt _ _)) by lia.
  rewrite Z.mod_pow2_bits_low, Z.shiftl_spec by lia.
  destruct (Z.leb_spec n i); [done|]. apply Z.testbit_neg_r. lia.
Qed.

Lemma loss_update_tracks R tun seq :
  tracks R tun -> 0 <= seq < 2 ^ 63 -> t_seq_last tun < 2 ^ 63 -> regular (t_seq_last tun) seq ->
  tracks ({[seq]} ∪ R) (mlvpn_loss_update tun seq) /\ t_seq_last (mlvpn_loss_update tun seq) < 2 ^ 63.
Proof.
  intros [Hlast Hbits Hmax] Hseq Hb Hreg. unfold mlvpn_loss_update.
  assert (u64 (t_seq_last tun + 64) = t_seq_last tun + 64) as -> by (apply Z.mod_small; lia).
  rewrite (proj2 (Z.ltb_ge _ _)) by (unfold regular in Hreg; lia).
  destruct (Z.ltb_spec (t_seq_last tun) seq) as [Hnew|Hold].
  { assert (seq <= t_seq_last tun + 63) as Hgap by (unfold regular in Hreg; lia).
    split; [|simpl; lia]. split; simpl; [lia| |].
    - intros i Hi. rewrite Z.lor_spec, shl64_spec by lia.
      change (Z.testbit 1 i) with (Z.testbit (2 ^ 0) i). rewrite Z.pow2_bits_eqb by lia.
      destruct (Z.eqb_spec 0 i) as [<-|Hi0].
      { rewrite orb_true_r. split; [|done]. intros _. left. set_solver by lia. }
      rewrite orb_false_r, andb_true_iff, Z.leb_le, elem_of_union, elem_of_singleton.
      destruct (Z.le_gt_cases (seq - t_seq_last tun) i) as [Hle|Hlt].
      + rewrite (Hbits (i - (seq - t_seq_last tun)) ltac:(lia)).
        replace (t_seq_last tun - (i - (seq - t_seq_last tun))) with (seq - i) by lia. naive_solver lia.
      + split; [lia|]. intros [[|Hin%Hmax]|]; lia.
    - intros x [->%elem_of_singleton|Hx%Hmax]%elem_of_union; lia. }
  destruct (Z.lt_ge_cases (t_seq_last tun) 63) as [Hsmall|Hbig].
  { assert (u64 (t_seq_last tun - 63) = t_seq_last tun - 63 + 2 ^ 64) as ->.
    { unfold u64, wrap. rewrite <- (Z_mod_plus_full _ 1), Z.mod_small by lia. lia. }
    rewrite (proj2 (Z.leb_gt _ _)) by lia. split; [|done]. assert (seq < 1) by (unfold regular in Hreg; lia).
    split; [done| |].
    - intros i Hi. rewrite Hbits, elem_of_union, elem_of_singleton by done. naive_solver lia.
    - intros x [->%elem_of_singleton|Hx%Hmax]%elem_of_union; lia. }
  assert (u64 (t_seq_last tun - 63) = t_seq_last tun - 63) as -> by (apply Z.mod_small; lia).
  assert (t_seq_last tun - seq <= 30) as Hlate by (unfold regular in Hreg; lia).
  rewrite (proj2 (Z.leb_le _ _)) by lia. split; [|simpl; lia]. split; simpl; [done| |].
  - intros i Hi. rewrite Z.lor_spec, int_bit_spec, orb_true_iff, Hbits, Z.eqb_eq, elem_of_union,
      elem_of_singleton by lia. naive_solver lia.
  - intros x [->%elem_of_singleton|Hx%Hmax]%elem_of_union; lia.
Qed.

(** A stream whose steps are all regular. *)
Fixpoint regular_stream (last : Z) (l : list Z) : Prop :=
  match l with
  | [] => True
  | seq :: l => 0 <= seq < 2 ^ 63 /\ regular last seq /\ regular_stream (Z.max last seq) l
  end.

Lemma loss_update_last tun seq :
  0 <= t_seq_last tun < 2 ^ 63 -> 0 <= seq < 2 ^ 63 ->
  t_seq_last (mlvpn_loss_update tun seq) = Z.max (t_seq_last tun) seq.
Proof.
  intros Hl Hs. unfold mlvpn_loss_update.
  assert (u64 (t_seq_last tun + 64) = t_seq_last tun + 64) as -> by (apply Z.mod_small; lia).
  destruct (Z.ltb_spec (t_seq_last tun + 64) seq); simpl; [lia|].
  destruct (Z.ltb_spec (t_seq_last tun) seq); simpl; [lia|]. destruct (_ <=? _); simpl; lia.
Qed.

Lemma stream_tracks l : forall R tun,
  tracks R tun -> t_seq_last tun < 2 ^ 63 -> regular_stream (t_seq_last tun) l ->
  tracks (list_to_set l ∪ R) (fold_left mlvpn_loss_update l tun).
Proof.
  induction l as [|seq l IH]; intros R tun Ht Hb Hl; simpl.
  { by rewrite union_empty_l_L. }
  destruct Hl as (Hs & Hr & Hl). destruct (loss_update_tracks R tun seq Ht Hs Hb Hr) as [Ht' Hb'].
  rewrite <- (loss_update_last tun seq) in Hl by (pose proof (tr_last _ _ Ht); lia).
  specialize (IH _ _ Ht' Hb' Hl).
  replace ({[seq]} ∪ list_to_set l ∪ R) with (list_to_set l ∪ ({[seq]} ∪ R)) by set_solver.
  done.
Qed.

(** The numbers of the last 64 that are neither received nor before the start. *)
Definition missing (R : gset Z) (last : Z) : list Z :=
  filter (fun x => (x ∉ R) /\ (1 <= x)) (seqZ (last - 63) 64).

Lemma length_filter_fmap {A B} (f : A -> B) (P : B -> Prop) `{forall x, Decision (P x)} l :
  length (filter P (f <$> l)) = length (filter (fun x => P (f x)) l).
Proof.
  induction l as [|x l IH]; [done|]. rewrite fmap_cons, !filter_cons.
  repeat case_decide; simpl; congruence.
Qed.

Lemma length_filter_iff {A} (P Q : A -> Prop) `{forall x, Decision (P x), forall x, Decision (Q x)} l :
  (forall x, x ∈ l -> P x <-> Q x) -> length (filter P l) = length (filter Q l).
Proof.
  intros Hiff. induction l as [|x l IH]; [done|].
  rewrite !filter_cons. specialize (IH ltac:(set_solver)).
  pose proof (Hiff x ltac:(set_solver)). repeat case_decide; simpl; tauto || congruence.
Qed.

Lemma seqZ_mirror a n : Z.sub a <$> seqZ 0 n ≡ₚ seqZ (a - n + 1) n.
Proof.
  apply NoDup_Permutation; [|apply NoDup_seqZ|].
  - apply NoDup_fmap_2; [intros x y; lia|apply NoDup_seqZ].
  - intros x. rewrite list_elem_of_fmap, elem_of_seqZ. setoid_rewrite elem_of_seqZ. split.
    + intros (y & -> & Hy). lia.
    + intros Hx. exists (a - x). lia.
Qed.

Lemma tracks_missing R tun :
  tracks R tun -> length (zero_bits (t_seq_vect tun) 0 64) = length (missing R (t_seq_last tun)).
Proof.
  intros Ht. unfold missing, zero_bits.
  replace (t_seq_last tun - 63) with (t_seq_last tun - 64 + 1) by lia.
  rewrite <- seqZ_mirror, length_filter_fmap. apply length_filter_iff.
  intros i Hi%elem_of_seqZ. pose proof (tr_bits _ _ Ht i ltac:(lia)) as Hb.
  rewrite <- not_true_iff_false, Hb. naive_solver lia.
Qed.

Lemma loss_update_bit0 tun seq :
  Z.testbit (t_seq_vect tun) 0 = true -> Z.testbit (t_seq_vect (mlvpn_loss_update tun seq)) 0 = true.
Proof.
  intros Hb. unfold mlvpn_loss_update. rewrite Z.bit0_odd in Hb.
  repeat case_match; simpl; try done; rewrite <- Z.bit0_odd in *.
  - by rewrite Z.lor_spec, orb_true_r.
  - by rewrite Z.lor_spec, Hb.
Qed.

Lemma length_zero_bits v n : (length (zero_bits v 0 n) <= Z.to_nat n)%nat.
Proof. unfold zero_bits. rewrite length_filter, length_seqZ. done. Qed.

Lemma loss_ratio_range tun : 0 <= mlvpn_loss_ratio tun <= 100.
Proof.
  rewrite loss_ratio_zeroes. pose proof (length_zero_bits (t_seq_vect tun) 64).
  split; [apply Z.div_pos; lia|]. apply Z.div_le_upper_bound; lia.
Qed.

(** With the last packet received the ratio is at most 98. *)
Lemma loss_ratio_bit0 tun :
  Z.testbit (t_seq_vect tun) 0 = true -> 0 <= mlvpn_loss_ratio tun <= 98.
Proof.
  intros Hb. split; [apply loss_ratio_range|]. rewrite loss_ratio_zeroes.
  assert (length (zero_bits (t_seq_vect tun) 0 64) <= 63)%nat as Hl.
  { unfold zero_bits. rewrite seqZ_cons, filter_cons by lia. case_decide; [congruence|].
    rewrite length_filter, length_seqZ. done. }
  assert (Z.of_nat (length (zero_bits (t_seq_vect tun) 0 64)) * 100 / 64 <= 63 * 100 / 64) as Hd
    by (apply Z.div_le_mono; lia).
  exact Hd.
Qed.

End loss.

