(* ===== verification/Wrr.v ===== *)
(** * Weighted round robin ([src/src/wrr.c])

    The scheduler's table lists the tunnels that may carry traffic, each with
    a credit; the tunnel with the least credit is chosen and its credit set to
    [100 / weight], and the others lose one. *)

From S2P Require Import Prelude Double CString Timestamp Pkt Buffer Reorder Tunnel.

(** ** The code *)

(** The loop of [wrr_min_index]. *)
Fixpoint min_loop (i : nat) (min : double) (min_index : nat) (tunval : list double) : nat :=
  match tunval with
  | [] => min_index
  | v :: tunval =>
      if dltb v min then min_loop (S i) v i tunval else min_loop (S i) min min_index tunval
  end.
Definition wrr_min_index (tunval : list double) : nat := min_loop 0 (d_of_Z 100) 0 tunval.

(** Whether [mlvpn_rtun_wrr_reset] takes a tunnel. *)
Definition eligible (use_fallbacks : bool) (t : mlvpn_tunnel_t) : bool :=
  (t_fallback_only t =? (if use_fallbacks then 1 else 0)) &&
  ((t_fallback t && t_up t) || bool_decide (t_status t = MLVPN_AUTHOK)).

Definition decrement (tunval : list double) : list double :=
  (fun v => if dltb (d_of_Z 0) v then dsub v (d_of_Z 1) else v) <$> tunval.

Section wrr.
Context `{OS}.

Definition wrr_len (w : mlvpn_wrr) : Z := Z.of_nat (length (wrr_tunnel w)).

(** The body of the loop of [mlvpn_rtun_wrr_reset]. *)
Definition wrr_add (use_fallbacks : bool) (t : nat) : W unit :=
  tun ← tun_get t;
  when (eligible use_fallbacks tun) (
    wrr ← gets w_wrr;
    if MAX_TUNNELS <=? wrr_len wrr then fatalx "You have too many tunnels declared"
    else modify (fun w => w <| w_wrr := Wrr (wrr_tunnel wrr ++ [t]) (wrr_tunval wrr ++ [d_of_Z 0]) |>)).

Definition mlvpn_rtun_wrr_reset (use_fallbacks : bool) : W unit :=
  modify (fun w => w <| w_wrr := Wrr [] [] |>);;
  rtuns ← gets w_rtuns;
  for_each rtuns (wrr_add use_fallbacks).

Definition mlvpn_rtun_wrr_choose : W (option nat) :=
  wrr ← gets w_wrr;
  if wrr_len wrr =? 0 then mret None
  else
    let idx := wrr_min_index (wrr_tunval wrr) in
    let vals := decrement (wrr_tunval wrr) in
    t ← expect (BadAccess "wrr.tunnel") (wrr_tunnel wrr !! idx);
    tun ← tun_get t;
    modify (fun w => w <| w_wrr := Wrr (wrr_tunnel wrr) (<[idx := ddiv (d_of_Z 100) (t_weight tun)]> vals) |>);;
    mret (Some t).

(** [mlvpn_rtun_choose] of [src/src/mlvpn.c] *)
Definition mlvpn_rtun_choose : W (option nat) := mlvpn_rtun_wrr_choose.
End wrr.

(** ** The table *)

Definition tun_test (w : world) (p : mlvpn_tunnel_t -> bool) (t : nat) : bool :=
  match w_tuns w !! t with Some tun => p tun | None => false end.
Definition candidates (use_fallbacks : bool) (w : world) : list nat :=
  filter (fun t => tun_test w (eligible use_fallbacks) t = true) (w_rtuns w).

(** Every tunnel of the list is allocated. *)
Definition rtuns_alloc (w : world) : Prop := Forall (fun t => is_Some (w_tuns w !! t)) (w_rtuns w).

Section wrr_facts.
Context `{OS}.

Lemma wrr_loop uf : forall l w ts vs,
  Forall (fun t => is_Some (w_tuns w !! t)) l -> w_wrr w = Wrr ts vs ->
  let l' := filter (fun t => tun_test w (eligible uf) t = true) l in
  Z.of_nat (length ts + length l') <= MAX_TUNNELS ->
  for_each l (wrr_add uf) w
  = Ok tt (w <| w_wrr := Wrr (ts ++ l') (vs ++ replicate (length l') (d_of_Z 0)) |>).
Proof.
  induction l as [|t l IH]; intros w ts vs Hal Hw l' Hlen.
  { unfold l'. simpl. rewrite !app_nil_r. unfold mret, M_ret. f_equal. destruct w. simpl in *. by subst. }
  inversion Hal as [|? ? [tun Htun] Hal']; subst. cbn [for_each]. unfold mbind at 1, M_bind at 1.
  unfold wrr_add at 1. unfold mbind at 1, M_bind at 1. unfold tun_get at 1. rewrite Htun.
  assert (tun_test w (eligible uf) t = eligible uf tun) as Ht by (unfold tun_test; by rewrite Htun).
  unfold l' in *. rewrite filter_cons, Ht in Hlen |- *.
  destruct (eligible uf tun) eqn:He.
  - rewrite decide_True in Hlen |- * by done. simpl in Hlen. cbn [when].
    unfold mbind at 1, M_bind at 1, gets at 1. rewrite Hw. unfold wrr_len. simpl.
    rewrite (proj2 (Z.leb_gt _ _)) by lia. simpl.
    etransitivity; [apply (IH _ (ts ++ [t]) (vs ++ [d_of_Z 0])); [done|done|]|].
    + rewrite length_app. simpl. unfold tun_test in *. simpl. lia.
    + simpl. rewrite <- !app_assoc. done.
  - rewrite decide_False in Hlen |- * by done. cbn [when]. by apply IH.
Qed.

(** The table holds the eligible tunnels, in the order of the list. *)
Lemma wrr_reset_spec uf w :
  rtuns_alloc w -> Z.of_nat (length (candidates uf w)) <= MAX_TUNNELS ->
  mlvpn_rtun_wrr_reset uf w =
  Ok tt (w <| w_wrr := Wrr (candidates uf w) (replicate (length (candidates uf w)) (d_of_Z 0)) |>).
Proof.
  intros Hal Hlen. unfold mlvpn_rtun_wrr_reset. unfold mbind at 1, M_bind at 1, modify at 1.
  unfold mbind at 1, M_bind at 1, gets at 1.
  change (w_rtuns (w <| w_wrr := Wrr [] [] |>)) with (w_rtuns w).
  rewrite (wrr_loop uf (w_rtuns w) _ [] []); [done|done|done|]. exact Hlen.
Qed.

(** ** The choice *)

Lemma min_loop_spec : forall vals i min mi,
  let r := min_loop i min mi vals in
  r = mi /\ Forall (fun v => ~ dlt v min) vals \/
  exists k v, vals !! k = Some v /\ r = (i + k)%nat /\ dlt v min /\ Forall (fun u => ~ dlt u v) vals.
Proof.
  induction vals as [|v vals IH]; intros i min mi; simpl; [left; by split|].
  destruct (dltb v min) eqn:E; [apply dltb_true in E|apply dltb_false in E].
  - right. destruct (IH (S i) v i) as [[-> Hall]|(k & u & Hk & -> & Hlt & Hall)].
    + exists O, v. split_and!; [done|lia|done|]. constructor; [apply dlt_irrefl|done].
    + exists (S k), u. split_and!; [done|lia|by eapply dlt_trans|]. constructor; [|done].
      intros Hvu. apply (dlt_irrefl v). by eapply dlt_trans.
  - destruct (IH (S i) min mi) as [[-> Hall]|(k & u & Hk & -> & Hlt & Hall)].
    + left. split; [done|]. by constructor.
    + right. exists (S k), u. split_and!; [done|lia|done|]. constructor; [|done].
      intros Hvu. apply E. by eapply dlt_trans.
Qed.

(** The index is one of the table's, and no credit below 100 is smaller than
    the one at it. *)
Lemma min_index_spec vals v0 :
  vals !! O = Some v0 ->
  exists v, vals !! wrr_min_index vals = Some v /\
    (Forall (fun u => ~ dlt u v) vals \/ wrr_min_index vals = O /\ Forall (fun u => ~ dlt u (d_of_Z 100)) vals).
Proof.
  intros H0. unfold wrr_min_index.
  destruct (min_loop_spec vals 0 (d_of_Z 100) 0) as [[-> Hall]|(k & v & Hk & -> & Hlt & Hall)].
  - exists v0. auto.
  - exists v. auto.
Qed.
End wrr_facts.

(** ** Equal weights: plain round robin *)
Section round_robin.
Context `{OS}.

(** [k] successive choices. *)
Fixpoint choose_n (k : nat) : W (list (option nat)) :=
  match k with
  | O => mret []
  | S k => c ← mlvpn_rtun_wrr_choose; l ← choose_n k; mret (c :: l)
  end.

Lemma min_loop_first vals : forall i min mi k v,
  vals !! k = Some v -> dlt v min ->
  (forall j u, (j < k)%nat -> vals !! j = Some u -> dlt v u) ->
  Forall (fun u => ~ dlt u v) vals ->
  min_loop i min mi vals = (i + k)%nat.
Proof.
  induction vals as [|x vals IH]; intros i min mi k v Hk Hmin Hbefore Hall; [done|].
  inversion Hall as [|? ? Hx Hall']; subst. destruct k as [|k]; simpl in Hk |- *.
  - injection Hk as ->. rewrite (proj2 (dltb_true v min) Hmin).
    destruct (min_loop_spec vals (S i) v i) as [[-> _]|(k & u & Hu & _ & Hlt & _)]; [lia|].
    exfalso. rewrite Forall_forall in Hall'. eapply Hall'; [|exact Hlt]. by eapply list_elem_of_lookup_2.
  - assert (dlt v x) as Hvx by (apply (Hbefore O); [lia|done]).
    assert (forall j u, (j < k)%nat -> vals !! j = Some u -> dlt v u) as Hb'
      by (intros j u Hj; apply (Hbefore (S j)); lia).
    destruct (dltb x min); erewrite IH; eauto; lia.
Qed.

(** Credit of the tunnel [i] of [n] after [T] choices. *)
Definition credit (n T i : Z) : Z := if T <=? i then 0 else 100 - (T - 1 - i) mod n.
Definition credits (n T : Z) : list double := (fun i => d_of_Z (credit n T i)) <$> seqZ 0 n.

Lemma credit_range n T i : 0 < n <= 100 -> 0 <= credit n T i <= 100.
Proof.
  intros Hn. unfold credit. case_match; [lia|].
  pose proof (Z.mod_pos_bound (T - 1 - i) n ltac:(lia)). lia.
Qed.

Lemma credits_lookup n T k v :
  credits n T !! k = Some v <-> Z.of_nat k < n /\ v = d_of_Z (credit n T (Z.of_nat k)).
Proof.
  unfold credits. rewrite list_lookup_fmap, fmap_Some. setoid_rewrite lookup_seqZ. split.
  - intros (x & [-> Hk] & ->). done.
  - intros [Hk ->]. exists (Z.of_nat k). auto.
Qed.

Lemma mod_pred a n : 0 < n -> a mod n <> 0 -> (a - 1) mod n = a mod n - 1.
Proof.
  intros Hn Ha. pose proof (Z.mod_pos_bound a n Hn).
  symmetry. apply (Z.mod_unique_pos _ _ (a / n)); [lia|]. rewrite (Z.div_mod a n) at 1 by lia. lia.
Qed.

Lemma sub_mod_0 T i n : 0 < n -> 0 <= i < n -> (T - i) mod n = 0 <-> i = T mod n.
Proof.
  intros Hn Hi. split.
  - intros Hm. apply Z.mod_divide in Hm as [q Hq]; [|lia].
    apply (Z.mod_unique_pos _ _ q); lia.
  - intros ->. rewrite Zminus_mod_idemp_r, Z.sub_diag. by apply Z.mod_0_l; lia.
Qed.

(** The credit of the next tunnel is the least, strictly. *)
Lemma credit_next n T j :
  0 < n <= 100 -> 0 <= T -> 0 <= j < n -> j <> T mod n ->
  credit n T (T mod n) <= credit n T j /\ (j < T mod n -> credit n T (T mod n) < credit n T j).
Proof.
  intros Hn HT Hj Hne. unfold credit. pose proof (Z.mod_pos_bound T n ltac:(lia)) as Hm.
  pose proof (Z.mod_pos_bound (T - 1 - j) n ltac:(lia)).
  destruct (Z.lt_ge_cases T n) as [Hlt|Hge].
  - rewrite (Z.mod_small T) in * by lia. rewrite Z.leb_refl.
    destruct (Z.leb_spec T j); lia.
  - destruct (Z.leb_spec T (T mod n)); [lia|]. destruct (Z.leb_spec T j); [lia|].
    assert ((T - 1 - T mod n) mod n = n - 1) as ->.
    { symmetry. apply (Z.mod_unique_pos _ _ (T / n - 1)); [lia|]. rewrite (Z.div_mod T n) at 1 by lia. lia. }
    assert ((T - j) mod n <> 0) as Hnz by (rewrite sub_mod_0 by lia; done).
    replace (T - 1 - j) with (T - j - 1) in * by lia. rewrite mod_pred in * by lia.
    pose proof (Z.mod_pos_bound (T - j) n ltac:(lia)). lia.
Qed.

Lemma credits_min n T :
  0 < n <= 100 -> 0 <= T -> wrr_min_index (credits n T) = Z.to_nat (T mod n).
Proof.
  intros Hn HT. pose proof (Z.mod_pos_bound T n ltac:(lia)) as Hm.
  destruct (decide (credit n T (T mod n) = 100)) as [H100|H100].
  - assert (n = 1) as ->.
    { unfold credit in H100. destruct (Z.leb_spec T (T mod n)); [done|].
      destruct (Z.lt_ge_cases T n); [rewrite (Z.mod_small T) in *; lia|].
      assert ((T - 1 - T mod n) mod n = n - 1) as E; [|lia].
      symmetry. apply (Z.mod_unique_pos _ _ (T / n - 1)); [lia|]. rewrite (Z.div_mod T n) at 1 by lia. lia. }
    rewrite Z.mod_1_r in *. unfold credits, wrr_min_index.
    change (seqZ 0 1) with [0]. rewrite fmap_cons, fmap_nil, H100. reflexivity.
  - unfold wrr_min_index. pose proof (credit_range n T (T mod n) Hn).
    rewrite (min_loop_first _ _ _ _ (Z.to_nat (T mod n)) (d_of_Z (credit n T (T mod n)))); [lia|..].
    + apply credits_lookup. rewrite Z2Nat.id by lia. split; [lia|done].
    + apply d_of_Z_lt; lia.
    + intros j u Hj (Hjn & ->)%credits_lookup.
      apply d_of_Z_lt; [apply credit_range; lia|apply credit_range; lia|]. apply credit_next; lia.
    + apply Forall_lookup. intros j u (Hjn & ->)%credits_lookup Hlt.
      apply d_of_Z_lt in Hlt; [|apply credit_range; lia|apply credit_range; lia].
      destruct (decide (Z.of_nat j = T mod n)) as [E|E]; [rewrite E in Hlt; lia|].
      pose proof (credit_next n T (Z.of_nat j) Hn HT ltac:(lia) E). lia.
Qed.

Lemma credits_step n T :
  0 < n <= 100 -> 0 <= T ->
  <[Z.to_nat (T mod n) := ddiv (d_of_Z 100) (d_of_Z 1)]> (decrement (credits n T)) = credits n (T + 1).
Proof.
  intros Hn HT. pose proof (Z.mod_pos_bound T n ltac:(lia)) as Hm.
  assert (ddiv (d_of_Z 100) (d_of_Z 1) = d_of_Z 100) as -> by (vm_compute; reflexivity).
  apply list_eq. intros j. destruct (decide (Z.of_nat j < n)) as [Hj|Hj].
  2: { rewrite !lookup_ge_None_2; [done| |];
       rewrite ?length_insert; unfold decrement, credits; rewrite !length_fmap, length_seqZ; lia. }
  rewrite (proj2 (credits_lookup n (T + 1) j _) (conj Hj eq_refl)).
  destruct (decide (j = Z.to_nat (T mod n))) as [->|Hne].
  - rewrite list_lookup_insert_eq by (unfold decrement, credits; rewrite !length_fmap, length_seqZ; lia).
    rewrite Z2Nat.id by lia. do 2 f_equal. unfold credit. destruct (Z.leb_spec (T + 1) (T mod n)).
    + pose proof (Z.mod_le T n ltac:(lia) ltac:(lia)). lia.
    + replace (T + 1 - 1 - T mod n) with (T - T mod n) by lia.
      rewrite (proj2 (sub_mod_0 T (T mod n) n ltac:(lia) Hm) eq_refl). lia.
  - rewrite list_lookup_insert_ne by done. unfold decrement. rewrite list_lookup_fmap.
    rewrite (proj2 (credits_lookup n T j _) (conj Hj eq_refl)). simpl. f_equal.
    assert (Z.of_nat j <> T mod n) as Hne' by lia.
    pose proof (credit_range n T (Z.of_nat j) Hn) as Hr.
    assert (credit n (T + 1) (Z.of_nat j) =
      if 0 <? credit n T (Z.of_nat j) then credit n T (Z.of_nat j) - 1 else credit n T (Z.of_nat j)) as ->.
    { unfold credit in *. pose proof (Z.mod_pos_bound (T - 1 - Z.of_nat j) n ltac:(lia)).
      destruct (Z.leb_spec T (Z.of_nat j)).
      - rewrite (proj2 (Z.leb_le (T + 1) _)); [done|]. pose proof (Z.mod_small T n ltac:(lia)). lia.
      - rewrite (proj2 (Z.leb_gt _ _)) by lia. rewrite (proj2 (Z.ltb_lt _ _)) by lia.
        replace (T + 1 - 1 - Z.of_nat j) with (T - Z.of_nat j) by lia.
        replace (T - 1 - Z.of_nat j) with (T - Z.of_nat j - 1) by lia.
        rewrite mod_pred; [lia|lia|]. rewrite sub_mod_0; lia. }
    destruct (Z.ltb_spec 0 (credit n T (Z.of_nat j))) as [Hp|Hp].
    + apply (d_of_Z_lt 0) in Hp; [|lia|lia]. rewrite (proj2 (dltb_true _ _) Hp).
      apply d_of_Z_pred. apply (d_of_Z_lt 0) in Hp; lia.
    + assert (credit n T (Z.of_nat j) = 0) as -> by lia. done.
Qed.

Definition unit_weights (w : world) (l : list nat) : Prop :=
  Forall (fun t => exists tun, w_tuns w !! t = Some tun /\ t_weight tun = d_of_Z 1) l.

Lemma choose_step w l T :
  w_wrr w = Wrr l (credits (Z.of_nat (length l)) T) -> (0 < length l <= 100)%nat -> 0 <= T ->
  unit_weights w l ->
  mlvpn_rtun_wrr_choose w =
  Ok (l !! Z.to_nat (T mod Z.of_nat (length l)))
     (w <| w_wrr := Wrr l (credits (Z.of_nat (length l)) (T + 1)) |>).
Proof.
  intros Hw Hl HT Hu. unfold mlvpn_rtun_wrr_choose. unfold mbind at 1, M_bind at 1, gets at 1.
  rewrite Hw. unfold wrr_len. cbn [wrr_tunnel wrr_tunval].
  rewrite (proj2 (Z.eqb_neq _ _)) by lia. rewrite credits_min by lia.
  pose proof (Z.mod_pos_bound T (Z.of_nat (length l)) ltac:(lia)) as Hm.
  destruct (lookup_lt_is_Some_2 l (Z.to_nat (T mod Z.of_nat (length l))) ltac:(lia)) as [t Ht].
  rewrite Ht. unfold expect. unfold mbind at 1, M_bind at 1, mret at 1, M_ret at 1.
  destruct (proj1 (Forall_lookup _ _) Hu _ _ Ht) as (tun & Htun & Hwt).
  unfold mbind at 1, M_bind at 1, tun_get at 1. rewrite Htun, Hwt, credits_step by lia. done.
Qed.

Lemma choose_n_spec k : forall w l T,
  w_wrr w = Wrr l (credits (Z.of_nat (length l)) T) -> (0 < length l <= 100)%nat -> 0 <= T ->
  unit_weights w l ->
  exists w', choose_n k w =
    Ok ((fun i => l !! Z.to_nat (i mod Z.of_nat (length l))) <$> seqZ T (Z.of_nat k)) w'.
Proof.
  induction k as [|k IH]; intros w l T Hw Hl HT Hu; [by eexists|].
  cbn [choose_n]. unfold mbind at 1, M_bind at 1. rewrite (choose_step w l T Hw Hl HT Hu).
  destruct (IH (w <| w_wrr := Wrr l (credits (Z.of_nat (length l)) (T + 1)) |>) l (T + 1))
    as [w' Hk]; [done|done|lia|done|].
  exists w'. unfold mbind at 1, M_bind at 1. rewrite Hk. unfold mret, M_ret. f_equal.
  rewrite (seqZ_cons T), fmap_cons by lia. unfold Z.succ.
  by replace (Z.pred (Z.of_nat (S k))) with (Z.of_nat k) by lia.
Qed.

Lemma credits_0 n : 0 <= n -> credits n 0 = replicate (Z.to_nat n) (d_of_Z 0).
Proof.
  intros Hn. apply list_eq. intros j. unfold credits. rewrite list_lookup_fmap.
  destruct (decide (Z.of_nat j < n)).
  - rewrite lookup_seqZ_lt, lookup_replicate_2 by lia. simpl. unfold credit.
    by rewrite (proj2 (Z.leb_le _ _)) by lia.
  - rewrite lookup_seqZ_ge by lia. symmetry. apply lookup_replicate_None. lia.
Qed.


(** When the table is not empty the scheduler chooses one of its tunnels:
    the one with the least credit, or the first one when every credit is 100
    or more; its new credit is [100 / weight]. *)
Theorem wrr_choose_least w :
  let n := length (wrr_tunnel (w_wrr w)) in
  (0 < n)%nat -> length (wrr_tunval (w_wrr w)) = n ->
  Forall (fun t => is_Some (w_tuns w !! t)) (wrr_tunnel (w_wrr w)) ->
  exists idx t tun v vals,
    mlvpn_rtun_wrr_choose w = Ok (Some t) (w <| w_wrr := Wrr (wrr_tunnel (w_wrr w)) vals |>) /\
    wrr_tunnel (w_wrr w) !! idx = Some t /\ wrr_tunval (w_wrr w) !! idx = Some v /\
    w_tuns w !! t = Some tun /\ vals !! idx = Some (ddiv (d_of_Z 100) (t_weight tun)) /\
    (Forall (fun u => ~ dlt u v) (wrr_tunval (w_wrr w)) \/
     idx = O /\ Forall (fun u => ~ dlt u (d_of_Z 100)) (wrr_tunval (w_wrr w))).
Proof.
  intros n Hn Hlen Hal. unfold mlvpn_rtun_wrr_choose. unfold mbind at 1, M_bind at 1, gets at 1.
  unfold wrr_len. fold n. rewrite (proj2 (Z.eqb_neq _ _)) by lia.
  destruct (lookup_lt_is_Some_2 (wrr_tunval (w_wrr w)) O ltac:(lia)) as [v0 Hv0].
  destruct (min_index_spec _ _ Hv0) as (v & Hv & Hleast).
  set (idx := wrr_min_index _) in *. pose proof (lookup_lt_Some _ _ _ Hv) as Hidx.
  destruct (lookup_lt_is_Some_2 (wrr_tunnel (w_wrr w)) idx ltac:(lia)) as [t Ht].
  destruct (proj1 (Forall_lookup _ _) Hal _ _ Ht) as [tun Htun].
  rewrite Ht. unfold expect. unfold mbind at 1, M_bind at 1, mret at 1, M_ret at 1.
  unfold mbind at 1, M_bind at 1, tun_get at 1. rewrite Htun.
  exists idx, t, tun, v, (<[idx := ddiv (d_of_Z 100) (t_weight tun)]> (decrement (wrr_tunval (w_wrr w)))).
  split_and!; try done. apply list_lookup_insert_eq. unfold decrement. rewrite length_fmap. lia.
Qed.
End round_robin.

Definition two_up : world :=
  world_of [tun_zero <| t_status := MLVPN_AUTHOK |>; tun_zero <| t_status := MLVPN_AUTHOK |>].


Lemma wrr_choose_least_witness :
  let w := two_up <| w_wrr := Wrr [1; 0]%nat [d_of_Z 3; d_of_Z 2] |> in
  exists idx t tun v vals,
    mlvpn_rtun_wrr_choose w = Ok (Some t) (w <| w_wrr := Wrr [1; 0]%nat vals |>) /\
    [1; 0]%nat !! idx = Some t /\ [d_of_Z 3; d_of_Z 2] !! idx = Some v /\
    w_tuns w !! t = Some tun /\ vals !! idx = Some (ddiv (d_of_Z 100) (t_weight tun)) /\
    (Forall (fun u => ~ dlt u v) [d_of_Z 3; d_of_Z 2] \/
     idx = O /\ Forall (fun u => ~ dlt u (d_of_Z 100)) [d_of_Z 3; d_of_Z 2]).
Proof.
  intros w. apply (wrr_choose_least w).
  - vm_compute. lia.
  - reflexivity.
  - repeat constructor; by eexists.
Defined.
