(* ===== verification/Protocol.v ===== *)
(** * Datagrams ([mlvpn_protocol_read] and the first half of
      [mlvpn_rtun_send] of [src/src/mlvpn.c], [src/src/crypto.c])

    [rtun_encap] builds the datagram for a packet and [mlvpn_protocol_read]
    takes one apart; both update the tunnel (sequence numbers, timestamps,
    round trip time, loss).  The laws of [secretbox] the theorems rely on are
    the class [SodiumLaws]. *)

From S2P Require Import Prelude Double CString Timestamp Pkt Buffer Reorder Tunnel Loss.

Definition crypto_PADSIZE : Z := 16.
Definition crypto_NONCEBYTES : nat := 24.

Section protocol.
Context `{OS}.

(** ** [crypto.c]: the wrappers around libsodium; [key] is the static key. *)
Definition crypto_encrypt (m nonce key : list Z) : option (list Z) := secretbox_easy m nonce key.
Definition crypto_decrypt (c nonce key : list Z) : option (list Z) := secretbox_open_easy c nonce key.
Definition crypto_set_password (password : list Z) : list Z := os_generichash password.

(** [crypto_nonce_random]: [randombytes_random] in a [uint32_t]. *)
Definition crypto_nonce_random : W Z := r ← ask os_randombytes_random; mret (u32 r).

(** The nonce: [seq] and [flow_id] as they lie in memory, then zeroes. *)
Definition nonce_of (seq flow_id : Z) : list Z :=
  le_bytes 8 seq ++ le_bytes 4 flow_id ++ zeroes (crypto_NONCEBYTES - 12).

(** ** Reception *)

Definition alpha : double := ddiv (d_of_Z 1) (d_of_Z 8).
Definition beta : double := ddiv (d_of_Z 1) (d_of_Z 4).

(** The round trip time update for a measure [R]. *)
Definition rtt_update (tun : mlvpn_tunnel_t) (R : double) : mlvpn_tunnel_t :=
  if dltb R (d_of_Z 5000) then
    if negb (t_rtt_hit tun) then
      tun <| t_srtt := R |> <| t_rttvar := ddiv R (d_of_Z 2) |> <| t_rtt_hit := true |>
    else
      let tun := tun <| t_rttvar := dadd (dmul (dsub (d_of_Z 1) beta) (t_rttvar tun))
                                      (dmul beta (dabs (dsub (t_srtt tun) R))) |> in
      tun <| t_srtt := dadd (dmul (dsub (d_of_Z 1) alpha) (t_srtt tun)) (dmul alpha R) |>
  else tun.

(** The part of [mlvpn_protocol_read] after the packet is authenticated. *)
Definition protocol_accept (now64 : Z) (tun : mlvpn_tunnel_t) (proto : mlvpn_proto_t)
    (data : list Z) (rlen : Z) : mlvpn_tunnel_t * mlvpn_pkt_t :=
  let '(tun, reorder, seq) :=
    if 1 <=? proto_version proto then
      (mlvpn_loss_update tun (proto_seq proto), proto_reorder proto, be64toh (proto_data_seq proto))
    else (tun, 0, 0) in
  let decap := Pkt rlen (proto_flags proto) reorder seq data in
  let tun :=
    if negb (proto_timestamp proto =? u16 (-1)) then
      tun <| t_saved_timestamp := proto_timestamp proto |>
          <| t_saved_timestamp_received_at := now64 |>
    else tun in
  let tun :=
    if negb (proto_timestamp_reply proto =? u16 (-1)) then
      let now16 := mlvpn_timestamp16 now64 in
      rtt_update tun (d_of_Z (mlvpn_timestamp16_diff now16 (proto_timestamp_reply proto)))
    else tun in
  (tun, decap).

(** [None]: the function returns -1 and the tunnel is as it was. *)
Definition mlvpn_protocol_read (cleartext : bool) (key : list Z) (now64 : Z)
    (tun : mlvpn_tunnel_t) (pkt : mlvpn_pkt_t) : option (mlvpn_tunnel_t * mlvpn_pkt_t) :=
  if (Z.of_nat DEFAULT_MTU <? pkt_len pkt) || (Z.of_nat sizeof_proto <? pkt_len pkt) ||
     (pkt_len pkt <? Z.of_nat PKTHDRSIZ)
  then None
  else
    let proto := decode_proto (payload pkt) in
    let rlen := be16toh (proto_len proto) in
    if (rlen =? 0) || (Z.of_nat DEFAULT_MTU <? rlen) then None
    else
      let proto := proto <| proto_seq := be64toh (proto_seq proto) |>
                         <| proto_timestamp := be16toh (proto_timestamp proto) |>
                         <| proto_timestamp_reply := be16toh (proto_timestamp_reply proto) |>
                         <| proto_flow_id := be32toh (proto_flow_id proto) |> in
      if cleartext && (proto_flags proto =? MLVPN_PKT_DATA) then
        Some (protocol_accept now64 tun proto
                (memcpy (zeroes DEFAULT_MTU) (proto_data proto) (Z.to_nat rlen)) rlen)
      else
        match crypto_decrypt (take (Z.to_nat rlen) (proto_data proto))
                (nonce_of (proto_seq proto) (proto_flow_id proto)) key with
        | None => None
        | Some m =>
            Some (protocol_accept now64 tun proto (memcpy (zeroes DEFAULT_MTU) m (length m))
                    (u16 (rlen - crypto_PADSIZE)))
        end.

(** ** Emission *)

(** What [mlvpn_rtun_send] has done when it reaches [sendto], or when it
    returns -1 before ([encap_dgram] is [None]): the tunnel, the packet, the
    global [data_seq] and the bytes to send. *)
Record encap := Encap {
  encap_tun : mlvpn_tunnel_t;
  encap_pkt : mlvpn_pkt_t;
  encap_data_seq : Z;
  encap_dgram : option (list Z)
}.

(** The header, before encryption and before the byte order conversion. *)
Definition rtun_header (now64 data_seq : Z) (tun : mlvpn_tunnel_t) (pkt : mlvpn_pkt_t) :
    mlvpn_proto_t * mlvpn_tunnel_t * Z :=
  let proto := zero_proto in
  let '(proto, data_seq) :=
    if (pkt_type pkt =? MLVPN_PKT_DATA) && negb (pkt_reorder pkt =? 0) then
      (proto <| proto_data_seq := data_seq |>, u64 (data_seq + 1))
    else (proto, data_seq) in
  let proto := proto <| proto_len := pkt_len pkt |> <| proto_flags := pkt_type pkt |> in
  let '(proto, tun) :=
    if negb (pkt_reorder pkt =? 0) then
      (proto <| proto_seq := t_seq tun |>, tun <| t_seq := u64 (t_seq tun + 1) |>)
    else (proto, tun) in
  let proto := proto <| proto_flow_id := t_flow_id tun |>
                     <| proto_version := MLVPN_PROTOCOL_VERSION |>
                     <| proto_reorder := pkt_reorder pkt |> in
  let '(proto, tun) :=
    if u64 (now64 - t_saved_timestamp_received_at tun) <? 1000 then
      (proto <| proto_timestamp_reply :=
         u16 (t_saved_timestamp tun + u64 (now64 - t_saved_timestamp_received_at tun)) |>,
       tun <| t_saved_timestamp := u64 (-1) |> <| t_saved_timestamp_received_at := 0 |>)
    else (proto <| proto_timestamp_reply := u16 (-1) |>, tun) in
  (proto <| proto_timestamp := mlvpn_timestamp16 now64 |>, tun, data_seq).

(** The multi-byte fields in network order. *)
Definition to_network (proto : mlvpn_proto_t) : mlvpn_proto_t :=
  proto <| proto_len := htobe16 (proto_len proto) |>
        <| proto_seq := htobe64 (proto_seq proto) |>
        <| proto_data_seq := htobe64 (proto_data_seq proto) |>
        <| proto_flow_id := htobe32 (proto_flow_id proto) |>
        <| proto_timestamp := htobe16 (proto_timestamp proto) |>
        <| proto_timestamp_reply := htobe16 (proto_timestamp_reply proto) |>.

Definition rtun_encap (cleartext : bool) (key : list Z) (now64 data_seq : Z)
    (tun : mlvpn_tunnel_t) (pkt : mlvpn_pkt_t) : encap :=
  let pkt := pkt <| pkt_reorder := 1 |> in
  let wlen := Z.of_nat PKTHDRSIZ + pkt_len pkt in
  let '(proto, tun, data_seq) := rtun_header now64 data_seq tun pkt in
  if cleartext && (pkt_type pkt =? MLVPN_PKT_DATA) then
    let proto := proto <| proto_data := memcpy (proto_data proto) (pkt_data pkt) (Z.to_nat (pkt_len pkt)) |> in
    Encap tun pkt data_seq (Some (encode_proto (to_network proto) (Z.to_nat wlen)))
  else if Z.of_nat DEFAULT_MTU <? wlen + crypto_PADSIZE then Encap tun pkt data_seq None
  else
    match crypto_encrypt (payload pkt) (nonce_of (proto_seq proto) (proto_flow_id proto)) key with
    | None => Encap tun pkt data_seq None
    | Some c =>
        let proto := proto <| proto_data := memcpy (proto_data proto) c (length c) |>
                           <| proto_len := u16 (proto_len proto + crypto_PADSIZE) |> in
        let wlen := wlen + crypto_PADSIZE in
        Encap tun pkt data_seq (Some (encode_proto (to_network proto) (Z.to_nat wlen)))
    end.
End protocol.

(** ** What libsodium promises

    Opening a box with the nonce and key it was sealed with gives the message
    back; a box is sixteen bytes longer than its message. *)
Class SodiumLaws `{OS} : Prop := {
  open_seal m n k c : secretbox_easy m n k = Some c -> secretbox_open_easy c n k = Some m;
  seal_length m n k c : secretbox_easy m n k = Some c -> length c = (length m + 16)%nat;
  open_length m n k c : secretbox_open_easy c n k = Some m -> length c = (length m + 16)%nat
}.

Lemma os_ideal_sodium : SodiumLaws (H := os_ideal).
Proof.
  split; intros m n k c; unfold secretbox_easy, secretbox_open_easy, os_ideal; cbv beta iota.
  - intros [= <-]. done.
  - intros [= <-]. simpl. lia.
  - destruct (Nat.ltb_spec (length c) 16); [done|]. intros [= <-]. rewrite length_drop. lia.
Qed.

(** ** Round trip *)
Section roundtrip.
Context `{SodiumLaws}.

(** A packet the program can hold. *)
Record pkt_ok (p : mlvpn_pkt_t) : Prop := {
  pk_len : 0 <= pkt_len p <= Z.of_nat DEFAULT_MTU;
  pk_type : 0 <= pkt_type p < 64;
  pk_data : length (pkt_data p) = DEFAULT_MTU
}.

Lemma length_payload p : pkt_ok p -> length (payload p) = Z.to_nat (pkt_len p).
Proof. intros [Hl _ Hd]. unfold payload. rewrite length_take. lia. Qed.

Lemma payload_memcpy len type reorder seq m :
  Z.to_nat len = length m -> payload (Pkt len type reorder seq (memcpy (zeroes DEFAULT_MTU) m (length m))) = m.
Proof. intros Hl. unfold payload. simpl. rewrite Hl, take_memcpy by done. apply take_ge. done. Qed.

(** The datagram as [recvfrom] stores it. *)
Definition received (dgram : list Z) : mlvpn_pkt_t :=
  Pkt (Z.of_nat (length dgram)) 0 0 0 (memcpy (zeroes DEFAULT_MTU) dgram (length dgram)).

Lemma bswap_inv n z : 0 <= z < 256 ^ Z.of_nat n -> bswap n (bswap n z) = z.
Proof. intros Hz. rewrite bswap_bswap. by apply Z.mod_small. Qed.

(** The numbers of a tunnel that go on the wire fit their fields. *)
Record tun_wire (t : mlvpn_tunnel_t) : Prop := {
  tw_seq : 0 <= t_seq t < 2 ^ 64;
  tw_flow_id : 0 <= t_flow_id t < 2 ^ 32
}.

Lemma header_spec now64 ds tun pkt proto tun' ds' :
  rtun_header now64 ds tun (pkt <| pkt_reorder := 1 |>) = (proto, tun', ds') ->
  proto_len proto = pkt_len pkt /\ proto_version proto = 1 /\ proto_flags proto = pkt_type pkt /\
  proto_reorder proto = 1 /\ proto_unused proto = 0 /\
  0 <= proto_timestamp proto < 2 ^ 16 /\ 0 <= proto_timestamp_reply proto < 2 ^ 16 /\
  proto_flow_id proto = t_flow_id tun /\ proto_seq proto = t_seq tun /\
  proto_data_seq proto = (if pkt_type pkt =? MLVPN_PKT_DATA then ds else 0) /\
  proto_data proto = zeroes DEFAULT_MTU /\
  t_seq tun' = u64 (t_seq tun + 1) /\ t_flow_id tun' = t_flow_id tun /\
  ds' = (if pkt_type pkt =? MLVPN_PKT_DATA then u64 (ds + 1) else ds).
Proof.
  unfold rtun_header. simpl. intros Heq.
  pose proof (timestamp16_range now64). assert (0 <= u16 (-1) < 2 ^ 16) by done.
  set (r := u16 (t_saved_timestamp tun + _)) in Heq.
  assert (0 <= r < 2 ^ 16) as Hr by (apply Z.mod_pos_bound; lia). clearbody r.
  destruct (pkt_type pkt =? MLVPN_PKT_DATA); simpl in Heq; destruct (_ <? 1000);
    injection Heq as <- <- <-; simpl; split_and!; try done; lia.
Qed.

(** Decoding an encoded header gives back the fields in host order. *)
Lemma decode_network proto c k :
  (0 <= proto_len proto < 2 ^ 16) -> proto_version proto = 1 -> 0 <= proto_flags proto < 64 ->
  proto_reorder proto = 1 -> proto_unused proto = 0 ->
  0 <= proto_timestamp proto < 2 ^ 16 -> 0 <= proto_timestamp_reply proto < 2 ^ 16 ->
  0 <= proto_flow_id proto < 2 ^ 32 -> 0 <= proto_seq proto < 2 ^ 64 ->
  0 <= proto_data_seq proto < 2 ^ 64 ->
  proto_data proto = memcpy (zeroes DEFAULT_MTU) c k -> (k <= DEFAULT_MTU)%nat -> (k <= length c)%nat ->
  decode_proto (encode_proto (to_network proto) (PKTHDRSIZ + k)) = to_network proto.
Proof.
  intros Hlen Hv Hf Hr Hu Ht Htr Hfl Hs Hds Hd Hk Hc.
  assert (length (proto_data proto) = DEFAULT_MTU) as Hld.
  { rewrite Hd, length_memcpy; rewrite ?length_zeroes; done. }
  rewrite decode_encode_proto; [| |done].
  - assert (take k (proto_data proto) ++ zeroes (DEFAULT_MTU - k) = proto_data proto) as Heq.
    { rewrite Hd, take_memcpy by done. unfold memcpy. f_equal. unfold zeroes.
      by rewrite drop_replicate. }
    change (proto_data (to_network proto)) with (proto_data proto). rewrite Heq. done.
  - split; unfold in_width, to_network; cbn [proto_len proto_version proto_flags proto_reorder
      proto_unused proto_timestamp proto_timestamp_reply proto_flow_id proto_seq proto_data_seq
      proto_data update]; try apply bswap_range; try done; lia.
Qed.

(** A header in host order with a payload [c], as [rtun_encap] completes it. *)
Record sendable (proto : mlvpn_proto_t) (c : list Z) : Prop := {
  sd_len : proto_len proto = Z.of_nat (length c);
  sd_nonempty : (0 < length c)%nat;
  sd_fits : (PKTHDRSIZ + length c <= DEFAULT_MTU)%nat;
  sd_version : proto_version proto = 1;
  sd_flags : 0 <= proto_flags proto < 64;
  sd_reorder : proto_reorder proto = 1;
  sd_unused : proto_unused proto = 0;
  sd_timestamp : 0 <= proto_timestamp proto < 2 ^ 16;
  sd_timestamp_reply : 0 <= proto_timestamp_reply proto < 2 ^ 16;
  sd_flow_id : 0 <= proto_flow_id proto < 2 ^ 32;
  sd_seq : 0 <= proto_seq proto < 2 ^ 64;
  sd_data_seq : 0 <= proto_data_seq proto < 2 ^ 64;
  sd_data : proto_data proto = memcpy (zeroes DEFAULT_MTU) c (length c)
}.

Lemma length_encode_proto proto n :
  length (proto_data proto) = DEFAULT_MTU -> (n <= sizeof_proto)%nat -> length (encode_proto proto n) = n.
Proof.
  intros Hd Hn. unfold encode_proto. rewrite length_take, length_app, length_encode_hdr, Hd.
  unfold sizeof_proto in Hn. lia.
Qed.

Lemma payload_received d : payload (received d) = d.
Proof. apply payload_memcpy. lia. Qed.

(** What the receiver makes of a sendable header. *)
Lemma read_sendable ct key now64 tun proto c :
  sendable proto c ->
  let hp := proto <| proto_data_seq := htobe64 (proto_data_seq proto) |>
                  <| proto_len := htobe16 (proto_len proto) |> in
  mlvpn_protocol_read ct key now64 tun (received (encode_proto (to_network proto) (PKTHDRSIZ + length c))) =
  if ct && (proto_flags proto =? MLVPN_PKT_DATA) then
    Some (protocol_accept now64 tun hp (memcpy (zeroes DEFAULT_MTU) c (length c)) (Z.of_nat (length c)))
  else
    match crypto_decrypt c (nonce_of (proto_seq proto) (proto_flow_id proto)) key with
    | None => None
    | Some m => Some (protocol_accept now64 tun hp (memcpy (zeroes DEFAULT_MTU) m (length m))
                        (u16 (Z.of_nat (length c) - crypto_PADSIZE)))
    end.
Proof.
  intros [] hp. unfold mlvpn_protocol_read. rewrite payload_received.
  assert (length c <= DEFAULT_MTU)%nat as Hcl by (unfold PKTHDRSIZ in *; lia).
  assert (length (proto_data (to_network proto)) = DEFAULT_MTU) as Hld.
  { change (proto_data (to_network proto)) with (proto_data proto).
    rewrite sd_data0, length_memcpy; rewrite ?length_zeroes; done. }
  unfold received at 1 2 3. cbn [pkt_len].
  rewrite length_encode_proto by (try done; unfold sizeof_proto; lia).
  rewrite !(proj2 (Z.ltb_ge _ _)) by (unfold sizeof_proto, PKTHDRSIZ, DEFAULT_MTU in *; lia). cbn [orb].
  rewrite (decode_network proto c (length c)); try done; [|rewrite sd_len0; unfold DEFAULT_MTU in *; lia].
  assert (be16toh (proto_len (to_network proto)) = Z.of_nat (length c)) as Hl.
  { rewrite <- sd_len0. apply bswap_inv. change (256 ^ Z.of_nat 2) with (2 ^ 16).
    rewrite sd_len0. unfold DEFAULT_MTU in *. lia. }
  rewrite Hl. rewrite (proj2 (Z.eqb_neq _ _)), (proj2 (Z.ltb_ge _ _)) by (unfold DEFAULT_MTU in *; lia).
  cbn [orb]. rewrite Nat2Z.id.
  assert (be64toh (htobe64 (proto_seq proto)) = proto_seq proto) as Hs by (by apply bswap_inv).
  assert (be16toh (htobe16 (proto_timestamp proto)) = proto_timestamp proto) as Ht by (by apply bswap_inv).
  assert (be16toh (htobe16 (proto_timestamp_reply proto)) = proto_timestamp_reply proto) as Htr by (by apply bswap_inv).
  assert (be32toh (htobe32 (proto_flow_id proto)) = proto_flow_id proto) as Hf by (by apply bswap_inv).
  unfold to_network. cbn [proto_len proto_version proto_flags proto_reorder
      proto_unused proto_timestamp proto_timestamp_reply proto_flow_id proto_seq proto_data_seq
      proto_data update]. rewrite Hs, Ht, Htr, Hf.
  assert (take (length c) (proto_data proto) = c) as Hc.
  { rewrite sd_data0, take_memcpy by done. by apply take_ge. }
  assert (memcpy (zeroes DEFAULT_MTU) (proto_data proto) (length c) =
    memcpy (zeroes DEFAULT_MTU) c (length c)) as Hm.
  { unfold memcpy. f_equal. rewrite Hc. symmetry. by apply take_ge. }
  rewrite Hc, Hm. reflexivity.
Qed.

(** The packet [protocol_accept] hands over. *)
Lemma accept_pkt now64 tun proto data rlen :
  proto_version proto = 1 ->
  (protocol_accept now64 tun proto data rlen).2 =
  Pkt rlen (proto_flags proto) (proto_reorder proto) (be64toh (proto_data_seq proto)) data.
Proof. intros Hv. unfold protocol_accept. by rewrite Hv. Qed.

Definition plain (ct : bool) (pkt : mlvpn_pkt_t) : bool := ct && (pkt_type pkt =? MLVPN_PKT_DATA).

Lemma encap_sendable ct key now64 ds tun pkt dgram :
  pkt_ok pkt -> tun_wire tun -> 0 <= ds < 2 ^ 64 ->
  (plain ct pkt = true -> 0 < pkt_len pkt /\ pkt_len pkt + Z.of_nat PKTHDRSIZ <= Z.of_nat DEFAULT_MTU) ->
  encap_dgram (rtun_encap ct key now64 ds tun pkt) = Some dgram ->
  exists proto c, sendable proto c /\ dgram = encode_proto (to_network proto) (PKTHDRSIZ + length c) /\
    proto_flags proto = pkt_type pkt /\
    proto_data_seq proto = (if pkt_type pkt =? MLVPN_PKT_DATA then ds else 0) /\
    if plain ct pkt then c = payload pkt
    else secretbox_easy (payload pkt) (nonce_of (proto_seq proto) (proto_flow_id proto)) key = Some c.
Proof.
  intros Hp [Hts Htf] Hds Hplain. unfold rtun_encap.
  destruct (rtun_header _ _ _ _) as [[proto tun'] ds'] eqn:Hh.
  apply header_spec in Hh as (H1 & H2 & H3 & H4 & H5 & H6 & H7 & H8 & H9 & H10 & H11 & _).
  cbn [pkt_type pkt_len pkt_data update] in *.
  pose proof (length_payload pkt Hp) as Hlp. pose proof (pk_len _ Hp) as Hl. pose proof (pk_type _ Hp) as Hty.
  assert (0 <= proto_data_seq proto < 2 ^ 64) as Hd by (rewrite H10; destruct (_ =? _); lia).
  unfold plain in *. destruct (ct && (pkt_type pkt =? MLVPN_PKT_DATA)) eqn:Hpl.
  - destruct (Hplain eq_refl) as [Hpos Hfit]. intros [= <-].
    exists (proto <| proto_data := memcpy (proto_data proto) (pkt_data pkt) (Z.to_nat (pkt_len pkt)) |>), (payload pkt).
    split_and!; try done.
    + split; simpl; rewrite ?H1, ?H3, ?H8, ?H9, ?Hlp; try done; try (unfold PKTHDRSIZ, DEFAULT_MTU in *; lia).
      rewrite H11. unfold memcpy. f_equal. symmetry. unfold payload. rewrite take_take. f_equal. lia.
    + rewrite Hlp. f_equal. lia.
  - destruct (Z.ltb_spec (Z.of_nat DEFAULT_MTU) (Z.of_nat PKTHDRSIZ + pkt_len pkt + crypto_PADSIZE)) as [|Hfit]; [done|].
    unfold crypto_encrypt. change (payload _) with (payload pkt).
    destruct (secretbox_easy (payload pkt) _ key) as [c|] eqn:Hs; [|done]. intros [= <-].
    pose proof (seal_length _ _ _ _ Hs) as Hc. rewrite Hlp in Hc. unfold crypto_PADSIZE in *.
    exists (proto <| proto_data := memcpy (proto_data proto) c (length c) |>
                  <| proto_len := u16 (proto_len proto + 16) |>), c.
    split_and!; try done.
    + split; simpl; rewrite ?H1, ?H3, ?H8, ?H9; try done; try (unfold PKTHDRSIZ, DEFAULT_MTU in *; lia).
      * unfold u16, wrap. rewrite Z.mod_small by (unfold PKTHDRSIZ, DEFAULT_MTU in *; lia). lia.
      * by rewrite H11.
    + f_equal. lia.
Qed.

(** What the peer makes of a datagram. *)
Lemma read_encap ct key now64 ds tun pkt dgram now64' peer :
  pkt_ok pkt -> tun_wire tun -> 0 <= ds < 2 ^ 64 ->
  (plain ct pkt = true -> 0 < pkt_len pkt /\ pkt_len pkt + Z.of_nat PKTHDRSIZ <= Z.of_nat DEFAULT_MTU) ->
  encap_dgram (rtun_encap ct key now64 ds tun pkt) = Some dgram ->
  exists peer' decap,
    mlvpn_protocol_read ct key now64' peer (received dgram) = Some (peer', decap) /\
    pkt_len decap = pkt_len pkt /\ payload decap = payload pkt /\ pkt_type decap = pkt_type pkt /\
    pkt_reorder decap = 1 /\ (pkt_type pkt = MLVPN_PKT_DATA -> pkt_seq decap = ds).
Proof.
  intros Hp Ht Hds Hplain Hd.
  destruct (encap_sendable ct key now64 ds tun pkt dgram Hp Ht Hds Hplain Hd)
    as (proto & c & Hs & -> & Hfl & Hdseq & Hc).
  rewrite (read_sendable ct key now64' peer proto c Hs), Hfl. fold (plain ct pkt).
  set (hp := proto <| proto_data_seq := _ |> <| proto_len := _ |>).
  pose proof (length_payload pkt Hp) as Hlp. pose proof (pk_len _ Hp) as Hl.
  assert (forall data rlen, (protocol_accept now64' peer hp data rlen).2 =
    Pkt rlen (pkt_type pkt) 1 (proto_data_seq proto) data) as Hacc.
  { intros data rlen. rewrite accept_pkt by apply Hs. unfold hp. cbn [proto_flags proto_reorder proto_data_seq update].
    rewrite Hfl, (sd_reorder _ _ Hs). f_equal. apply bswap_inv, Hs. }
  assert (pkt_type pkt = MLVPN_PKT_DATA -> proto_data_seq proto = ds) as Hseq.
  { intros E. rewrite Hdseq, E. done. }
  destruct (plain ct pkt).
  - subst c. destruct (protocol_accept _ _ _ _ _) as [peer' decap] eqn:E.
    pose proof (Hacc (memcpy (zeroes DEFAULT_MTU) (payload pkt) (length (payload pkt))) (Z.of_nat (length (payload pkt)))) as Hpk.
    rewrite E in Hpk. simpl in Hpk. subst decap. eexists _, _. split; [reflexivity|].
    rewrite payload_memcpy by lia. split_and!; try done. simpl. lia.
  - unfold crypto_decrypt. rewrite (open_seal _ _ _ _ Hc). pose proof (seal_length _ _ _ _ Hc) as Hcl.
    destruct (protocol_accept _ _ _ _ _) as [peer' decap] eqn:E.
    pose proof (Hacc (memcpy (zeroes DEFAULT_MTU) (payload pkt) (length (payload pkt)))
      (u16 (Z.of_nat (length c) - crypto_PADSIZE))) as Hpk.
    rewrite E in Hpk. simpl in Hpk. subst decap.
    assert (u16 (Z.of_nat (length c) - crypto_PADSIZE) = pkt_len pkt) as Hu.
    { unfold u16, wrap, crypto_PADSIZE, DEFAULT_MTU in *. rewrite Z.mod_small; lia. }
    eexists _, _. split; [reflexivity|]. rewrite Hu, payload_memcpy by lia. done.
Qed.

(** C12: a packet that [mlvpn_rtun_send] puts on the wire is accepted by a peer
    that has the same key and the same [cleartext_data] option, and the packet
    the peer gets has the payload, the type and the data sequence number it
    was sent with; libsodium is trusted to open what it sealed. *)
Theorem protocol_roundtrip ct key now64 ds tun pkt dgram now64' peer :
  pkt_ok pkt -> tun_wire tun -> 0 <= ds < 2 ^ 64 ->
  (plain ct pkt = true -> 0 < pkt_len pkt /\ pkt_len pkt + Z.of_nat PKTHDRSIZ <= Z.of_nat DEFAULT_MTU) ->
  encap_dgram (rtun_encap ct key now64 ds tun pkt) = Some dgram ->
  exists peer' decap,
    mlvpn_protocol_read ct key now64' peer (received dgram) = Some (peer', decap) /\
    pkt_len decap = pkt_len pkt /\ payload decap = payload pkt /\ pkt_type decap = pkt_type pkt /\
    pkt_reorder decap = 1 /\ (pkt_type pkt = MLVPN_PKT_DATA -> pkt_seq decap = ds).
Proof. apply read_encap. Qed.

Lemma dgram_length ct key now64 ds tun pkt dgram :
  pkt_ok pkt -> tun_wire tun -> 0 <= ds < 2 ^ 64 ->
  (plain ct pkt = true -> 0 < pkt_len pkt /\ pkt_len pkt + Z.of_nat PKTHDRSIZ <= Z.of_nat DEFAULT_MTU) ->
  encap_dgram (rtun_encap ct key now64 ds tun pkt) = Some dgram ->
  (0 < length dgram <= DEFAULT_MTU)%nat.
Proof.
  intros Hp Ht Hds Hplain Hd.
  destruct (encap_sendable ct key now64 ds tun pkt dgram Hp Ht Hds Hplain Hd) as (proto & c & Hs & -> & _).
  destruct Hs. rewrite length_encode_proto.
  - unfold PKTHDRSIZ in *. lia.
  - change (proto_data (to_network proto)) with (proto_data proto).
    rewrite sd_data0, length_memcpy; rewrite ?length_zeroes; unfold PKTHDRSIZ, DEFAULT_MTU in *; lia.
  - unfold sizeof_proto. lia.
Qed.

(** What is not sent is too long to be sealed or refused by libsodium. *)
Lemma encap_total ct key now64 ds tun pkt :
  plain ct pkt = true \/
  (forall m n, is_Some (secretbox_easy m n key)) /\
  Z.of_nat PKTHDRSIZ + pkt_len pkt + crypto_PADSIZE <= Z.of_nat DEFAULT_MTU ->
  is_Some (encap_dgram (rtun_encap ct key now64 ds tun pkt)).
Proof.
  intros Hc. unfold rtun_encap. destruct (rtun_header _ _ _ _) as [[proto tun'] ds'].
  cbn [pkt_type pkt_len update]. fold (plain ct pkt). destruct (plain ct pkt); [by eexists|].
  destruct Hc as [|[Hs Hl]]; [done|]. rewrite (proj2 (Z.ltb_ge _ _)) by done.
  unfold crypto_encrypt. destruct (secretbox_easy _ _ _) as [c|] eqn:E; [by eexists|].
  match type of E with secretbox_easy ?m ?n _ = _ => destruct (Hs m n) as [c Hc] end.
  by rewrite Hc in E.
Qed.
End roundtrip.

Lemma protocol_roundtrip_witness :
  let pkt := Pkt 3 MLVPN_PKT_DATA 0 0 (memcpy (zeroes DEFAULT_MTU) [7; 8; 9] 3) in
  exists peer' decap,
    mlvpn_protocol_read (H := os_ideal) false [1] 5 tun_zero
      (received (default [] (encap_dgram (rtun_encap (H := os_ideal) false [1] 0 42 tun_zero pkt)))) = Some (peer', decap) /\
    pkt_len decap = 3 /\ payload decap = [7; 8; 9] /\ pkt_type decap = MLVPN_PKT_DATA /\
    pkt_reorder decap = 1 /\ (MLVPN_PKT_DATA = MLVPN_PKT_DATA -> pkt_seq decap = 42).
Proof.
  intros pkt.
  destruct (encap_dgram (rtun_encap (H := os_ideal) false [1] 0 42 tun_zero pkt)) as [dgram|] eqn:Hd; [|exfalso; revert Hd; vm_compute; discriminate].
  apply (@protocol_roundtrip os_ideal os_ideal_sodium false [1] 0 42 tun_zero pkt dgram 5 tun_zero).
  - split; [split; vm_compute; discriminate|split; vm_compute; (discriminate || reflexivity)|reflexivity].
  - split; split; vm_compute; (discriminate || reflexivity).
  - split; vm_compute; (discriminate || reflexivity).
  - intros E. vm_compute in E. discriminate E.
  - exact Hd.
Defined.
