(* ===== verification/Tuntap.v ===== *)
(** * The tuntap device ([src/src/tuntap_generic.c], [src/src/tuntap_linux.c],
      [tuntap_io_event] and [mlvpn_tuntap_init] of [src/src/mlvpn.c]) and the
      filters ([src/src/filters.c])

    A packet read from the device goes to the tunnel a filter designates, on
    its high priority ring, or else to the tunnel the scheduler chooses. *)

From S2P Require Import Prelude Double CString Timestamp Pkt Buffer Reorder Tunnel Wrr.

Section tuntap.
Context `{OS}.

(** ** Filters *)

(** The loop of [mlvpn_filters_choose] from the filter at the head of [fs] on. *)
Fixpoint filters_loop (fs : mlvpn_filters_s) (pktdata : list Z) : W (option nat) :=
  match fs with
  | [] => mret None
  | (filter, t) :: fs =>
      if os_pcap_offline_filter filter pktdata then
        tun ← tun_get t;
        if negb (t_up tun) then filters_loop fs pktdata else mret (Some t)
      else filters_loop fs pktdata
  end.
Definition mlvpn_filters_choose (pktdata : list Z) : W (option nat) :=
  fs ← gets w_filters; filters_loop fs pktdata.

Definition mlvpn_filters_add (filter t : nat) : W Z :=
  fs ← gets w_filters;
  if 255 <=? Z.of_nat (length fs) then mret (-1)
  else modify (fun w => w <| w_filters := fs ++ [(filter, t)] |>);; mret 0.

(** ** From the device to a tunnel *)

(** [pkt->len = len; memcpy(pkt->data, data, pkt->len)] *)
Definition fill_data (len : Z) (data : list Z) (slot : mlvpn_pkt_t) : mlvpn_pkt_t :=
  slot <| pkt_len := u16 len |>
       <| pkt_data := memcpy (pkt_data slot) data (Z.to_nat (u16 len)) |>.

(** [data] is what was read, [len] its length; the rings are those of the
    tunnel, [hp] saying which one. *)
Definition mlvpn_tuntap_generic_read (data : list Z) (len : Z) : W Z :=
  filtered ← mlvpn_filters_choose (take (Z.to_nat len) data);
  choice ← (match filtered with
            | Some t => mret (Some (t, true))
            | None =>
                c ← mlvpn_rtun_choose;
                mret ((fun t => (t, false)) <$> c)
            end : W (option (nat * bool)));
  match choice : option (nat * bool) with
  | None => mret len
  | Some (t, hp) =>
      tun_upd t (fun tun =>
        let tun := if hp then tun <| t_hpsbuf := Ring.push (fill_data len data) (t_hpsbuf tun) |>
                   else tun <| t_sbuf := Ring.push (fill_data len data) (t_sbuf tun) |> in
        let sbuf := if hp then t_hpsbuf tun else t_sbuf tun in
        if negb (t_io_write tun) && negb (Ring.is_empty sbuf) then tun <| t_io_write := true |>
        else tun);;
      mret (u16 len)
  end.

(** [r] and [data] are what [read] on the device gives. *)
Definition mlvpn_tuntap_read (r : io_result) (data : list Z) : W Z :=
  match r with
  | IoError => fatalx "unrecoverable read error"
  | IoAgain => mret 0
  | IoOk ret =>
      if ret =? 0 then fatalx "tuntap device closed"
      else
        maxmtu ← gets (fun w => tt_maxmtu (w_tuntap w));
        let ret := if maxmtu <? ret then maxmtu else ret in
        mlvpn_tuntap_generic_read data ret
  end.

(** ** To the device *)

Definition set_tuntap (f : tuntap_s -> tuntap_s) : W unit :=
  modify (fun w => w <| w_tuntap := f (w_tuntap w) |>).

Definition mlvpn_tuntap_write : W Z :=
  buf ← gets (fun w => tt_sbuf (w_tuntap w));
  if Ring.is_empty buf then fatalx "tuntap_write called with empty buffer"
  else
    let '(pkt, buf) := Ring.pop buf in
    set_tuntap (fun tt => tt <| tt_sbuf := buf |>);;
    emit (TunWrite (payload pkt));;
    r ← ask os_tunwrite;
    mret (match r with IoOk n => n | _ => -1 end).

(** [mlvpn_rtun_inject_tuntap] *)
Definition mlvpn_rtun_inject_tuntap (pkt : mlvpn_pkt_t) : W unit :=
  set_tuntap (fun tt =>
    let tt := tt <| tt_sbuf := Ring.push (fun slot =>
      slot <| pkt_len := pkt_len pkt |>
           <| pkt_data := memcpy (pkt_data slot) (pkt_data pkt) (Z.to_nat (pkt_len pkt)) |>) (tt_sbuf tt) |> in
    if negb (tt_io_write tt) then tt <| tt_io_write := true |> else tt).

(** The two sides of [tuntap_io_event]. *)
Definition tuntap_io_read (r : io_result) (data : list Z) : W unit := mlvpn_tuntap_read r data;; mret tt.
Definition tuntap_io_write : W unit :=
  mlvpn_tuntap_write;;
  buf ← gets (fun w => tt_sbuf (w_tuntap w));
  when (Ring.is_empty buf) (set_tuntap (fun tt => tt <| tt_io_write := false |>)).

(** [mlvpn_tuntap_init] *)
Definition mlvpn_tuntap_init : tuntap_s :=
  TT (Z.of_nat DEFAULT_MTU - Z.of_nat PKTHDRSIZ - Z.of_nat IP4_UDP_OVERHEAD)
     (snprintf (MLVPN_IFNAMSIZ - 1) "mlvpn0") MLVPN_TUNTAPMODE_TUN (Ring.mlvpn_pktbuffer_init PKTBUFSIZE) false.
End tuntap.
