(* ===== verification/Rtun.v ===== *)
(** * The tunnels ([src/src/mlvpn.c])

    The event handlers of the daemon and the functions they call, in the order
    of the source: the reordering stage, reception and emission on a tunnel,
    creation and removal, connection, the status changes with their scripts,
    the keepalives and the periodic checks. *)

From stdpp Require Import pretty.
From S2P Require Import Prelude Double CString Timestamp Pkt Buffer Reorder Tunnel Loss Wrr Protocol Tuntap.

Section rtun.
Context `{OS}.

(** ** The reordering stage *)

Definition set_freebuf (fb : freebuffer_t) : W unit := modify (fun w => w <| w_freebuf := fb |>).
Definition set_drain_timer (active : bool) : W unit := modify (fun w => w <| w_drain_timer := active |>).

(** [ev_timer_again]: active again, unless its repeat is 0. *)
Definition timer_again : W unit :=
  repeat ← gets w_drain_repeat; set_drain_timer (negb (deqb repeat (d_of_Z 0))).

Definition reorder_buffer : W mlvpn_reorder_buffer :=
  b ← gets w_reorder; expect (BadAccess "reorder_buffer") b.
Definition set_reorder (b : mlvpn_reorder_buffer) : W unit := modify (fun w => w <| w_reorder := Some b |>).

Definition reset_reorder : W unit := b ← reorder_buffer; set_reorder (Reorder.mlvpn_reorder_reset b).

(** The loop over the packets the reorder buffer gave. *)
Definition inject_drained (p : option nat) : W unit :=
  p ← expect (BadAccess "drained_pkts") p;
  fb ← gets w_freebuf;
  mlvpn_rtun_inject_tuntap (Free.entry_pkt fb p);;
  fb ← expect (Fatal "freebuffer_free could not find the packet you gave me.") (Free.mlvpn_freebuffer_free fb p);
  set_freebuf fb.

(** [while ((pkt = mlvpn_freebuffer_drain_used(freebuf)) != NULL)] *)
Fixpoint inject_used (fuel : nat) (drained : Z) : W Z :=
  fb ← gets w_freebuf;
  match Free.mlvpn_freebuffer_drain_used fb, fuel with
  | (None, _), _ => mret drained
  | (Some p, fb'), S fuel =>
      set_freebuf fb';;
      mlvpn_rtun_inject_tuntap (Free.entry_pkt fb' p);;
      inject_used fuel (u32 (drained + 1))
  | (Some _, _), O => fail Diverges
  end.

Definition mlvpn_rtun_reorder_drain (reorder : bool) : W Z :=
  drained ←
    (if reorder then
       b ← reorder_buffer;
       let '(pkts, b) := Reorder.mlvpn_reorder_drain b Reorder.drain_max in
       set_reorder b;;
       for_each pkts inject_drained;;
       mret (Z.of_nat (length pkts))
     else
       fb ← gets w_freebuf;
       drained ← inject_used (length (Free.used_head fb)) 0;
       fb ← gets w_freebuf;
       set_freebuf (Free.mlvpn_freebuffer_reset fb);;
       reset_reorder;;
       mret drained);
  fb ← gets w_freebuf;
  when (Free.fb_used fb =? 0) (set_drain_timer false);;
  mret drained.

Definition mlvpn_rtun_reorder_drain_timeout : W unit :=
  mlvpn_rtun_reorder_drain false;;
  fb ← gets w_freebuf;
  when (Free.fb_used fb =? 0) (set_drain_timer false).

(** The stage for a packet that is to be reordered; [t] of the source is not
    used. *)
Definition recv_reordered (inpkt : mlvpn_pkt_t) : W Z :=
  fb ← gets w_freebuf;
  match Free.mlvpn_freebuffer_get fb with
  | (None, _) => mlvpn_rtun_inject_tuntap inpkt;; mret 1
  | (Some p, fb) =>
      set_freebuf (Free.store_pkt p inpkt fb);;
      b ← reorder_buffer;
      '(ret, b) ← expect Diverges (Reorder.mlvpn_reorder_insert b p (pkt_seq inpkt));
      set_reorder b;;
      if ret =? -2 then mlvpn_rtun_inject_tuntap inpkt;; mret 1
      else
        drained ← (if ret =? -1 then reset_reorder;; mlvpn_rtun_reorder_drain false
                   else mlvpn_rtun_reorder_drain true);
        fb ← gets w_freebuf;
        when (0 <? Free.fb_used fb) timer_again;;
        mret drained
  end.

Definition mlvpn_rtun_recv_data (inpkt : mlvpn_pkt_t) : W Z :=
  rb ← gets w_reorder;
  if bool_decide (rb = None) || (pkt_reorder inpkt =? 0)
  then mlvpn_rtun_inject_tuntap inpkt;; mret 1
  else recv_reordered inpkt.

(** ** Scripts and the process title *)

Definition mlvpn_script_get_env : W (list string) :=
  o ← gets w_options;
  devname ← gets (fun w => tt_devname (w_tuntap w));
  mret [snprintf (24 + 4) ("IP4=" +:+ o_ip4 o);
        snprintf (128 + 4) ("IP6=" +:+ o_ip6 o);
        snprintf (16 + 12) ("IP4_GATEWAY=" +:+ o_ip4_gateway o);
        snprintf (128 + 12) ("IP6_GATEWAY=" +:+ o_ip6_gateway o);
        snprintf (4096 + 11) ("IP4_ROUTES=" +:+ o_ip4_routes o);
        snprintf (8192 + 11) ("IP6_ROUTES=" +:+ o_ip6_routes o);
        snprintf (MLVPN_IFNAMSIZ + 7) ("DEVICE=" +:+ devname);
        snprintf 15 ("MTU=" +:+ pretty (o_mtu o))].

Definition priv_run_script (args env : list string) : W unit := emit (Script args env).

Definition status_mark (s : chap_status) : string :=
  match s with
  | MLVPN_AUTHOK => "@"
  | MLVPN_HIGH_LATENCY | MLVPN_LOSSY => "~"
  | _ => "!"
  end.

(** The title after the tunnel [t]: [status] has 32 bytes and is terminated at
    the length [snprintf] returns. *)
Definition title_add (title : string) (t : nat) : W string :=
  tun ← tun_get t;
  let full := " " +:+ status_mark (t_status tun) +:+ t_name tun in
  if (32 <=? String.length full)%nat then fail (BadAccess "status[len]")
  else mret (strlcat_s title (snprintf (32 - 1) full) 1024).

Fixpoint title_loop (l : list nat) (title : string) : W string :=
  match l with
  | [] => mret title
  | t :: l => title ← title_add title t; title_loop l title
  end.

Definition update_process_title : W unit :=
  process_title ← gets w_process_title;
  match process_title with
  | None => mret tt
  | Some pt =>
      rtuns ← gets w_rtuns;
      title ← title_loop rtuns (strlcat_s "" pt 1024);
      emit (Title title)
  end.

(** ** Status *)

Definition set_status (f : mlvpn_status_s -> mlvpn_status_s) : W unit :=
  modify (fun w => w <| w_status := f (w_status w) |>).

Definition mlvpn_update_status : W unit :=
  fallback ← gets (fun w => o_fallback_available (w_options w));
  set_status (fun s => s <| s_fallback_mode := fallback |> <| s_connected := 0 |>);;
  rtuns ← gets w_rtuns;
  for_each rtuns (fun t =>
    tun ← tun_get t;
    when (t_up tun) (
      when (negb (t_fallback tun)) (set_status (fun s => s <| s_fallback_mode := false |>));;
      set_status (fun s => s <| s_connected := s_connected s + 1 |>))).

Definition wrr_refresh : W unit :=
  fb ← gets (fun w => s_fallback_mode (w_status w)); mlvpn_rtun_wrr_reset fb.

(** [if (reorder_buffer != NULL) { drain(0); reset }] *)
Definition flush_reorder : W unit :=
  rb ← gets w_reorder;
  when (negb (bool_decide (rb = None))) (mlvpn_rtun_reorder_drain false;; reset_reorder).

Definition next_keepalive (now : double) : double := dadd now (d_of_Z 1).

(** The assignments at the start of [mlvpn_rtun_status_up]. *)
Definition upped (now : double) (tun : mlvpn_tunnel_t) : mlvpn_tunnel_t :=
  tun <| t_status := MLVPN_AUTHOK |> <| t_next_keepalive := next_keepalive now |>
      <| t_last_activity := now |> <| t_last_keepalive_ack := now |>
      <| t_last_keepalive_ack_sent := now |>.

Definition mlvpn_rtun_status_up (t : nat) : W unit :=
  devname ← gets (fun w => tt_devname (w_tuntap w));
  now ← ev_now;
  tun_upd t (upped now);;
  mlvpn_update_status;;
  wrr_refresh;;
  env ← mlvpn_script_get_env;
  tun ← tun_get t;
  priv_run_script [devname; "rtun_up"; t_name tun] env;;
  s ← gets w_status;
  when ((0 <? s_connected s) && negb (s_initialized s)) (
    priv_run_script [devname; "tuntap_up"] env;;
    set_status (fun s => s <| s_initialized := true |>);;
    flush_reorder);;
  update_process_title.

(** The assignments at the start of [mlvpn_rtun_status_down]. *)
Definition downed (tun : mlvpn_tunnel_t) : mlvpn_tunnel_t :=
  let tun := tun <| t_status := MLVPN_DISCONNECTED |>
                 <| t_disconnects := i32 (t_disconnects tun + 1) |>
                 <| t_sbuf := Ring.mlvpn_pktbuffer_reset (t_sbuf tun) |>
                 <| t_hpsbuf := Ring.mlvpn_pktbuffer_reset (t_hpsbuf tun) |> in
  if t_io_write tun then tun <| t_io_write := false |> else tun.

Definition mlvpn_rtun_status_down (t : nat) : W unit :=
  devname ← gets (fun w => tt_devname (w_tuntap w));
  tun ← tun_get t;
  let old_up := t_up tun in
  tun_upd t downed;;
  mlvpn_update_status;;
  when old_up (
    env ← mlvpn_script_get_env;
    priv_run_script [devname; "rtun_down"; t_name tun] env;;
    wrr_refresh;;
    s ← gets w_status;
    when ((s_connected s =? 0) && s_initialized s) (
      priv_run_script [devname; "tuntap_down"] env;;
      set_status (fun s => s <| s_initialized := false |>));;
    flush_reorder);;
  update_process_title.

(** ** Emission *)

(** The ring a packet is sent from. *)
Definition ring_of (hp : bool) (tun : mlvpn_tunnel_t) : pktbuffer := if hp then t_hpsbuf tun else t_sbuf tun.
Definition set_ring (hp : bool) (r : pktbuffer) (tun : mlvpn_tunnel_t) : mlvpn_tunnel_t :=
  if hp then tun <| t_hpsbuf := r |> else tun <| t_sbuf := r |>.

Definition mlvpn_rtun_send (t : nat) (hp : bool) : W Z :=
  now ← ev_now;
  let now64 := mlvpn_timestamp64 now in
  tun ← tun_get t;
  let '(slot, ring) := Ring.mlvpn_pktbuffer_read (ring_of hp tun) in
  let pkt := Ring.pkt_load slot ring in
  if Z.of_nat DEFAULT_MTU <? pkt_len pkt then fail (BadAccess "pkt->data")
  else
  cleartext ← gets (fun w => o_cleartext_data (w_options w));
  key ← gets w_key;
  data_seq ← gets w_data_seq;
  let e := rtun_encap cleartext key now64 data_seq tun pkt in
  let ring := Ring.pkt_store slot (fun _ => encap_pkt e) ring in
  modify (fun w => w <| w_data_seq := encap_data_seq e |>);;
  tun_put t (set_ring hp ring (encap_tun e));;
  match encap_dgram e with
  | None => mret (-1)
  | Some dgram =>
      _ ← expect (BadAccess "tun->addrinfo") (t_addrinfo tun !! O);
      emit (Sent t dgram);;
      r ← ask os_sendto;
      ret ← (match r with
             | IoAgain => mret (-1)
             | IoError => mlvpn_rtun_status_down t;; mret (-1)
             | IoOk n =>
                 tun_upd t (fun tun => tun <| t_sentpackets := u64 (t_sentpackets tun + 1) |>
                                           <| t_sentbytes := u64 (t_sentbytes tun + n) |>);;
                 mret n
             end : W Z);
      tun_upd t (fun tun =>
        if t_io_write tun && Ring.is_empty (ring_of hp tun) then tun <| t_io_write := false |> else tun);;
      mret ret
  end.

Definition mlvpn_rtun_write (t : nat) : W unit :=
  hp_empty ← tun_is t (fun tun => Ring.is_empty (t_hpsbuf tun));
  when (negb hp_empty) (mlvpn_rtun_send t true;; mret tt);;
  empty ← tun_is t (fun tun => Ring.is_empty (t_sbuf tun));
  when (negb empty) (mlvpn_rtun_send t false;; mret tt).

(** ** Control packets *)

Definition push_hp (t : nat) (f : mlvpn_pkt_t -> mlvpn_pkt_t) : W unit :=
  tun_upd t (fun tun => tun <| t_hpsbuf := Ring.push f (t_hpsbuf tun) |>).
Definition hp_full (t : nat) : W bool := tun_is t (fun tun => Ring.is_full (t_hpsbuf tun)).

(** [pkt->data[0] = a; pkt->data[1] = b; pkt->len = 2; pkt->type = type] *)
Definition fill_two (a b type : Z) (pkt : mlvpn_pkt_t) : mlvpn_pkt_t :=
  pkt <| pkt_data := <[1%nat := b]> (<[0%nat := a]> (pkt_data pkt)) |>
      <| pkt_len := 2 |> <| pkt_type := type |>.

Definition mlvpn_rtun_challenge_send (t : nat) : W unit :=
  push_hp t (fill_two 65 85 MLVPN_PKT_AUTH);;
  tun_upd t (fun tun => tun <| t_status := MLVPN_AUTHSENT |>).

Definition start_io_write (t : nat) : W unit :=
  tun_upd t (fun tun => if negb (t_io_write tun) then tun <| t_io_write := true |> else tun).

Definition mlvpn_rtun_send_auth (t : nat) : W unit :=
  tun ← tun_get t;
  if t_server_mode tun then
    when (bool_decide (t_status tun = MLVPN_DISCONNECTED) || t_up tun) (
      full ← hp_full t;
      when full (tun_upd t (fun tun => tun <| t_hpsbuf := Ring.mlvpn_pktbuffer_reset (t_hpsbuf tun) |>));;
      push_hp t (fill_two 79 75 MLVPN_PKT_AUTH_OK);;
      tun_upd t (fun tun => if negb (t_up tun) then tun <| t_status := MLVPN_AUTHSENT |> else tun);;
      mlvpn_rtun_tick t;;
      mlvpn_rtun_status_up t;;
      start_io_write t)
  else
    when (bool_decide (t_status tun = MLVPN_AUTHSENT)) (
      mlvpn_rtun_tick t;;
      mlvpn_rtun_status_up t).

Definition mlvpn_rtun_send_keepalive (now : double) (t : nat) : W unit :=
  full ← hp_full t;
  when (negb full) (push_hp t (fun pkt => pkt <| pkt_type := MLVPN_PKT_KEEPALIVE |>));;
  tun_upd t (fun tun => tun <| t_next_keepalive := next_keepalive now |>).

Definition mlvpn_rtun_send_disconnect (t : nat) : W unit :=
  full ← hp_full t;
  when (negb full) (push_hp t (fun pkt => pkt <| pkt_type := MLVPN_PKT_DISCONNECT |>));;
  mlvpn_rtun_send t true;; mret tt.
End rtun.

Section handlers.
Context `{OS}.

(** ** Reception *)

(** [tun->addrinfo->ai_addr] against the sender's address. *)
Definition same_addr (ai client : sockaddr) : bool :=
  (sa_len ai =? sa_len client) &&
  bool_decide (take (Z.to_nat (sa_len client)) (sa_bytes ai) =
               take (Z.to_nat (sa_len client)) (sa_bytes client)).

(** [memcpy(tun->addrinfo->ai_addr, &clientaddr, addrlen)] *)
Definition copy_addr (client ai : sockaddr) : sockaddr :=
  ai <| sa_bytes := memcpy (sa_bytes ai) (sa_bytes client) (Z.to_nat (sa_len client)) |>.

(** The check of the sender's address; [! tun->status >= MLVPN_AUTHOK] compares
    0 or 1 with 2. *)
Definition learn_addr (t : nat) (client : sockaddr) : W bool :=
  tun ← tun_get t;
  ai ← expect (Fatal "tun->addrinfo is NULL!") (t_addrinfo tun !! O);
  if same_addr ai client then mret true
  else if status_rank MLVPN_AUTHOK <=? (if status_rank (t_status tun) =? 0 then 1 else 0) then mret false
  else
    ret ← ask os_getnameinfo;
    when (negb (ret <? 0)) (tun_upd t (fun tun =>
      tun <| t_addrinfo := alter (copy_addr client) O (t_addrinfo tun) |>));;
    mret true.

(** What [mlvpn_rtun_read] does with an authenticated packet. *)
Definition rtun_dispatch (t : nat) (decap : mlvpn_pkt_t) : W unit :=
  tun ← tun_get t;
  if pkt_type decap =? MLVPN_PKT_DATA then
    when (t_up tun) (mlvpn_rtun_tick t;; mlvpn_rtun_recv_data decap;; mret tt)
  else if (pkt_type decap =? MLVPN_PKT_KEEPALIVE) && t_up tun then
    mlvpn_rtun_tick t;;
    now ← ev_now;
    tun_upd t (fun tun => tun <| t_last_keepalive_ack := now |>);;
    tun ← tun_get t;
    when (dltb (dadd (t_last_keepalive_ack_sent tun) (d_of_Z 1)) (t_last_keepalive_ack tun)) (
      tun_upd t (fun tun => tun <| t_last_keepalive_ack_sent := t_last_keepalive_ack tun |>);;
      mlvpn_rtun_send_keepalive (t_last_keepalive_ack tun) t)
  else if (pkt_type decap =? MLVPN_PKT_DISCONNECT) && t_up tun then
    mlvpn_rtun_status_down t
  else if (pkt_type decap =? MLVPN_PKT_AUTH) || (pkt_type decap =? MLVPN_PKT_AUTH_OK) then
    mlvpn_rtun_send_auth t
  else mret tt.

(** [r], [data] and [client] are what [recvfrom] gives. *)
Definition mlvpn_rtun_read (t : nat) (r : io_result) (data : list Z) (client : sockaddr) : W unit :=
  match r with
  | IoAgain => mret tt
  | IoError => mlvpn_rtun_status_down t
  | IoOk len =>
      when (negb (len =? 0)) (
        now ← ev_now;
        cleartext ← gets (fun w => o_cleartext_data (w_options w));
        key ← gets w_key;
        tun ← tun_get t;
        match mlvpn_protocol_read cleartext key (mlvpn_timestamp64 now) tun (Pkt (u16 len) 0 0 0 data) with
        | None => mret tt
        | Some (tun, decap) =>
            tun_put t (tun <| t_recvbytes := u64 (t_recvbytes tun + len) |>
                           <| t_recvpackets := u64 (t_recvpackets tun + 1) |>);;
            known ← learn_addr t client;
            when known (rtun_dispatch t decap)
        end)
  end.

(** ** Creation and removal *)

(** [mlvpn_rtun_new]; a [NULL] string is [None]. *)
Definition mlvpn_rtun_new (name : string) (bindaddr bindport : option string) (bindfib : Z)
    (destaddr destport : option string) (server_mode : bool) (timeout : Z) (fallback_only : Z)
    (bandwidth loss_tolerence latency_tolerence : Z) : W (option nat) :=
  if if server_mode then bool_decide (bindport = None)
     else bool_decide (destaddr = None) || bool_decide (destport = None)
  then mret None
  else
    flow_id ← crypto_nonce_random;
    let cpy (s : option string) n := match s with Some s => strlcpy_s s n | None => "" end in
    t ← gets (fun w => fresh (dom (w_tuns w)));
    tun_put t (Tun name (cpy bindaddr MLVPN_MAXHNAMSTR) (cpy bindport MLVPN_MAXPORTSTR) bindfib
      (cpy destaddr MLVPN_MAXHNAMSTR) (cpy destport MLVPN_MAXPORTSTR) (-1) server_mode 0 0
      fallback_only loss_tolerence latency_tolerence 0 0 (u64 (-1)) 0 0 (u64 (-1)) false
      (d_of_Z 1000) (d_of_Z 500) (d_of_Z 1) flow_id 0 0 0 0 0 bandwidth
      (Ring.mlvpn_pktbuffer_init PKTBUFSIZE) (Ring.mlvpn_pktbuffer_init PKTBUFSIZE) []
      MLVPN_DISCONNECTED (d_of_Z 0) (d_of_Z 0) (d_of_Z 0) (d_of_Z 0) (d_of_Z 0)
      false false false MLVPN_IO_TIMEOUT_DEFAULT);;
    mlvpn_rtun_tick t;;
    tun_upd t (fun tun => tun <| t_timeout := timeout |> <| t_next_keepalive := d_of_Z 0 |>);;
    modify (fun w => w <| w_rtuns := t :: w_rtuns w |>);;
    tun_upd t (fun tun => tun <| t_io_timeout := true |>);;
    update_process_title;;
    mret (Some t).

(** The loop of [mlvpn_rtun_drop]: the first tunnel of the list with the name
    leaves it. *)
Fixpoint remove_named (name : string) (l : list nat) : W (list nat) :=
  match l with
  | [] => mret []
  | t :: l =>
      tun ← tun_get t;
      if mystr_eq (Some (t_name tun)) (Some name) then mret l
      else l ← remove_named name l; mret (t :: l)
  end.

Definition mlvpn_rtun_drop (t : nat) : W unit :=
  mlvpn_rtun_send_disconnect t;;
  mlvpn_rtun_status_down t;;
  tun_upd t (fun tun => tun <| t_io_timeout := false |> <| t_io_read := false |>);;
  tun ← tun_get t;
  rtuns ← gets w_rtuns;
  rtuns ← remove_named (t_name tun) rtuns;
  modify (fun w => w <| w_rtuns := rtuns |>);;
  update_process_title.

(** ** Weights *)

(** First loop: how many tunnels have no bandwidth, and the total. *)
Fixpoint bandwidth_loop (l : list nat) (warned total : Z) : W (Z * Z) :=
  match l with
  | [] => mret (warned, total)
  | t :: l =>
      tun ← tun_get t;
      bandwidth_loop l (if t_bandwidth tun =? 0 then warned + 1 else warned) (u32 (total + t_bandwidth tun))
  end.

Definition mlvpn_rtun_recalc_weight : W unit :=
  rtuns ← gets w_rtuns;
  '(warned, total) ← bandwidth_loop rtuns 0 0;
  when (warned =? 0) (for_each rtuns (fun t =>
    tun ← tun_get t;
    when ((0 <? t_bandwidth tun) && (0 <? total)) (tun_put t
      (tun <| t_weight := dmul (ddiv (d_of_Z (t_bandwidth tun)) (d_of_Z total)) (d_of_Z 100) |>)))).

(** ** Connection *)

Definition mlvpn_rtun_bind (t : nat) : W Z :=
  res ← ask os_getaddrinfo;
  match res with
  | [] => mret (-1)
  | _ :: _ => n ← ask os_bind; mret (if n <? 0 then -1 else 0)
  end.

(** The loop over the addresses: [socket] is called until it succeeds. *)
Fixpoint open_socket (res : list sockaddr) (fd : Z) : W Z :=
  match res with
  | [] => mret fd
  | _ :: res =>
      fd ← ask os_socket;
      if fd <? 0 then open_socket res fd else mret fd
  end.

(** The [error] label. *)
Definition start_error (t : nat) : W Z :=
  tun_upd t (fun tun =>
    let tun := if 0 <? t_fd tun then tun <| t_fd := -1 |> else tun in
    if dltb (t_io_timeout_repeat tun) MLVPN_IO_TIMEOUT_MAXIMUM
    then tun <| t_io_timeout_repeat := dmul (t_io_timeout_repeat tun) (d_of_Z MLVPN_IO_TIMEOUT_INCREMENT) |>
    else tun);;
  mret (-1).

Definition mlvpn_rtun_start (t : nat) : W Z :=
  tun ← tun_get t;
  res ← ask os_getaddrinfo;
  match res with
  | [] => mret (-1)
  | _ :: _ =>
      tun_upd t (fun tun => tun <| t_addrinfo := res |>);;
      fd ← open_socket res (t_fd tun);
      if fd <? 0 then start_error t
      else
        tun_upd t (fun tun => tun <| t_fd := fd |>);;
        r ← ask os_setsockopt;
        if r <? 0 then start_error t
        else
          b ← (if bool_decide (t_bindaddr tun = "") then mret 0 else mlvpn_rtun_bind t);
          if b <? 0 then start_error t
          else
            mlvpn_rtun_tick t;;
            tun_upd t (fun tun => tun <| t_io_read := true |>
                                      <| t_io_timeout_repeat := MLVPN_IO_TIMEOUT_DEFAULT |>);;
            mret 0
  end.

(** [if (t->fd < 0) { if (mlvpn_rtun_start(t) == 0) ... else return; }]:
    whether the caller goes on. *)
Definition start_if_closed (t : nat) : W bool :=
  tun ← tun_get t;
  if t_fd tun <? 0 then
    r ← mlvpn_rtun_start t;
    if r =? 0 then tun_upd t (fun tun => tun <| t_conn_attempts := 0 |>);; mret true
    else mret false
  else mret true.

Definition mlvpn_rtun_tick_connect (t : nat) : W unit :=
  now ← ev_now;
  tun ← tun_get t;
  if t_server_mode tun then start_if_closed t;; mret tt
  else
    go ← (if negb (t_up tun) then
            tun_upd t (fun tun => tun <| t_conn_attempts := i32 (t_conn_attempts tun + 1) |>
                                      <| t_last_connection_attempt := now |>);;
            start_if_closed t
          else mret true);
    when go (mlvpn_rtun_challenge_send t).

(** ** Periodic checks *)

(** Whether some tunnel keeps the daemon out of the fallback mode. *)
Fixpoint any_normal (l : list nat) : W bool :=
  match l with
  | [] => mret false
  | t :: l =>
      tun ← tun_get t;
      if negb (t_fallback tun) && negb (bool_decide (t_status tun = MLVPN_HIGH_LATENCY)) &&
         negb (bool_decide (t_status tun = MLVPN_LOSSY))
      then mret true else any_normal l
  end.

Definition switch_to_fallback_if_necessary : W unit :=
  rtuns ← gets w_rtuns;
  normal ← any_normal rtuns;
  if (normal : bool) then
    set_status (fun s => s <| s_fallback_mode := false |>);; mlvpn_rtun_wrr_reset false
  else
    available ← gets (fun w => o_fallback_available (w_options w));
    when available (set_status (fun s => s <| s_fallback_mode := true |>);; mlvpn_rtun_wrr_reset true).

Definition mlvpn_rtun_check_lossy (t : nat) : W unit :=
  tun ← tun_get t;
  let loss := mlvpn_loss_ratio tun in
  if (t_loss_tolerence tun <=? loss) && bool_decide (t_status tun = MLVPN_AUTHOK) then
    tun_upd t (fun tun => tun <| t_status := MLVPN_LOSSY |>);; switch_to_fallback_if_necessary
  else when ((loss <? t_loss_tolerence tun) && bool_decide (t_status tun = MLVPN_LOSSY)) (
    tun_upd t (fun tun => tun <| t_status := MLVPN_AUTHOK |>);; switch_to_fallback_if_necessary).

Definition mlvpn_rtun_check_slow (t : nat) : W unit :=
  tun ← tun_get t;
  when (negb (t_latency_tolerence tun =? 1000)) (
    let tolerence := d_of_Z (t_latency_tolerence tun) in
    if dleb tolerence (t_srtt tun) && bool_decide (t_status tun = MLVPN_AUTHOK) then
      tun_upd t (fun tun => tun <| t_status := MLVPN_HIGH_LATENCY |>);; switch_to_fallback_if_necessary
    else when (dltb (t_srtt tun) tolerence && bool_decide (t_status tun = MLVPN_HIGH_LATENCY)) (
      tun_upd t (fun tun => tun <| t_status := MLVPN_AUTHOK |>);; switch_to_fallback_if_necessary)).

Definition mlvpn_rtun_check_timeout (t : nat) : W unit :=
  now ← ev_now;
  tun ← tun_get t;
  (if t_up tun && (0 <? t_timeout tun) then
     if negb (deqb (t_last_keepalive_ack tun) (d_of_Z 0)) &&
        dltb (dadd (t_last_keepalive_ack tun) (d_of_Z (t_timeout tun))) now
     then mlvpn_rtun_status_down t
     else when (dltb (t_next_keepalive tun) now) (mlvpn_rtun_send_keepalive now t)
   else when (negb (t_up tun)) (mlvpn_rtun_tick_connect t));;
  tun_upd t (fun tun =>
    if negb (t_io_write tun) && negb (Ring.is_empty (t_hpsbuf tun)) then tun <| t_io_write := true |> else tun);;
  mlvpn_rtun_check_lossy t;;
  mlvpn_rtun_check_slow t.

(** The largest [srtt + 4 * rttvar] of the tunnels that count. *)
Fixpoint max_srtt_loop (l : list nat) (max_srtt : double) : W double :=
  match l with
  | [] => mret max_srtt
  | t :: l =>
      tun ← tun_get t;
      let tmp := dadd (t_srtt tun) (dmul (d_of_Z 4) (t_rttvar tun)) in
      max_srtt_loop l
        (if t_up tun && (negb (t_fallback tun) && t_rtt_hit tun)
         then if dltb tmp max_srtt then max_srtt else tmp
         else max_srtt)
  end.

Definition mlvpn_rtun_adjust_reorder_timeout : W unit :=
  rtuns ← gets w_rtuns;
  max_srtt ← max_srtt_loop rtuns (d_of_Z 0);
  let repeat :=
    if dltb (d_of_Z 0) max_srtt then ddiv (dmul max_srtt (ddiv (d_of_Z 22) (d_of_Z 10))) (d_of_Z 1000)
    else ddiv (d_of_Z 8) (d_of_Z 10) in
  modify (fun w => w <| w_drain_repeat := repeat |>).

(** ** Termination by a signal *)
Definition mlvpn_quit : W unit :=
  rtuns ← gets w_rtuns;
  for_each rtuns (fun t =>
    tun_upd t (fun tun => tun <| t_io_timeout := false |> <| t_io_read := false |>);;
    tun ← tun_get t;
    when (t_up tun) (mlvpn_rtun_send_disconnect t));;
  emit Break.
End handlers.
