(* ===== verification/Frame.v ===== *)
(** * What the handlers leave alone

    Frame rules: a handler that works on the tunnel [t] does not change what
    an observation [f] of the state sees, when [f] does not look at that
    tunnel nor at the globals the handlers write.  Two observations are used:
    the key and the options, and the memory of the other tunnels. *)

From S2P Require Import Prelude Double CString Timestamp Pkt Buffer Reorder Tunnel Loss Wrr Protocol Tuntap Rtun.

Create HintDb keep.

(** [m] does not change what [f] observes. *)
Definition keeps {S X A} (f : S -> X) (m : M S A) : Prop :=
  forall s a s', m s = Ok a s' -> f s' = f s.

Section keeps_rules.
Context {S X : Type} (f : S -> X).

Lemma keeps_ret {A} (a : A) : keeps f (mret a : M S A).
Proof. by intros s b s' [= _ <-]. Qed.
Lemma keeps_bind {A B} (m : M S A) (k : A -> M S B) :
  keeps f m -> (forall a, keeps f (k a)) -> keeps f (m ≫= k).
Proof.
  intros Hm Hk s b s'. unfold mbind, M_bind. destruct (m s) as [a s1|] eqn:E; [|done].
  intros E'. rewrite (Hk a _ _ _ E'). by eapply Hm.
Qed.
Lemma keeps_gets {A} (g : S -> A) : keeps f (gets g).
Proof. by intros s b s' [= _ <-]. Qed.
Lemma keeps_modify g : (forall s, f (g s) = f s) -> keeps f (modify g).
Proof. intros Hg s b s' [= _ <-]. apply Hg. Qed.
Lemma keeps_fail {A} e : keeps f (fail e : M S A).
Proof. done. Qed.
Lemma keeps_expect {A} e (o : option A) : keeps f (expect e o).
Proof. destruct o; [apply keeps_ret|apply keeps_fail]. Qed.
Lemma keeps_for_each {A} (l : list A) (body : A -> M S unit) :
  (forall x, keeps f (body x)) -> keeps f (for_each l body).
Proof. intros Hb. induction l; simpl; [apply keeps_ret|by apply keeps_bind]. Qed.
End keeps_rules.


(** ** Observations *)

(** [f] sees neither the tunnel [t] nor what the handlers write. *)
Class Frame {X} (f : world -> X) (t : nat) : Prop := {
  fr_tuns w x : f (w <| w_tuns := <[t := x]> (w_tuns w) |>) = f w;
  fr_status w x : f (w <| w_status := x |>) = f w;
  fr_tuntap w x : f (w <| w_tuntap := x |>) = f w;
  fr_data_seq w x : f (w <| w_data_seq := x |>) = f w;
  fr_reorder w x : f (w <| w_reorder := x |>) = f w;
  fr_freebuf w x : f (w <| w_freebuf := x |>) = f w;
  fr_drain_timer w x : f (w <| w_drain_timer := x |>) = f w;
  fr_wrr w x : f (w <| w_wrr := x |>) = f w;
  fr_calls w x : f (w <| w_calls := x |>) = f w;
  fr_trace w x : f (w <| w_trace := x |>) = f w
}.

#[export] Instance options_eq_dec : EqDecision mlvpn_options_s.
Proof. solve_decision. Defined.

(** The key and the options. *)
Definition config (w : world) : list Z * mlvpn_options_s := (w_key w, w_options w).
#[export] Instance frame_config t : Frame config t.
Proof. by split. Qed.

(** The other tunnels. *)
Definition others (t : nat) (w : world) : gmap nat mlvpn_tunnel_t := delete t (w_tuns w).
#[export] Instance frame_others t : Frame (others t) t.
Proof. split; try done. intros w x. unfold others. simpl. by rewrite delete_insert_eq. Qed.

Lemma others_lookup t w w' x : others t w' = others t w -> x <> t -> w_tuns w' !! x = w_tuns w !! x.
Proof.
  intros Heq Hne. unfold others in Heq.
  rewrite <- (lookup_delete_ne (w_tuns w') t x), <- (lookup_delete_ne (w_tuns w) t x) by done. by rewrite Heq.
Qed.

(** Close [f (w <| field := x |>) = f w]. *)
Ltac framed :=
  solve [eapply fr_tuns; tc_solve | eapply fr_status; tc_solve | eapply fr_tuntap; tc_solve | eapply fr_data_seq; tc_solve
        | eapply fr_reorder; tc_solve | eapply fr_freebuf; tc_solve | eapply fr_drain_timer; tc_solve | eapply fr_wrr; tc_solve
        | eapply fr_calls; tc_solve | eapply fr_trace; tc_solve | auto].

(** ** The handlers *)
Section frame.
Context `{OS} {X : Type} (f : world -> X) (t : nat) `{!Frame f t}.

Lemma keeps_tun_get x : keeps f (tun_get x).
Proof. intros w a w'. unfold tun_get. by destruct (w_tuns w !! x); intros [= _ <-]. Qed.
Lemma keeps_ask {A} (g : nat -> A) : keeps f (ask g).
Proof. intros w a w' [= _ <-]. framed. Qed.

#[local] Hint Resolve keeps_tun_get keeps_ask keeps_ret keeps_gets keeps_fail keeps_expect : keep.

Ltac keep :=
  repeat first
    [ solve [auto 2 with keep]
    | apply keeps_modify; intros ?; framed | apply keeps_for_each; intros ?
    | apply keeps_bind; [|intros ?]
    | match goal with |- keeps _ (when ?b _) => unfold when; destruct b
                    | |- keeps _ (if ?b then _ else _) => destruct b
                    | |- keeps _ (match ?o with _ => _ end) => destruct o end ].

Lemma keeps_tun_upd g : keeps f (tun_upd t g).
Proof. unfold tun_upd, tun_put. keep. Qed.
Lemma keeps_tun_put x : keeps f (tun_put t x).
Proof. unfold tun_put. keep. Qed.
Lemma keeps_emit e : keeps f (emit e).
Proof. unfold emit. keep. Qed.
#[local] Hint Resolve keeps_tun_upd keeps_tun_put keeps_emit : keep.

Lemma keeps_inject p : keeps f (mlvpn_rtun_inject_tuntap p).
Proof. unfold mlvpn_rtun_inject_tuntap, set_tuntap. keep. Qed.
#[local] Hint Resolve keeps_inject : keep.

Lemma keeps_inject_used fuel n : keeps f (inject_used fuel n).
Proof.
  revert n. induction fuel as [|fuel IH]; intros n; simpl; apply keeps_bind; [keep|intros fb|keep|intros fb];
    destruct (Free.mlvpn_freebuffer_drain_used fb) as [[p|] fb']; unfold set_freebuf; keep.
Qed.
#[local] Hint Resolve keeps_inject_used : keep.

Lemma keeps_flush : keeps f flush_reorder.
Proof.
  unfold flush_reorder, mlvpn_rtun_reorder_drain, set_freebuf, reset_reorder, reorder_buffer, set_reorder, set_drain_timer. keep.
Qed.
#[local] Hint Resolve keeps_flush : keep.

Lemma keeps_title_loop l s : keeps f (title_loop l s).
Proof. revert s. induction l; intros s; simpl; unfold title_add; keep. Qed.
#[local] Hint Resolve keeps_title_loop : keep.

Lemma keeps_title : keeps f update_process_title.
Proof. unfold update_process_title. keep. Qed.

Lemma keeps_wrr_refresh : keeps f wrr_refresh.
Proof. unfold wrr_refresh, mlvpn_rtun_wrr_reset, wrr_add, fatalx. keep. Qed.

Lemma keeps_update_status : keeps f mlvpn_update_status.
Proof. unfold mlvpn_update_status, set_status. keep. Qed.

Lemma keeps_script_env : keeps f mlvpn_script_get_env.
Proof. unfold mlvpn_script_get_env. keep. Qed.
#[local] Hint Resolve keeps_title keeps_wrr_refresh keeps_update_status keeps_script_env : keep.

Lemma keeps_status_up : keeps f (mlvpn_rtun_status_up t).
Proof. unfold mlvpn_rtun_status_up, ev_now, priv_run_script, set_status. keep. Qed.
Lemma keeps_status_down : keeps f (mlvpn_rtun_status_down t).
Proof. unfold mlvpn_rtun_status_down, priv_run_script, set_status. keep. Qed.
#[local] Hint Resolve keeps_status_up keeps_status_down : keep.

Lemma keeps_send_auth : keeps f (mlvpn_rtun_send_auth t).
Proof. unfold mlvpn_rtun_send_auth, hp_full, tun_is, push_hp, mlvpn_rtun_tick, start_io_write, ev_now. keep. Qed.

Lemma keeps_send hp : keeps f (mlvpn_rtun_send t hp).
Proof.
  unfold mlvpn_rtun_send, ev_now. keep.
Qed.
#[local] Hint Resolve keeps_send : keep.

Lemma keeps_disconnect : keeps f (mlvpn_rtun_send_disconnect t).
Proof. unfold mlvpn_rtun_send_disconnect, hp_full, tun_is, push_hp. keep. Qed.
#[local] Hint Resolve keeps_disconnect : keep.

(** The removal of [t] also writes the list. *)
Lemma keeps_drop : (forall w x, f (w <| w_rtuns := x |>) = f w) -> keeps f (mlvpn_rtun_drop t).
Proof.
  intros Hr. assert (forall n l, keeps f (remove_named n l)) as Hrn.
  { intros n l. induction l; simpl; keep. }
  unfold mlvpn_rtun_drop. keep.
Qed.
End frame.
