(* ===== verification/Stage.v ===== *)
(** * The reordering stage in the daemon

    The invariant of the device's ring, of the packet pool and of the reorder
    buffer together, and that every function of the stage keeps it: the
    packets the reorder buffer holds are used entries of the pool, so that
    [mlvpn_freebuffer_free] always finds what it is given, and the device's
    write watcher is active exactly when its ring has a packet. *)

From S2P Require Import Prelude Double CString Timestamp Pkt Buffer Reorder Tunnel Loss Wrr Protocol Tuntap Rtun.

Abbreviation cap := (Z.to_nat PKTBUFSIZE).

(** The device: slots hold packets of at most [DEFAULT_MTU] bytes. *)
Record tt_ok (tt : tuntap_s) : Prop := {
  tto_ring : Ring.ring_inv pkt_ok cap (tt_sbuf tt);
  tto_write : tt_io_write tt = negb (Ring.is_empty (tt_sbuf tt));
  tto_mtu : tt_maxmtu tt = 1444
}.

(** The pool. *)
Record pool_ok (fb : freebuffer_t) : Prop := {
  po_inv : Free.pool_inv fb;
  po_store : Forall pkt_ok (Free.fb_store fb)
}.

Abbreviation held b := (Reorder.somes (Reorder.window (Reorder.order_buf b))).

(** [l] is a set of used entries. *)
Definition in_use (fb : freebuffer_t) (l : list nat) : Prop := NoDup l /\ l ⊆ Free.used_head fb.

Record stage_ok (w : world) : Prop := {
  sg_tt : tt_ok (w_tuntap w);
  sg_pool : pool_ok (w_freebuf w);
  sg_reorder : match w_reorder w with
               | None => w_drain_timer w = false
               | Some b => Reorder.quiet b /\ in_use (w_freebuf w) (held b)
               end
}.

(** What the stage may change. *)
Record stage_only (w w' : world) : Prop := {
  so_eq : w' = w <| w_tuntap := w_tuntap w' |> <| w_freebuf := w_freebuf w' |>
                 <| w_reorder := w_reorder w' |> <| w_drain_timer := w_drain_timer w' |>;
  so_devname : tt_devname (w_tuntap w') = tt_devname (w_tuntap w);
  so_some : is_Some (w_reorder w') <-> is_Some (w_reorder w)
}.

#[export] Instance stage_only_preorder : PreOrder stage_only.
Proof.
  split.
  - intros []. done.
  - intros w1 w2 w3 [H1 D1 S1] [H2 D2 S2]. split; [|congruence|tauto].
    rewrite H2. rewrite H1. done.
Qed.

Section stage.
Context `{OS}.

Lemma cap_pos : (0 < cap)%nat.
Proof. unfold PKTBUFSIZE. lia. Qed.

Lemma inject_ok pkt tt :
  tt_ok tt -> pkt_ok pkt ->
  let tt := tt <| tt_sbuf := Ring.push (fun slot =>
      slot <| pkt_len := pkt_len pkt |>
           <| pkt_data := memcpy (pkt_data slot) (pkt_data pkt) (Z.to_nat (pkt_len pkt)) |>) (tt_sbuf tt) |> in
  tt_ok (if negb (tt_io_write tt) then tt <| tt_io_write := true |> else tt).
Proof.
  intros [Hr Hw Hm] [Hl Ht Hd] tt'.
  destruct (Ring.push_inv _ _ cap_pos (fun slot =>
      slot <| pkt_len := pkt_len pkt |>
           <| pkt_data := memcpy (pkt_data slot) (pkt_data pkt) (Z.to_nat (pkt_len pkt)) |>) _ Hr) as [Hr' He].
  - intros slot [Hsl Hst Hsd]. split; simpl; [done|unfold MLVPN_PKT_DATA; lia|].
    rewrite length_memcpy; lia || done.
  - unfold tt'. destruct (tt_io_write _) eqn:E; split; simpl in *; try done; by rewrite ?E, He.
Qed.

Lemma wp_inject pkt (Q : unit -> world -> Prop) w :
  tt_ok (w_tuntap w) -> pkt_ok pkt ->
  (forall tt', tt_ok tt' -> tt_devname tt' = tt_devname (w_tuntap w) -> Q tt (w <| w_tuntap := tt' |>)) ->
  wp (mlvpn_rtun_inject_tuntap pkt) Q w.
Proof.
  intros Ht Hp HQ. apply wp_modify. apply HQ; [by apply inject_ok|].
  simpl. by destruct (tt_io_write (w_tuntap w)).
Qed.

Lemma entry_pkt_ok fb p : pool_ok fb -> pkt_ok (Free.entry_pkt fb p).
Proof.
  intros [_ Hs]. unfold Free.entry_pkt. destruct (Free.fb_store fb !! p) eqn:E; simpl.
  - by eapply Forall_lookup_1.
  - by split.
Qed.

Lemma pool_ok_eq fb fb' :
  pool_ok fb -> Free.pool_inv fb' -> Free.fb_store fb' = Free.fb_store fb -> pool_ok fb'.
Proof. intros [_ Hs] Hi He. split; [done|]. by rewrite He. Qed.

(** ** Draining the whole pool *)

Lemma drain_used_store fb : Free.fb_store (Free.mlvpn_freebuffer_drain_used fb).2 = Free.fb_store fb.
Proof. unfold Free.mlvpn_freebuffer_drain_used. by case_match. Qed.

Lemma wp_inject_used fuel : forall d (Q : Z -> world -> Prop) w,
  tt_ok (w_tuntap w) -> pool_ok (w_freebuf w) -> length (Free.used_head (w_freebuf w)) = fuel ->
  (forall d' tt' fb', tt_ok tt' -> tt_devname tt' = tt_devname (w_tuntap w) -> pool_ok fb' ->
    Free.used_head fb' = [] -> Q d' (w <| w_tuntap := tt' |> <| w_freebuf := fb' |>)) ->
  wp (inject_used fuel d) Q w.
Proof.
  induction fuel as [|fuel IH]; intros d Q w Ht Hp Hl HQ; cbn [inject_used]; wp_steps;
    pose proof (Free.drain_used_inv _ (po_inv _ Hp)) as Hi;
    pose proof (drain_used_store (w_freebuf w)) as Hst;
    unfold Free.mlvpn_freebuffer_drain_used in *;
    destruct (Free.used_head (w_freebuf w)) as [|e rest] eqn:Hu; try done.
  - specialize (HQ d (w_tuntap w) (w_freebuf w) Ht eq_refl Hp Hu). destruct w. exact HQ.
  - unfold set_freebuf. wp_steps. cbn [snd] in Hi, Hst. set (fb' := _ <| Free.used_head := rest |> <| _ := _ |> <| _ := _ |>) in *.
    assert (pool_ok fb') as Hp' by (by eapply pool_ok_eq).
    apply wp_inject; [done|by apply entry_pkt_ok|].
    intros tt' Htt' Hdev. apply IH; [done|done|simpl in Hl |- *; lia|].
    intros d' tt'' fb'' H1 H2 H3 H4. simpl in Hdev, H2. apply HQ; [done|congruence|done|done].
Qed.

Lemma reset_pool_ok fb : pool_ok fb -> pool_ok (Free.mlvpn_freebuffer_reset fb).
Proof. intros Hp. eapply pool_ok_eq; [done|apply Free.reset_inv, Hp|done]. Qed.

Lemma reset_in_use b fb :
  Reorder.quiet b ->
  Reorder.quiet (Reorder.mlvpn_reorder_reset b) /\ in_use fb (held (Reorder.mlvpn_reorder_reset b)).
Proof.
  intros Hq. destruct (Reorder.reset_quiet b Hq) as (Hq' & Hh & _).
  split; [done|]. unfold held. rewrite Hh, Reorder.somes_replicate. split; [constructor|set_solver].
Qed.

(** [drain(0)]: everything in the pool goes to the device, in the order it
    came, and the reorder buffer starts afresh. *)
Lemma wp_drain_all (Q : Z -> world -> Prop) w b :
  tt_ok (w_tuntap w) -> pool_ok (w_freebuf w) -> w_reorder w = Some b -> Reorder.quiet b ->
  (forall d w', stage_ok w' -> stage_only w w' -> Free.used_head (w_freebuf w') = [] ->
     w_drain_timer w' = false -> Q d w') ->
  wp (mlvpn_rtun_reorder_drain false) Q w.
Proof.
  intros Ht Hp Hb Hq HQ. unfold mlvpn_rtun_reorder_drain. wp_steps.
  apply wp_inject_used; [done|done|done|]. intros d tt' fb' Htt' Hdev Hfb' Hu.
  unfold set_freebuf, reset_reorder, reorder_buffer. wp_steps. simpl (w_reorder _). rewrite Hb.
  eapply wp_expect; [done|]. unfold set_reorder, set_drain_timer. wp_steps. simpl (w_freebuf _).
  assert (Free.used_head (Free.mlvpn_freebuffer_reset fb') = []) as Hu' by done.
  simpl (Free.fb_used _ =? 0). cbn [when]. wp_steps.
  destruct (reset_in_use b (Free.mlvpn_freebuffer_reset fb') Hq) as [Hq' Hin].
  apply HQ; [by split; [|apply reset_pool_ok|]|split|..]; try done.
Qed.

(** ** Delivering what the reorder buffer gave *)

Lemma free_store fb p fb' :
  Free.mlvpn_freebuffer_free fb p = Some fb' -> Free.fb_store fb' = Free.fb_store fb.
Proof. unfold Free.mlvpn_freebuffer_free. case_match; [|done]. by intros [= <-]. Qed.

Lemma in_use_free fb p l fb' :
  Free.pool_inv fb -> in_use fb (p :: l) -> Free.mlvpn_freebuffer_free fb p = Some fb' -> in_use fb' l.
Proof.
  intros Hi [Hnd Hsub] Hf. apply NoDup_cons in Hnd as [Hp Hnd]. split; [done|].
  intros q Hq. pose proof (Free.free_used _ _ _ Hf) as Hperm.
  assert (q ∈ p :: Free.used_head fb') as Hin by (rewrite <- Hperm; apply Hsub; set_solver).
  apply elem_of_cons in Hin as [->|]; done.
Qed.

Lemma wp_inject_one p rest (Q : unit -> world -> Prop) w :
  tt_ok (w_tuntap w) -> pool_ok (w_freebuf w) -> in_use (w_freebuf w) (p :: rest) ->
  (forall tt' fb', tt_ok tt' -> tt_devname tt' = tt_devname (w_tuntap w) -> pool_ok fb' ->
    in_use fb' rest -> Q tt (w <| w_tuntap := tt' |> <| w_freebuf := fb' |>)) ->
  wp (inject_drained (Some p)) Q w.
Proof.
  intros Ht Hp Hu HQ. unfold inject_drained. wp_steps. eapply wp_expect; [done|]. wp_steps.
  apply wp_inject; [done|by apply entry_pkt_ok|]. intros tt' Htt' Hdev. wp_steps.
  destruct (proj1 (Free.free_Some (w_freebuf w) p)) as [fb' Hfb'].
  { apply (proj2 Hu). set_solver. }
  eapply wp_expect; [done|]. unfold set_freebuf. wp_steps. apply HQ; [done|done| |].
  - eapply pool_ok_eq; [done| |by eapply free_store]. eapply Free.free_inv; [apply Hp|done].
  - eapply in_use_free; [apply Hp|exact Hu|done].
Qed.

Lemma wp_inject_drained l : forall rest (Q : unit -> world -> Prop) w,
  tt_ok (w_tuntap w) -> pool_ok (w_freebuf w) -> in_use (w_freebuf w) (l ++ rest) ->
  (forall tt' fb', tt_ok tt' -> tt_devname tt' = tt_devname (w_tuntap w) -> pool_ok fb' ->
    in_use fb' rest -> Q tt (w <| w_tuntap := tt' |> <| w_freebuf := fb' |>)) ->
  wp (for_each (Some <$> l) inject_drained) Q w.
Proof.
  induction l as [|p l IH]; intros rest Q w Ht Hp Hu HQ; simpl.
  - apply wp_ret. specialize (HQ (w_tuntap w) (w_freebuf w)). destruct w. by apply HQ.
  - wp_steps. apply (wp_inject_one p (l ++ rest)); [done|done|done|].
    intros tt' fb' H1 H2 H3 H4. apply (IH rest); [done|done|done|].
    intros tt'' fb'' G1 G2 G3 G4. simpl in G2. apply (HQ tt'' fb''); [done|congruence|done|done].
Qed.

(** ** A packet for the reordering stage *)

Lemma store_pool_ok fb p pkt : pool_ok fb -> pkt_ok pkt -> pool_ok (Free.store_pkt p pkt fb).
Proof.
  intros [Hi Hs] Hp. split.
  - destruct Hi. split; simpl; try done. by rewrite length_insert.
  - simpl. by apply Forall_insert.
Qed.

Lemma get_in_use fb p fb' l :
  pool_ok fb -> Free.mlvpn_freebuffer_get fb = (Some p, fb') -> in_use fb l ->
  pool_ok fb' /\ in_use fb' (p :: l).
Proof.
  intros Hp Hg [Hnd Hsub]. pose proof (Free.get_inv _ (po_inv _ Hp)) as Hi. rewrite Hg in Hi. simpl in Hi.
  pose proof (Free.pool_nodup _ (po_inv _ Hp)) as Hn.
  unfold Free.mlvpn_freebuffer_get in Hg. destruct (Free.free_head fb) as [|e rest] eqn:Hf; [done|].
  injection Hg as -> <-. split; [by eapply pool_ok_eq|]. simpl in *.
  apply NoDup_cons in Hn as [Hn _]. split.
  - constructor; [|done]. intros Hin%Hsub. apply Hn. set_solver.
  - intros q [->|Hq%Hsub]%elem_of_cons; simpl; set_solver.
Qed.

Lemma in_use_sub fb l l' : in_use fb l -> l' ⊆+ l -> in_use fb l'.
Proof.
  intros [Hnd Hsub] [k Hk]%submseteq_Permutation. rewrite Hk in Hnd.
  apply NoDup_app in Hnd as (Hnd & _ & _). split; [done|].
  intros x Hx. apply Hsub. rewrite Hk. set_solver.
Qed.

Definition stage_step (w w' : world) : Prop := stage_ok w' /\ stage_only w w'.

#[local] Opaque Reorder.mlvpn_reorder_drain Reorder.mlvpn_reorder_insert.

Lemma started_held b seq : held (Reorder.started b seq) = held b.
Proof. unfold Reorder.started. by destruct (Reorder.is_initialized b). Qed.

(** The insertion and the drain that follows a successful one. *)
Lemma insert_cases b p seq :
  Reorder.quiet b -> 0 <= seq < 2 ^ 64 ->
  (exists b1 out b', Reorder.mlvpn_reorder_insert b p seq = Some (0, b1) /\
     Reorder.mlvpn_reorder_drain b1 Reorder.drain_max = (Some <$> out, b') /\
     Reorder.quiet b' /\ out ++ held b' ⊆+ p :: held b) \/
  (exists b', Reorder.mlvpn_reorder_insert b p seq = Some (-2, b') /\ Reorder.quiet b' /\ held b' = held b).
Proof.
  intros Hq Hseq. pose proof (Reorder.receive_spec b p seq Hq Hseq) as Hr.
  pose proof (Reorder.started_quiet b seq Hq Hseq) as Hq0. cbv zeta in Hr.
  pose proof (Reorder.insert_spec _ p seq Hq0 (Reorder.started_initialized b seq)) as Hins. cbv zeta in Hins.
  rewrite <- Reorder.insert_started in Hins. unfold Reorder.receive in Hr.
  destruct (Reorder.window_step _ _ _ _) as [[[out min] w']|] eqn:Hstep.
  - left. destruct Hr as (b' & Hr & Hq' & _ & Hw & _).
    destruct (Reorder.mlvpn_reorder_insert b p seq) as [[ret b1]|]; [|done]. cbn [mbind option_bind] in Hr.
    destruct (Z.eqb_spec ret 0) as [->|Hne]; [|by simplify_eq].
    destruct (Reorder.mlvpn_reorder_drain b1 Reorder.drain_max) as [l b2] eqn:Hd. simplify_eq.
    exists b1, out, b'. split_and!; try done. rewrite <- (started_held b seq).
    eapply Reorder.window_step_sub. by rewrite Hstep.
  - right. destruct (_ <? _) in Hins; [|by eexists; split_and!; [exact Hins|done|apply started_held]].
    destruct Hins as (b1 & Hb1 & _). rewrite Hb1 in Hr. cbn [mbind option_bind] in Hr.
    simpl in Hr. by destruct (Reorder.mlvpn_reorder_drain b1 Reorder.drain_max).
Qed.

Lemma wp_timer (b : bool) (m : W unit) (Q : unit -> world -> Prop) w :
  (forall t, Q tt (w <| w_drain_timer := t |>)) ->
  (m = timer_again \/ exists t, m = set_drain_timer t) -> wp (when b m) Q w.
Proof.
  intros HQ Hm. apply wp_when; intros _.
  - destruct Hm as [->|[t ->]]; unfold timer_again, set_drain_timer; wp_steps; apply HQ.
  - apply wp_ret. specialize (HQ (w_drain_timer w)). destruct w. exact HQ.
Qed.

Lemma wp_recv_reordered inpkt (Q : Z -> world -> Prop) w b :
  stage_ok w -> w_reorder w = Some b -> pkt_ok inpkt -> 0 <= pkt_seq inpkt < 2 ^ 64 ->
  (forall d w', stage_step w w' -> Q d w') -> wp (recv_reordered inpkt) Q w.
Proof.
  intros [Ht Hp Hr] Hb Hpkt Hseq HQ. rewrite Hb in Hr. destruct Hr as [Hq Hin].
  unfold recv_reordered. wp_steps.
  destruct (Free.mlvpn_freebuffer_get (w_freebuf w)) as [[p|] fb] eqn:Hg.
  2: { wp_steps. apply wp_inject; [done|done|]. intros tt' Htt' Hdev. wp_steps. apply HQ.
       split; [split; simpl; rewrite ?Hb; done|]. by split. }
  destruct (get_in_use _ _ _ (held b) Hp Hg Hin) as [Hp1 Hin1].
  pose proof (store_pool_ok fb p inpkt Hp1 Hpkt) as Hp2.
  unfold set_freebuf, reorder_buffer, set_reorder. wp_steps. simpl (w_reorder _). rewrite Hb.
  eapply wp_expect; [done|].
  destruct (insert_cases b p (pkt_seq inpkt) Hq Hseq)
    as [(b1 & out & b2 & Hi & Hd & Hq2 & Hsub)|(b2 & Hi & Hq2 & Hh)]; rewrite Hi; eapply wp_bind, wp_expect; try done; cbv beta iota; wp_steps.
  - change (0 =? -2) with false. change (0 =? -1) with false. cbv iota.
    unfold mlvpn_rtun_reorder_drain, reorder_buffer, set_reorder. wp_steps. simpl (w_reorder _).
    eapply wp_expect; [done|]. rewrite Hd. wp_steps.
    apply (wp_inject_drained out (held b2)); [done|done| |].
    { simpl. eapply in_use_sub; [|exact Hsub]. exact Hin1. }
    intros tt' fb' H1 H2 H3 H4. wp_steps. apply wp_timer; [|right; by eexists]. intros tm1. wp_steps.
    apply wp_timer; [|by left]. intros tm2. wp_steps. apply HQ.
    split; [by split|]. split; [done|done|]. simpl. rewrite Hb. split; by eexists.
  - change (-2 =? -2) with true. cbv iota. wp_steps. apply wp_inject; [done|done|].
    intros tt' Htt' Hdev. wp_steps. apply HQ. split; [split; simpl; try done|].
    + split; [done|]. rewrite Hh. eapply in_use_sub; [exact Hin1|]. by apply submseteq_cons.
    + split; [done|done|]. simpl. rewrite Hb. split; by eexists.
Qed.

Lemma stage_step_same w : stage_ok w -> stage_step w w.
Proof. intros Hs. by split. Qed.

Lemma wp_recv_data inpkt (Q : Z -> world -> Prop) w :
  stage_ok w -> pkt_ok inpkt -> 0 <= pkt_seq inpkt < 2 ^ 64 ->
  (forall d w', stage_step w w' -> Q d w') -> wp (mlvpn_rtun_recv_data inpkt) Q w.
Proof.
  intros Hs Hpkt Hseq HQ. unfold mlvpn_rtun_recv_data. wp_steps.
  destruct (w_reorder w) as [b|] eqn:Hb; simpl (bool_decide _).
  - destruct (pkt_reorder inpkt =? 0); simpl; [|by eapply wp_recv_reordered].
    wp_steps. apply wp_inject; [apply Hs|done|]. intros tt' Htt' Hdev. wp_steps. apply HQ.
    destruct Hs. split; [by split|]. by split.
  - simpl. wp_steps. apply wp_inject; [apply Hs|done|]. intros tt' Htt' Hdev. wp_steps. apply HQ.
    destruct Hs. split; [by split|]. by split.
Qed.

Lemma wp_flush (Q : unit -> world -> Prop) w :
  stage_ok w -> (forall w', stage_step w w' -> Q tt w') -> wp flush_reorder Q w.
Proof.
  intros Hs HQ. unfold flush_reorder. wp_steps. destruct (w_reorder w) as [b|] eqn:Hb.
  2: { apply HQ. by apply stage_step_same. }
  simpl. destruct Hs as [Ht Hp Hr]. rewrite Hb in Hr. destruct Hr as [Hq _]. wp_steps.
  apply (wp_drain_all _ _ b); [done|done|done|done|]. intros d w' Hs' Ho Hu Htm. unfold reset_reorder, reorder_buffer. wp_steps.
  destruct (w_reorder w') as [b'|] eqn:Hb'.
  2: { exfalso. destruct (proj2 (so_some _ _ Ho)); [rewrite Hb; by eexists|]. congruence. }
  eapply wp_expect; [done|]. unfold set_reorder. wp_steps. apply HQ.
  destruct Hs' as [Ht' Hp' Hr']. rewrite Hb' in Hr'.
  split.
  - split; [done|done|]. simpl. apply reset_in_use, Hr'.
  - etransitivity; [exact Ho|]. split; [done|done|]. simpl. rewrite Hb'. split; by eexists.
Qed.

Lemma wp_drain_timeout (Q : unit -> world -> Prop) w :
  stage_ok w -> w_drain_timer w = true -> (forall w', stage_step w w' -> Q tt w') ->
  wp mlvpn_rtun_reorder_drain_timeout Q w.
Proof.
  intros [Ht Hp Hr] Htm HQ. unfold mlvpn_rtun_reorder_drain_timeout. wp_steps.
  destruct (w_reorder w) as [b|] eqn:Hb; [|congruence].
  apply (wp_drain_all _ _ b); [done|done|done|apply Hr|]. intros d w' Hs' Ho Hu Htm'. wp_steps.
  apply wp_timer; [|right; by eexists]. intros t. apply HQ. destruct Hs' as [Ht' Hp' Hr']. split.
  - split; [done|done|]. simpl. destruct (w_reorder w') eqn:E; [done|]. exfalso.
    destruct (proj2 (so_some _ _ Ho)); [rewrite Hb; by eexists|]. congruence.
  - etransitivity; [exact Ho|]. by split.
Qed.
End stage.
