(* ===== verification/Invariant.v ===== *)
(** * The invariant of the daemon

    What holds of every tunnel ([tun_ok]), of the whole state ([winv0]) and of
    the control state, the statuses, the counters and the scheduler's table,
    between two events ([sync]).  [J w0] is the invariant together with "the
    control state is that of [w0]", which every function that changes no
    status keeps. *)

From S2P Require Import Prelude Double CString Timestamp Pkt Buffer Reorder Tunnel Loss Wrr Protocol Tuntap Rtun Stage.

(** ** One tunnel *)

(** The packets that wait in a ring: small enough to be sealed and sent, and
    data packets are not empty. *)
Record tx_ok (p : mlvpn_pkt_t) : Prop := {
  tx_pkt : pkt_ok p;
  tx_len : pkt_len p <= 1444;
  tx_data : pkt_type p = MLVPN_PKT_DATA -> 0 < pkt_len p
}.

Definition has_addr (t : mlvpn_tunnel_t) : bool := match t_addrinfo t with [] => false | _ => true end.

(** The tunnel has been started: its socket is open, its watchers may run. *)
Definition started (t : mlvpn_tunnel_t) : bool :=
  t_up t || t_io_read t || t_io_write t || negb (Ring.is_empty (t_hpsbuf t)) || (0 <=? t_fd t).

(** The retry delays. *)
Definition delays : list double := d_of_Z <$> [1; 2; 4; 8; 16; 32; 64].

Record tun_ok (t : mlvpn_tunnel_t) : Prop := {
  tk_sbuf : Ring.ring_inv tx_ok cap (t_sbuf t);
  tk_hpsbuf : Ring.ring_inv tx_ok cap (t_hpsbuf t);
  tk_wire : tun_wire t;
  tk_srtt : dpos (t_srtt t);
  tk_rttvar : dpos (t_rttvar t);
  tk_bit0 : Z.testbit (t_seq_vect t) 0 = true;
  tk_repeat : t_io_timeout_repeat t ∈ delays;
  tk_addr : started t = true -> has_addr t = true
}.

(** [tun_ok] depends on these fields only. *)
Lemma tun_ok_ext t t' :
  tun_ok t -> t_sbuf t' = t_sbuf t -> t_hpsbuf t' = t_hpsbuf t -> t_seq t' = t_seq t ->
  t_flow_id t' = t_flow_id t -> t_srtt t' = t_srtt t -> t_rttvar t' = t_rttvar t ->
  t_seq_vect t' = t_seq_vect t -> t_io_timeout_repeat t' = t_io_timeout_repeat t ->
  t_status t' = t_status t -> t_io_read t' = t_io_read t -> t_io_write t' = t_io_write t ->
  t_fd t' = t_fd t -> t_addrinfo t' = t_addrinfo t -> tun_ok t'.
Proof.
  intros [S1 S2 [W1 W2] R1 R2 B D A] E1 E2 E3 E4 E5 E6 E7 E8 E9 E10 E11 E12 E13.
  unfold started, has_addr, t_up in *.
  split; unfold started, has_addr, t_up; try congruence.
  - split; congruence.
  - by rewrite E2, E9, E10, E11, E12, E13.
Qed.
Ltac ok_ext := eapply tun_ok_ext; [eassumption|reflexivity..].

(** What the control functions look at. *)
Definition t_ctl (t : mlvpn_tunnel_t) : string * chap_status * bool * bool :=
  (t_name t, t_status t, t_fallback t, has_addr t).

(** ** The state *)

Record winv0 (w : world) : Prop := {
  v_stage : stage_ok w;
  v_alloc : rtuns_alloc w;
  v_nodup : NoDup (w_rtuns w);
  v_max : Z.of_nat (length (w_rtuns w)) <= MAX_TUNNELS;
  v_tuns : map_Forall (fun _ t => tun_ok t) (w_tuns w);
  v_gone t tun : w_tuns w !! t = Some tun -> t ∉ w_rtuns w ->
    t_status tun = MLVPN_DISCONNECTED /\ t_io_read tun = false /\ t_io_write tun = false /\ t_io_timeout tun = false;
  v_names t1 t2 n : t1 ∈ w_rtuns w -> t2 ∈ w_rtuns w ->
    t_name <$> w_tuns w !! t1 = Some n -> t_name <$> w_tuns w !! t2 = Some n -> t1 = t2;
  v_title : w_process_title w = None \/
    forall t tun, t ∈ w_rtuns w -> w_tuns w !! t = Some tun -> (String.length (t_name tun) <= 29)%nat;
  v_filters : Forall (fun f => is_Some (w_tuns w !! f.2)) (w_filters w);
  v_data_seq : 0 <= w_data_seq w < 2 ^ 64
}.

(** The tuntap_up and tuntap_down scripts that were run, and whether they
    alternate: the state they leave the interface in. *)
Definition updown1 (e : effect) : option bool :=
  match e with
  | Script [_; cmd] _ => if bool_decide (cmd = "tuntap_up") then Some true
                         else if bool_decide (cmd = "tuntap_down") then Some false else None
  | _ => None
  end.
Definition updown (l : list effect) : list bool := omap updown1 l.
Fixpoint alternate (up : bool) (l : list bool) : option bool :=
  match l with
  | [] => Some up
  | b :: l => if Bool.eqb b up then None else alternate b l
  end.

Definition up_tunnels (w : world) : list nat := filter (fun t => tun_test w t_up t = true) (w_rtuns w).

Record sync (w : world) : Prop := {
  y_connected : s_connected (w_status w) = Z.of_nat (length (up_tunnels w));
  y_initialized : s_initialized (w_status w) = (0 <? s_connected (w_status w));
  y_wrr : Forall (fun t => t ∈ up_tunnels w) (wrr_tunnel (w_wrr w));
  y_wrr_len : length (wrr_tunval (w_wrr w)) = length (wrr_tunnel (w_wrr w));
  y_trace : alternate false (updown (w_trace w)) = Some (s_initialized (w_status w))
}.

Record winv (w : world) : Prop := { wv_0 : winv0 w; wv_sync : sync w }.

(** The same control state. *)
Record ctl (w w' : world) : Prop := {
  c_rtuns : w_rtuns w' = w_rtuns w;
  c_status : w_status w' = w_status w;
  c_wrr : w_wrr w' = w_wrr w;
  c_options : w_options w' = w_options w;
  c_updown : updown (w_trace w') = updown (w_trace w);
  c_tuns t : t_ctl <$> w_tuns w' !! t = t_ctl <$> w_tuns w !! t
}.
#[export] Instance ctl_preorder : PreOrder ctl.
Proof. split; [by intros ?; split|]. intros ??? [] []. split; congruence. Qed.

Definition J (w0 w : world) : Prop := winv0 w /\ ctl w0 w.

(** The tunnel [t] is in the list and its control fields are [c]. *)
Definition has (w : world) (t : nat) (c : string * chap_status * bool * bool) : Prop :=
  t ∈ w_rtuns w /\ t_ctl <$> w_tuns w !! t = Some c.

Section facts.
Context `{OS}.

Lemma has_lookup w0 w t c : has w0 t c -> ctl w0 w ->
  t ∈ w_rtuns w /\ exists tun, w_tuns w !! t = Some tun /\ t_ctl tun = c.
Proof.
  intros [Hin Ht] Hc. split; [by rewrite (c_rtuns _ _ Hc)|].
  rewrite <- (c_tuns _ _ Hc), fmap_Some in Ht. naive_solver.
Qed.

Lemma t_ctl_up t c : t_ctl t = c -> t_up t = status_up c.1.1.2.
Proof. by intros <-. Qed.
Lemma t_ctl_addr t c : t_ctl t = c -> has_addr t = c.2.
Proof. by intros <-. Qed.

(** Replacing a tunnel of the list. *)
Lemma winv0_put w t tun tun' :
  winv0 w -> t ∈ w_rtuns w -> w_tuns w !! t = Some tun -> tun_ok tun' -> t_name tun' = t_name tun ->
  winv0 (w <| w_tuns := <[t := tun']> (w_tuns w) |>).
Proof.
  intros [] Hin Ht Hok Hn. split; simpl; try done.
  - by destruct v_stage0.
  - eapply Forall_impl; [exact v_alloc0|]. intros t' [x Hx]. simpl.
    destruct (decide (t = t')) as [->|]; [rewrite lookup_insert_eq|rewrite lookup_insert_ne by done]; eauto.
  - by apply map_Forall_insert_2.
  - intros t' x Hx Hnot. destruct (decide (t = t')) as [->|]; [done|].
    rewrite lookup_insert_ne in Hx by done. eauto.
  - assert (forall t', t_name <$> <[t := tun']> (w_tuns w) !! t' = t_name <$> w_tuns w !! t') as Heq.
    { intros t'. destruct (decide (t = t')) as [->|]; [|by rewrite lookup_insert_ne].
      by rewrite lookup_insert_eq, Ht; simpl; rewrite Hn. }
    intros t1 t2 n. rewrite !Heq. apply v_names0.
  - destruct v_title0 as [|Hl]; [by left|right]. intros t' x Hin' Hx.
    destruct (decide (t = t')) as [->|].
    + rewrite lookup_insert_eq in Hx. injection Hx as <-. rewrite Hn. eauto.
    + rewrite lookup_insert_ne in Hx by done. eauto.
  - eapply Forall_impl; [exact v_filters0|]. intros [f t'] [x Hx]. simpl in *.
    destruct (decide (t = t')) as [->|]; [rewrite lookup_insert_eq|rewrite lookup_insert_ne by done]; eauto.
Qed.

Lemma ctl_put w t tun tun' :
  w_tuns w !! t = Some tun -> t_ctl tun' = t_ctl tun -> ctl w (w <| w_tuns := <[t := tun']> (w_tuns w) |>).
Proof.
  intros Ht Hc. split; simpl; try done. intros t'.
  destruct (decide (t = t')) as [->|]; [|by rewrite lookup_insert_ne].
  by rewrite lookup_insert_eq, Ht; simpl; rewrite Hc.
Qed.

Lemma stage_step_J w0 w w' : J w0 w -> stage_step w w' -> J w0 w'.
Proof.
  intros [Hw Hc] [Hs Ho]. destruct Ho as [Heq Hd Hn]. split.
  - destruct Hw. rewrite Heq. split; try done. by rewrite <- Heq.
  - etransitivity; [exact Hc|]. rewrite Heq. by split.
Qed.

(** ** What keeps [J] *)
Variable w0 : world.

Lemma pres_stage {A} (m : W A) :
  (forall Q w, stage_ok w -> (forall a w', stage_step w w' -> Q a w') -> wp m Q w) -> preserves (J w0) m.
Proof. intros Hm w HJ. apply Hm; [apply HJ|]. intros a w' Hs. by eapply stage_step_J. Qed.

Lemma pres_get t c {A} (k : mlvpn_tunnel_t -> W A) :
  has w0 t c -> (forall tun, tun_ok tun -> t_ctl tun = c -> preserves (J w0) (k tun)) ->
  preserves (J w0) (tun_get t ≫= k).
Proof.
  intros Hh Hk w HJ. destruct (has_lookup _ _ _ _ Hh (proj2 HJ)) as (Hin & tun & Ht & Hc).
  apply wp_bind. unfold wp, tun_get at 1. rewrite Ht. apply Hk; [|done|done].
  by eapply (v_tuns _ (proj1 HJ)).
Qed.

Lemma pres_put t c tun' :
  has w0 t c -> tun_ok tun' -> t_ctl tun' = c -> preserves (J w0) (tun_put t tun').
Proof.
  intros Hh Hok Hc w HJ. destruct (has_lookup _ _ _ _ Hh (proj2 HJ)) as (Hin & tun & Ht & Hc').
  apply wp_modify. split.
  - eapply winv0_put; [apply HJ|done|done|done|]. rewrite <- Hc' in Hc. by injection Hc.
  - etransitivity; [apply HJ|]. eapply ctl_put; [done|congruence].
Qed.

Lemma pres_upd t c f :
  has w0 t c -> (forall tun, tun_ok tun -> t_ctl tun = c -> tun_ok (f tun) /\ t_ctl (f tun) = c) ->
  preserves (J w0) (tun_upd t f).
Proof.
  intros Hh Hf. apply (pres_get t c); [done|]. intros tun Hok Hc.
  destruct (Hf tun Hok Hc). by apply (pres_put t c).
Qed.

Lemma pres_is t c p : has w0 t c -> preserves (J w0) (tun_is t p).
Proof. intros Hh. apply (pres_get t c); [done|]. intros. apply preserves_ret. Qed.

Lemma pres_ask {A} (f : nat -> A) : preserves (J w0) (ask f).
Proof.
  intros w [Hw Hc]. unfold wp, ask. split; [|etransitivity; [exact Hc|by split]].
  destruct Hw. split; try done. by destruct v_stage0.
Qed.

Lemma pres_emit e : updown1 e = None -> preserves (J w0) (emit e).
Proof.
  intros He w [Hw Hc]. apply wp_modify. split.
  - destruct Hw. split; try done. by destruct v_stage0.
  - etransitivity; [exact Hc|]. split; try done. unfold updown. simpl.
    rewrite omap_app. simpl. rewrite He. by rewrite app_nil_r.
Qed.

Lemma pres_expect {A} f (o : option A) : is_Some o -> preserves (J w0) (expect f o).
Proof. intros [a ->]. apply preserves_ret. Qed.

Lemma pres_tick t c : has w0 t c -> preserves (J w0) (mlvpn_rtun_tick t).
Proof.
  intros Hh. apply preserves_bind; [apply preserves_gets|]. intros now.
  apply (pres_upd t c); [done|]. intros tun Hok Hc. split; [ok_ext|done].
Qed.
End facts.

#[export] Hint Resolve pres_ask : preserve.
