(* ===== verification/Status.v ===== *)
(** * Status changes

    The functions that move tunnels between the statuses keep the invariant:
    the count of connected tunnels, the state of the interface and the
    scheduler's table follow every change. *)

From S2P Require Import Prelude Double CString Timestamp Pkt Buffer Reorder Tunnel Loss Wrr Protocol Tuntap Rtun Stage Invariant.

Section status.
Context `{OS}.

Lemma tun_test_ctl p q w w' t :
  (forall x, p x = q (t_ctl x)) -> t_ctl <$> w_tuns w' !! t = t_ctl <$> w_tuns w !! t ->
  tun_test w' p t = tun_test w p t.
Proof.
  intros Hp Hc. unfold tun_test. destruct (w_tuns w' !! t) as [x|], (w_tuns w !! t) as [y|]; simpl in Hc; try done.
  rewrite !Hp. assert (t_ctl x = t_ctl y) as -> by congruence. done.
Qed.

Lemma up_tunnels_ctl w w' : ctl w w' -> up_tunnels w' = up_tunnels w.
Proof.
  intros Hc. unfold up_tunnels. rewrite (c_rtuns _ _ Hc). apply list_filter_iff. intros t.
  rewrite (tun_test_ctl t_up (fun c => status_up c.1.1.2) w w'); [done|done|apply Hc].
Qed.

Lemma sync_ctl w w' : sync w -> ctl w w' -> sync w'.
Proof.
  intros [] Hc. split; rewrite ?(c_status _ _ Hc), ?(c_wrr _ _ Hc), ?(c_updown _ _ Hc), ?(up_tunnels_ctl _ _ Hc); done.
Qed.

Lemma sync_J w0 w : sync w0 -> J w0 w -> winv w.
Proof. intros Hs [Hw Hc]. split; [done|]. by eapply sync_ctl. Qed.

(** [winv0] does not look at the status, the table, the trace and the clock. *)
Lemma winv0_ext w w' :
  winv0 w -> w_tuns w' = w_tuns w -> w_rtuns w' = w_rtuns w -> w_tuntap w' = w_tuntap w ->
  w_freebuf w' = w_freebuf w -> w_reorder w' = w_reorder w -> w_drain_timer w' = w_drain_timer w ->
  w_process_title w' = w_process_title w -> w_filters w' = w_filters w -> w_data_seq w' = w_data_seq w ->
  winv0 w'.
Proof.
  intros [[S1 S2 S3] A N M T G Nm Ti F D] E1 E2 E3 E4 E5 E6 E7 E8 E9.
  split; unfold rtuns_alloc in *; rewrite ?E1, ?E2, ?E7, ?E8, ?E9; try done.
  split; rewrite ?E3, ?E4, ?E5, ?E6; done.
Qed.
Ltac w_ext := eapply winv0_ext; [eassumption|reflexivity..].

(** ** The title *)

Lemma title_loop_ok l : forall title w,
  winv0 w -> w_process_title w <> None -> Forall (fun t => t ∈ w_rtuns w) l ->
  exists s, title_loop l title w = Ok s w.
Proof.
  induction l as [|t l IH]; intros title w Hw Hpt Hl; [by eexists|].
  inversion Hl as [|? ? Ht Hl']; subst. cbn [title_loop]. unfold mbind at 1, M_bind at 1, title_add at 1.
  destruct (proj1 (Forall_forall _ _) (v_alloc _ Hw) t Ht) as [tun Htun].
  unfold mbind at 1, M_bind at 1, tun_get at 1. rewrite Htun.
  assert (String.length (" " +:+ status_mark (t_status tun) +:+ t_name tun) <= 31)%nat as Hlen.
  { destruct (v_title _ Hw) as [|Hn]; [done|]. specialize (Hn t tun Ht Htun).
    rewrite !length_append. destruct (t_status tun); simpl; lia. }
  rewrite (proj2 (Nat.leb_gt _ _)) by lia. by apply IH.
Qed.

(** ** [mlvpn_update_status] and the table *)

Definition count_loop (t : nat) : W unit :=
  tun ← tun_get t;
  when (t_up tun) (
    when (negb (t_fallback tun)) (set_status (fun s => s <| s_fallback_mode := false |>));;
    set_status (fun s => s <| s_connected := s_connected s + 1 |>)).

Lemma count_loop_spec l : forall w,
  Forall (fun t => is_Some (w_tuns w !! t)) l ->
  exists fb, for_each l count_loop w =
    Ok tt (w <| w_status := (w_status w) <| s_fallback_mode := fb |> <| s_connected := s_connected (w_status w) +
             Z.of_nat (length (filter (fun t => tun_test w t_up t = true) l)) |> |>).
Proof.
  induction l as [|t l IH]; intros w Hl.
  { exists (s_fallback_mode (w_status w)). simpl. unfold mret, M_ret. f_equal. destruct w as [? ? [] ]. simpl. by rewrite Z.add_0_r. }
  inversion Hl as [|? ? [tun Ht] Hl']; subst. cbn [for_each]. unfold mbind at 1, M_bind at 1.
  unfold count_loop at 1. unfold mbind at 1, M_bind at 1, tun_get at 1. rewrite Ht, filter_cons.
  assert (tun_test w t_up t = t_up tun) as Htt by (unfold tun_test; by rewrite Ht). rewrite Htt.
  destruct (t_up tun); cbn [when]; [rewrite decide_True by done|rewrite decide_False by done; by apply IH].
  destruct (t_fallback tun); cbn [when negb]; unfold mbind at 1, M_bind at 1, mret, M_ret, set_status, modify; simpl;
    match goal with |- context [for_each l count_loop ?w1] => destruct (IH w1 Hl') as [fb Hfb] end;
    exists fb; rewrite Hfb; simpl; do 3 f_equal; rewrite (list_filter_iff _ (fun t => tun_test w t_up t = true)) by done; lia.
Qed.

Lemma update_status_spec w :
  rtuns_alloc w ->
  exists fb, mlvpn_update_status w =
    Ok tt (w <| w_status := (w_status w) <| s_fallback_mode := fb |> <| s_connected := Z.of_nat (length (up_tunnels w)) |> |>).
Proof.
  intros Hal. unfold mlvpn_update_status. unfold mbind at 1, M_bind at 1, gets at 1.
  unfold mbind at 1, M_bind at 1, set_status at 1, modify at 1. unfold mbind at 1, M_bind at 1, gets at 1.
  match goal with |- context [for_each _ _ ?w1] => destruct (count_loop_spec (w_rtuns w) w1 Hal) as [fb Hfb] end.
  exists fb. etransitivity; [exact Hfb|]. done.
Qed.

Lemma candidates_up uf w : candidates uf w ⊆ up_tunnels w.
Proof.
  intros t. unfold candidates, up_tunnels. rewrite !list_elem_of_filter. intros [He Hin]. split; [|done].
  unfold tun_test in *. destruct (w_tuns w !! t) as [tun|]; [|done].
  unfold eligible, t_up in *. apply andb_true_iff in He as [_ He]. apply orb_true_iff in He as [He|He].
  - by apply andb_true_iff in He as [_ ?].
  - apply bool_decide_eq_true_1 in He. by rewrite He.
Qed.

Definition wrr_ok (w : world) (wrr : mlvpn_wrr) : Prop :=
  Forall (fun t => t ∈ up_tunnels w) (wrr_tunnel wrr) /\ length (wrr_tunval wrr) = length (wrr_tunnel wrr).

Lemma wp_wrr_reset uf (Q : unit -> world -> Prop) w :
  winv0 w -> (forall wrr, wrr_ok w wrr -> Q tt (w <| w_wrr := wrr |>)) -> wp (mlvpn_rtun_wrr_reset uf) Q w.
Proof.
  intros Hw HQ. unfold wp. rewrite wrr_reset_spec; [|apply Hw|].
  - apply HQ. split; simpl; [|by rewrite length_replicate].
    apply Forall_forall. apply candidates_up.
  - etransitivity; [|apply (v_max _ Hw)]. unfold candidates.
    pose proof (length_filter (fun t => tun_test w (eligible uf) t = true) (w_rtuns w)). lia.
Qed.

(** ** The tail of the status changes *)

Definition Jx (w0 w : world) : Prop := J w0 w /\ w_tuns w = w_tuns w0.

Lemma Jx_refl w : winv0 w -> Jx w w.
Proof. intros Hw. by split; [split|]. Qed.

Lemma pres_J_of_Jx {A} (m : W A) : (forall w, preserves (Jx w) m) -> forall w0, preserves (J w0) m.
Proof.
  intros Hm w0 w HJ. eapply wp_mono; [apply (Hm w w), Jx_refl, HJ|].
  intros a w' [[Hw Hc] _]. split; [done|]. etransitivity; [apply HJ|done].
Qed.

Lemma pres_Jx_stage {A} (m : W A) w0 :
  (forall Q w, stage_ok w -> (forall a w', stage_step w w' -> Q a w') -> wp m Q w) -> preserves (Jx w0) m.
Proof.
  intros Hm w [HJ Ht]. apply Hm; [apply HJ|]. intros a w' Hs. split; [by eapply stage_step_J|].
  rewrite <- Ht. destruct Hs as [_ [Heq _ _]]. by rewrite Heq.
Qed.

Lemma pres_flush_x w0 : preserves (Jx w0) flush_reorder.
Proof. apply pres_Jx_stage. intros Q w Hs HQ. apply wp_flush; [done|]. intros w'. apply HQ. Qed.
Lemma pres_flush w0 : preserves (J w0) flush_reorder.
Proof. apply pres_J_of_Jx, pres_flush_x. Qed.

Lemma pres_title_x w0 : preserves (Jx w0) update_process_title.
Proof.
  intros w [HJ Ht]. unfold update_process_title. wp_steps.
  destruct (w_process_title w) as [pt|] eqn:Hpt; [|done]. wp_steps.
  destruct (title_loop_ok (w_rtuns w) (strlcat_s "" pt 1024) w) as [s Hs]; [apply HJ|congruence|by apply Forall_forall|].
  unfold wp at 1. rewrite Hs. split; [|done]. by apply (pres_emit w0 (Title s)).
Qed.
Lemma pres_title w0 : preserves (J w0) update_process_title.
Proof. apply pres_J_of_Jx, pres_title_x. Qed.

(** The invariant around the functions that work on the tunnel [t], which is
    in the list and has an address. *)
Definition K (rt : list nat) (t : nat) (w : world) : Prop :=
  winv w /\ w_rtuns w = rt /\ t ∈ rt /\ exists tun, w_tuns w !! t = Some tun /\ has_addr tun = true.

Lemma K_has rt t w : K rt t w -> exists c, has w t c /\ c.2 = true.
Proof.
  intros (_ & <- & Hin & tun & Ht & Ha). exists (t_ctl tun). split; [|done]. split; [done|]. by rewrite Ht.
Qed.

Lemma K_of_Jw rt t w0 w : K rt t w0 -> J w0 w -> K rt t w.
Proof.
  intros HK HJ. destruct (K_has _ _ _ HK) as (c & Hh & Hc).
  destruct (has_lookup _ _ _ _ Hh (proj2 HJ)) as (Hin & tun & Ht & Hct).
  destruct HK as (Hw & <- & _). rewrite (c_rtuns _ _ (proj2 HJ)) in Hin. split_and!; [|apply HJ|done|].
  - eapply sync_J; [apply Hw|done].
  - exists tun. split; [done|]. rewrite (t_ctl_addr _ _ Hct). done.
Qed.

Lemma pres_K_of_J rt t {A} (m : W A) :
  (forall w0 c, has w0 t c -> c.2 = true -> preserves (J w0) m) -> preserves (K rt t) m.
Proof.
  intros Hm w HK. destruct (K_has _ _ _ HK) as (c & Hh & Hc).
  eapply wp_mono; [apply (Hm w c Hh Hc); split; [apply HK|done]|].
  intros a w' HJ. by eapply K_of_Jw.
Qed.

Lemma up_tunnels_put w t tun tun' :
  w_tuns w !! t = Some tun -> t_up tun' = t_up tun ->
  up_tunnels (w <| w_tuns := <[t := tun']> (w_tuns w) |>) = up_tunnels w.
Proof.
  intros Ht Hu. apply list_filter_iff. intros t'. unfold tun_test. simpl.
  destruct (decide (t = t')) as [->|]; [|by rewrite lookup_insert_ne].
  by rewrite lookup_insert_eq, Ht, Hu.
Qed.

Lemma elem_up_tunnels w t tun :
  t ∈ w_rtuns w -> w_tuns w !! t = Some tun -> t ∈ up_tunnels w <-> t_up tun = true.
Proof.
  intros Hin Ht. unfold up_tunnels. rewrite list_elem_of_filter. unfold tun_test. rewrite Ht. tauto.
Qed.

Lemma downed_ok tun : tun_ok tun ->
  tun_ok (downed tun) /\ t_name (downed tun) = t_name tun /\
  t_status (downed tun) = MLVPN_DISCONNECTED /\ has_addr (downed tun) = has_addr tun /\
  t_io_write (downed tun) = false.
Proof.
  intros [S1 S2 [W1 W2] R1 R2 B D A].
  destruct (Ring.reset_ring_inv _ _ _ S1) as [S1' E1]. destruct (Ring.reset_ring_inv _ _ _ S2) as [S2' E2].
  assert (forall x, t_io_write x = false -> t_hpsbuf x = Ring.mlvpn_pktbuffer_reset (t_hpsbuf tun) ->
    t_status x = MLVPN_DISCONNECTED -> t_io_read x = t_io_read tun -> t_fd x = t_fd tun ->
    started x = true -> started tun = true) as Hst.
  { intros x H1 H2 H3 H4 H5. unfold started, t_up. rewrite H1, H2, H3, H4, H5, E2. simpl.
    destruct (t_io_read tun), (0 <=? t_fd tun); rewrite ?orb_true_r; done. }
  unfold downed. cbv zeta. simpl (t_io_write _). destruct (t_io_write tun) eqn:Hw; (split; [|by split_and!]);
    (split; simpl; try done; intros Hs; apply A; eapply Hst; [..|exact Hs]; done).
Qed.

Lemma winv0_status w s : winv0 w -> winv0 (w <| w_status := s |>).
Proof. intros. w_ext. Qed.
Lemma winv0_wrr w x : winv0 w -> winv0 (w <| w_wrr := x |>).
Proof. intros. w_ext. Qed.
Lemma winv0_trace w x : winv0 w -> winv0 (w <| w_trace := x |>).
Proof. intros. w_ext. Qed.

Lemma updown_script3 l a b c env : updown (l ++ [Script [a; b; c] env]) = updown l.
Proof. unfold updown. rewrite omap_app. simpl. apply app_nil_r. Qed.
Lemma updown_up l a env : updown (l ++ [Script [a; "tuntap_up"] env]) = updown l ++ [true].
Proof. unfold updown. by rewrite omap_app. Qed.
Lemma updown_down l a env : updown (l ++ [Script [a; "tuntap_down"] env]) = updown l ++ [false].
Proof. unfold updown. by rewrite omap_app. Qed.

Lemma alternate_snoc l : forall s e b,
  alternate s l = Some e -> b = negb e -> alternate s (l ++ [b]) = Some b.
Proof.
  induction l as [|x l IH]; intros s e b; simpl.
  - intros [= ->] ->. by destruct e.
  - destruct (Bool.eqb x s); [done|]. intros Ha. by apply IH.
Qed.

(** ** Down *)

(** The part of [mlvpn_rtun_status_down] that only a connected tunnel runs. *)
Definition down_tail (devname name : string) : W unit :=
  env ← mlvpn_script_get_env;
  priv_run_script [devname; "rtun_down"; name] env;;
  wrr_refresh;;
  s ← gets w_status;
  when ((s_connected s =? 0) && s_initialized s) (
    priv_run_script [devname; "tuntap_down"] env;;
    set_status (fun s => s <| s_initialized := false |>));;
  flush_reorder.

(** All of [sync] but the table, with the interface up. *)
Record sync_up (w : world) : Prop := {
  yu_connected : s_connected (w_status w) = Z.of_nat (length (up_tunnels w));
  yu_trace : alternate false (updown (w_trace w)) = Some true;
  yu_init : s_initialized (w_status w) = true
}.

Lemma wp_script_env (Q : list string -> world -> Prop) w :
  (forall env, Q env w) -> wp mlvpn_script_get_env Q w.
Proof. intros HQ. unfold mlvpn_script_get_env. wp_steps. apply HQ. Qed.

Lemma wp_down_tail devname name (Q : unit -> world -> Prop) w :
  winv0 w -> sync_up w ->
  (forall w', winv w' -> w_tuns w' = w_tuns w -> w_rtuns w' = w_rtuns w -> Q tt w') ->
  wp (down_tail devname name) Q w.
Proof.
  intros Hw [Hc Htr Hin] HQ.
  assert (forall w1, winv0 w1 -> sync w1 -> w_tuns w1 = w_tuns w -> w_rtuns w1 = w_rtuns w ->
    wp flush_reorder Q w1) as Hflush.
  { intros w1 Hw1 Hs1 Ht1 Hr1. eapply wp_mono; [apply (pres_flush_x w1 w1), Jx_refl, Hw1|].
    intros [] w' [HJ Ht']. apply HQ; [by eapply sync_J|congruence|]. by rewrite (c_rtuns _ _ (proj2 HJ)). }
  unfold down_tail. wp_steps. apply wp_script_env. intros env.
  unfold priv_run_script, emit, wrr_refresh. wp_steps.
  apply wp_wrr_reset; [w_ext|]. intros wrr [Hwrr Hwl]. wp_steps. simpl (w_status _). rewrite Hin, andb_true_r.
  destruct (Z.eqb_spec (s_connected (w_status w)) 0) as [E0|E0]; cbn [when]; unfold set_status; wp_steps.
  - apply Hflush; [w_ext| |done|done]. split; simpl; try done.
    + by rewrite E0.
    + rewrite updown_down. apply (alternate_snoc _ _ true); [|done]. by rewrite updown_script3.
  - apply Hflush; [w_ext| |done|done]. split; simpl; try done.
    + rewrite Hin. symmetry. apply Z.ltb_lt. lia.
    + by rewrite updown_script3, Htr, Hin.
Qed.

(** The tunnel need not have an address. *)
Lemma wp_status_down_any t (Q : unit -> world -> Prop) w tun :
  winv w -> t ∈ w_rtuns w -> w_tuns w !! t = Some tun ->
  (forall w', winv w' -> w_rtuns w' = w_rtuns w -> w_tuns w' = <[t := downed tun]> (w_tuns w) -> Q tt w') ->
  wp (mlvpn_rtun_status_down t) Q w.
Proof.
  intros Hw Hin Ht HQ.
  destruct (downed_ok tun (v_tuns _ (wv_0 _ Hw) _ _ Ht)) as (Hok & Hnm & Hst & Had & _).
  assert (t_up (downed tun) = false) as Hdn.
  { unfold t_up. by rewrite Hst. }
  set (w1 := w <| w_tuns := <[t := downed tun]> (w_tuns w) |>).
  assert (winv0 w1) as Hw1.
  { eapply winv0_put; [apply Hw|by subst|done|done|done]. }
  assert (forall w', winv w' -> w_tuns w' = w_tuns w1 -> w_rtuns w' = w_rtuns w1 ->
    wp update_process_title Q w') as Hend.
  { intros w' Hw' Ht' Hr'. eapply wp_mono; [apply (pres_title_x w' w'), Jx_refl, Hw'|].
    intros [] w'' [HJ Ht'']. apply HQ; [|by rewrite (c_rtuns _ _ (proj2 HJ)), Hr'|by rewrite Ht'', Ht'].
    by eapply sync_J; [apply Hw'|]. }
  unfold mlvpn_rtun_status_down. wp_steps. unfold wp at 1, tun_get at 1. rewrite Ht.
  wp_steps. unfold tun_upd, tun_put. wp_steps. unfold wp at 1, tun_get at 1. rewrite Ht.
  wp_steps. fold w1.
  destruct (update_status_spec w1 (v_alloc _ Hw1)) as [fb Hus]. unfold wp at 1. rewrite Hus. wp_steps.
  set (w2 := w1 <| w_status := _ |>).
  destruct (wv_sync _ Hw) as [Yc Yi Ywr Ywl Yt].
  destruct (t_up tun) eqn:Hup; cbn [when].
  - fold (down_tail (tt_devname (w_tuntap w)) (t_name tun)).
    apply wp_down_tail; [w_ext| |done].
    assert (t ∈ up_tunnels w) as Htu by (apply (elem_up_tunnels w t tun); [by subst|done|done]).
    assert (s_initialized (w_status w) = true) as Hi.
    { rewrite Yi, Yc. apply Z.ltb_lt. destruct (up_tunnels w); [set_solver|simpl; lia]. }
    rewrite Hi in Yt. by split.
  - wp_steps. apply Hend; [|done|done]. split; [w_ext|].
    assert (up_tunnels w2 = up_tunnels w) as Hu.
    { apply (up_tunnels_put w t tun); [done|congruence]. }
    unfold w2. split; simpl; try done.
    + change (length (up_tunnels w1)) with (length (up_tunnels w2)). by rewrite Hu, <- Yc.
    + eapply Forall_impl; [exact Ywr|]. intros x Hx. change (x ∈ up_tunnels w2). by rewrite Hu.
Qed.

Lemma wp_status_down rt t (Q : unit -> world -> Prop) w tun :
  K rt t w -> w_tuns w !! t = Some tun ->
  (forall w', K rt t w' -> w_tuns w' = <[t := downed tun]> (w_tuns w) -> Q tt w') ->
  wp (mlvpn_rtun_status_down t) Q w.
Proof.
  intros (Hw & Hrt & Hin & tun0 & Ht0 & Ha) Ht HQ. rewrite Ht in Ht0. injection Ht0 as <-.
  eapply wp_status_down_any; [done|by rewrite Hrt|exact Ht|]. intros w' Hw' Hr' Heq. apply HQ; [|done].
  destruct (downed_ok tun (v_tuns _ (wv_0 _ Hw) _ _ Ht)) as (_ & _ & _ & Had & _).
  split_and!; [done|congruence|done|]. exists (downed tun). rewrite Heq, lookup_insert_eq. by rewrite Had.
Qed.

Lemma pres_status_down rt t : preserves (K rt t) (mlvpn_rtun_status_down t).
Proof.
  intros w HK. destruct HK as (Hw & Hrt & Hin & tun & Ht & Ha) eqn:E. clear E.
  eapply wp_status_down; [by split_and!; eauto|exact Ht|]. done.
Qed.

(** ** Up *)

Lemma upped_ok now tun : tun_ok tun -> has_addr tun = true -> tun_ok (upped now tun).
Proof. intros [S1 S2 [W1 W2] R1 R2 B D A] Ha. by split. Qed.

(** The part of [mlvpn_rtun_status_up] after the table is reset. *)
Definition up_tail (devname name : string) (env : list string) : W unit :=
  priv_run_script [devname; "rtun_up"; name] env;;
  s ← gets w_status;
  when ((0 <? s_connected s) && negb (s_initialized s)) (
    priv_run_script [devname; "tuntap_up"] env;;
    set_status (fun s => s <| s_initialized := true |>);;
    flush_reorder);;
  update_process_title.

Lemma wp_up_tail devname name env (Q : unit -> world -> Prop) w :
  winv0 w -> s_connected (w_status w) = Z.of_nat (length (up_tunnels w)) -> 0 < s_connected (w_status w) ->
  wrr_ok w (w_wrr w) -> alternate false (updown (w_trace w)) = Some (s_initialized (w_status w)) ->
  (forall w', winv w' -> w_tuns w' = w_tuns w -> w_rtuns w' = w_rtuns w -> Q tt w') ->
  wp (up_tail devname name env) Q w.
Proof.
  intros Hw Hc Hpos [Hwr Hwl] Htr HQ.
  assert (forall w1, winv0 w1 -> sync w1 -> w_tuns w1 = w_tuns w -> w_rtuns w1 = w_rtuns w ->
    wp update_process_title Q w1) as Hend.
  { intros w1 Hw1 Hs1 Ht1 Hr1. eapply wp_mono; [apply (pres_title_x w1 w1), Jx_refl, Hw1|].
    intros [] w' [HJ Ht']. apply HQ; [by eapply sync_J|congruence|]. by rewrite (c_rtuns _ _ (proj2 HJ)). }
  unfold up_tail.
  unfold priv_run_script, emit. wp_steps. simpl (w_status _). rewrite (proj2 (Z.ltb_lt _ _) Hpos).
  destruct (s_initialized (w_status w)) eqn:Hi; cbn [when andb negb]; unfold set_status; wp_steps.
  - apply Hend; [w_ext| |done|done]. split; simpl; try done.
    + rewrite Hi. symmetry. by apply Z.ltb_lt.
    + by rewrite updown_script3, Hi.
  - match goal with |- wp flush_reorder _ ?w1 =>
      assert (winv0 w1) as Hw1 by w_ext; assert (sync w1) as Hs1;
      [|eapply wp_mono; [apply (pres_flush_x w1 w1), Jx_refl, Hw1|]] end.
    + split; simpl; try done.
      * symmetry. by apply Z.ltb_lt.
      * rewrite updown_up. apply (alternate_snoc _ _ false); [|done]. by rewrite updown_script3.
    + intros [] w' [HJ Ht']. apply Hend; [apply HJ|by eapply sync_ctl; [|apply HJ]|done|].
      by rewrite (c_rtuns _ _ (proj2 HJ)).
Qed.

Lemma wp_status_up rt t (Q : unit -> world -> Prop) w tun :
  K rt t w -> w_tuns w !! t = Some tun ->
  (forall w', K rt t w' -> w_tuns w' = <[t := upped (w_now w) tun]> (w_tuns w) -> Q tt w') ->
  wp (mlvpn_rtun_status_up t) Q w.
Proof.
  intros (Hw & Hrt & Hin & tun0 & Ht0 & Ha) Ht HQ. rewrite Ht in Ht0. injection Ht0 as <-.
  pose proof (upped_ok (w_now w) tun (v_tuns _ (wv_0 _ Hw) _ _ Ht) Ha) as Hok.
  set (w1 := w <| w_tuns := <[t := upped (w_now w) tun]> (w_tuns w) |>).
  assert (winv0 w1) as Hw1 by (eapply winv0_put; [apply Hw|by subst|done|done|done]).
  destruct (wv_sync _ Hw) as [Yc Yi Ywr Ywl Yt].
  unfold mlvpn_rtun_status_up, ev_now. wp_steps. unfold tun_upd, tun_put. wp_steps.
  unfold wp at 1, tun_get at 1. rewrite Ht. wp_steps. fold w1.
  destruct (update_status_spec w1 (v_alloc _ Hw1)) as [fb Hus]. unfold wp at 1. rewrite Hus. wp_steps.
  set (w2 := w1 <| w_status := _ |>). unfold wrr_refresh. wp_steps.
  apply wp_wrr_reset; [w_ext|]. intros wrr Hwrr.
  wp_steps. apply wp_script_env. intros env. wp_steps.
  unfold wp at 1, tun_get at 1. simpl (w_tuns _). rewrite lookup_insert_eq.
  fold (up_tail (tt_devname (w_tuntap w)) (t_name (upped (w_now w) tun)) env).
  apply wp_up_tail; [w_ext|done| |done|done|].
  - simpl. assert (t ∈ up_tunnels w1) as Htu.
    { apply (elem_up_tunnels w1 t (upped (w_now w) tun)); [by subst|apply lookup_insert_eq|done]. }
    destruct (up_tunnels w1); [set_solver|simpl; lia].
  - intros w' Hw' Ht' Hr'. apply HQ; [|exact Ht']. split_and!; [done|by rewrite Hr'|done|].
    exists (upped (w_now w) tun). split; [|done]. rewrite Ht'. apply lookup_insert_eq.
Qed.

Lemma pres_status_up rt t : preserves (K rt t) (mlvpn_rtun_status_up t).
Proof.
  intros w HK. pose proof HK as (_ & _ & _ & tun & Ht & _). eapply wp_status_up; [exact HK|exact Ht|]. done.
Qed.
End status.
Ltac w_ext := eapply winv0_ext; [eassumption|reflexivity..].
