(* ===== verification/Safety.v ===== *)
(** * Every event keeps the invariant

    The handlers, one after the other, from the packets they queue to the
    event loop: none of them stops the process or reaches outside its objects,
    and the invariant of [Invariant] holds again when they return. *)

From S2P Require Import Prelude Double CString Timestamp Pkt Buffer Reorder Tunnel Loss Wrr Protocol Tuntap Rtun Stage Invariant Status.

Section queue.
Context `{OS}.

(** ** Packets for a tunnel *)

Definition fills_tx (f : mlvpn_pkt_t -> mlvpn_pkt_t) : Prop :=
  forall slot, tx_ok slot -> tx_ok (f (slot <| pkt_len := 0 |> <| pkt_type := MLVPN_PKT_DATA |>)).

Lemma fill_two_tx a b type : 0 <= type < 64 -> type <> MLVPN_PKT_DATA -> fills_tx (fill_two a b type).
Proof.
  intros Ht Hd slot [[Hl _ Hlen] _ _]. split; [split|..]; simpl; try done; try lia.
  by rewrite !length_insert.
Qed.

Lemma fill_type_tx type : 0 <= type < 64 -> type <> MLVPN_PKT_DATA -> fills_tx (fun pkt => pkt <| pkt_type := type |>).
Proof. intros Ht Hd slot [[Hl _ Hlen] _ _]. by split; [split|..]; simpl; try lia. Qed.

Lemma fill_data_tx len data :
  0 < len <= 1444 -> Z.to_nat len = length (take (Z.to_nat len) data) -> fills_tx (fill_data len data).
Proof.
  intros Hl Hd slot [[_ _ Hlen] _ _]. unfold fill_data.
  assert (u16 len = len) as -> by (apply Z.mod_small; lia). rewrite length_take in Hd.
  split; [split|..]; simpl; try (unfold DEFAULT_MTU, MLVPN_PKT_DATA in *; lia).
  rewrite length_memcpy; rewrite ?Hlen; unfold DEFAULT_MTU; lia.
Qed.

(** A tunnel with an address may be given anything to send. *)
Lemma tun_ok_hp tun r :
  tun_ok tun -> has_addr tun = true -> Ring.ring_inv tx_ok cap r -> tun_ok (tun <| t_hpsbuf := r |>).
Proof. intros [S1 S2 [W1 W2] R1 R2 B D A] Ha Hr. by split. Qed.
Lemma tun_ok_sb tun r : tun_ok tun -> Ring.ring_inv tx_ok cap r -> tun_ok (tun <| t_sbuf := r |>).
Proof. intros [S1 S2 [W1 W2] R1 R2 B D A] Hr. by split. Qed.
Lemma tun_ok_io_write tun b : tun_ok tun -> has_addr tun = true -> tun_ok (tun <| t_io_write := b |>).
Proof. intros [S1 S2 [W1 W2] R1 R2 B D A] Ha. by split. Qed.

Lemma pres_push_hp w0 t c f :
  has w0 t c -> c.2 = true -> fills_tx f -> preserves (J w0) (push_hp t f).
Proof.
  intros Hh Hc Hf. apply (pres_upd w0 t c); [done|]. intros tun Hok Hct. split; [|by rewrite <- Hct].
  apply tun_ok_hp; [done|by rewrite (t_ctl_addr _ _ Hct)|].
  apply Ring.push_inv; [apply cap_pos|apply Hok|done].
Qed.

Lemma pres_start_io_write w0 t c : has w0 t c -> c.2 = true -> preserves (J w0) (start_io_write t).
Proof.
  intros Hh Hc. apply (pres_upd w0 t c); [done|]. intros tun Hok Hct.
  destruct (t_io_write tun); simpl; [done|]. split; [|done].
  apply tun_ok_io_write; [done|by rewrite (t_ctl_addr _ _ Hct)].
Qed.

Lemma pres_hp_full w0 t c : has w0 t c -> preserves (J w0) (hp_full t).
Proof. apply pres_is. Qed.

Lemma pres_keepalive w0 t c now :
  has w0 t c -> c.2 = true -> preserves (J w0) (mlvpn_rtun_send_keepalive now t).
Proof.
  intros Hh Hc. apply preserves_bind; [by eapply pres_hp_full|]. intros full.
  apply preserves_bind.
  - apply preserves_when. intros _. eapply pres_push_hp; [done|done|]. by apply fill_type_tx.
  - intros []. apply (pres_upd w0 t c); [done|]. intros tun Hok Hct. split; [ok_ext|done].
Qed.

(** ** Emission *)

Lemma encap_frame ct key now64 ds tun pkt :
  let e := rtun_encap ct key now64 ds tun pkt in
  encap_pkt e = pkt <| pkt_reorder := 1 |> /\
  (0 <= ds < 2 ^ 64 -> 0 <= encap_data_seq e < 2 ^ 64) /\
  exists st sr, encap_tun e = tun <| t_seq := u64 (t_seq tun + 1) |>
    <| t_saved_timestamp := st |> <| t_saved_timestamp_received_at := sr |>.
Proof.
  intros e. unfold e, rtun_encap.
  assert (forall p tun' ds', rtun_header now64 ds tun (pkt <| pkt_reorder := 1 |>) = (p, tun', ds') ->
    (0 <= ds < 2 ^ 64 -> 0 <= ds' < 2 ^ 64) /\
    exists st sr, tun' = tun <| t_seq := u64 (t_seq tun + 1) |>
    <| t_saved_timestamp := st |> <| t_saved_timestamp_received_at := sr |>) as Hh.
  { intros p tun' ds' Hh. unfold rtun_header in Hh. simpl in Hh.
    assert (0 <= u64 (ds + 1) < 2 ^ 64) by (apply Z.mod_pos_bound; lia).
    destruct (pkt_type pkt =? MLVPN_PKT_DATA), (_ <? 1000) in Hh; simpl in Hh; injection Hh as _ <- <-;
      (split; [done|]); try (by eexists _, _);
      exists (t_saved_timestamp tun), (t_saved_timestamp_received_at tun); done. }
  destruct (rtun_header _ _ _ _) as [[p tun'] ds'] eqn:E. specialize (Hh _ _ _ eq_refl).
  repeat case_match; done.
Qed.

Lemma encap_ok ct key now64 ds tun pkt :
  tun_ok tun -> let tun' := encap_tun (rtun_encap ct key now64 ds tun pkt) in
  tun_ok tun' /\ t_ctl tun' = t_ctl tun.
Proof.
  intros [S1 S2 [W1 W2] R1 R2 B D A] tun'.
  destruct (encap_frame ct key now64 ds tun pkt) as (_ & _ & st & sr & Heq). unfold tun'. rewrite Heq.
  split; [|done]. split; try done. split; [|done]. simpl. apply Z.mod_pos_bound. lia.
Qed.

(** What follows the construction of the datagram. *)
Definition send_tail (t : nat) (hp : bool) (tun : mlvpn_tunnel_t) (o : option (list Z)) : W Z :=
  match o with
  | None => mret (-1)
  | Some dgram =>
      _ ← expect (BadAccess "tun->addrinfo") (t_addrinfo tun !! O);
      emit (Sent t dgram);;
      r ← ask os_sendto;
      ret ← (match r with
             | IoAgain => mret (-1)
             | IoError => mlvpn_rtun_status_down t;; mret (-1)
             | IoOk n =>
                 tun_upd t (fun tun => tun <| t_sentpackets := u64 (t_sentpackets tun + 1) |>
                                           <| t_sentbytes := u64 (t_sentbytes tun + n) |>);;
                 mret n
             end : W Z);
      tun_upd t (fun tun =>
        if t_io_write tun && Ring.is_empty (ring_of hp tun) then tun <| t_io_write := false |> else tun);;
      mret ret
  end.

Lemma pres_send_tail rt t hp tun o : has_addr tun = true -> preserves (K rt t) (send_tail t hp tun o).
Proof.
  intros Ha. destruct o as [dgram|]; [|apply preserves_ret]. unfold send_tail.
  apply preserves_bind.
  { apply pres_K_of_J. intros w0 c _ _. apply pres_expect. unfold has_addr in Ha.
    by destruct (t_addrinfo tun). }
  intros _. apply preserves_bind; [apply pres_K_of_J; intros w0 c _ _; by apply pres_emit|]. intros _.
  apply preserves_bind; [apply pres_K_of_J; intros w0 c _ _; apply pres_ask|]. intros r.
  apply preserves_bind.
  - destruct r; [|apply preserves_ret|].
    + apply preserves_bind; [|intros; apply preserves_ret].
      apply pres_K_of_J. intros w0 c Hh Hc. apply (pres_upd w0 t c); [done|]. intros x Hok Hct. split; [ok_ext|done].
    + apply preserves_bind; [apply pres_status_down|intros; apply preserves_ret].
  - intros ret. apply preserves_bind; [|intros; apply preserves_ret].
    apply pres_K_of_J. intros w0 c Hh Hc. apply (pres_upd w0 t c); [done|]. intros x Hok Hct.
    destruct (_ && _); [|done]. split; [|done]. apply tun_ok_io_write; [done|by rewrite (t_ctl_addr _ _ Hct)].
Qed.

Lemma winv0_data_seq w ds : winv0 w -> 0 <= ds < 2 ^ 64 -> winv0 (w <| w_data_seq := ds |>).
Proof. intros [[S1 S2 S3] A N M T G Nm Ti F D] Hds. by split. Qed.

Lemma pres_send rt t hp : preserves (K rt t) (mlvpn_rtun_send t hp).
Proof.
  intros w HK. pose proof HK as (Hw & Hrt & Hin & tun & Ht & Ha).
  pose proof (v_tuns _ (wv_0 _ Hw) _ _ Ht) as Hok. simpl in Hok.
  unfold mlvpn_rtun_send, ev_now. wp_steps. unfold wp at 1, tun_get at 1. rewrite Ht.
  destruct (Ring.mlvpn_pktbuffer_read (ring_of hp tun)) as [slot ring] eqn:Hr.
  assert (Ring.ring_inv tx_ok cap (ring_of hp tun)) as Hri by (destruct hp; apply Hok).
  destruct (Ring.read_inv _ _ cap_pos _ _ _ Hri Hr) as [Hri' Hpk]. set (pkt := Ring.pkt_load slot ring) in *.
  rewrite (proj2 (Z.ltb_ge _ _)) by (pose proof (tx_len _ Hpk); unfold DEFAULT_MTU; lia).
  wp_steps. set (e := rtun_encap _ _ _ _ _ _).
  destruct (encap_frame (o_cleartext_data (w_options w)) (w_key w) (mlvpn_timestamp64 (w_now w)) (w_data_seq w) tun pkt)
    as (Hep & Hds & _).
  destruct (encap_ok (o_cleartext_data (w_options w)) (w_key w) (mlvpn_timestamp64 (w_now w)) (w_data_seq w) tun pkt Hok)
    as [Hok' Hct']. fold e in Hep, Hds, Hok', Hct'.
  unfold tun_put. wp_steps. fold (send_tail t hp tun (encap_dgram e)).
  set (tun' := set_ring hp _ (encap_tun e)).
  assert (Ring.ring_inv tx_ok cap (Ring.pkt_store slot (fun _ => encap_pkt e) ring)) as Hrs.
  { apply Ring.store_inv; [done|]. intros _ _. rewrite Hep. destruct Hpk as [[? ? ?] ? ?]. by split; [split|..]. }
  assert (tun_ok tun' /\ t_ctl tun' = t_ctl tun) as [Hokt Hctt].
  { unfold tun', set_ring. destruct hp.
    - split; [|done]. apply tun_ok_hp; [done| |done]. by rewrite (t_ctl_addr _ _ Hct').
    - split; [|done]. by apply tun_ok_sb. }
  apply pres_send_tail; [done|]. eapply K_of_Jw; [exact HK|]. split.
  - apply (winv0_put (w <| w_data_seq := encap_data_seq e |>) t tun); [|by subst|done|done|by injection Hctt].
    apply winv0_data_seq; [apply Hw|]. apply Hds, Hw.
  - etransitivity; [|eapply ctl_put; [exact Ht|exact Hctt]]. by split.
Qed.
End queue.

Section reception.
Context `{SodiumLaws}.

(** ** The datagram *)

Lemma finite_below R : dpos R -> dltb R (d_of_Z 5000) = true -> dfinite R.
Proof. by destruct R as [[]|[]| |]. Qed.

Lemma rtt_constants :
  dfinite_pos (d_of_Z 2) /\ dfinite_pos beta /\ dfinite_pos alpha /\
  dfinite_pos (dsub (d_of_Z 1) beta) /\ dfinite_pos (dsub (d_of_Z 1) alpha).
Proof. vm_compute. done. Qed.

#[local] Opaque dadd dmul dsub ddiv dabs d_of_Z dltb alpha beta be64toh.

Lemma rtt_update_pos tun R :
  dpos R -> dpos (t_srtt tun) -> dpos (t_rttvar tun) ->
  dpos (t_srtt (rtt_update tun R)) /\ dpos (t_rttvar (rtt_update tun R)).
Proof.
  intros HR Hs Hv. unfold rtt_update. destruct (dltb R _) eqn:Hlt; [|done].
  pose proof (finite_below R HR Hlt) as Hf.
  pose proof rtt_constants as (H2 & Hb & Ha & Hb' & Ha').
  destruct (t_rtt_hit tun); cbn [negb]; cbv zeta; cbn [t_srtt t_rttvar update]; split; auto 6 with double.
Qed.

(** What [protocol_accept] may change in a tunnel. *)
Lemma rtt_update_frame tun R :
  exists s v h, rtt_update tun R = tun <| t_srtt := s |> <| t_rttvar := v |> <| t_rtt_hit := h |>.
Proof.
  unfold rtt_update. destruct (dltb R _); [destruct (t_rtt_hit tun) eqn:E|]; cbn [negb];
    [exists (dadd (dmul (dsub (d_of_Z 1) alpha) (t_srtt tun)) (dmul alpha R)),
       (dadd (dmul (dsub (d_of_Z 1) beta) (t_rttvar tun)) (dmul beta (dabs (dsub (t_srtt tun) R)))), true
    |by eexists _, _, _
    |exists (t_srtt tun), (t_rttvar tun), (t_rtt_hit tun)]; destruct tun; simpl in *; by subst.
Qed.

Lemma loss_update_frame tun seq :
  exists l v, mlvpn_loss_update tun seq = tun <| t_seq_last := l |> <| t_seq_vect := v |>.
Proof.
  unfold mlvpn_loss_update. repeat case_match;
    eexists (t_seq_last (mlvpn_loss_update tun seq)), (t_seq_vect (mlvpn_loss_update tun seq));
    unfold mlvpn_loss_update; repeat match goal with E : _ = _ |- _ => rewrite E end; by destruct tun.
Qed.

Lemma tun_ok_rtt tun R : tun_ok tun -> dpos R -> tun_ok (rtt_update tun R) /\ t_ctl (rtt_update tun R) = t_ctl tun.
Proof.
  intros [S1 S2 [W1 W2] R1 R2 B D A] HR.
  pose proof (rtt_update_pos tun R HR R1 R2) as [Hs Hv].
  destruct (rtt_update_frame tun R) as (s & v & h & Heq). rewrite Heq in *. by split; [split|].
Qed.

Lemma tun_ok_loss tun seq : tun_ok tun ->
  tun_ok (mlvpn_loss_update tun seq) /\ t_ctl (mlvpn_loss_update tun seq) = t_ctl tun.
Proof.
  intros [S1 S2 [W1 W2] R1 R2 B D A]. pose proof (loss_update_bit0 tun seq B) as Hb.
  destruct (loss_update_frame tun seq) as (l & v & Heq). rewrite Heq in *. by split; [split|].
Qed.

Lemma accept_ok now64 tun proto data rlen :
  tun_ok tun -> let tun' := (protocol_accept now64 tun proto data rlen).1 in
  tun_ok tun' /\ t_ctl tun' = t_ctl tun.
Proof.
  intros Hok. unfold protocol_accept.
  assert (forall x r s, (if 1 <=? proto_version proto then
      (mlvpn_loss_update tun (proto_seq proto), proto_reorder proto, be64toh (proto_data_seq proto))
    else (tun, 0, 0)) = (x, r, s) -> tun_ok x /\ t_ctl x = t_ctl tun) as H1.
  { intros x r s. destruct (1 <=? _); intros [= <- _ _]; [by apply tun_ok_loss|done]. }
  destruct (if 1 <=? proto_version proto then _ else _) as [[x r] s]. destruct (H1 _ _ _ eq_refl) as [Hx Hc].
  cbv zeta. cbn [fst].
  set (y := if negb (proto_timestamp proto =? _) then _ else _).
  assert (tun_ok y /\ t_ctl y = t_ctl x) as [Hy Hcy] by (unfold y; destruct (negb _); [split; [ok_ext|done]|done]).
  destruct (negb (proto_timestamp_reply proto =? _)); [|by rewrite Hcy].
  destruct (tun_ok_rtt y (d_of_Z (mlvpn_timestamp16_diff (mlvpn_timestamp16 now64) (proto_timestamp_reply proto)))) as [Hz Hcz]; [done| |].
  - apply d_of_Z_pos, timestamp16_diff_range.
  - by rewrite Hcz, Hcy.
Qed.

Lemma accept_decap now64 tun proto data rlen :
  exists r s, (protocol_accept now64 tun proto data rlen).2 = Pkt rlen (proto_flags proto) r s data /\ 0 <= s < 2 ^ 64.
Proof.
  unfold protocol_accept. destruct (1 <=? _).
  - exists (proto_reorder proto), (be64toh (proto_data_seq proto)). split; [reflexivity|apply (bswap_range 8)].
  - exists 0, 0. split; [reflexivity|lia].
Qed.

Lemma decode_data l : (length l <= sizeof_proto)%nat -> length (proto_data (decode_proto l)) = DEFAULT_MTU.
Proof.
  intros Hl. unfold decode_proto. cbn [proto_data].
  rewrite length_take, length_drop, length_memcpy; rewrite ?length_zeroes; try done.
Qed.

Lemma decode_flags l : 0 <= proto_flags (decode_proto l) < 64.
Proof. unfold decode_proto. cbn [proto_flags]. apply Z.mod_pos_bound. lia. Qed.

(** What reception may change in a tunnel. *)
Lemma accept_frame now64 tun proto data rlen :
  exists l v st sr s rv h, (protocol_accept now64 tun proto data rlen).1 =
    tun <| t_seq_last := l |> <| t_seq_vect := v |> <| t_saved_timestamp := st |>
        <| t_saved_timestamp_received_at := sr |> <| t_srtt := s |> <| t_rttvar := rv |> <| t_rtt_hit := h |>.
Proof.
  unfold protocol_accept.
  assert (exists l v, (if 1 <=? proto_version proto then
      (mlvpn_loss_update tun (proto_seq proto), proto_reorder proto, be64toh (proto_data_seq proto))
    else (tun, 0, 0)).1.1 = tun <| t_seq_last := l |> <| t_seq_vect := v |>) as (l & v & H1).
  { destruct (1 <=? _); [apply loss_update_frame|]. exists (t_seq_last tun), (t_seq_vect tun). by destruct tun. }
  destruct (if 1 <=? proto_version proto then _ else _) as [[x r] q]. simpl in H1. subst x. cbv zeta. cbn [fst].
  set (x := tun <| t_seq_last := l |> <| t_seq_vect := v |>).
  set (y := if negb (proto_timestamp proto =? _) then _ else _).
  assert (exists st sr, y = x <| t_saved_timestamp := st |> <| t_saved_timestamp_received_at := sr |>) as (st & sr & ->).
  { unfold y. destruct (negb _); [by eexists _, _|].
    exists (t_saved_timestamp x), (t_saved_timestamp_received_at x). unfold x. by destruct tun. }
  exists l, v, st, sr. fold x. clearbody x. destruct (negb _); [apply rtt_update_frame|].
  exists (t_srtt x), (t_rttvar x), (t_rtt_hit x). by destruct x.
Qed.

Lemma read_frame ct key now64 tun pkt tun' decap :
  mlvpn_protocol_read ct key now64 tun pkt = Some (tun', decap) ->
  exists l v st sr s rv h, tun' =
    tun <| t_seq_last := l |> <| t_seq_vect := v |> <| t_saved_timestamp := st |>
        <| t_saved_timestamp_received_at := sr |> <| t_srtt := s |> <| t_rttvar := rv |> <| t_rtt_hit := h |>.
Proof.
  unfold mlvpn_protocol_read. destruct (_ || _ || _); [done|]. destruct (_ || _); [done|].
  destruct (ct && _); [|destruct (crypto_decrypt _ _ _); [|done]]; intros [= Heq];
    match type of Heq with protocol_accept ?n ?tu ?p ?d ?r = _ => pose proof (accept_frame n tu p d r) as Hs end;
    by rewrite Heq in Hs.
Qed.

(** A packet that is not refused is accepted with a payload that fits. *)
Lemma read_accept ct key now64 tun len data r :
  mlvpn_protocol_read ct key now64 tun (Pkt len 0 0 0 data) = Some r ->
  exists proto d n, r = protocol_accept now64 tun proto d n /\
    0 <= n <= Z.of_nat DEFAULT_MTU /\ length d = DEFAULT_MTU /\ 0 <= proto_flags proto < 64.
Proof.
  unfold mlvpn_protocol_read. cbn [pkt_len]. destruct (_ || _ || _) eqn:Hlen; [done|].
  apply orb_false_iff in Hlen as [Hlen _]. apply orb_false_iff in Hlen as [Hlen _]. apply Z.ltb_ge in Hlen.
  assert (length (payload (Pkt len 0 0 0 data)) <= sizeof_proto)%nat as Hpl.
  { unfold payload. cbn. rewrite length_take. unfold sizeof_proto, DEFAULT_MTU in *. lia. }
  pose proof (decode_data _ Hpl) as Hdd. pose proof (decode_flags (payload (Pkt len 0 0 0 data))) as Hfl.
  set (proto := decode_proto _) in *. set (rlen := be16toh _).
  destruct (_ || _) eqn:Hr; [done|]. apply orb_false_iff in Hr as [Hr0 Hr]. apply Z.ltb_ge in Hr.
  assert (0 <= rlen) as Hrp by apply bswap_range.
  set (proto' := proto <| proto_seq := _ |> <| _ := _ |> <| _ := _ |> <| _ := _ |>). intros Heq. exists proto'.
  destruct (ct && _).
  - eexists _, _. split; [symmetry; exact (inj Some _ _ Heq)|]. split_and!; [done|done| |apply Hfl..].
    rewrite length_memcpy; rewrite ?length_zeroes; cbn [proto_data proto' update]; [done| |]; rewrite ?Hdd; lia.
  - unfold crypto_decrypt in Heq. destruct (secretbox_open_easy _ _ _) as [m|] eqn:Ho; [|done].
    apply open_length in Ho. rewrite length_take in Ho. cbn [proto_data proto' update] in Ho.
    eexists _, _. split; [symmetry; exact (inj Some _ _ Heq)|]. split_and!; [| | |apply Hfl..].
    + unfold u16, wrap, crypto_PADSIZE. rewrite Z.mod_small; unfold DEFAULT_MTU in *; lia.
    + unfold u16, wrap, crypto_PADSIZE. rewrite Z.mod_small; unfold DEFAULT_MTU in *; lia.
    + rewrite length_memcpy; rewrite ?length_zeroes; [done|done|]. lia.
Qed.

(** What is accepted is a packet. *)
Lemma read_pkt_ok ct key now64 tun len data tun' decap :
  mlvpn_protocol_read ct key now64 tun (Pkt len 0 0 0 data) = Some (tun', decap) ->
  pkt_ok decap /\ 0 <= pkt_seq decap < 2 ^ 64.
Proof.
  intros (proto & d & n & Heq & Hn & Hd & Hf)%read_accept.
  destruct (accept_decap now64 tun proto d n) as (r & s & H3 & H4). rewrite <- Heq in H3. simpl in H3. subst decap.
  by split; [split|].
Qed.

Lemma protocol_read_ok ct key now64 tun len data tun' decap :
  tun_ok tun -> mlvpn_protocol_read ct key now64 tun (Pkt len 0 0 0 data) = Some (tun', decap) ->
  tun_ok tun' /\ t_ctl tun' = t_ctl tun /\ pkt_ok decap /\ 0 <= pkt_seq decap < 2 ^ 64.
Proof.
  intros Hok Hr. pose proof (read_pkt_ok _ _ _ _ _ _ _ _ Hr) as [Hp Hs].
  apply read_accept in Hr as (proto & d & n & Heq & _).
  destruct (accept_ok now64 tun proto d n Hok) as [H1 H2]. rewrite <- Heq in H1, H2. split_and!; [done|done|done|apply Hs..].
Qed.
End reception.

Section handlers.
Context `{SodiumLaws}.
Variables (rt : list nat) (t : nat).

Lemma pres_K_get {A} (k : mlvpn_tunnel_t -> W A) :
  (forall tun, tun_ok tun -> has_addr tun = true -> preserves (K rt t) (k tun)) ->
  preserves (K rt t) (tun_get t ≫= k).
Proof.
  intros Hk w HK. pose proof HK as (Hw & _ & _ & tun & Ht & Ha). apply wp_bind.
  unfold wp, tun_get at 1. rewrite Ht. apply Hk; [|done|done]. by eapply (v_tuns _ (wv_0 _ Hw)).
Qed.

(** Changes of the tunnel, of its status too, that leave it up or down. *)
Lemma K_put w tun tun' :
  K rt t w -> w_tuns w !! t = Some tun -> tun_ok tun' -> t_name tun' = t_name tun -> t_up tun' = t_up tun ->
  has_addr tun' = true -> K rt t (w <| w_tuns := <[t := tun']> (w_tuns w) |>).
Proof.
  intros (Hw & Hrt & Hin & _) Ht Hok Hn Hu Ha. split_and!; [|done|done|].
  - split; [eapply winv0_put; [apply Hw|by subst|done|done|done]|].
    destruct (wv_sync _ Hw). split; rewrite ?(up_tunnels_put w t tun tun' Ht Hu); done.
  - exists tun'. split; [apply lookup_insert_eq|done].
Qed.

Lemma pres_K_upd f :
  (forall tun, tun_ok tun -> has_addr tun = true ->
    tun_ok (f tun) /\ t_name (f tun) = t_name tun /\ t_up (f tun) = t_up tun /\ has_addr (f tun) = true) ->
  preserves (K rt t) (tun_upd t f).
Proof.
  intros Hf w HK. pose proof HK as (Hw & _ & _ & tun & Ht & Ha).
  unfold tun_upd, tun_put. wp_steps. unfold wp at 1, tun_get at 1. rewrite Ht. wp_steps.
  destruct (Hf tun) as (H1 & H2 & H3 & H4); [by eapply (v_tuns _ (wv_0 _ Hw))|done|].
  by eapply K_put.
Qed.

Lemma pres_K_gets {A} (f : world -> A) : preserves (K rt t) (gets f).
Proof. apply preserves_gets. Qed.

(** [J]-preserving functions, for use in a [K] proof. *)
Ltac by_J := apply pres_K_of_J; intros w0 c Hh Hc.

Lemma pres_write : preserves (K rt t) (mlvpn_rtun_write t).
Proof.
  unfold mlvpn_rtun_write. apply preserves_bind; [by_J; by eapply pres_is|]. intros e1.
  apply preserves_bind.
  - apply preserves_when. intros _. apply preserves_bind; [apply pres_send|intros; apply preserves_ret].
  - intros []. apply preserves_bind; [by_J; by eapply pres_is|]. intros e2. apply preserves_when. intros _.
    apply preserves_bind; [apply pres_send|intros; apply preserves_ret].
Qed.

Lemma pres_disconnect : preserves (K rt t) (mlvpn_rtun_send_disconnect t).
Proof.
  unfold mlvpn_rtun_send_disconnect. apply preserves_bind; [by_J; by eapply pres_hp_full|]. intros full.
  apply preserves_bind.
  - apply preserves_when. intros _. by_J. eapply pres_push_hp; [done|done|]. by apply fill_type_tx.
  - intros []. apply preserves_bind; [apply pres_send|intros; apply preserves_ret].
Qed.

Lemma pres_send_auth : preserves (K rt t) (mlvpn_rtun_send_auth t).
Proof.
  unfold mlvpn_rtun_send_auth. apply pres_K_get. intros tun Hok Ha. destruct (t_server_mode tun).
  - apply preserves_when. intros _. apply preserves_bind; [by_J; by eapply pres_hp_full|]. intros full.
    apply preserves_bind.
    { apply preserves_when. intros _. by_J. apply (pres_upd w0 t c); [done|]. intros x Hx Hcx. split; [|done].
      apply tun_ok_hp; [done|by rewrite (t_ctl_addr _ _ Hcx)|]. apply Ring.reset_ring_inv, Hx. }
    intros []. apply preserves_bind.
    { by_J. eapply pres_push_hp; [done|done|]. by apply fill_two_tx. }
    intros []. apply preserves_bind.
    { apply pres_K_upd. intros x Hx Hax. destruct (t_up x) eqn:Hu; simpl; [done|].
      split_and!; try done. destruct Hx as [S1 S2 [W1 W2] R1 R2 B D A]. by split. }
    intros []. apply preserves_bind; [by_J; by eapply pres_tick|]. intros [].
    apply preserves_bind; [apply pres_status_up|]. intros []. by_J. by eapply pres_start_io_write.
  - apply preserves_when. intros _. apply preserves_bind; [by_J; by eapply pres_tick|]. intros [].
    apply pres_status_up.
Qed.

Lemma pres_learn_addr client : preserves (K rt t) (learn_addr t client).
Proof.
  unfold learn_addr. apply pres_K_get. intros tun Hok Ha. unfold has_addr in Ha.
  destruct (t_addrinfo tun) as [|ai l] eqn:Hai; [done|]. apply preserves_bind; [apply preserves_ret|].
  intros ai'. apply preserves_if; [intros _; apply preserves_ret|]. intros _.
  apply preserves_if; [intros _; apply preserves_ret|]. intros _.
  apply preserves_bind; [by_J; apply pres_ask|]. intros ret. apply preserves_bind; [|intros; apply preserves_ret].
  apply preserves_when. intros _. by_J. apply (pres_upd w0 t c); [done|]. intros x Hx Hcx.
  assert (has_addr (x <| t_addrinfo := alter (copy_addr client) O (t_addrinfo x) |>) = has_addr x) as Hax.
  { unfold has_addr. simpl. by destruct (t_addrinfo x). }
  split; [|unfold t_ctl in *; rewrite Hax; exact Hcx].
  destruct Hx as [S1 S2 [W1 W2] R1 R2 B D A]. split; try done. by rewrite Hax.
Qed.

Lemma pres_recv_data w0 decap :
  pkt_ok decap -> 0 <= pkt_seq decap < 2 ^ 64 -> preserves (J w0) (mlvpn_rtun_recv_data decap).
Proof. intros Hp Hs. apply pres_stage. intros Q w Hw HQ. by apply wp_recv_data. Qed.

Lemma pres_dispatch decap :
  pkt_ok decap -> 0 <= pkt_seq decap < 2 ^ 64 -> preserves (K rt t) (rtun_dispatch t decap).
Proof.
  intros Hp Hs. unfold rtun_dispatch. apply pres_K_get. intros tun Hok Ha.
  apply preserves_if; intros _; [|apply preserves_if; intros _; [|apply preserves_if; intros _;
    [|apply preserves_if; intros _]]].
  - apply preserves_when. intros _. apply preserves_bind; [by_J; by eapply pres_tick|]. intros [].
    apply preserves_bind; [by_J; by apply pres_recv_data|intros; apply preserves_ret].
  - apply preserves_bind; [by_J; by eapply pres_tick|]. intros [].
    apply preserves_bind; [apply preserves_gets|]. intros now.
    apply preserves_bind.
    { by_J. apply (pres_upd w0 t c); [done|]. intros x Hx Hcx. split; [ok_ext|done]. }
    intros []. apply pres_K_get. intros x Hx Hax. apply preserves_when. intros _. apply preserves_bind.
    { by_J. apply (pres_upd w0 t c); [done|]. intros y Hy Hcy. split; [ok_ext|done]. }
    intros []. by_J. by eapply pres_keepalive.
  - apply pres_status_down.
  - apply pres_send_auth.
  - apply preserves_ret.
Qed.

Lemma pres_read r data client : preserves (K rt t) (mlvpn_rtun_read t r data client).
Proof.
  unfold mlvpn_rtun_read. destruct r as [len| |]; [|apply preserves_ret|apply pres_status_down].
  apply preserves_when. intros _.
  apply preserves_bind; [apply preserves_gets|]. intros now.
  apply preserves_bind; [apply preserves_gets|]. intros ct.
  apply preserves_bind; [apply preserves_gets|]. intros key.
  intros w HK. pose proof HK as (Hw & _ & _ & tun & Ht & Ha). apply wp_bind.
  unfold wp at 1, tun_get at 1. rewrite Ht.
  pose proof (v_tuns _ (wv_0 _ Hw) _ _ Ht) as Hok. simpl in Hok.
  destruct (mlvpn_protocol_read _ _ _ _ _) as [[tun' decap]|] eqn:Hr; [|done].
  destruct (protocol_read_ok _ _ _ _ _ _ _ _ Hok Hr) as (Hok' & Hct & Hp & Hs).
  unfold tun_put. wp_steps.
  assert (forall a b, K rt t (w <| w_tuns := <[t := tun' <| t_recvbytes := a |> <| t_recvpackets := b |>]> (w_tuns w) |>)) as HKw.
  { intros a b. eapply K_put; [done|done|ok_ext|by injection Hct| |]; cbn.
    - change (t_up (tun' <| t_recvbytes := a |> <| t_recvpackets := b |>)) with (t_up tun').
      unfold t_up. injection Hct as _ Hst _ _. by rewrite Hst.
    - change (has_addr tun' = true). injection Hct as _ _ _ Hx. by rewrite Hx. }
  eapply wp_mono; [apply pres_learn_addr, HKw|]. intros known w' HK'.
  apply preserves_when; [|done]. intros _. by apply pres_dispatch.
Qed.
End handlers.

Section periodic.
Context `{SodiumLaws}.
Variables (rt : list nat) (t : nat).

(** ** A tunnel that is not connected *)

(** The tunnel is down, and has an address when [a] is set. *)
Definition D (a : bool) (w : world) : Prop :=
  winv w /\ w_rtuns w = rt /\ t ∈ rt /\
  exists tun, w_tuns w !! t = Some tun /\ t_up tun = false /\ (a = true -> has_addr tun = true).

Lemma D_weaken w : D true w -> D false w.
Proof. intros (? & ? & ? & tun & ? & ? & ?). split_and!; eauto. Qed.

Lemma D_of_J a {A} (m : W A) :
  (forall w0 c, has w0 t c -> preserves (J w0) m) -> preserves (D a) m.
Proof.
  intros Hm w (Hw & Hrt & Hin & tun & Ht & Hu & Ha).
  assert (has w t (t_ctl tun)) as Hh by (split; [by subst|by rewrite Ht]).
  eapply wp_mono; [apply (Hm w (t_ctl tun) Hh); by split; [apply Hw|]|].
  intros r w' HJ. destruct (has_lookup _ _ _ _ Hh (proj2 HJ)) as (Hin' & tun' & Ht' & Hc').
  split_and!; [by eapply sync_J; [apply Hw|]|by rewrite (c_rtuns _ _ (proj2 HJ))|done|].
  exists tun'. split_and!; [done|by rewrite (t_ctl_up _ _ Hc')|]. intros E. rewrite (t_ctl_addr _ _ Hc'). by apply Ha.
Qed.

Lemma D_put a a' w tun tun' :
  D a w -> w_tuns w !! t = Some tun -> tun_ok tun' -> t_name tun' = t_name tun -> t_up tun' = false ->
  (a' = true -> has_addr tun' = true) -> D a' (w <| w_tuns := <[t := tun']> (w_tuns w) |>).
Proof.
  intros (Hw & Hrt & Hin & tun0 & Ht0 & Hu0 & _) Ht Hok Hn Hu Ha. rewrite Ht in Ht0. injection Ht0 as <-.
  split_and!; [|done|done|].
  - split; [eapply winv0_put; [apply Hw|by subst|done|done|done]|].
    assert (t_up tun' = t_up tun) as E by congruence.
    destruct (wv_sync _ Hw). split; rewrite ?(up_tunnels_put w t tun tun' Ht E); done.
  - exists tun'. split_and!; [apply lookup_insert_eq|done|done].
Qed.

Lemma wp_D_upd a a' f (Q : unit -> world -> Prop) w :
  D a w ->
  (forall tun, tun_ok tun -> t_up tun = false -> (a = true -> has_addr tun = true) ->
    tun_ok (f tun) /\ t_name (f tun) = t_name tun /\ t_up (f tun) = false /\ (a' = true -> has_addr (f tun) = true)) ->
  (forall w', D a' w' -> Q tt w') -> wp (tun_upd t f) Q w.
Proof.
  intros HD Hf HQ. pose proof HD as (Hw & _ & _ & tun & Ht & Hu & Ha).
  unfold tun_upd, tun_put. wp_steps. unfold wp at 1, tun_get at 1. rewrite Ht. wp_steps.
  destruct (Hf tun) as (H1 & H2 & H3 & H4); [by eapply (v_tuns _ (wv_0 _ Hw))|done|done|].
  apply HQ. by eapply D_put.
Qed.

Lemma pres_D_upd a f :
  (forall tun, tun_ok tun -> t_up tun = false -> (a = true -> has_addr tun = true) ->
    tun_ok (f tun) /\ t_name (f tun) = t_name tun /\ t_up (f tun) = false /\ (a = true -> has_addr (f tun) = true)) ->
  preserves (D a) (tun_upd t f).
Proof. intros Hf w HD. by eapply wp_D_upd. Qed.

Lemma pres_D_get a {A} (k : mlvpn_tunnel_t -> W A) :
  (forall tun, tun_ok tun -> t_up tun = false -> (a = true -> has_addr tun = true) -> preserves (D a) (k tun)) ->
  preserves (D a) (tun_get t ≫= k).
Proof.
  intros Hk w HD. pose proof HD as (Hw & _ & _ & tun & Ht & Hu & Ha). apply wp_bind.
  unfold wp, tun_get at 1. rewrite Ht. apply Hk; try done. by eapply (v_tuns _ (wv_0 _ Hw)).
Qed.

Lemma pres_D_ask a {A} (f : nat -> A) : preserves (D a) (ask f).
Proof. apply D_of_J. intros w0 c _. apply pres_ask. Qed.

Lemma pres_open_socket a res : forall fd, preserves (D a) (open_socket res fd).
Proof.
  induction res as [|x res IH]; intros fd; [apply preserves_ret|]. simpl.
  apply preserves_bind; [apply pres_D_ask|]. intros fd'.
  apply preserves_if; intros _; [apply IH|apply preserves_ret].
Qed.

(** The delays double up to the first one that is not below the maximum. *)
Lemma delay_double r :
  r ∈ delays -> dltb r MLVPN_IO_TIMEOUT_MAXIMUM = true ->
  dmul r (d_of_Z MLVPN_IO_TIMEOUT_INCREMENT) ∈ delays.
Proof.
  unfold delays. intros (z & -> & Hz)%list_elem_of_fmap Hlt.
  assert (forallb (fun z => negb (dltb (d_of_Z z) MLVPN_IO_TIMEOUT_MAXIMUM) ||
    bool_decide (dmul (d_of_Z z) (d_of_Z MLVPN_IO_TIMEOUT_INCREMENT) ∈ d_of_Z <$> [1; 2; 4; 8; 16; 32; 64]))
    [1; 2; 4; 8; 16; 32; 64] = true) as Hall by (vm_compute; reflexivity).
  rewrite forallb_forall in Hall. apply list_elem_of_In in Hz. specialize (Hall z Hz).
  rewrite Hlt in Hall. by apply bool_decide_eq_true_1 in Hall.
Qed.

Lemma pres_start_error : preserves (D true) (start_error t).
Proof.
  apply preserves_bind; [|intros; apply preserves_ret]. apply pres_D_upd. intros tun Hok Hu Ha.
  specialize (Ha eq_refl).
  set (x := if 0 <? t_fd tun then tun <| t_fd := -1 |> else tun).
  assert (tun_ok x /\ t_name x = t_name tun /\ t_up x = false /\ has_addr x = true) as (Hx & Hn & Hux & Hax).
  { unfold x. destruct (0 <? t_fd tun); [|done]. split_and!; try done.
    destruct Hok as [S1 S2 [W1 W2] R1 R2 B Dl A]. by split. }
  clearbody x. cbv zeta. destruct (dltb (t_io_timeout_repeat x) MLVPN_IO_TIMEOUT_MAXIMUM) eqn:Hlt; [|done].
  split_and!; try done.
  destruct Hx as [S1 S2 [W1 W2] R1 R2 B Dl A]. split; try done. by apply delay_double.
Qed.

Lemma pres_bind : preserves (D true) (mlvpn_rtun_bind t).
Proof.
  apply preserves_bind; [apply pres_D_ask|]. intros [|]; [apply preserves_ret|].
  apply preserves_bind; [apply pres_D_ask|]. intros. apply preserves_ret.
Qed.

Lemma pres_start_rest res fd bindaddr : preserves (D true)
  (fd ← open_socket res fd;
   if fd <? 0 then start_error t
   else
     tun_upd t (fun tun => tun <| t_fd := fd |>);;
     r ← ask os_setsockopt;
     if r <? 0 then start_error t
     else
       b ← (if bool_decide (bindaddr = "") then mret 0 else mlvpn_rtun_bind t);
       if b <? 0 then start_error t
       else
         mlvpn_rtun_tick t;;
         tun_upd t (fun tun => tun <| t_io_read := true |>
                                   <| t_io_timeout_repeat := MLVPN_IO_TIMEOUT_DEFAULT |>);;
         mret 0).
Proof.
  assert (forall f, (forall tun, tun_ok tun -> has_addr tun = true -> tun_ok (f tun) /\
    t_name (f tun) = t_name tun /\ t_status (f tun) = t_status tun /\ has_addr (f tun) = true) ->
    preserves (D true) (tun_upd t f)) as Hupd.
  { intros f Hf. apply pres_D_upd. intros tun Hok Hu Ha. destruct (Hf tun Hok (Ha eq_refl)) as (H1 & H2 & H3 & H4).
    split_and!; try done. unfold t_up in *. by rewrite H3. }
  apply preserves_bind; [apply pres_open_socket|]. intros fd'.
  apply preserves_if; intros _; [apply pres_start_error|].
  apply preserves_bind.
  { apply Hupd. intros tun [S1 S2 [W1 W2] R1 R2 B Dl A] Ha. by split; [split|]. }
  intros []. apply preserves_bind; [apply pres_D_ask|]. intros r.
  apply preserves_if; intros _; [apply pres_start_error|].
  apply preserves_bind; [apply preserves_if; intros _; [apply preserves_ret|apply pres_bind]|]. intros b.
  apply preserves_if; intros _; [apply pres_start_error|].
  apply preserves_bind; [apply D_of_J; intros w0 c Hh; by eapply pres_tick|]. intros [].
  apply preserves_bind; [|intros; apply preserves_ret].
  apply Hupd. intros tun [S1 S2 [W1 W2] R1 R2 B Dl A] Ha. split; [|done]. split; try done.
  apply (list_elem_of_fmap_2 d_of_Z _ 1). set_solver.
Qed.

Lemma wp_start (Q : Z -> world -> Prop) w :
  D false w -> (forall r w', D (r =? 0) w' -> Q r w') -> wp (mlvpn_rtun_start t) Q w.
Proof.
  intros HD HQ. unfold mlvpn_rtun_start. pose proof HD as (_ & _ & _ & tun & Ht & _). wp_steps.
  unfold wp at 1, tun_get at 1. rewrite Ht. wp_steps.
  eapply wp_mono; [apply (pres_D_ask false os_getaddrinfo w HD)|]. intros res w1 HD1.
  destruct res as [|ai res]; [by apply HQ|]. wp_steps.
  eapply (wp_D_upd false true); [exact HD1| |].
  - intros x [S1 S2 [W1 W2] R1 R2 B Dl A] Hu _. by split; [split|].
  - intros w2 HD2. eapply wp_mono; [apply (pres_start_rest (ai :: res) (t_fd tun) (t_bindaddr tun) w2 HD2)|].
    intros r w3 HD3. apply HQ. destruct (r =? 0); [done|by apply D_weaken].
Qed.

Lemma wp_start_if_closed (Q : bool -> world -> Prop) w :
  D false w -> (forall b w', D b w' -> Q b w') -> wp (start_if_closed t) Q w.
Proof.
  intros HD HQ. unfold start_if_closed. pose proof HD as (Hw & Hrt & Hin & tun & Ht & Hu & _). wp_steps.
  unfold wp at 1, tun_get at 1. rewrite Ht. destruct (Z.ltb_spec (t_fd tun) 0) as [Hfd|Hfd].
  - wp_steps. apply wp_start; [done|]. intros r w1 HD1. destruct (r =? 0); wp_steps; [|by apply HQ].
    eapply (wp_D_upd true true); [exact HD1| |intros; wp_steps; by apply HQ].
    intros x Hx Hux Hax. split_and!; try done. ok_ext.
  - wp_steps. apply HQ. split_and!; try done. exists tun. split_and!; try done. intros _.
    apply (tk_addr _ (v_tuns _ (wv_0 _ Hw) _ _ Ht)). unfold started. rewrite (proj2 (Z.leb_le _ _)) by done.
    by rewrite orb_true_r.
Qed.

Lemma pres_challenge : preserves (D true) (mlvpn_rtun_challenge_send t).
Proof.
  apply preserves_bind; [|intros []]; apply pres_D_upd.
  - intros tun Hok Hu Ha. specialize (Ha eq_refl). split_and!; try done.
    apply tun_ok_hp; [done|done|]. apply Ring.push_inv; [apply cap_pos|apply Hok|]. by apply fill_two_tx.
  - intros tun [S1 S2 [W1 W2] R1 R2 B Dl A] Hu Ha. specialize (Ha eq_refl). by split; [split|].
Qed.

Lemma pres_tick_connect : preserves (D false) (mlvpn_rtun_tick_connect t).
Proof.
  unfold mlvpn_rtun_tick_connect. apply preserves_bind; [apply preserves_gets|]. intros now.
  apply pres_D_get. intros tun Hok Hu _ w HD. destruct (t_server_mode tun); wp_steps.
  - apply wp_start_if_closed; [done|]. intros b w' HD'. wp_steps. destruct b; [by apply D_weaken|done].
  - rewrite Hu. cbn [negb]. wp_steps. eapply (wp_D_upd false false); [exact HD| |].
    + intros x Hx Hux Hax. split_and!; try done. ok_ext.
    + intros w1 HD1. apply wp_start_if_closed; [done|]. intros b w2 HD2. destruct b; cbn [when]; [|done].
      eapply wp_mono; [by apply pres_challenge|]. intros [] w3. apply D_weaken.
Qed.
End periodic.
