(* ===== verification/Events.v ===== *)
(** * The events of the daemon keep the invariant

    The handlers the event loop calls: the periodic check of a tunnel, the
    tuntap watchers, the timers, the creation and the removal of tunnels and
    the termination.  [handle] runs one event and [step] is a turn of the
    loop on a state where the event may occur. *)

From S2P Require Import Prelude Double CString Timestamp Pkt Buffer Reorder Tunnel Loss Wrr Protocol Tuntap Rtun Stage Invariant Status Safety.

(** ** The periodic check of a tunnel *)

Section checks.
Context `{SodiumLaws}.
Variables (rt : list nat) (t : nat).

(** The invariant, and [t] is in the list. *)
Definition E (w : world) : Prop := winv w /\ w_rtuns w = rt /\ t ∈ rt.

Lemma E_lookup w : E w -> exists tun, w_tuns w !! t = Some tun /\ tun_ok tun.
Proof.
  intros (Hw & Hrt & Hin). destruct (proj1 (Forall_forall _ _) (v_alloc _ (wv_0 _ Hw)) t) as [tun Ht]; [by rewrite Hrt|].
  exists tun. split; [done|]. by eapply (v_tuns _ (wv_0 _ Hw)).
Qed.

Lemma E_of_K w : K rt t w -> E w.
Proof. by intros (? & ? & ? & _). Qed.
Lemma E_of_D w : D rt t false w -> E w.
Proof. by intros (? & ? & ? & _). Qed.
Lemma K_of_E w tun : E w -> w_tuns w !! t = Some tun -> has_addr tun = true -> K rt t w.
Proof. intros (? & ? & ?) ? ?. split_and!; eauto. Qed.
Lemma D_of_E w tun : E w -> w_tuns w !! t = Some tun -> t_up tun = false -> D rt t false w.
Proof. intros (? & ? & ?) ? ?. split_and!; try done. by eexists. Qed.

Lemma up_has_addr tun : tun_ok tun -> t_up tun = true -> has_addr tun = true.
Proof. intros Hok Hu. apply Hok. unfold started. by rewrite Hu. Qed.

Lemma wp_E_upd w tun f (Q : unit -> world -> Prop) :
  E w -> w_tuns w !! t = Some tun ->
  tun_ok (f tun) -> t_name (f tun) = t_name tun -> t_up (f tun) = t_up tun ->
  (forall w', E w' -> Q tt w') -> wp (tun_upd t f) Q w.
Proof.
  intros (Hw & Hrt & Hin) Ht Hok Hn Hu HQ. unfold tun_upd, tun_put. wp_steps.
  unfold wp at 1, tun_get at 1. rewrite Ht. wp_steps. apply HQ. split; [|done].
  split; [eapply winv0_put; [apply Hw|by rewrite Hrt|done|done|done]|].
  destruct (wv_sync _ Hw). split; rewrite ?(up_tunnels_put w t tun _ Ht Hu); done.
Qed.

Lemma any_normal_ok l w : Forall (fun t => is_Some (w_tuns w !! t)) l -> exists b, any_normal l w = Ok b w.
Proof.
  induction 1 as [|x l [tun Hx] Hl IH]; [by eexists|]. simpl. unfold mbind, M_bind, tun_get. rewrite Hx.
  destruct (_ && _); [by eexists|done].
Qed.

Lemma sync_fallback w b wrr :
  sync w -> wrr_ok w wrr -> sync (w <| w_status := (w_status w) <| s_fallback_mode := b |> |> <| w_wrr := wrr |>).
Proof. intros [] []. by split. Qed.

Lemma pres_switch : preserves E switch_to_fallback_if_necessary.
Proof.
  intros w HE. pose proof HE as (Hw & Hrt & Hin).
  assert (forall b, wp (set_status (fun s => s <| s_fallback_mode := b |>);; mlvpn_rtun_wrr_reset b) (fun _ => E) w) as Hset.
  { intros b. unfold set_status. wp_steps. apply wp_wrr_reset; [by apply winv0_status, Hw|].
    intros wrr Hwrr. split_and!; [|done|done]. split; [by apply winv0_wrr, winv0_status, Hw|].
    apply sync_fallback; [apply Hw|done]. }
  unfold switch_to_fallback_if_necessary. wp_steps.
  destruct (any_normal_ok (w_rtuns w) w (v_alloc _ (wv_0 _ Hw))) as [b Hb]. unfold wp at 1. rewrite Hb.
  destruct b; [apply Hset|]. wp_steps. by apply wp_when.
Qed.

(** The checks move a connected tunnel between the connected statuses. *)
Lemma wp_restatus w tun s :
  E w -> w_tuns w !! t = Some tun -> t_up tun = true -> status_up s = true ->
  wp (tun_upd t (fun tun => tun <| t_status := s |>);; switch_to_fallback_if_necessary) (fun _ => E) w.
Proof.
  intros HE Ht Hu Hs. destruct (E_lookup w HE) as (x & Hx & Hok). rewrite Ht in Hx. injection Hx as <-.
  pose proof (up_has_addr tun Hok Hu) as Ha.
  wp_steps. eapply wp_E_upd; [done|done| | | |apply pres_switch]; [|done|].
  - destruct Hok as [S1 S2 [W1 W2] R1 R2 B Dl A]. by split.
  - unfold t_up at 1. simpl. by rewrite Hs, Hu.
Qed.

Lemma pres_check_lossy : preserves E (mlvpn_rtun_check_lossy t).
Proof.
  intros w HE. destruct (E_lookup w HE) as (tun & Ht & Hok). unfold mlvpn_rtun_check_lossy. wp_steps.
  unfold wp at 1, tun_get at 1. rewrite Ht. cbv zeta. apply wp_if; intros C; [|apply wp_when; intros C'; [|done]].
  - apply andb_true_iff in C as [_ C%bool_decide_eq_true_1]. eapply wp_restatus; [done|done| |done]. unfold t_up. by rewrite C.
  - apply andb_true_iff in C' as [_ C'%bool_decide_eq_true_1]. eapply wp_restatus; [done|done| |done]. unfold t_up. by rewrite C'.
Qed.

Lemma pres_check_slow : preserves E (mlvpn_rtun_check_slow t).
Proof.
  intros w HE. destruct (E_lookup w HE) as (tun & Ht & Hok). unfold mlvpn_rtun_check_slow. wp_steps.
  unfold wp at 1, tun_get at 1. rewrite Ht. cbv zeta. apply wp_when; intros _; [|done].
  apply wp_if; intros C; [|apply wp_when; intros C'; [|done]].
  - apply andb_true_iff in C as [_ C%bool_decide_eq_true_1]. eapply wp_restatus; [done|done| |done]. unfold t_up. by rewrite C.
  - apply andb_true_iff in C' as [_ C'%bool_decide_eq_true_1]. eapply wp_restatus; [done|done| |done]. unfold t_up. by rewrite C'.
Qed.

(** The first part of the periodic check. *)
Definition check_connection (now : double) (tun : mlvpn_tunnel_t) : W unit :=
  if t_up tun && (0 <? t_timeout tun) then
    if negb (deqb (t_last_keepalive_ack tun) (d_of_Z 0)) &&
       dltb (dadd (t_last_keepalive_ack tun) (d_of_Z (t_timeout tun))) now
    then mlvpn_rtun_status_down t
    else when (dltb (t_next_keepalive tun) now) (mlvpn_rtun_send_keepalive now t)
  else when (negb (t_up tun)) (mlvpn_rtun_tick_connect t).

Lemma wp_check_connection now w tun :
  E w -> w_tuns w !! t = Some tun -> wp (check_connection now tun) (fun _ => E) w.
Proof.
  intros HE Ht. destruct (E_lookup w HE) as (x & Hx & Hok). rewrite Ht in Hx. injection Hx as <-.
  unfold check_connection. destruct (t_up tun) eqn:Hu; cbn [andb negb when].
  - pose proof (K_of_E _ _ HE Ht (up_has_addr _ Hok Hu)) as HK.
    apply wp_if; intros _; [|done]. apply (wp_mono _ (fun _ => K rt t)); [|intros [] w'; apply E_of_K].
    apply wp_if; intros _; [by apply pres_status_down|]. apply wp_when; intros _; [|done].
    apply pres_K_of_J; [|done]. intros w0 c Hh Hc. by eapply pres_keepalive.
  - eapply wp_mono; [by eapply pres_tick_connect, D_of_E|]. intros [] w'. apply E_of_D.
Qed.

Lemma pres_check_timeout : preserves E (mlvpn_rtun_check_timeout t).
Proof.
  intros w HE. destruct (E_lookup w HE) as (tun & Ht & Hok). unfold mlvpn_rtun_check_timeout, ev_now. wp_steps.
  unfold wp at 1, tun_get at 1. rewrite Ht. wp_steps.
  fold (check_connection (w_now w) tun). eapply wp_mono; [by apply wp_check_connection|]. intros [] w1 HE1.
  destruct (E_lookup w1 HE1) as (tun1 & Ht1 & Hok1). wp_steps. eapply wp_E_upd; [exact HE1|exact Ht1|..].
  - destruct (negb (t_io_write tun1) && negb (Ring.is_empty (t_hpsbuf tun1))) eqn:C; [|done].
    apply tun_ok_io_write; [done|]. apply Hok1. unfold started.
    apply andb_true_iff in C as [_ ->]. by rewrite !orb_true_r.
  - by destruct (_ && _).
  - by destruct (_ && _).
  - intros w2 HE2. wp_steps. eapply wp_mono; [by apply pres_check_lossy|]. intros [] w3. apply pres_check_slow.
Qed.
End checks.

(** ** The tuntap watchers and the timers *)

Section loop.
Context `{SodiumLaws}.

Lemma elem_up w t :
  t ∈ up_tunnels w <-> t ∈ w_rtuns w /\ exists tun, w_tuns w !! t = Some tun /\ t_up tun = true.
Proof.
  unfold up_tunnels, tun_test. rewrite list_elem_of_filter. destruct (w_tuns w !! t); naive_solver.
Qed.

(** A filter only designates a connected tunnel of the list. *)
Lemma wp_filters_choose data w :
  winv w -> wp (mlvpn_filters_choose data) (fun o w' => w' = w /\ forall t, o = Some t -> t ∈ up_tunnels w) w.
Proof.
  intros Hw. unfold mlvpn_filters_choose. wp_steps. pose proof (v_filters _ (wv_0 _ Hw)) as Hf.
  induction Hf as [|[f t] fs [tun Ht] Hf IH]; cbn [filters_loop]; wp_steps; [by split|].
  simpl in Ht. apply wp_if; intros _; [|done]. wp_steps. unfold wp at 1, tun_get at 1. rewrite Ht.
  destruct (t_up tun) eqn:Hu; cbn [negb]; [|done]. wp_steps. split; [done|]. intros ? [= <-].
  apply elem_up. split; [|by eexists]. destruct (decide (t ∈ w_rtuns w)) as [|Hn]; [done|].
  destruct (v_gone _ (wv_0 _ Hw) t tun Ht Hn) as [Hd _]. unfold t_up in Hu. by rewrite Hd in Hu.
Qed.

(** The scheduler only chooses a connected tunnel of the list, and changes
    nothing but its credits. *)
Lemma wp_choose w :
  winv w -> wp mlvpn_rtun_choose (fun o w' => winv w' /\ (exists x, w' = w <| w_wrr := x |>) /\
    forall t, o = Some t -> t ∈ up_tunnels w) w.
Proof.
  intros Hw. unfold mlvpn_rtun_choose, mlvpn_rtun_wrr_choose. wp_steps.
  destruct (Z.eqb_spec (wrr_len (w_wrr w)) 0) as [E0|E0]; wp_steps.
  { split_and!; [done| |done]. exists (w_wrr w). by destruct w. }
  destruct (wv_sync _ Hw) as [Yc Yi Ywr Ywl Yt]. unfold wrr_len in E0.
  destruct (wrr_tunval (w_wrr w)) as [|v0 vs] eqn:Hv; [simpl in Ywl; lia|]. rewrite <- Hv in *.
  destruct (min_index_spec (wrr_tunval (w_wrr w)) v0) as (v & Hidx & _); [by rewrite Hv|].
  apply lookup_lt_Some in Hidx. rewrite Ywl in Hidx. destruct (lookup_lt_is_Some_2 _ _ Hidx) as [t Ht].
  pose proof (proj1 (Forall_lookup _ _) Ywr _ _ Ht) as Hup. simpl in Hup.
  pose proof (proj1 (elem_up w t) Hup) as (Hin & tun & Htun & Hu).
  eapply wp_expect; [exact Ht|]. wp_steps. unfold wp at 1, tun_get at 1. rewrite Htun. wp_steps.
  split_and!; [|by eexists|by intros ? [= <-]].
  split; [by apply winv0_wrr, Hw|]. split; simpl; try done.
  unfold decrement. by rewrite length_insert, length_fmap.
Qed.

(** What [read] on the device may give that the daemon survives: at least a
    byte, and no more than it asked for. *)
Definition tun_readable (r : io_result) (data : list Z) : bool :=
  match r with
  | IoOk n => (0 <? n) && (n <=? Z.of_nat DEFAULT_MTU) && bool_decide (Z.of_nat (length data) = n)
  | IoAgain => true
  | IoError => false
  end.

Lemma wp_generic_read data len w :
  winv w -> 0 < len <= 1444 -> len <= Z.of_nat (length data) ->
  wp (mlvpn_tuntap_generic_read data len) (fun _ w' => winv w' /\ w_rtuns w' = w_rtuns w) w.
Proof.
  intros Hw Hl Hd. unfold mlvpn_tuntap_generic_read. wp_steps.
  eapply wp_mono; [by apply wp_filters_choose|]. intros filtered w' [-> Hf]. wp_steps.
  apply (wp_mono _ (fun c w' => winv w' /\ w_rtuns w' = w_rtuns w /\
    forall t hp, c = Some (t, hp) -> t ∈ up_tunnels w')).
  { destruct filtered as [t|]; wp_steps.
    - split_and!; [done|done|]. intros ? ? [= <- <-]. by apply Hf.
    - eapply wp_mono; [by apply wp_choose|]. intros c w1 (Hw1 & (x & ->) & Hc). wp_steps.
      split_and!; [done|done|]. intros t hp Heq. destruct c as [t'|]; [|done]. injection Heq as <- <-.
      by apply Hc. }
  intros [[t hp]|] w1 (Hw1 & Hrt & Hc); wp_steps; [|done].
  destruct (proj1 (elem_up _ _) (Hc t hp eq_refl)) as (Hin & tun & Ht & Hu).
  assert (fills_tx (fill_data len data)) as Hfill.
  { apply fill_data_tx; [done|]. rewrite length_take. lia. }
  pose proof (v_tuns _ (wv_0 _ Hw1) _ _ Ht) as Hok. simpl in Hok. pose proof (up_has_addr _ Hok Hu) as Ha.
  assert (forall y b, tun_ok y -> t_ctl y = t_ctl tun ->
    let z := if negb (t_io_write y) && b then y <| t_io_write := true |> else y in
    tun_ok z /\ t_ctl z = t_ctl tun) as Hz.
  { intros y b Hy Hcy. cbv zeta. destruct (_ && _); [|done]. split; [|done].
    apply tun_ok_io_write; [done|]. by rewrite (t_ctl_addr _ _ Hcy). }
  pose proof (Ring.push_inv _ _ cap_pos _ _ (tk_hpsbuf _ Hok) Hfill) as [Hh _].
  pose proof (Ring.push_inv _ _ cap_pos _ _ (tk_sbuf _ Hok) Hfill) as [Hs _].
  assert (let y := if hp then tun <| t_hpsbuf := Ring.push (fill_data len data) (t_hpsbuf tun) |>
                   else tun <| t_sbuf := Ring.push (fill_data len data) (t_sbuf tun) |> in
    let z := if negb (t_io_write y) && negb (Ring.is_empty (if hp then t_hpsbuf y else t_sbuf y))
             then y <| t_io_write := true |> else y in
    tun_ok z /\ t_ctl z = t_ctl tun) as [Hok' Hc'].
  { intros y. apply Hz; unfold y; destruct hp; try done; [by apply tun_ok_hp|by apply tun_ok_sb]. }
  eapply (wp_E_upd (w_rtuns w1) t w1 tun); [done|exact Ht|exact Hok'|exact (f_equal (fun c => c.1.1.1) Hc')| |].
  - exact (f_equal (fun c => status_up c.1.1.2) Hc').
  - intros w2 (Hw2 & Hr2 & _). wp_steps. split; [done|congruence].
Qed.

Lemma pres_tun_read r data : tun_readable r data = true -> preserves winv (tuntap_io_read r data).
Proof.
  intros Hr w Hw. unfold tuntap_io_read, mlvpn_tuntap_read. wp_steps. destruct r as [n| |]; wp_steps; [|done|done].
  unfold tun_readable in Hr. apply andb_true_iff in Hr as [Hr Hd%bool_decide_eq_true_1].
  apply andb_true_iff in Hr as [Hn%Z.ltb_lt Hm%Z.leb_le].
  rewrite (proj2 (Z.eqb_neq n 0)) by lia. wp_steps.
  rewrite (tto_mtu _ (sg_tt _ (v_stage _ (wv_0 _ Hw)))). cbv zeta.
  eapply wp_mono; [apply wp_generic_read; [done|..]|by intros ? ? [? _]]; destruct (Z.ltb_spec 1444 n); lia.
Qed.

Lemma winv_of_J w w' : winv w -> J w w' -> winv w'.
Proof. intros Hw. apply sync_J, Hw. Qed.

Lemma pres_winv_of_J {A} (m : W A) : (forall w0, preserves (J w0) m) -> preserves winv m.
Proof.
  intros Hm w Hw. eapply wp_mono; [apply (Hm w w); split; [apply Hw|done]|].
  intros a w'. by apply winv_of_J.
Qed.

Lemma winv_tuntap w tt' tr n :
  winv w -> tt_ok tt' -> updown tr = updown (w_trace w) ->
  winv (w <| w_tuntap := tt' |> <| w_trace := tr |> <| w_calls := n |>).
Proof.
  intros Hw Ht Hu. eapply winv_of_J; [exact Hw|]. split; [|by split].
  destruct (wv_0 _ Hw) as [[S1 S2 S3] A N M T G Nm Ti F D]. by split.
Qed.

Lemma tun_write_ok w : winv w -> tt_io_write (w_tuntap w) = true -> wp tuntap_io_write (fun _ => winv) w.
Proof.
  intros Hw Hio. destruct (sg_tt _ (v_stage _ (wv_0 _ Hw))) as [Hr Hwr Hm]. rewrite Hwr in Hio.
  unfold tuntap_io_write, mlvpn_tuntap_write. wp_steps. destruct (Ring.is_empty _) eqn:He; [done|].
  unfold Ring.pop. destruct (Ring.mlvpn_pktbuffer_read (tt_sbuf (w_tuntap w))) as [slot ring] eqn:Hrd.
  destruct (Ring.read_inv _ _ cap_pos _ _ _ Hr Hrd) as [Hri _].
  unfold set_tuntap, emit, ask. wp_steps. unfold wp at 1. wp_steps. simpl (tt_sbuf _).
  assert (updown (w_trace w ++ [TunWrite (payload (Ring.pkt_load slot ring))]) = updown (w_trace w)) as Hud.
  { unfold updown. rewrite omap_app. apply app_nil_r. }
  destruct (Ring.is_empty ring) eqn:Her; cbn [when]; wp_steps.
  - apply (winv_tuntap w ((w_tuntap w) <| tt_sbuf := ring |> <| tt_io_write := false |>)); [done| |done].
    split; simpl; [done| |done]. by rewrite Her.
  - apply (winv_tuntap w ((w_tuntap w) <| tt_sbuf := ring |>)); [done| |done].
    split; simpl; [done| |done]. by rewrite Hwr, Her.
Qed.

Lemma drain_timer_ok w :
  winv w -> w_drain_timer w = true -> wp mlvpn_rtun_reorder_drain_timeout (fun _ => winv) w.
Proof.
  intros Hw Ht. apply wp_drain_timeout; [apply Hw|done|]. intros w' Hs.
  eapply winv_of_J; [exact Hw|]. eapply stage_step_J; [|done]. by split; [apply Hw|].
Qed.

(** A loop over the tunnels that only reads them. *)
Lemma max_srtt_ok l : forall m w, Forall (fun t => is_Some (w_tuns w !! t)) l -> exists m', max_srtt_loop l m w = Ok m' w.
Proof.
  induction l as [|t l IH]; intros m w Hl; [by eexists|]. inversion Hl as [|? ? [tun Ht] Hl']; subst.
  cbn [max_srtt_loop]. unfold mbind, M_bind, tun_get. rewrite Ht. by apply IH.
Qed.
Lemma bandwidth_ok l : forall a b w, Forall (fun t => is_Some (w_tuns w !! t)) l ->
  exists r, bandwidth_loop l a b w = Ok r w.
Proof.
  induction l as [|t l IH]; intros a b w Hl; [by eexists|]. inversion Hl as [|? ? [tun Ht] Hl']; subst.
  cbn [bandwidth_loop]. unfold mbind, M_bind, tun_get. rewrite Ht. by apply IH.
Qed.

Lemma pres_adjust : preserves winv mlvpn_rtun_adjust_reorder_timeout.
Proof.
  intros w Hw. unfold mlvpn_rtun_adjust_reorder_timeout. wp_steps.
  destruct (max_srtt_ok (w_rtuns w) (d_of_Z 0) w (v_alloc _ (wv_0 _ Hw))) as [m Hm].
  unfold wp at 1. rewrite Hm. cbv zeta. wp_steps. destruct (wv_sync _ Hw). split; [|by split].
  destruct (wv_0 _ Hw) as [[S1 S2 S3] A N M T G Nm Ti F D]. by split.
Qed.

Lemma winv_has w t : winv w -> t ∈ w_rtuns w -> exists c, has w t c.
Proof.
  intros Hw Ht. destruct (proj1 (Forall_forall _ _) (v_alloc _ (wv_0 _ Hw)) t Ht) as [tun Htun].
  exists (t_ctl tun). split; [done|]. by rewrite Htun.
Qed.

Lemma pres_recalc_weight : preserves winv mlvpn_rtun_recalc_weight.
Proof.
  intros w Hw. unfold mlvpn_rtun_recalc_weight. wp_steps.
  destruct (bandwidth_ok (w_rtuns w) 0 0 w (v_alloc _ (wv_0 _ Hw))) as [[warned total] Hb].
  unfold wp at 1. rewrite Hb. apply wp_when; intros _; [|done].
  eapply wp_mono; [apply (wp_for_each _ _ (fun _ => J w))|].
  - by split; [apply Hw|].
  - intros t _ w' Ht HJ. destruct (winv_has w t Hw Ht) as [c Hc].
    eapply (pres_get w t c); [done| |done]. intros tun Hok Hct. apply preserves_when. intros _.
    apply (pres_put w t c); [done|ok_ext|done].
  - intros [] w'. by apply winv_of_J.
Qed.

(** ** Removal *)

Lemma remove_named_ok n l : forall w,
  Forall (fun t => is_Some (w_tuns w !! t)) l ->
  remove_named n l w = Ok (match list_find (fun t => t_name <$> w_tuns w !! t = Some n) l with
                           | Some (i, _) => delete i l
                           | None => l
                           end) w.
Proof.
  induction l as [|t l IH]; intros w Hl; [done|]. inversion Hl as [|? ? [tun Ht] Hl']; subst.
  cbn [remove_named list_find]. unfold mbind, M_bind, tun_get. rewrite Ht. simpl.
  destruct (decide (t_name tun = n)) as [<-|Hn].
  - rewrite (proj2 (bool_decide_eq_true _)) by done. by rewrite decide_True.
  - rewrite (proj2 (bool_decide_eq_false _)) by congruence. rewrite decide_False by congruence.
    specialize (IH w Hl'). unfold tun_get in IH. rewrite IH. by destruct (list_find _ l) as [[]|].
Qed.

Lemma wp_K_upd_is rt t w tun f (Q : unit -> world -> Prop) :
  K rt t w -> w_tuns w !! t = Some tun ->
  tun_ok (f tun) -> t_name (f tun) = t_name tun -> t_up (f tun) = t_up tun -> has_addr (f tun) = true ->
  (forall w', K rt t w' -> w_tuns w' !! t = Some (f tun) -> Q tt w') -> wp (tun_upd t f) Q w.
Proof.
  intros HK Ht Hok Hn Hu Ha HQ. unfold tun_upd, tun_put. wp_steps. unfold wp at 1, tun_get at 1. rewrite Ht. wp_steps.
  apply HQ; [by eapply K_put|apply lookup_insert_eq].
Qed.

(** The tunnel [t] leaves the list. *)
Definition without (t : nat) (w : world) : world :=
  w <| w_rtuns := filter (fun x => x <> t) (w_rtuns w) |>.

Lemma find_named w t tun :
  winv0 w -> t ∈ w_rtuns w -> w_tuns w !! t = Some tun ->
  match list_find (fun x => t_name <$> w_tuns w !! x = Some (t_name tun)) (w_rtuns w) with
  | Some (i, _) => delete i (w_rtuns w)
  | None => w_rtuns w
  end = filter (fun x => x <> t) (w_rtuns w).
Proof.
  intros Hw Hin Ht. destruct (list_find _ _) as [[i x]|] eqn:Hf.
  - apply list_find_Some in Hf as (Hi & Hx & _).
    assert (x = t) as ->.
    { eapply (v_names _ Hw); [by eapply list_elem_of_lookup_2|done|exact Hx|by rewrite Ht]. }
    revert i Hi. pose proof (v_nodup _ Hw) as Hnd. clear Hin Hx. induction (w_rtuns w) as [|y l IH]; intros i Hi; [done|].
    apply NoDup_cons in Hnd as [Hy Hnd]. rewrite filter_cons. destruct i as [|i]; simpl in Hi |- *.
    + injection Hi as ->. rewrite decide_False by naive_solver.
      symmetry. by apply filter_notin.
    + rewrite decide_True by (intros ->; apply Hy; by eapply list_elem_of_lookup_2). f_equal. by apply IH.
  - apply list_find_None in Hf. rewrite Forall_forall in Hf. by destruct (Hf t Hin); rewrite Ht.
Qed.

Lemma without_ok w t tun :
  winv w -> w_tuns w !! t = Some tun -> t_status tun = MLVPN_DISCONNECTED ->
  t_io_read tun = false -> t_io_write tun = false -> t_io_timeout tun = false -> winv (without t w).
Proof.
  intros [[S A N M T G Nm Ti F D] [Yc Yi Ywr Ywl Yt]] Ht Hd Hr Hwr Hto.
  assert (up_tunnels (without t w) = up_tunnels w) as Hup.
  { unfold up_tunnels, without. cbn [w_rtuns update w_tuns]. rewrite list_filter_filter.
    apply list_filter_iff. intros x. change (tun_test (w <| w_rtuns := _ |>) t_up x) with (tun_test w t_up x).
    split; [by intros [? ?]|]. intros Hx. split; [done|]. intros ->. unfold tun_test in Hx. rewrite Ht in Hx.
    unfold t_up in Hx. by rewrite Hd in Hx. }
  split; [|split; rewrite ?Hup; done]. unfold without. split; cbn [w_rtuns w_tuns update w_process_title]; try done.
  - by destruct S.
  - unfold rtuns_alloc in *. cbn. rewrite Forall_forall in A |- *. intros x [_ Hx]%list_elem_of_filter. by apply A.
  - by apply NoDup_filter.
  - pose proof (length_filter (fun x => x <> t) (w_rtuns w)). lia.
  - intros x y Hx Hn. destruct (decide (x = t)) as [->|Hne]; [by simplify_eq|].
    apply (G x); [done|]. intros Hin. apply Hn. by apply list_elem_of_filter.
  - intros x y n [_ Hx]%list_elem_of_filter [_ Hy]%list_elem_of_filter. by apply Nm.
  - destruct Ti as [|Ti]; [by left|right]. intros x y [_ Hx]%list_elem_of_filter. by apply Ti.
Qed.

Lemma drop_ok w t tun :
  winv w -> t ∈ w_rtuns w -> w_tuns w !! t = Some tun -> has_addr tun = true ->
  wp (mlvpn_rtun_drop t) (fun _ w' => winv w' /\ w_rtuns w' = filter (fun x => x <> t) (w_rtuns w)) w.
Proof.
  intros Hw Hin Ht Ha. unfold mlvpn_rtun_drop. wp_steps.
  eapply wp_mono; [apply (pres_disconnect (w_rtuns w) t); by split_and!; eauto|]. intros [] w1 HK1. wp_steps.
  pose proof HK1 as (_ & _ & _ & tun1 & Ht1 & _).
  eapply wp_status_down; [exact HK1|exact Ht1|]. intros w2 (Hw2 & Hr2 & _ & tun2 & Ht2 & Ha2) Heq2. wp_steps.
  rewrite Heq2, lookup_insert_eq in Ht2. injection Ht2 as <-.
  assert (w_tuns w2 !! t = Some (downed tun1)) as Ht2 by (rewrite Heq2; apply lookup_insert_eq).
  pose proof (v_tuns _ (wv_0 _ (proj1 HK1)) _ _ Ht1) as Hok1. simpl in Hok1.
  destruct (downed_ok tun1 Hok1) as (Hok & _ & Hst & _ & Hio). clear Heq2.
  generalize dependent (downed tun1). intros tun2 Ha2 Ht2 Hok Hst Hio.
  set (f := fun x : mlvpn_tunnel_t => x <| t_io_timeout := false |> <| t_io_read := false |>).
  eapply (wp_K_upd_is (w_rtuns w) t w2 tun2 f); [by split_and!; eauto|exact Ht2|..]; [|done|done|done|].
  { destruct Hok as [S1 S2 [W1 W2] R1 R2 B Dl A]. by split. }
  intros w3 (Hw3 & Hr3 & Hin3 & _) Ht3. wp_steps. unfold wp at 1, tun_get at 1. rewrite Ht3. wp_steps.
  unfold wp at 1. rewrite remove_named_ok by apply Hw3. wp_steps.
  rewrite (find_named w3 t _ (wv_0 _ Hw3)) by (by rewrite ?Hr3). fold (without t w3).
  assert (winv (without t w3)) as Hwo by (by eapply without_ok).
  eapply wp_mono; [apply (pres_title_x (without t w3)), Jx_refl, Hwo|].
  intros [] w4 [HJ _]. split; [by eapply winv_of_J|]. rewrite (c_rtuns _ _ (proj2 HJ)). simpl. by rewrite Hr3.
Qed.

(** ** Creation *)

(** [tun] is added at [t], which was free. *)
Definition with_new (t : nat) (tun : mlvpn_tunnel_t) (w : world) : world :=
  w <| w_tuns := <[t := tun]> (w_tuns w) |> <| w_rtuns := t :: w_rtuns w |>.

Lemma with_new_ok w t tun :
  winv w -> w_tuns w !! t = None -> tun_ok tun -> t_up tun = false ->
  Z.of_nat (length (w_rtuns w)) < MAX_TUNNELS ->
  (forall t' tun', t' ∈ w_rtuns w -> w_tuns w !! t' = Some tun' -> t_name tun' <> t_name tun) ->
  (w_process_title w = None \/ (String.length (t_name tun) <= 29)%nat) ->
  winv (with_new t tun w).
Proof.
  intros [[S A N M T G Nm Ti F D] [Yc Yi Ywr Ywl Yt]] Ht Hok Hu Hlen Hname Htitle.
  assert (t ∉ w_rtuns w) as Hnot.
  { intros Hin. destruct (proj1 (Forall_forall _ _) A t Hin). congruence. }
  assert (forall t', t' ∈ w_rtuns w -> t <> t') as Hne by naive_solver.
  assert (forall x, is_Some (w_tuns w !! x) -> is_Some (<[t := tun]> (w_tuns w) !! x)) as Hsome.
  { intros x Hx. destruct (decide (t = x)) as [->|]; [rewrite lookup_insert_eq; by eexists|by rewrite lookup_insert_ne]. }
  assert (up_tunnels (with_new t tun w) = up_tunnels w) as Hup.
  { unfold up_tunnels, with_new. cbn [w_rtuns update w_tuns]. rewrite filter_cons, decide_False.
    - apply filter_bool_ext. intros x Hx. unfold tun_test. simpl. by rewrite lookup_insert_ne by auto.
    - unfold tun_test. simpl. by rewrite lookup_insert_eq, Hu. }
  split; [|split; rewrite ?Hup; done]. unfold with_new.
  split; cbn [w_rtuns w_tuns update w_process_title w_filters]; try done.
  - by destruct S.
  - constructor; cbn; [rewrite lookup_insert_eq; by eexists|]. eapply Forall_impl; [exact A|]. intros x. apply Hsome.
  - by constructor.
  - simpl. lia.
  - by apply map_Forall_insert_2.
  - intros x y Hx [Hxt Hxn]%not_elem_of_cons. rewrite lookup_insert_ne in Hx by done. by apply (G x).
  - intros x y n [->|Hx]%elem_of_cons [->|Hy]%elem_of_cons; rewrite ?lookup_insert_eq, ?lookup_insert_ne by auto; try done.
    + intros [= <-] (z & Hz & Hzn)%fmap_Some. by destruct (Hname y z Hy Hz).
    + intros (z & Hz & Hzn)%fmap_Some [= <-]. by destruct (Hname x z Hx Hz).
    + by apply Nm.
  - destruct Htitle as [|Hl]; [by left|]. destruct Ti as [|Ti]; [by left|right].
    intros x y [->|Hx]%elem_of_cons; rewrite ?lookup_insert_eq, ?lookup_insert_ne by auto; [by intros [= <-]|by apply Ti].
  - eapply Forall_impl; [exact F|]. intros x. apply Hsome.
Qed.

(** The arguments of [mlvpn_rtun_new]. *)
Record new_args := NewArgs {
  na_name : string;
  na_bindaddr : option string;
  na_bindport : option string;
  na_bindfib : Z;
  na_destaddr : option string;
  na_destport : option string;
  na_server_mode : bool;
  na_timeout : Z;
  na_fallback_only : Z;
  na_bandwidth : Z;
  na_loss_tolerence : Z;
  na_latency_tolerence : Z
}.
Definition rtun_new (a : new_args) : W (option nat) :=
  mlvpn_rtun_new (na_name a) (na_bindaddr a) (na_bindport a) (na_bindfib a) (na_destaddr a) (na_destport a)
    (na_server_mode a) (na_timeout a) (na_fallback_only a) (na_bandwidth a) (na_loss_tolerence a)
    (na_latency_tolerence a).

(** There is room for a tunnel, its name is not taken and the process title
    can show it. *)
Definition may_add (a : new_args) (w : world) : bool :=
  (Z.of_nat (length (w_rtuns w)) <? MAX_TUNNELS) &&
  forallb (fun t => negb (tun_test w (fun tun => bool_decide (t_name tun = na_name a)) t)) (w_rtuns w) &&
  (bool_decide (w_process_title w = None) || (String.length (na_name a) <=? 29)%nat).

Lemma new_ring_ok : Ring.ring_inv tx_ok cap (Ring.mlvpn_pktbuffer_init PKTBUFSIZE).
Proof.
  destruct (Ring.init_spec PKTBUFSIZE) as (Hv & _ & Hc); [done|]. split; [done|done|].
  apply Forall_replicate. split; [|done|done]. by split.
Qed.

Lemma winv_ask w n : winv w -> winv (w <| w_calls := n |>).
Proof.
  intros Hw. eapply winv_of_J; [exact Hw|]. split; [|by split]. destruct (wv_0 _ Hw). split; try done. by destruct v_stage.
Qed.

#[local] Opaque Ring.mlvpn_pktbuffer_init.

(** What is missing makes [mlvpn_rtun_new] return [NULL]. *)
Definition lacks_args (a : new_args) : bool :=
  if na_server_mode a then bool_decide (na_bindport a = None)
  else bool_decide (na_destaddr a = None) || bool_decide (na_destport a = None).

(** The tunnel [tun] was added, under a number that was free. *)
Definition added (t : nat) (tun : mlvpn_tunnel_t) (w w' : world) : Prop :=
  w_tuns w !! t = None /\ w_tuns w' = <[t := tun]> (w_tuns w) /\ w_rtuns w' = t :: w_rtuns w.

Lemma wp_new a w (Q : option nat -> world -> Prop) :
  winv w -> may_add a w = true -> lacks_args a = false ->
  (forall t tun w', winv w' -> added t tun w w' -> t_name tun = na_name a -> t_up tun = false -> Q (Some t) w') ->
  wp (rtun_new a) Q w.
Proof.
  intros Hw Ha Hargs HQ. unfold rtun_new, mlvpn_rtun_new. fold (lacks_args a). rewrite Hargs.
  unfold crypto_nonce_random. wp_steps. unfold wp at 1, ask at 1. wp_steps. cbv zeta.
  set (w1 := w <| w_calls := _ |>). pose proof (winv_ask w (S (w_calls w)) Hw) as Hw1. fold w1 in Hw1.
  set (t := fresh (dom (w_tuns w1))).
  assert (w_tuns w1 !! t = None) as Hfr by (apply not_elem_of_dom, is_fresh).
  unfold tun_put, mlvpn_rtun_tick, ev_now, tun_upd, tun_put.
  wp_steps. unfold wp at 1, tun_get at 1. simpl (w_tuns _). rewrite lookup_insert_eq.
  wp_steps. unfold wp at 1, tun_get at 1. simpl (w_tuns _). rewrite lookup_insert_eq.
  wp_steps. unfold wp at 1, tun_get at 1. simpl (w_tuns _). rewrite lookup_insert_eq.
  wp_steps. match goal with |- wp _ _ ?x => set (w2 := x) end.
  assert (exists tun, w2 = with_new t tun w1 /\ tun_ok tun /\ t_up tun = false /\ t_name tun = na_name a)
    as (tun & Heq & Hok & Hu & Hn).
  { unfold w2. eexists. split.
    - unfold with_new. simpl. rewrite !insert_insert_eq. reflexivity.
    - split; [|done]. split; cbn; try done; try apply new_ring_ok.
      + split; cbn; [lia|apply Z.mod_pos_bound; lia].
      + unfold MLVPN_IO_TIMEOUT_DEFAULT. constructor. }
  assert (winv w2) as Hw2.
  { rewrite Heq. unfold may_add in Ha. apply andb_true_iff in Ha as [Ha Htitle].
    apply andb_true_iff in Ha as [Hlen%Z.ltb_lt Hnames]. apply with_new_ok; try done.
    - intros t' tun' Hin Ht'. rewrite forallb_forall in Hnames. rewrite Hn.
      specialize (Hnames t' (proj1 (list_elem_of_In _ _) Hin)). unfold tun_test in Hnames.
      change (w_tuns w1) with (w_tuns w) in Ht'. rewrite Ht' in Hnames.
      by apply negb_true_iff, bool_decide_eq_false_1 in Hnames.
    - rewrite Hn. apply orb_true_iff in Htitle as [?%bool_decide_eq_true_1|?%Nat.leb_le]; [by left|by right]. }
  assert (added t tun w w2) as Had by (split_and!; [exact Hfr|by rewrite Heq..]).
  clearbody w2. eapply wp_mono; [apply (pres_title_x w2), Jx_refl, Hw2|]. intros [] w3 [HJ Ht3].
  wp_steps. eapply HQ; [by eapply winv_of_J| |exact Hn|exact Hu].
  destruct Had as (H1 & H2 & H3). split_and!; [done|by rewrite Ht3|by rewrite (c_rtuns _ _ (proj2 HJ))].
Qed.

Lemma pres_new a w : winv w -> may_add a w = true -> wp (rtun_new a) (fun _ => winv) w.
Proof.
  intros Hw Ha. destruct (lacks_args a) eqn:Hl; [|by eapply wp_new].
  unfold rtun_new, mlvpn_rtun_new. fold (lacks_args a). by rewrite Hl.
Qed.
End loop.
