(* ===== verification/Flow.v ===== *)
(** * Where the packets of the daemon come from

    The flow of data through one daemon: what it sends as data on a tunnel it
    read from its device ([Out]), and what it writes to its device it received
    in a data packet of a tunnel ([In]).  [flow] is the invariant that says so
    of every place a packet may wait: the rings of the tunnels, the ring of
    the device, the pool of the reordering stage and the trace.

    [stays] is partial correctness: a handler that returns keeps the
    invariant.  That the handlers do return is [Safety]. *)

From S2P Require Import Prelude Double CString Timestamp Pkt Buffer Reorder Tunnel Loss Wrr Protocol Tuntap Rtun Stage Invariant Status Safety Events.

(** ** Partial correctness *)

(** When [m] returns, [I] still holds. *)
Definition stays {S A} (I : S -> Prop) (m : M S A) : Prop :=
  forall s a s', I s -> m s = Ok a s' -> I s'.

Section stays_rules.
Context {S : Type} (I : S -> Prop).

Lemma stays_ret {A} (a : A) : stays I (mret a : M S A).
Proof. by intros s b s' HI [= _ <-]. Qed.
Lemma stays_bind {A B} (m : M S A) (k : A -> M S B) :
  stays I m -> (forall a, stays I (k a)) -> stays I (m ≫= k).
Proof.
  intros Hm Hk s b s' HI. unfold mbind, M_bind. destruct (m s) as [a s1|] eqn:E; [|done].
  intros E'. eapply Hk; [|exact E']. by eapply Hm.
Qed.
Lemma stays_gets {A} (g : S -> A) : stays I (gets g).
Proof. by intros s b s' HI [= _ <-]. Qed.
(** Reading a part of the state of which the invariant says something. *)
Lemma stays_gets_bind {A B} (P : A -> Prop) (g : S -> A) (k : A -> M S B) :
  (forall s, I s -> P (g s)) -> (forall a, P a -> stays I (k a)) -> stays I (gets g ≫= k).
Proof. intros HP Hk s b s' HI. apply Hk; [|done]. by apply HP. Qed.
Lemma stays_modify g : (forall s, I s -> I (g s)) -> stays I (modify g).
Proof. intros Hg s b s' HI [= _ <-]. by apply Hg. Qed.
Lemma stays_fail {A} e : stays I (fail e : M S A).
Proof. done. Qed.
Lemma stays_expect {A} e (o : option A) : stays I (expect e o).
Proof. destruct o; [apply stays_ret|apply stays_fail]. Qed.
Lemma stays_for_each {A} (l : list A) (body : A -> M S unit) :
  (forall x, stays I (body x)) -> stays I (for_each l body).
Proof. intros Hb. induction l; simpl; [apply stays_ret|by apply stays_bind]. Qed.
End stays_rules.

Create HintDb flow.
#[export] Hint Resolve stays_ret stays_gets stays_fail stays_expect : flow.

(** ** The invariant *)

Section flow.
Context `{SodiumLaws}.
(** The option and the key, what may be sent as data and what may be written
    to the device, and the trace before the handler. *)
Variables (ct : bool) (key : list Z) (Out In : list Z -> Prop) (tr0 : list effect).

(** A packet that waits to be sent. *)
Record out_ok (p : mlvpn_pkt_t) : Prop := {
  ou_tx : tx_ok p;
  ou_data : pkt_type p = MLVPN_PKT_DATA -> Out (payload p)
}.

(** A packet that was received. *)
Record in_ok (p : mlvpn_pkt_t) : Prop := {
  in_pkt : pkt_ok p;
  in_data : In (payload p)
}.

(** A datagram the daemon sent: a packet that waited, in its envelope. *)
Definition sent_ok (d : list Z) : Prop :=
  exists now64 ds tun p, tun_wire tun /\ 0 <= ds < 2 ^ 64 /\ out_ok p /\
    encap_dgram (rtun_encap ct key now64 ds tun p) = Some d.

(** A datagram that may arrive: data it carries may be written. *)
Definition arrives_ok (n : Z) (data : list Z) : Prop :=
  forall now64 tun tun' decap,
    mlvpn_protocol_read ct key now64 tun (Pkt (u16 n) 0 0 0 data) = Some (tun', decap) ->
    pkt_type decap = MLVPN_PKT_DATA -> In (payload decap).

Record tun_flow (tun : mlvpn_tunnel_t) : Prop := {
  tf_sbuf : Ring.ring_inv out_ok cap (t_sbuf tun);
  tf_hpsbuf : Ring.ring_inv out_ok cap (t_hpsbuf tun);
  tf_wire : tun_wire tun
}.

Record dev_flow (tt : tuntap_s) : Prop := {
  df_valid : Ring.valid (tt_sbuf tt);
  df_capacity : Ring.capacity (tt_sbuf tt) = cap;
  df_contents : Forall (fun p => In (payload p)) (Ring.contents (tt_sbuf tt));
  df_mtu : tt_maxmtu tt = 1444
}.

Record pool_flow (fb : freebuffer_t) : Prop := {
  pf_free : Forall (fun e => (e < length (Free.fb_store fb))%nat) (Free.free_head fb);
  pf_used : Forall (fun e => (e < length (Free.fb_store fb))%nat /\ in_ok (Free.entry_pkt fb e)) (Free.used_head fb)
}.

Definition effect_ok (e : effect) : Prop :=
  match e with
  | Sent _ d => sent_ok d
  | TunWrite b => In b
  | _ => True
  end.

Record flow (w : world) : Prop := {
  fl_key : w_key w = key;
  fl_ct : o_cleartext_data (w_options w) = ct;
  fl_ds : 0 <= w_data_seq w < 2 ^ 64;
  fl_tuns : map_Forall (fun _ => tun_flow) (w_tuns w);
  fl_dev : dev_flow (w_tuntap w);
  fl_pool : pool_flow (w_freebuf w);
  fl_trace : exists new, w_trace w = tr0 ++ new /\ Forall effect_ok new
}.

(** The other fields do not matter. *)
Lemma flow_ext w w' :
  flow w -> w_key w' = w_key w -> w_options w' = w_options w -> w_data_seq w' = w_data_seq w ->
  w_tuns w' = w_tuns w -> w_tuntap w' = w_tuntap w -> w_freebuf w' = w_freebuf w ->
  w_trace w' = w_trace w -> flow w'.
Proof. intros [] E1 E2 E3 E4 E5 E6 E7. split; congruence || by rewrite ?E2, ?E3, ?E4, ?E5, ?E6, ?E7. Qed.

Lemma flow_tun w t tun : flow w -> tun_flow tun -> flow (w <| w_tuns := <[t := tun]> (w_tuns w) |>).
Proof. intros [] Ht. split; try done. by apply map_Forall_insert_2. Qed.
Lemma flow_pool w fb : flow w -> pool_flow fb -> flow (w <| w_freebuf := fb |>).
Proof. intros [] Hp. by split. Qed.
Lemma flow_dev w tt : flow w -> dev_flow tt -> flow (w <| w_tuntap := tt |>).
Proof. intros [] Hp. by split. Qed.
Lemma flow_effect w e : flow w -> effect_ok e -> flow (w <| w_trace := w_trace w ++ [e] |>).
Proof.
  intros [K C D T V P (new & Hn & Hf)] He. split; try done. exists (new ++ [e]). simpl. rewrite Hn, app_assoc. split; [done|].
  apply Forall_app. by repeat constructor.
Qed.

Ltac ext := intros ? ?; (eapply flow_ext; [eassumption|reflexivity..]).

(** ** The operations *)

Lemma stays_tun_get t : stays flow (tun_get t).
Proof. intros w a w' Hw. unfold tun_get. by destruct (w_tuns w !! t); intros [= _ <-]. Qed.
Lemma stays_get_bind {A} t (k : mlvpn_tunnel_t -> W A) :
  (forall tun, tun_flow tun -> stays flow (k tun)) -> stays flow (tun_get t ≫= k).
Proof.
  intros Hk w a w' Hw. unfold mbind, M_bind, tun_get. destruct (w_tuns w !! t) as [tun|] eqn:Ht; [|done].
  apply Hk; [|done]. by eapply (fl_tuns _ Hw).
Qed.
Lemma stays_tun_put t tun : tun_flow tun -> stays flow (tun_put t tun).
Proof. intros Ht. apply stays_modify. intros w Hw. by apply flow_tun. Qed.
Lemma stays_tun_upd t f : (forall tun, tun_flow tun -> tun_flow (f tun)) -> stays flow (tun_upd t f).
Proof. intros Hf. apply stays_get_bind. intros tun Ht. by apply stays_tun_put, Hf. Qed.
Lemma stays_ask {A} (g : nat -> A) : stays flow (ask g).
Proof. intros w a w' Hw [= _ <-]. revert w Hw. ext. Qed.
Lemma stays_emit e : effect_ok e -> stays flow (emit e).
Proof. intros He. apply stays_modify. intros w Hw. by apply flow_effect. Qed.

#[local] Hint Resolve stays_tun_get stays_ask : flow.

(** Changes of a tunnel that do not touch its rings. *)
Ltac same_rings := intros ? [? ? []]; repeat case_match; (split; [done|done|by split]).

Ltac go :=
  repeat first
    [ solve [auto 2 with flow]
    | apply stays_modify; solve [ext]
    | apply stays_emit; exact Logic.I
    | apply stays_tun_upd; solve [same_rings]
    | apply stays_for_each; intros ?
    | apply stays_bind; [|intros ?]
    | match goal with |- stays _ (when ?b _) => unfold when; destruct b
                    | |- stays _ (if ?b then _ else _) => destruct b
                    | |- stays _ (match ?o with _ => _ end) => destruct o
                    | |- stays _ (let '_ := _ in _) => cbv zeta end ].

(** ** The device *)

Lemma stays_inject p : in_ok p -> stays flow (mlvpn_rtun_inject_tuntap p).
Proof.
  intros [[Hl _ Hd] Hin]. apply stays_modify. intros w Hw. apply flow_dev; [done|].
  destruct (fl_dev _ Hw) as [V C F X]. set (fill := fun slot : mlvpn_pkt_t => _).
  destruct (Ring.push_spec (tt_sbuf (w_tuntap w)) fill V) as (slot & Hc & Hv & Hcap); [rewrite C; apply cap_pos|].
  assert (dev_flow ((w_tuntap w) <| tt_sbuf := Ring.push fill (tt_sbuf (w_tuntap w)) |>)) as Hdev.
  { split; simpl; [done|congruence| |done]. rewrite Hc, Forall_app. split; [by apply Forall_drop|].
    repeat constructor. unfold fill, payload. simpl. rewrite take_memcpy by lia. exact Hin. }
  destruct Hdev. cbv zeta. destruct (negb _); by split.
Qed.

Lemma entry_flow fb e : pool_flow fb -> e ∈ Free.used_head fb -> in_ok (Free.entry_pkt fb e).
Proof. intros [_ Hu] He. rewrite Forall_forall in Hu. by destruct (Hu e He). Qed.

Lemma drain_used_flow fb e fb' :
  pool_flow fb -> Free.mlvpn_freebuffer_drain_used fb = (Some e, fb') -> pool_flow fb' /\ in_ok (Free.entry_pkt fb' e).
Proof.
  intros [Hf Hu]. unfold Free.mlvpn_freebuffer_drain_used. destruct (Free.used_head fb) as [|x rest] eqn:E; [done|].
  intros [= -> <-]. inversion Hu as [|? ? [Hx Hi] Hr]; subst. split; [|done]. split; simpl; [by constructor|done].
Qed.

Lemma stays_inject_used fuel : forall n, stays flow (inject_used fuel n).
Proof.
  induction fuel as [|fuel IH]; intros n; cbn [inject_used];
    (apply (stays_gets_bind _ pool_flow); [apply fl_pool|]); intros fb Hfb;
    destruct (Free.mlvpn_freebuffer_drain_used fb) as [[e|] fb'] eqn:Hd; go.
  - destruct (drain_used_flow _ _ _ Hfb Hd). apply stays_modify. intros w Hw. by apply flow_pool.
  - by apply stays_inject, (drain_used_flow _ _ _ Hfb Hd).
Qed.

Lemma reset_pool_flow fb : pool_flow fb -> pool_flow (Free.mlvpn_freebuffer_reset fb).
Proof.
  intros [Hf Hu]. split; simpl; [|done]. rewrite Free.move_all_perm, Forall_app. split; [done|].
  eapply Forall_impl; [exact Hu|]. by intros e [? _].
Qed.

Lemma free_flow fb e fb' : pool_flow fb -> Free.mlvpn_freebuffer_free fb e = Some fb' -> pool_flow fb'.
Proof.
  intros [Hf Hu] He. pose proof (Free.free_used _ _ _ He) as Hp. rewrite Hp in Hu.
  unfold Free.mlvpn_freebuffer_free in He. case_match; [|done]. injection He as <-.
  inversion Hu as [|? ? [Hx _] Hr]; subst. split; simpl; [by constructor|done].
Qed.

(** The packet is taken out of the pool once it is on the ring of the device;
    a packet that is not in use stops the process. *)
Lemma stays_inject_drained p : stays flow (inject_drained p).
Proof.
  unfold inject_drained. apply stays_bind; [go|]. intros e.
  apply (stays_gets_bind _ pool_flow); [apply fl_pool|]. intros fb Hfb.
  destruct (Free.mlvpn_freebuffer_free fb e) as [fb'|] eqn:Hfr.
  - apply stays_bind; [apply stays_inject, entry_flow; [done|]; apply Free.free_Some; by eexists|]. intros [].
    apply (stays_modify flow (fun w => w <| w_freebuf := fb' |>)). intros w Hw. apply flow_pool; [done|]. by eapply free_flow.
  - intros w a w' _. unfold mbind, M_bind. by destruct (mlvpn_rtun_inject_tuntap _ w).
Qed.

#[local] Hint Resolve stays_inject_used stays_inject_drained : flow.

Lemma stays_set_reorder b : stays flow (set_reorder b).
Proof. unfold set_reorder. go. Qed.
Lemma stays_drain_timer b : stays flow (set_drain_timer b).
Proof. unfold set_drain_timer. go. Qed.
#[local] Hint Resolve stays_set_reorder stays_drain_timer : flow.

Lemma stays_reset_pool {A} (k : unit -> W A) :
  (forall u, stays flow (k u)) ->
  stays flow (fb ← gets w_freebuf; set_freebuf (Free.mlvpn_freebuffer_reset fb) ≫= k).
Proof.
  intros Hk. apply (stays_gets_bind _ pool_flow); [apply fl_pool|]. intros fb Hfb. apply stays_bind; [|done].
  apply stays_modify. intros w Hw. by apply flow_pool, reset_pool_flow.
Qed.

Lemma stays_reset_reorder : stays flow reset_reorder.
Proof. unfold reset_reorder, reorder_buffer. go. Qed.
#[local] Hint Resolve stays_reset_reorder : flow.

Lemma stays_drain reorder : stays flow (mlvpn_rtun_reorder_drain reorder).
Proof.
  unfold mlvpn_rtun_reorder_drain. apply stays_bind; [|intros; go]. destruct reorder.
  - unfold reorder_buffer. apply stays_bind; [go|]. intros b. destruct (Reorder.mlvpn_reorder_drain b Reorder.drain_max). go.
  - apply stays_bind; [go|]. intros fb. apply stays_bind; [go|]. intros d. apply stays_reset_pool. intros []. go.
Qed.
#[local] Hint Resolve stays_drain : flow.

Lemma stays_drain_timeout : stays flow mlvpn_rtun_reorder_drain_timeout.
Proof. unfold mlvpn_rtun_reorder_drain_timeout. go. Qed.

Lemma stays_flush : stays flow flush_reorder.
Proof. unfold flush_reorder. go. Qed.

(** A received packet takes a free entry. *)
Lemma get_flow fb e fb' p :
  pool_flow fb -> in_ok p -> Free.mlvpn_freebuffer_get fb = (Some e, fb') -> pool_flow (Free.store_pkt e p fb').
Proof.
  intros [Hf Hu] Hp. unfold Free.mlvpn_freebuffer_get. destruct (Free.free_head fb) as [|x rest] eqn:E; [done|].
  intros [= -> <-]. inversion Hf as [|? ? Hx Hr]; subst.
  assert (forall y, (y < length (Free.fb_store fb))%nat -> y = e \/ in_ok (Free.entry_pkt fb y) ->
    in_ok (default zero_pkt (<[e := p]> (Free.fb_store fb) !! y))) as Hin.
  { intros y Hy Hor. destruct (decide (y = e)) as [->|Hne]; [by rewrite list_lookup_insert_eq|].
    rewrite list_lookup_insert_ne by done. by destruct Hor. }
  split; simpl; rewrite length_insert; [done|]. rewrite Forall_app. split.
  - eapply Forall_impl; [exact Hu|]. intros y [Hy Hi]. split; [done|]. by apply Hin; [|right].
  - apply Forall_singleton. split; [done|]. by apply Hin; [|left].
Qed.

Lemma stays_recv_data p : in_ok p -> stays flow (mlvpn_rtun_recv_data p).
Proof.
  intros Hp. pose proof (stays_inject p Hp) as Hi. unfold mlvpn_rtun_recv_data. apply stays_bind; [go|]. intros rb.
  destruct (_ || _); [go|]. unfold recv_reordered. apply (stays_gets_bind _ pool_flow); [apply fl_pool|]. intros fb Hfb.
  destruct (Free.mlvpn_freebuffer_get fb) as [[e|] fb'] eqn:Hg; [|go]. apply stays_bind.
  - apply stays_modify. intros w Hw. apply flow_pool; [done|]. by eapply get_flow.
  - intros []. unfold reorder_buffer, timer_again. go.
Qed.
#[local] Hint Resolve stays_flush : flow.

(** ** Status changes *)

Lemma stays_title_loop l : forall s, stays flow (title_loop l s).
Proof. induction l; intros s; simpl; unfold title_add; go. Qed.
#[local] Hint Resolve stays_title_loop : flow.
Lemma stays_title : stays flow update_process_title.
Proof. unfold update_process_title. go. Qed.
Lemma stays_wrr_reset fb : stays flow (mlvpn_rtun_wrr_reset fb).
Proof. unfold mlvpn_rtun_wrr_reset, wrr_add, fatalx. go. Qed.
Lemma stays_set_status f : stays flow (set_status f).
Proof. unfold set_status. go. Qed.
#[local] Hint Resolve stays_title stays_wrr_reset stays_set_status : flow.
Lemma stays_update_status : stays flow mlvpn_update_status.
Proof. unfold mlvpn_update_status. go. Qed.
Lemma stays_env : stays flow mlvpn_script_get_env.
Proof. unfold mlvpn_script_get_env. go. Qed.
Lemma stays_script args env : stays flow (priv_run_script args env).
Proof. unfold priv_run_script. go. Qed.
#[local] Hint Resolve stays_update_status stays_env stays_script : flow.

Lemma stays_status_up t : stays flow (mlvpn_rtun_status_up t).
Proof. unfold mlvpn_rtun_status_up, ev_now, wrr_refresh, upped. go. Qed.

Lemma downed_flow tun : tun_flow tun -> tun_flow (downed tun).
Proof.
  intros [H1 H2 [W1 W2]]. apply Ring.reset_ring_inv in H1 as [H1 _]. apply Ring.reset_ring_inv in H2 as [H2 _].
  unfold downed. cbv zeta. destruct (t_io_write _); by split.
Qed.

Lemma stays_status_down t : stays flow (mlvpn_rtun_status_down t).
Proof.
  unfold mlvpn_rtun_status_down, wrr_refresh. apply stays_bind; [go|]. intros dev. apply stays_bind; [go|]. intros tun.
  apply stays_bind; [apply stays_tun_upd; apply downed_flow|]. intros []. go.
Qed.
#[local] Hint Resolve stays_status_up stays_status_down : flow.

(** ** Packets for a tunnel *)

Definition fills_out (f : mlvpn_pkt_t -> mlvpn_pkt_t) : Prop :=
  forall slot, out_ok slot -> out_ok (f (slot <| pkt_len := 0 |> <| pkt_type := MLVPN_PKT_DATA |>)).

(** A control packet carries no data. *)
Lemma fills_control f :
  fills_tx f -> (forall p, pkt_type (f p) <> MLVPN_PKT_DATA) -> fills_out f.
Proof. intros Hf Hn slot [Ht _]. split; [by apply Hf|]. intros E. by destruct (Hn _ E). Qed.

Lemma stays_push_hp t f : fills_out f -> stays flow (push_hp t f).
Proof.
  intros Hf. apply stays_tun_upd. intros tun [H1 H2 [W1 W2]].
  destruct (Ring.push_inv _ _ cap_pos f _ H2 Hf) as [H2' _]. by split.
Qed.

Lemma stays_push_two t a b type :
  0 <= type < 64 -> type <> MLVPN_PKT_DATA -> stays flow (push_hp t (fill_two a b type)).
Proof. intros Ht Hd. by apply stays_push_hp, fills_control; [apply fill_two_tx|]. Qed.
Lemma stays_push_type t type :
  0 <= type < 64 -> type <> MLVPN_PKT_DATA -> stays flow (push_hp t (fun pkt => pkt <| pkt_type := type |>)).
Proof. intros Ht Hd. by apply stays_push_hp, fills_control; [apply fill_type_tx|]. Qed.

Lemma stays_keepalive now t : stays flow (mlvpn_rtun_send_keepalive now t).
Proof.
  unfold mlvpn_rtun_send_keepalive, hp_full, tun_is. apply stays_bind; [go|]. intros full.
  apply stays_bind; [|intros; go]. destruct full; [go|]. by apply stays_push_type.
Qed.

Lemma stays_challenge t : stays flow (mlvpn_rtun_challenge_send t).
Proof. unfold mlvpn_rtun_challenge_send. apply stays_bind; [by apply stays_push_two|intros; go]. Qed.

Lemma stays_tick t : stays flow (mlvpn_rtun_tick t).
Proof. unfold mlvpn_rtun_tick, ev_now. go. Qed.
#[local] Hint Resolve stays_keepalive stays_challenge stays_tick : flow.

Lemma stays_send_auth t : stays flow (mlvpn_rtun_send_auth t).
Proof.
  unfold mlvpn_rtun_send_auth, hp_full, tun_is, start_io_write. apply stays_bind; [go|]. intros tun.
  destruct (t_server_mode tun); [|go]. destruct (_ || _); [|go]. cbn [when]. apply stays_bind; [go|]. intros full.
  apply stays_bind.
  - destruct full; [|go]. apply stays_tun_upd. intros x [H1 H2 [W1 W2]].
    apply Ring.reset_ring_inv in H2 as [H2 _]. by split.
  - intros []. apply stays_bind; [by apply stays_push_two|]. intros []. go.
Qed.

(** ** Emission *)

(** What the packet read from a ring becomes, and the tunnel. *)
Lemma send_flow hp tun slot ring now64 ds :
  tun_flow tun -> Ring.mlvpn_pktbuffer_read (ring_of hp tun) = (slot, ring) ->
  let e := rtun_encap ct key now64 ds tun (Ring.pkt_load slot ring) in
  out_ok (Ring.pkt_load slot ring) /\
  tun_flow (set_ring hp (Ring.pkt_store slot (fun _ => encap_pkt e) ring) (encap_tun e)).
Proof.
  intros [H1 H2 [W1 W2]] Hr e.
  assert (Ring.ring_inv out_ok cap (ring_of hp tun)) as Hri by (by destruct hp).
  destruct (Ring.read_inv _ _ cap_pos _ _ _ Hri Hr) as [Hri' Hpk]. split; [done|].
  destruct (encap_frame ct key now64 ds tun (Ring.pkt_load slot ring)) as (Hep & _ & st & sr & Het).
  fold e in Hep, Het.
  assert (Ring.ring_inv out_ok cap (Ring.pkt_store slot (fun _ => encap_pkt e) ring)) as Hrs.
  { apply Ring.store_inv; [done|]. intros _ _. rewrite Hep. destruct Hpk as [[[? ? ?] ? ?] Hd]. by split; [split; [split|..]|]. }
  rewrite Het. unfold set_ring. destruct hp; (split; [done..|]); (split; simpl; [|done]); apply Z.mod_pos_bound; lia.
Qed.

Lemma stays_data_seq ds : 0 <= ds < 2 ^ 64 -> stays flow (modify (fun w => w <| w_data_seq := ds |>)).
Proof. intros Hds. apply stays_modify. intros w []. by split. Qed.

Lemma stays_send_tail t hp tun o :
  (forall d, o = Some d -> sent_ok d) -> stays flow (send_tail t hp tun o).
Proof.
  intros Ho. destruct o as [d|]; [|apply stays_ret]. unfold send_tail. apply stays_bind; [go|]. intros _.
  apply stays_bind; [by apply stays_emit, Ho|]. intros []. go.
Qed.

Lemma stays_send t hp : stays flow (mlvpn_rtun_send t hp).
Proof.
  unfold mlvpn_rtun_send, ev_now. apply stays_bind; [go|]. intros now. apply stays_get_bind. intros tun Ht.
  destruct (Ring.mlvpn_pktbuffer_read (ring_of hp tun)) as [slot ring] eqn:Hr. cbv zeta. destruct (_ <? _); [go|].
  apply (stays_gets_bind _ (fun c => c = ct)); [apply fl_ct|]. intros ? ->.
  apply (stays_gets_bind _ (fun k => k = key)); [apply fl_key|]. intros ? ->.
  apply (stays_gets_bind _ (fun ds => 0 <= ds < 2 ^ 64)); [apply fl_ds|]. intros ds Hds.
  destruct (send_flow hp tun slot ring (mlvpn_timestamp64 now) ds Ht Hr) as [Hpk Htun]. cbv zeta in Htun.
  destruct (encap_frame ct key (mlvpn_timestamp64 now) ds tun (Ring.pkt_load slot ring)) as (_ & Hds' & _).
  set (e := rtun_encap _ _ _ _ _ _) in *.
  apply stays_bind; [by apply stays_data_seq, Hds'|]. intros []. apply stays_bind; [by apply stays_tun_put|]. intros [].
  fold (send_tail t hp tun (encap_dgram e)). apply stays_send_tail. intros d Hd.
  exists (mlvpn_timestamp64 now), ds, tun, (Ring.pkt_load slot ring). by destruct Ht.
Qed.
#[local] Hint Resolve stays_send_auth stays_send : flow.

Lemma stays_write t : stays flow (mlvpn_rtun_write t).
Proof. unfold mlvpn_rtun_write, tun_is. go. Qed.

Lemma stays_disconnect t : stays flow (mlvpn_rtun_send_disconnect t).
Proof.
  unfold mlvpn_rtun_send_disconnect, hp_full, tun_is. apply stays_bind; [go|]. intros full.
  apply stays_bind; [|intros; go]. destruct full; [go|]. by apply stays_push_type.
Qed.
#[local] Hint Resolve stays_disconnect : flow.

(** ** Reception *)

Lemma stays_learn_addr t client : stays flow (learn_addr t client).
Proof. unfold learn_addr. go. Qed.

Lemma stays_dispatch t p :
  pkt_ok p -> (pkt_type p = MLVPN_PKT_DATA -> In (payload p)) -> stays flow (rtun_dispatch t p).
Proof.
  intros Hp Hin. unfold rtun_dispatch, ev_now. apply stays_bind; [go|]. intros tun.
  destruct (Z.eqb_spec (pkt_type p) MLVPN_PKT_DATA) as [E|_]; [|go].
  pose proof (stays_recv_data p ltac:(split; auto)). go.
Qed.

Lemma stays_read t r data client :
  (forall n, r = IoOk n -> n <> 0 -> arrives_ok n data) -> stays flow (mlvpn_rtun_read t r data client).
Proof.
  intros Har. destruct r as [n| |]; cbn [mlvpn_rtun_read]; [|go..].
  destruct (Z.eqb_spec n 0) as [|Hn]; [go|]. specialize (Har n eq_refl Hn). cbn [negb when].
  apply stays_bind; [unfold ev_now; go|]. intros now.
  apply (stays_gets_bind _ (fun c => c = ct)); [apply fl_ct|]. intros ? ->.
  apply (stays_gets_bind _ (fun k => k = key)); [apply fl_key|]. intros ? ->. apply stays_get_bind. intros tun Ht.
  destruct (mlvpn_protocol_read ct key (mlvpn_timestamp64 now) tun _) as [[tun' p]|] eqn:Hr; [|go].
  pose proof (read_pkt_ok _ _ _ _ _ _ _ _ Hr) as [Hp _]. pose proof (Har _ _ _ _ Hr) as Hin.
  apply read_frame in Hr as (l & v & st & sr & s & rv & h & ->). apply stays_bind.
  - apply stays_tun_put. destruct Ht as [? ? []]. by split; [..|split].
  - intros []. apply stays_bind; [apply stays_learn_addr|]. intros known. destruct known; [|go]. by apply stays_dispatch.
Qed.

(** ** From the device *)

Lemma stays_filters data : stays flow (mlvpn_filters_choose data).
Proof.
  unfold mlvpn_filters_choose. apply stays_bind; [go|]. intros fs. induction fs as [|[f t] fs IH]; cbn [filters_loop]; go.
Qed.

Lemma stays_choose : stays flow mlvpn_rtun_choose.
Proof. unfold mlvpn_rtun_choose, mlvpn_rtun_wrr_choose. go. Qed.
#[local] Hint Resolve stays_filters stays_choose : flow.

Lemma fills_data n data :
  0 < n <= 1444 -> n <= Z.of_nat (length data) -> Out (take (Z.to_nat n) data) -> fills_out (fill_data n data).
Proof.
  intros Hn Hd Ho slot [Ht _].
  assert (Z.to_nat n = length (take (Z.to_nat n) data)) as Hl by (rewrite length_take; lia).
  split; [by apply fill_data_tx|]. intros _. unfold fill_data, payload. simpl.
  assert (u16 n = n) as -> by (apply Z.mod_small; lia). rewrite take_memcpy by lia. exact Ho.
Qed.

Lemma stays_generic_read data n :
  0 < n <= 1444 -> n <= Z.of_nat (length data) -> Out (take (Z.to_nat n) data) ->
  stays flow (mlvpn_tuntap_generic_read data n).
Proof.
  intros Hn Hd Ho. pose proof (fills_data n data Hn Hd Ho) as Hf. unfold mlvpn_tuntap_generic_read.
  apply stays_bind; [go|]. intros o. apply stays_bind; [go|]. intros [[t hp]|]; [|go]. apply stays_bind; [|intros; go].
  apply stays_tun_upd. intros tun [H1 H2 [W1 W2]].
  destruct (Ring.push_inv _ _ cap_pos _ _ H1 Hf) as [H1' _]. destruct (Ring.push_inv _ _ cap_pos _ _ H2 Hf) as [H2' _].
  destruct hp; cbv zeta; destruct (_ && _); by split; [..|split].
Qed.

(** What a read of the device brings in. *)
Definition device_input (r : io_result) (data : list Z) : list (list Z) :=
  match r with IoOk n => [take (Z.to_nat (Z.min n 1444)) data] | _ => [] end.

Lemma stays_tun_read r data :
  tun_readable r data = true -> Forall Out (device_input r data) -> stays flow (tuntap_io_read r data).
Proof.
  intros Hr Ho. unfold tuntap_io_read, mlvpn_tuntap_read. apply stays_bind; [|intros; go].
  destruct r as [n| |]; [|go|done]. unfold tun_readable in Hr.
  apply andb_true_iff in Hr as [Hr Hd%bool_decide_eq_true_1]. apply andb_true_iff in Hr as [Hn%Z.ltb_lt Hm%Z.leb_le].
  destruct (n =? 0); [apply stays_fail|]. apply (stays_gets_bind _ (fun m => m = 1444)); [intros w Hw; exact (df_mtu _ (fl_dev _ Hw))|]. intros ? ->.
  cbn [device_input] in Ho. rewrite Forall_singleton in Ho. cbv zeta.
  assert ((if 1444 <? n then 1444 else n) = Z.min n 1444) as -> by (destruct (Z.ltb_spec 1444 n); lia).
  apply stays_generic_read; [lia|lia|exact Ho].
Qed.

(** ** To the device *)

Lemma stays_tun_write : stays flow tuntap_io_write.
Proof.
  unfold tuntap_io_write. apply stays_bind.
  - unfold mlvpn_tuntap_write. intros w r w' Hw. unfold mbind, M_bind, gets. pose proof (fl_dev _ Hw) as [V C F X].
    destruct (Ring.is_empty (tt_sbuf (w_tuntap w))) eqn:He; [done|].
    destruct (Ring.contents (tt_sbuf (w_tuntap w))) as [|p l] eqn:Hc.
    { apply Ring.is_empty_spec in Hc; [congruence|done]. }
    destruct (Ring.pop_spec _ p l V Hc) as (Hp & Hl & Hv & Hcap).
    destruct (Ring.pop (tt_sbuf (w_tuntap w))) as [p' b]. simpl in Hp, Hl, Hv, Hcap. subst p'.
    inversion F as [|? ? Hin Hf]; subst. intros [= _ <-].
    set (w1 := w <| w_tuntap := (w_tuntap w) <| tt_sbuf := b |> |>).
    assert (flow w1) as Hw1 by (apply flow_dev; [done|]; by split; simpl; [|congruence|..]).
    eapply flow_ext; [exact (flow_effect w1 (TunWrite (payload p)) Hw1 Hin)|reflexivity..].
  - intros n. apply stays_bind; [go|]. intros b. destruct (Ring.is_empty b); [|go]. cbn [when].
    apply stays_modify. intros w Hw. apply flow_dev; [done|]. by destruct (fl_dev _ Hw).
Qed.

(** ** Creation, connection, periodic checks *)

Lemma new_ring_flow : Ring.ring_inv out_ok cap (Ring.mlvpn_pktbuffer_init PKTBUFSIZE).
Proof.
  destruct new_ring_ok as [Hv Hc _]. split; [done|done|]. apply Forall_replicate. split; [|done].
  split; [|done|done]. by split.
Qed.

#[local] Opaque Ring.mlvpn_pktbuffer_init.

Lemma stays_nonce {A} (k : Z -> W A) :
  (forall id, 0 <= id < 2 ^ 32 -> stays flow (k id)) -> stays flow (crypto_nonce_random ≫= k).
Proof.
  intros Hk w a w' Hw. unfold crypto_nonce_random. apply Hk; [apply Z.mod_pos_bound; lia|].
  eapply flow_ext; [exact Hw|reflexivity..].
Qed.

Lemma stays_new a : stays flow (rtun_new a).
Proof.
  unfold rtun_new, mlvpn_rtun_new. destruct (if na_server_mode a then _ else _); [go|].
  apply stays_nonce. intros id Hid. apply stays_bind; [go|]. intros t. apply stays_bind.
  - apply stays_tun_put. pose proof new_ring_flow. by split; [..|split].
  - intros []. go.
Qed.

Lemma stays_open_socket res : forall fd, stays flow (open_socket res fd).
Proof. induction res; intros fd; simpl; go. Qed.
Lemma stays_bind_socket t : stays flow (mlvpn_rtun_bind t).
Proof. unfold mlvpn_rtun_bind. go. Qed.
Lemma stays_start_error t : stays flow (start_error t).
Proof. unfold start_error. go. Qed.
#[local] Hint Resolve stays_open_socket stays_bind_socket stays_start_error : flow.
Lemma stays_start t : stays flow (mlvpn_rtun_start t).
Proof. unfold mlvpn_rtun_start. go. Qed.
#[local] Hint Resolve stays_start : flow.
Lemma stays_tick_connect t : stays flow (mlvpn_rtun_tick_connect t).
Proof. unfold mlvpn_rtun_tick_connect, ev_now, start_if_closed. go. Qed.
#[local] Hint Resolve stays_tick_connect : flow.

Lemma stays_any_normal l : stays flow (any_normal l).
Proof. induction l; simpl; go. Qed.
#[local] Hint Resolve stays_any_normal : flow.
Lemma stays_check_timeout t : stays flow (mlvpn_rtun_check_timeout t).
Proof.
  unfold mlvpn_rtun_check_timeout, mlvpn_rtun_check_lossy, mlvpn_rtun_check_slow, switch_to_fallback_if_necessary, ev_now. go.
Qed.

Lemma stays_max_srtt l : forall m, stays flow (max_srtt_loop l m).
Proof. induction l; intros m; simpl; go. Qed.
Lemma stays_bandwidth l : forall a b, stays flow (bandwidth_loop l a b).
Proof. induction l; intros a' b; simpl; go. Qed.
Lemma stays_remove_named n l : stays flow (remove_named n l).
Proof. induction l; simpl; go. Qed.
#[local] Hint Resolve stays_max_srtt stays_bandwidth stays_remove_named : flow.

Lemma stays_adjust : stays flow mlvpn_rtun_adjust_reorder_timeout.
Proof. unfold mlvpn_rtun_adjust_reorder_timeout. go. Qed.
Lemma stays_recalc : stays flow mlvpn_rtun_recalc_weight.
Proof.
  unfold mlvpn_rtun_recalc_weight. apply stays_bind; [go|]. intros l. apply stays_bind; [go|]. intros [warned total].
  destruct (warned =? 0); [|go]. apply stays_for_each. intros t. apply stays_get_bind. intros tun [? ? []].
  destruct (_ && _); [|go]. apply stays_tun_put. by split; [..|split].
Qed.
Lemma stays_drop t : stays flow (mlvpn_rtun_drop t).
Proof. unfold mlvpn_rtun_drop. go. Qed.
Lemma stays_filters_add f t : stays flow (mlvpn_filters_add f t).
Proof. unfold mlvpn_filters_add. go. Qed.
Lemma stays_quit : stays flow mlvpn_quit.
Proof. unfold mlvpn_quit. go. Qed.
End flow.
