(* ===== verification/ConfigLib.v ===== *)
(** * The configuration file reader ([src/src/configlib.c])

    A file is read one character at a time; every line is stripped of its
    comment, then it is a section, a variable with its value, or nothing.  The
    result is the list of the values in the order of the file, each with its
    section.

    A C string or line buffer is a [list ascii]; [c_string] is the string it
    is read as, up to its first NUL.  [None] for a pointer is [NULL]. *)

From Stdlib Require Import Ascii String.
From S2P Require Import Prelude CString.
Import ListNotations.
Open Scope list_scope.
Open Scope Z_scope.

Definition DQUOTE : ascii := "034"%char.
Definition LF : ascii := "010"%char.
Definition CR : ascii := "013"%char.
Definition SPACE : ascii := " "%char.

(** ** Data *)

Record confObj_t := ConfObj { var : string; val : string }.

(** A node of the chained list; [NULL] is the empty list. *)
Record config_node := Node { conf : option confObj_t; section : option string }.
Definition config_t : Type := list config_node.

(** The characters before the first NUL. *)
Fixpoint before_nul (l : list ascii) : list ascii :=
  match l with
  | [] => []
  | c :: l => if bool_decide (c = NUL) then [] else c :: before_nul l
  end.
Definition c_string (l : list ascii) : string := string_of_list_ascii (before_nul l).

(** ** Lines *)

(** [_conf_strip_comment]: [quote] is the flag of the same name. *)
Fixpoint strip_loop (line : list ascii) (quote : bool) : list ascii :=
  match line with
  | [] => []
  | c :: line =>
      if bool_decide (c = DQUOTE) then c :: strip_loop line (negb quote)
      else if bool_decide (c = "#"%char) then (if quote then c :: strip_loop line quote else [])
      else c :: strip_loop line quote
  end.
Definition _conf_strip_comment (line : list ascii) : option (list ascii) :=
  match strip_loop line false with
  | [] => None
  | new => Some new
  end.

(** [_conf_get_section]: [line] is the [linelen] bytes given; [None] when the
    line is not a section or in error. *)
Fixpoint section_loop (line : list ascii) (section : option (list ascii)) : option (list ascii) :=
  match line with
  | [] => None
  | c :: line =>
      if bool_decide (c = "["%char) then
        match section with Some _ => None | None => section_loop line (Some []) end
      else if bool_decide (c = "]"%char) then section
      else section_loop line ((fun s => s ++ [c]) <$> section)
  end.
Definition _conf_get_section (line : list ascii) : option (list ascii) := section_loop line None.

(** [for (k = len-1; (k > 0) && (buf[k] == ' '); k--); buf[k+1] = 0]: the
    final [k] and the string that is left. *)
Fixpoint strip_index (buf : list ascii) (k : nat) : nat :=
  match k with
  | O => O
  | S k' => if bool_decide (buf !! k = Some SPACE) then strip_index buf k' else k
  end.
Definition strip_end (buf : list ascii) : list ascii := take (S (strip_index buf (length buf - 1))) buf.

(** [for (k = 0; (k < len) && (buf[k] == ' '); k++) buf++] *)
Fixpoint skip_lead (n k : nat) (buf : list ascii) : list ascii :=
  match n with
  | O => buf
  | S n => if bool_decide (buf !! k = Some SPACE) then skip_lead n (S k) (drop 1 buf) else buf
  end.

(** The state of the loop of [_conf_parseLine]: the first [j] bytes of [buf],
    the flags and [confObj->var]. *)
Record line_state := LS {
  ls_quote : bool;
  ls_space : bool;
  ls_buf : list ascii;
  ls_var : option (list ascii)
}.
#[export] Instance ls_fields : Fields line_state := fun s =>
  LS (ls_quote s) (ls_space s) (ls_buf s) (ls_var s).

Definition isascii (c : ascii) : bool := (nat_of_ascii c <? 128)%nat.

(** [None]: the function returns [NULL]. *)
Definition line_step (s : line_state) (c : ascii) : option line_state :=
  if bool_decide (c = DQUOTE) then Some (s <| ls_quote := negb (ls_quote s) |>)
  else if bool_decide (c = "="%char) then
    if ls_quote s then Some (s <| ls_buf := ls_buf s ++ [c] |>)
    else if bool_decide (ls_buf s = []) then None
    else match ls_var s with
         | Some _ => None
         | None => Some (s <| ls_var := Some (strip_end (ls_buf s)) |> <| ls_buf := [] |>)
         end
  else
    let s := if bool_decide (c = SPACE) && negb (ls_space s) then s <| ls_space := true |>
             else if negb (bool_decide (c = SPACE)) then s <| ls_space := false |>
             else s in
    if ls_space s && negb (ls_quote s) then Some s
    else if ls_space s && bool_decide (ls_buf s = []) then Some s
    else if negb (isascii c) then None
    else Some (s <| ls_buf := ls_buf s ++ [c] |>).

Fixpoint line_loop (line : list ascii) (s : line_state) : option line_state :=
  match line with
  | [] => Some s
  | c :: line => s ← line_step s c; line_loop line s
  end.

Definition line_start : line_state := LS false false [] None.

Definition _conf_parseLine (line : list ascii) : option confObj_t :=
  match line with
  | [] => None
  | _ :: _ =>
      s ← line_loop line line_start;
      match ls_buf s, ls_var s with
      | [], _ => None
      | _, None => None
      | buf, Some v =>
          let stripped := strip_end buf in
          let len := strip_index buf (length buf - 1) in
          match skip_lead len 0 stripped with
          | [] => None
          | value => Some (ConfObj (c_string v) (c_string value))
          end
      end
  end.

(** ** Values *)

(** [None] when there is no list or no section. *)
Definition _conf_setValue (start : config_t) (confObj : confObj_t) (sec : option string) : option config_t :=
  match start, sec with
  | [], _ => None
  | _, None => None
  | first :: rest, Some s =>
      match conf first with
      | None => Some [Node (Some confObj) (Some s)]
      | Some _ => Some (start ++ [Node (Some confObj) (Some s)])
      end
  end.

Definition conf_setValue (start : config_t) (v value : option string) (sec : option string) : option config_t :=
  match v, value with
  | Some v, Some value =>
      let start := match start with [] => [Node None None] | _ => start end in
      _conf_setValue start (ConfObj v value) sec
  | _, _ => Some start
  end.

(** The value and the rest of the list. *)
Fixpoint _conf_getValue (start : config_t) (sec v : string) : option string * config_t :=
  match start with
  | [] => (None, [])
  | n :: next =>
      match conf n with
      | Some o =>
          if mystr_eq (section n) (Some sec) && mystr_eq (Some (var o)) (Some v)
          then (Some (val o), next)
          else _conf_getValue next sec v
      | None => _conf_getValue next sec v
      end
  end.

(** The three readers of [config.c]: [None] is [fatalx] (the value is missing
    and [exit_n] is positive). *)
Definition _conf_set_str_from_conf (config : config_t) (sec type : string) (def : option string)
    (exit_n : Z) : option (option string) :=
  match (_conf_getValue config sec type).1 with
  | Some v => Some (Some v)
  | None => if 0 <? exit_n then None else Some def
  end.

Definition _conf_set_uint_from_conf (config : config_t) (sec type : string) (def exit_n : Z) : option Z :=
  match (_conf_getValue config sec type).1 with
  | Some v => Some (u32 (atoi v))
  | None => if 0 <? exit_n then None else Some def
  end.

Definition _conf_set_bool_from_conf (config : config_t) (sec type : string) (def exit_n : Z) : option Z :=
  match (_conf_getValue config sec type).1 with
  | Some v => Some (if atoi v =? 1 then 1 else 0)
  | None => if 0 <? exit_n then None else Some def
  end.

(** ** The file *)

Record parse_state := PS {
  ps_buf : list ascii;
  ps_bufsize : Z;
  ps_linenum : Z;
  ps_section : option string;
  ps_config : config_t
}.
#[export] Instance ps_fields : Fields parse_state := fun s =>
  PS (ps_buf s) (ps_bufsize s) (ps_linenum s) (ps_section s) (ps_config s).

(** [case '\n']: [_conf_get_section] is given the length of the line before
    the comment was removed, so it reads the zeroes that follow too. *)
Definition end_line (s : parse_state) : parse_state :=
  let s' := s <| ps_linenum := ps_linenum s + 1 |> <| ps_buf := [] |> in
  match _conf_strip_comment (ps_buf s) with
  | None => s'
  | Some newline =>
      match _conf_get_section (newline ++ replicate (length (ps_buf s) - length newline) NUL) with
      | Some sec => s' <| ps_section := Some (c_string sec) |>
      | None =>
          match _conf_parseLine (before_nul newline) with
          | None => s'
          | Some o =>
              match ps_section s with
              | None => s'
              | Some sec =>
                  match _conf_setValue (ps_config s) o (Some sec) with
                  | Some c => s' <| ps_config := c |>
                  | None => s'
                  end
              end
          end
      end
  end.

(** [buf[i]] is checked against [bufsize]. *)
Definition parse_char (s : parse_state) (c : ascii) : option parse_state :=
  let i := Z.of_nat (length (ps_buf s)) in
  let s := if ps_bufsize s <? i + 64 then s <| ps_bufsize := ps_bufsize s + 64 |> else s in
  if bool_decide (c = CR) then Some s
  else if ps_bufsize s <=? i then None
  else if bool_decide (c = LF) then Some (end_line s)
  else Some (s <| ps_buf := ps_buf s ++ [c] |>).

Fixpoint parse_chars (content : list ascii) (s : parse_state) : option parse_state :=
  match content with
  | [] => Some s
  | c :: content => s ← parse_char s c; parse_chars content s
  end.

Definition parse_start : parse_state := PS [] 256 0 None [Node None None].

(** [content] is what is read before the end of the file or, with
    [read_error], before an error; [None] inside is the [NULL] result, and the
    outer [None] a write outside [buf]. *)
Definition _conf_parseConfig (content : list ascii) (read_error : bool) : option (option config_t) :=
  s ← parse_chars content parse_start;
  Some (if read_error then None else Some (ps_config s)).

(** ** Reading lines *)

Definition none_of (cs : list ascii) (c : ascii) : bool := negb (bool_decide (c ∈ cs)).

Lemma none_of_ne cs c x : none_of cs c = true -> x ∈ cs -> bool_decide (c = x) = false.
Proof.
  unfold none_of. rewrite negb_true_iff, bool_decide_eq_false. intros Hn Hx.
  apply bool_decide_eq_false. by intros ->.
Qed.

Lemma before_nul_id l : forallb (none_of [NUL]) l = true -> before_nul l = l.
Proof.
  induction l as [|c l IH]; [done|]. simpl. intros [Hc Hl]%andb_true_iff.
  rewrite (none_of_ne _ _ NUL Hc) by set_solver. by rewrite IH.
Qed.

Lemma forallb_weaken {A} (p q : A -> bool) l :
  (forall x, p x = true -> q x = true) -> forallb p l = true -> forallb q l = true.
Proof. intros Hpq. rewrite !forallb_forall. auto. Qed.

Lemma strip_plain l r q :
  forallb (none_of [DQUOTE; "#"%char]) l = true -> strip_loop (l ++ r) q = l ++ strip_loop r q.
Proof.
  induction l as [|c l IH]; [done|]. simpl. intros [Hc Hl]%andb_true_iff.
  rewrite (none_of_ne _ _ DQUOTE Hc), (none_of_ne _ _ "#"%char Hc) by set_solver. by rewrite IH.
Qed.

Lemma strip_quoted l r :
  forallb (none_of [DQUOTE]) l = true -> strip_loop (l ++ r) true = l ++ strip_loop r true.
Proof.
  induction l as [|c l IH]; [done|]. simpl. intros [Hc Hl]%andb_true_iff.
  rewrite (none_of_ne _ _ DQUOTE Hc) by set_solver. rewrite IH by done. by destruct (bool_decide _).
Qed.

Lemma section_none l : forallb (none_of ["["%char; "]"%char]) l = true -> section_loop l None = None.
Proof.
  induction l as [|c l IH]; [done|]. simpl. intros [Hc Hl]%andb_true_iff.
  rewrite (none_of_ne _ _ "["%char Hc), (none_of_ne _ _ "]"%char Hc) by set_solver. by apply IH.
Qed.

Lemma section_some s r : forall a,
  forallb (none_of ["["%char; "]"%char]) s = true -> section_loop (s ++ "]"%char :: r) (Some a) = Some (a ++ s).
Proof.
  induction s as [|c s IH]; intros a; simpl; [by rewrite app_nil_r|]. intros [Hc Hs]%andb_true_iff.
  rewrite (none_of_ne _ _ "["%char Hc), (none_of_ne _ _ "]"%char Hc) by set_solver.
  rewrite IH by done. by rewrite <- app_assoc.
Qed.

Lemma line_loop_app l1 l2 s : line_loop (l1 ++ l2) s = line_loop l1 s ≫= line_loop l2.
Proof.
  revert s. induction l1 as [|c l1 IH]; intros s; [done|]. simpl. destruct (line_step s c); [apply IH|done].
Qed.

(** Characters of a name: outside quotes they are all kept. *)
Definition name_char (c : ascii) : bool :=
  none_of [DQUOTE; "="%char; "#"%char; SPACE; "["%char; "]"%char; LF; CR; NUL] c && isascii c.
(** Characters of a quoted value. *)
Definition value_char (c : ascii) : bool :=
  none_of [DQUOTE; "["%char; "]"%char; LF; CR; NUL] c && isascii c.

Lemma line_name l : forall sp buf v,
  forallb name_char l = true ->
  line_loop l (LS false sp buf v) = Some (LS false (match l with [] => sp | _ => false end) (buf ++ l) v).
Proof.
  induction l as [|c l IH]; intros sp buf v; [by rewrite app_nil_r|]. cbn [forallb line_loop].
  intros [Hc Hl]%andb_true_iff. unfold name_char in Hc. apply andb_true_iff in Hc as [Hc Ha].
  unfold line_step. rewrite (none_of_ne _ _ DQUOTE Hc), (none_of_ne _ _ "="%char Hc) by set_solver.
  rewrite (none_of_ne _ _ SPACE Hc) by set_solver. simpl. rewrite Ha. simpl. rewrite IH by done.
  rewrite <- app_assoc. by destruct l.
Qed.

(** In quotes, once something is in the buffer, everything is kept. *)
Lemma line_value l : forall sp buf v,
  forallb value_char l = true -> buf <> [] ->
  exists sp', line_loop l (LS true sp buf v) = Some (LS true sp' (buf ++ l) v).
Proof.
  induction l as [|c l IH]; intros sp buf v; [exists sp; by rewrite app_nil_r|]. cbn [forallb line_loop].
  intros [Hc Hl]%andb_true_iff Hb. unfold value_char in Hc. apply andb_true_iff in Hc as [Hc Ha].
  assert (exists sp', line_step (LS true sp buf v) c = Some (LS true sp' (buf ++ [c]) v)) as [sp' ->].
  { unfold line_step. rewrite (none_of_ne _ _ DQUOTE Hc) by set_solver.
    destruct (bool_decide (c = "="%char)); [by eexists|]. cbn [ls_quote ls_space ls_buf].
    destruct (bool_decide (c = SPACE)), sp; simpl; rewrite ?(proj2 (bool_decide_eq_false _) Hb), ?Ha; simpl; by eexists. }
  cbn [mbind option_bind]. destruct (IH sp' (buf ++ [c]) v Hl) as [sp'' E]; [by destruct buf|].
  exists sp''. rewrite E. by rewrite <- app_assoc.
Qed.

Lemma line_first c sp v :
  value_char c = true -> c <> SPACE -> exists sp', line_step (LS true sp [] v) c = Some (LS true sp' [c] v).
Proof.
  intros Hc Hs. unfold value_char in Hc. apply andb_true_iff in Hc as [Hc Ha].
  unfold line_step. rewrite (none_of_ne _ _ DQUOTE Hc) by set_solver.
  destruct (bool_decide (c = "="%char)); [by eexists|].
  rewrite (proj2 (bool_decide_eq_false _) Hs). simpl. rewrite Ha. by eexists.
Qed.

Lemma strip_end_id buf : buf <> [] -> last buf <> Some SPACE -> strip_end buf = buf.
Proof.
  intros Hb Hl. unfold strip_end. assert (strip_index buf (length buf - 1) = length buf - 1)%nat as ->.
  { rewrite last_lookup in Hl. replace (Nat.pred (length buf)) with (length buf - 1)%nat in Hl by lia.
    destruct (length buf - 1)%nat; [done|]. simpl. by rewrite (proj2 (bool_decide_eq_false _) Hl). }
  apply take_ge. destruct buf; [done|simpl; lia].
Qed.

Lemma skip_lead_id n buf : head buf <> Some SPACE -> skip_lead n 0 buf = buf.
Proof.
  intros Hh. destruct n; [done|]. simpl. rewrite head_lookup in Hh.
  by rewrite (proj2 (bool_decide_eq_false _) Hh).
Qed.

(** A value that survives: not empty, no space at either end. *)
Definition value_ok (v : list ascii) : bool :=
  forallb value_char v && negb (bool_decide (v = [])) &&
  negb (bool_decide (head v = Some SPACE)) && negb (bool_decide (last v = Some SPACE)).
Definition name_ok (v : list ascii) : bool := forallb name_char v && negb (bool_decide (v = [])).

Lemma name_last v : name_ok v = true -> v <> [] /\ last v <> Some SPACE.
Proof.
  unfold name_ok. rewrite andb_true_iff, negb_true_iff, bool_decide_eq_false. intros [Hc Hn]. split; [done|].
  intros Hl. apply last_Some in Hl as [l ->]. rewrite forallb_app in Hc. apply andb_true_iff in Hc as [_ Hc].
  simpl in Hc. vm_compute in Hc. done.
Qed.

Lemma line_space sp buf v : line_step (LS false sp buf v) SPACE = Some (LS false true buf v).
Proof. by destruct sp. Qed.

Lemma line_equals sp name :
  name <> [] -> last name <> Some SPACE ->
  line_step (LS false sp name None) "="%char = Some (LS false sp [] (Some name)).
Proof.
  intros Hn Hl. unfold line_step. cbn [ls_quote ls_buf ls_var].
  change (bool_decide ("="%char = DQUOTE)) with false. change (bool_decide ("="%char = "="%char)) with true.
  cbn [negb]. rewrite (proj2 (bool_decide_eq_false _) Hn). by rewrite strip_end_id.
Qed.

Lemma parseLine_value name value :
  name_ok name = true -> value_ok value = true ->
  _conf_parseLine (name ++ [SPACE; "="%char; SPACE; DQUOTE] ++ value ++ [DQUOTE]) =
  Some (ConfObj (c_string name) (c_string value)).
Proof.
  intros Hn Hv. pose proof (name_last name Hn) as [Hne Hnl].
  unfold name_ok in Hn. apply andb_true_iff in Hn as [Hn _].
  unfold value_ok in Hv. rewrite !andb_true_iff, !negb_true_iff, !bool_decide_eq_false in Hv.
  destruct Hv as [[[Hv Hve] Hvh] Hvl].
  set (line := name ++ _).
  assert (line <> []) as Hline by (unfold line; by destruct name).
  destruct value as [|c value]; [done|]. cbn [forallb] in Hv. apply andb_true_iff in Hv as [Hc Hv].
  assert (c <> SPACE) as Hcs by (intros ->; by apply Hvh).
  assert (exists sp, line_loop line line_start = Some (LS false sp (c :: value) (Some name))) as [sp Hl].
  { unfold line, line_start. rewrite line_loop_app, line_name by done. cbn [mbind option_bind app].
    assert (forall sp, line_loop (SPACE :: "="%char :: SPACE :: DQUOTE :: (c :: value) ++ [DQUOTE]) (LS false sp name None) =
      line_loop ((c :: value) ++ [DQUOTE]) (LS true true [] (Some name))) as ->.
    { intros sp. cbn [line_loop app]. rewrite line_space. cbn [mbind option_bind].
      rewrite (line_equals true name Hne Hnl). cbn [mbind option_bind]. by rewrite line_space. }
    cbn [app line_loop]. destruct (line_first c true (Some name) Hc Hcs) as [sp1 ->]. cbn [mbind option_bind].
    rewrite line_loop_app. destruct (line_value value sp1 [c] (Some name) Hv) as [sp2 ->]; [done|].
    cbn. by eexists. }
  unfold _conf_parseLine. destruct line as [|x line']; [done|]. rewrite Hl. cbn [mbind option_bind ls_buf ls_var].
  rewrite strip_end_id by done. rewrite skip_lead_id by done. done.
Qed.

(** ** Reading a file that was written *)

(** A value with its section and name. *)
Record entry := Entry { e_section : list ascii; e_name : list ascii; e_value : list ascii }.

(** Characters of a section name. *)
Definition section_char (c : ascii) : bool :=
  none_of [DQUOTE; "#"%char; "["%char; "]"%char; LF; CR; NUL] c.
Definition entry_ok (e : entry) : bool :=
  forallb section_char (e_section e) && name_ok (e_name e) && value_ok (e_value e).

(** [[section]] and [name = "value"], each on its line. *)
Definition section_line (e : entry) : list ascii := "["%char :: e_section e ++ ["]"%char].
Definition value_line (e : entry) : list ascii :=
  e_name e ++ [SPACE; "="%char; SPACE; DQUOTE] ++ e_value e ++ [DQUOTE].
Definition print_entry (e : entry) : list ascii := section_line e ++ [LF] ++ value_line e ++ [LF].
Definition print_config (l : list entry) : list ascii := concat (print_entry <$> l).

Definition to_node (e : entry) : config_node :=
  Node (Some (ConfObj (c_string (e_name e)) (c_string (e_value e)))) (Some (c_string (e_section e))).
Definition to_config (l : list entry) : config_t :=
  match l with [] => [Node None None] | _ => to_node <$> l end.

Definition line_char (c : ascii) : bool := none_of [LF; CR] c.

Lemma none_of_weaken cs cs' c : cs' ⊆ cs -> none_of cs c = true -> none_of cs' c = true.
Proof. unfold none_of. rewrite !negb_true_iff, !bool_decide_eq_false. set_solver. Qed.

(** The size of the buffer follows the line. *)
Definition fits (s : parse_state) : Prop := Z.of_nat (length (ps_buf s)) <= ps_bufsize s.

Lemma parse_line l : forall s, fits s -> forallb line_char l = true ->
  exists bs, parse_chars (l ++ [LF]) s = Some (end_line (s <| ps_buf := ps_buf s ++ l |> <| ps_bufsize := bs |>)) /\
    Z.of_nat (length (ps_buf s ++ l)) <= bs.
Proof.
  induction l as [|c l IH]; intros s Hs Hl; unfold fits in Hs.
  - rewrite app_nil_r. cbn [app parse_chars]. unfold parse_char.
    destruct (Z.ltb_spec (ps_bufsize s) (Z.of_nat (length (ps_buf s)) + 64)); cbn [ps_bufsize update];
      change (bool_decide (LF = CR)) with false; cbv iota; rewrite (proj2 (Z.leb_gt _ _)) by lia.
    + exists (ps_bufsize s + 64). split; [by destruct s|lia].
    + exists (ps_bufsize s). split; [by destruct s|lia].
  - cbn [forallb] in Hl. apply andb_true_iff in Hl as [Hc Hl]. cbn [app parse_chars]. unfold parse_char.
    set (s1 := if _ <? _ then _ else _).
    assert (ps_buf s1 = ps_buf s /\ Z.of_nat (length (ps_buf s)) < ps_bufsize s1 /\
      exists bs, s1 = s <| ps_bufsize := bs |>) as (Hb & Hbs & bs & Heq).
    { unfold s1. destruct (Z.ltb_spec (ps_bufsize s) (Z.of_nat (length (ps_buf s)) + 64)); cbn; split_and!; try lia; try done.
      - by eexists.
      - exists (ps_bufsize s). by destruct s. }
    rewrite (none_of_ne _ _ CR Hc), (none_of_ne _ _ LF Hc) by set_solver.
    rewrite (proj2 (Z.leb_gt _ _)) by done. cbn [mbind option_bind].
    destruct (IH (s1 <| ps_buf := ps_buf s1 ++ [c] |>)) as (bs' & E & Hle); [|done|].
    { unfold fits. cbn [ps_buf ps_bufsize update]. rewrite length_app, Hb. simpl. lia. }
    rewrite E. exists bs'. cbn [ps_buf update] in *. rewrite Hb, <- app_assoc in *. split; [|done].
    rewrite Heq. done.
Qed.

Lemma end_section s sec :
  ps_buf s = "["%char :: sec ++ ["]"%char] -> forallb section_char sec = true ->
  end_line s = s <| ps_linenum := ps_linenum s + 1 |> <| ps_buf := [] |> <| ps_section := Some (c_string sec) |>.
Proof.
  intros Hb Hs. unfold end_line. rewrite Hb.
  assert (strip_loop ("["%char :: sec ++ ["]"%char]) false = "["%char :: sec ++ ["]"%char]) as Hstrip.
  { change ("["%char :: sec ++ ["]"%char]) with (["["%char] ++ sec ++ ["]"%char]). rewrite !app_assoc.
    rewrite <- (app_nil_r (_ ++ ["]"%char])) at 1. rewrite strip_plain; [by rewrite app_nil_r|].
    rewrite !forallb_app. simpl. rewrite andb_true_r. eapply forallb_weaken; [|exact Hs].
    intros c. apply none_of_weaken. set_solver. }
  unfold _conf_strip_comment. rewrite Hstrip. rewrite Nat.sub_diag, app_nil_r.
  assert (_conf_get_section ("["%char :: sec ++ ["]"%char]) = Some sec) as ->; [|done].
  unfold _conf_get_section. cbn [section_loop]. simpl. rewrite section_some; [done|].
  eapply forallb_weaken; [|exact Hs]. intros c. apply none_of_weaken. set_solver.
Qed.

Lemma name_none cs name : cs ⊆ [DQUOTE; "="%char; "#"%char; SPACE; "["%char; "]"%char; LF; CR; NUL] ->
  forallb name_char name = true -> forallb (none_of cs) name = true.
Proof.
  intros Hs. apply forallb_weaken. intros c Hc. unfold name_char in Hc. apply andb_true_iff in Hc as [Hc _].
  by eapply none_of_weaken.
Qed.
Lemma value_none cs value : cs ⊆ [DQUOTE; "["%char; "]"%char; LF; CR; NUL] ->
  forallb value_char value = true -> forallb (none_of cs) value = true.
Proof.
  intros Hs. apply forallb_weaken. intros c Hc. unfold value_char in Hc. apply andb_true_iff in Hc as [Hc _].
  by eapply none_of_weaken.
Qed.

(** Characters that occur nowhere in a written value line. *)
Lemma value_line_none cs e : entry_ok e = true ->
  cs ⊆ ["["%char; "]"%char; LF; CR; NUL] -> forallb (none_of cs) (value_line e) = true.
Proof.
  intros He Hcs. unfold entry_ok in He. rewrite !andb_true_iff in He. destruct He as [[_ Hn] Hv].
  unfold name_ok in Hn. apply andb_true_iff in Hn as [Hn _].
  unfold value_ok in Hv. rewrite !andb_true_iff in Hv. destruct Hv as [[[Hv _] _] _].
  unfold value_line. rewrite !forallb_app.
  rewrite (name_none cs (e_name e)), (value_none cs (e_value e)) by (done || (etransitivity; [exact Hcs|set_solver])).
  assert (forall c, none_of ["["%char; "]"%char; LF; CR; NUL] c = true -> none_of cs c = true) as Hw
    by (intros c; by apply none_of_weaken).
  cbn [forallb]. rewrite !Hw by reflexivity. done.
Qed.

Lemma set_to_config l e :
  _conf_setValue (to_config l) (ConfObj (c_string (e_name e)) (c_string (e_value e))) (Some (c_string (e_section e))) =
  Some (to_config (l ++ [e])).
Proof. destruct l as [|d l]; [done|]. simpl. by rewrite fmap_app. Qed.

Lemma end_value s e done :
  entry_ok e = true -> ps_buf s = value_line e -> ps_section s = Some (c_string (e_section e)) ->
  ps_config s = to_config done ->
  end_line s = s <| ps_linenum := ps_linenum s + 1 |> <| ps_buf := [] |> <| ps_config := to_config (done ++ [e]) |>.
Proof.
  intros He Hb Hsec Hcfg. unfold end_line. rewrite Hb.
  pose proof He as He'. unfold entry_ok in He'. rewrite !andb_true_iff in He'. destruct He' as [[_ Hn] Hv].
  assert (strip_loop (value_line e) false = value_line e) as Hstrip.
  { pose proof Hn as Hn1. unfold name_ok in Hn1. apply andb_true_iff in Hn1 as [Hn1 _].
    pose proof Hv as Hv1. unfold value_ok in Hv1. rewrite !andb_true_iff in Hv1. destruct Hv1 as [[[Hv1 _] _] _].
    unfold value_line. rewrite strip_plain by (apply name_none; [set_solver|done]). f_equal.
    cbn [app strip_loop]. simpl. do 4 f_equal. rewrite strip_quoted by (apply value_none; [set_solver|done]). done. }
  unfold _conf_strip_comment. rewrite Hstrip.
  destruct (value_line e) as [|x l] eqn:Hvl; [unfold value_line in Hvl; by destruct (e_name e)|]. rewrite <- Hvl.
  rewrite Nat.sub_diag, app_nil_r. unfold _conf_get_section.
  rewrite section_none by (apply value_line_none; [done|set_solver]).
  rewrite before_nul_id by (apply value_line_none; [done|set_solver]).
  unfold value_line at 1. rewrite parseLine_value by assumption. rewrite Hsec, Hcfg. by rewrite set_to_config.
Qed.

Lemma parse_chars_app l1 l2 s : parse_chars (l1 ++ l2) s = parse_chars l1 s ≫= parse_chars l2.
Proof.
  revert s. induction l1 as [|c l1 IH]; intros s; [done|]. simpl. destruct (parse_char s c); [apply IH|done].
Qed.

Lemma parse_entry s e done :
  entry_ok e = true -> ps_buf s = [] -> fits s -> ps_config s = to_config done ->
  exists s', parse_chars (print_entry e) s = Some s' /\ ps_buf s' = [] /\ fits s' /\
    ps_config s' = to_config (done ++ [e]).
Proof.
  intros He Hb Hf Hc. pose proof He as He'. unfold entry_ok in He'. rewrite !andb_true_iff in He'. destruct He' as [[Hsec _] _].
  unfold print_entry. rewrite app_assoc, parse_chars_app.
  destruct (parse_line (section_line e) s Hf) as (bs & E1 & Hbs).
  { unfold section_line. cbn [forallb]. rewrite forallb_app. apply andb_true_iff. split; [done|].
    apply andb_true_iff. split; [|done]. eapply forallb_weaken; [|exact Hsec]. intros c. apply none_of_weaken. set_solver. }
  rewrite E1. cbn [mbind option_bind]. rewrite (end_section _ (e_section e)); [|cbn; by rewrite Hb|done].
  match goal with |- context [parse_chars _ ?x] => set (s1 := x) end.
  assert (fits s1) as Hf1 by (unfold fits, s1; cbn; rewrite length_app in Hbs; lia).
  destruct (parse_line (value_line e) s1 Hf1) as (bs2 & E2 & Hbs2); [by apply value_line_none; [|set_solver]|].
  rewrite E2. rewrite (end_value _ e done); [|done|done|done|done].
  eexists. split; [done|]. split_and!; [done| |done]. unfold fits. cbn. rewrite length_app in Hbs2. lia.
Qed.

Lemma parse_print l : forall done s,
  forallb entry_ok l = true -> ps_buf s = [] -> fits s -> ps_config s = to_config done ->
  exists s', parse_chars (print_config l) s = Some s' /\ ps_config s' = to_config (done ++ l).
Proof.
  induction l as [|e l IH]; intros done s Hl Hb Hf Hc; [exists s; by rewrite app_nil_r|].
  cbn [forallb] in Hl. apply andb_true_iff in Hl as [He Hl].
  destruct (parse_entry s e done He Hb Hf Hc) as (s1 & E1 & Hb1 & Hf1 & Hc1).
  unfold print_config. rewrite fmap_cons. cbn [concat]. rewrite parse_chars_app, E1. cbn [mbind option_bind].
  destruct (IH (done ++ [e]) s1 Hl Hb1 Hf1 Hc1) as (s' & E & Hc'). exists s'. split; [done|].
  by rewrite <- app_assoc in Hc'.
Qed.


Definition demo_entries : list entry :=
  [Entry (list_ascii_of_string "general") (list_ascii_of_string "password") (list_ascii_of_string "a # b = c");
   Entry (list_ascii_of_string "adsl") (list_ascii_of_string "bindport") (list_ascii_of_string "5080")].


(** ** Bounds *)

Lemma end_line_fits s : fits s -> fits (end_line s).
Proof.
  intros Hf. unfold fits, end_line in *. repeat case_match; cbn; lia.
Qed.

Lemma parse_char_fits s c : fits s -> exists s', parse_char s c = Some s' /\ fits s'.
Proof.
  intros Hf. unfold fits, parse_char in *.
  set (s1 := if _ <? _ then _ else _).
  assert (ps_buf s1 = ps_buf s /\ Z.of_nat (length (ps_buf s)) < ps_bufsize s1) as [Hb Hbs].
  { unfold s1. destruct (Z.ltb_spec (ps_bufsize s) (Z.of_nat (length (ps_buf s)) + 64)); cbn; split; try done; lia. }
  destruct (bool_decide (c = CR)); [exists s1; split; [done|]; rewrite Hb; lia|].
  rewrite (proj2 (Z.leb_gt _ _)) by done.
  destruct (bool_decide (c = LF)); eexists; (split; [done|]).
  - apply (end_line_fits s1). unfold fits. rewrite Hb. lia.
  - cbn. rewrite length_app, Hb. simpl. lia.
Qed.

Lemma parse_total content read_error :
  exists config, _conf_parseConfig content read_error = Some (if read_error then None else Some config).
Proof.
  unfold _conf_parseConfig.
  assert (forall s, fits s -> exists s', parse_chars content s = Some s') as Hall.
  { induction content as [|c content IH]; intros s Hs; [by eexists|]. cbn [parse_chars].
    destruct (parse_char_fits s c Hs) as (s1 & -> & Hs1). by apply IH. }
  destruct (Hall parse_start) as [s ->]; [by unfold fits; cbn|]. by exists (ps_config s).
Qed.

(** Whatever the file holds and however long its lines are, the reader
    never writes outside its growing line buffer; it gives a list, or [NULL]
    after a read error only. *)
Theorem parse_in_bounds content read_error :
  exists config, _conf_parseConfig content read_error = Some (if read_error then None else Some config).
Proof. apply parse_total. Qed.

(** A last line that does not end with a newline is not read. *)
Theorem last_line_ignored content line :
  forallb line_char line = true ->
  _conf_parseConfig (content ++ line) false = _conf_parseConfig content false.
Proof.
  intros Hl. unfold _conf_parseConfig. rewrite parse_chars_app.
  destruct (parse_chars content parse_start) as [s|] eqn:E; [|done]. cbn [mbind option_bind].
  assert (fits s) as Hs.
  { assert (forall l s0, fits s0 -> forall s1, parse_chars l s0 = Some s1 -> fits s1) as Hall.
    { induction l as [|c l IH]; intros s0 H0 s1; cbn [parse_chars]; [intros [= <-]; done|].
      destruct (parse_char_fits s0 c H0) as (s2 & -> & H2). by apply IH. }
    eapply Hall; [|exact E]. by unfold fits; cbn. }
  clear E. assert (exists s', parse_chars line s = Some s' /\ ps_config s' = ps_config s) as (s' & E' & Hc').
  2: { rewrite E'. cbn [mbind option_bind]. by rewrite Hc'. }
  revert s Hs. induction line as [|c line IH]; intros s Hs; [by eexists|].
  cbn [forallb] in Hl. apply andb_true_iff in Hl as [Hc Hl]. cbn [parse_chars].
  destruct (parse_char_fits s c Hs) as (s1 & E1 & Hs1). rewrite E1. cbn [mbind option_bind].
  destruct (IH Hl s1 Hs1) as (s' & E & Hcf). exists s'. split; [done|]. rewrite Hcf.
  unfold parse_char in E1. rewrite (none_of_ne _ _ CR Hc), (none_of_ne _ _ LF Hc) in E1 by set_solver.
  repeat case_match; simplify_eq; done.
Qed.

Lemma last_line_ignored_witness :
  let file := print_config demo_entries in
  _conf_parseConfig (file ++ list_ascii_of_string "timeout = 30") false = _conf_parseConfig file false.
Proof. intros file. apply (last_line_ignored file (list_ascii_of_string "timeout = 30")). vm_compute. reflexivity. Defined.

(** ** Lookup *)

(** Whether a node holds a value for [v] in [sec]. *)
Definition holds_value (sec v : string) (n : config_node) : bool :=
  match conf n with
  | Some o => bool_decide (section n = Some sec) && bool_decide (var o = v)
  | None => false
  end.

Lemma getValue_step n next sec v :
  _conf_getValue (n :: next) sec v =
  if holds_value sec v n then (val <$> conf n, next) else _conf_getValue next sec v.
Proof.
  unfold holds_value. cbn [_conf_getValue]. destruct (conf n) as [o|]; [|done].
  assert (mystr_eq (section n) (Some sec) = bool_decide (section n = Some sec)) as ->.
  { unfold mystr_eq. destruct (section n) as [s|]; [|done]. destruct (decide (s = sec)) as [->|Hn].
    - by rewrite !(proj2 (bool_decide_eq_true _)).
    - rewrite !(proj2 (bool_decide_eq_false _)); congruence. }
  assert (mystr_eq (Some (var o)) (Some v) = bool_decide (var o = v)) as -> by done. done.
Qed.

(** The list has its first node, which is empty only when it is alone. *)
Definition list_started (c : config_t) : bool :=
  match c with
  | [] => false
  | first :: rest => bool_decide (rest = []) || match conf first with Some _ => true | None => false end
  end.

(** A value that was set is found: after [_conf_setValue] the lookup gives
    the value it gave before, if there was one, and otherwise the new value
    when section and variable are those that were set. *)
Theorem get_after_set c o s c' sec v :
  list_started c = true -> _conf_setValue c o (Some s) = Some c' ->
  (_conf_getValue c' sec v).1 =
  match (_conf_getValue c sec v).1 with
  | Some x => Some x
  | None => if bool_decide (s = sec) && bool_decide (var o = v) then Some (val o) else None
  end.
Proof.
  assert (bool_decide (Some s = Some sec) = bool_decide (s = sec)) as Hs.
  { destruct (decide (s = sec)) as [->|]; [by rewrite !(proj2 (bool_decide_eq_true _))|].
    rewrite !(proj2 (bool_decide_eq_false _)); congruence. }
  assert (forall c, (_conf_getValue (c ++ [Node (Some o) (Some s)]) sec v).1 =
    match (_conf_getValue c sec v).1 with Some x => Some x
    | None => if bool_decide (s = sec) && bool_decide (var o = v) then Some (val o) else None end) as Happ.
  { induction c0 as [|n c0 IH]; cbn [app].
    - rewrite getValue_step. unfold holds_value. cbn [conf section]. rewrite Hs. by destruct (_ && _).
    - rewrite !getValue_step. destruct (holds_value sec v n) eqn:Hh; [|done].
      unfold holds_value in Hh. destruct (conf n); done. }
  unfold _conf_setValue, list_started. destruct c as [|first rest]; [done|]. intros Hst.
  destruct (conf first) eqn:Hc; intros [= <-]; [apply (Happ (first :: rest))|].
  rewrite orb_false_r in Hst. apply bool_decide_eq_true_1 in Hst as ->.
  rewrite (getValue_step first). unfold holds_value at 1. rewrite Hc. apply (Happ []).
Qed.

Lemma get_after_set_witness :
  let c := to_config demo_entries in
  exists c', _conf_setValue c (ConfObj "timeout" "30") (Some "adsl") = Some c' /\
    (_conf_getValue c' "adsl" "timeout").1 = Some "30".
Proof.
  intros c. eexists. split; [reflexivity|].
  apply (get_after_set c (ConfObj "timeout" "30") "adsl" _ "adsl" "timeout"); reflexivity.
Defined.

(** ** What a line can give *)

Definition text_char (c : ascii) : bool := isascii c && none_of [NUL] c.
(** ASCII, and no space in front. *)
Record text (l : list ascii) : Prop := {
  tx_chars : forallb text_char l = true;
  tx_head : head l <> Some SPACE
}.
Record trimmed (l : list ascii) : Prop := {
  tr_text : text l;
  tr_ne : l <> [];
  tr_last : last l <> Some SPACE
}.

Lemma text_snoc l c : text l -> text_char c = true -> (l = [] -> c <> SPACE) -> text (l ++ [c]).
Proof.
  intros [Hl Hh] Hc Hs. split.
  - rewrite forallb_app, Hl. simpl. by rewrite Hc.
  - destruct l; simpl in *; [|done]. intros [= E]. by apply Hs.
Qed.

Lemma strip_index_spec buf k :
  (strip_index buf k <= k)%nat /\ (strip_index buf k = O \/ buf !! strip_index buf k <> Some SPACE).
Proof.
  induction k as [|k IH]; simpl; [by split; [|left]|]. destruct (bool_decide _) eqn:E.
  - destruct IH as [H1 H2]. split; [lia|done].
  - apply bool_decide_eq_false_1 in E. split; [lia|by right].
Qed.

Lemma strip_end_trimmed buf : text buf -> buf <> [] -> trimmed (strip_end buf) /\ (length (strip_end buf) <= length buf)%nat.
Proof.
  intros [Hc Hh] Hne. unfold strip_end.
  destruct (strip_index_spec buf (length buf - 1)) as [Hle Hk]. set (k := strip_index _ _) in *.
  assert (0 < length buf)%nat as Hpos by (destruct buf; [done|simpl; lia]).
  assert (length (take (S k) buf) = S k) as Hlen by (rewrite length_take; lia).
  split; [|rewrite Hlen; lia]. split; [split|..].
  - rewrite <- (take_drop (S k) buf), forallb_app in Hc. by apply andb_true_iff in Hc as [? _].
  - rewrite head_lookup, lookup_take_lt by lia. by rewrite <- head_lookup.
  - intros E. rewrite E in Hlen. done.
  - rewrite last_lookup, Hlen. simpl Nat.pred. rewrite lookup_take_lt by lia.
    destruct Hk as [->|Hk]; [by rewrite <- head_lookup|done].
Qed.

(** After [n] characters. *)
Record line_inv (n : nat) (s : line_state) : Prop := {
  li_buf : text (ls_buf s);
  li_var : forall v, ls_var s = Some v -> trimmed v;
  li_len : (length (ls_buf s) + length (default [] (ls_var s)) <= n)%nat
}.

Lemma line_step_inv n s c s' :
  line_inv n s -> none_of [NUL] c = true -> line_step s c = Some s' -> line_inv (S n) s'.
Proof.
  intros [Hb Hv Hl] Hn. unfold line_step.
  destruct (bool_decide (c = DQUOTE)) eqn:E1; [intros [= <-]; split; simpl; [done|done|lia]|].
  destruct (bool_decide (c = "="%char)) eqn:E2.
  { apply bool_decide_eq_true_1 in E2 as ->. destruct (ls_quote s).
    - intros [= <-]. split; simpl; [by apply text_snoc|done|]. rewrite length_app. simpl. lia.
    - destruct (bool_decide (ls_buf s = [])) eqn:E3; [done|]. apply bool_decide_eq_false_1 in E3.
      destruct (ls_var s) as [v|] eqn:Ev; [done|]. intros [= <-].
      destruct (strip_end_trimmed _ Hb E3) as [Ht Hle]. split; simpl; [by split|by intros v [= <-]|]. simpl in Hl. lia. }
  set (s1 := if bool_decide (c = SPACE) && negb (ls_space s) then s <| ls_space := true |> else _).
  assert (ls_buf s1 = ls_buf s /\ ls_var s1 = ls_var s /\ (c = SPACE -> ls_space s1 = true)) as (Hb1 & Hv1 & Hs1).
  { unfold s1. destruct (bool_decide (c = SPACE)) eqn:E3, (ls_space s) eqn:E4; simpl; split_and!; try done;
      apply bool_decide_eq_false_1 in E3; done. }
  clearbody s1.
  assert (line_inv n s1) as [Hb' Hv' Hl'] by (split; rewrite ?Hb1, ?Hv1; done).
  destruct (ls_space s1 && negb (ls_quote s1)); [intros [= <-]; split; try done; lia|].
  destruct (ls_space s1 && bool_decide (ls_buf s1 = [])) eqn:E5; [intros [= <-]; split; try done; lia|].
  destruct (isascii c) eqn:Ha; [|done]. intros [= <-]. split; cbn [ls_buf ls_var update]; [|done|].
  - apply text_snoc; [done|unfold text_char; by rewrite Ha, Hn|]. intros Hnil ->.
    rewrite Hs1, Hnil in E5 by done. done.
  - rewrite length_app. simpl. lia.
Qed.

Lemma line_loop_inv line : forall n s s',
  line_inv n s -> forallb (none_of [NUL]) line = true -> line_loop line s = Some s' -> line_inv (n + length line) s'.
Proof.
  induction line as [|c line IH]; intros n s s' Hi Hn; cbn [line_loop].
  - intros [= <-]. by rewrite Nat.add_0_r.
  - cbn [forallb] in Hn. apply andb_true_iff in Hn as [Hc Hn].
    destruct (line_step s c) as [s1|] eqn:E; [|done]. intros Hl. cbn [length]. rewrite <- Nat.add_succ_comm.
    apply (IH (S n) s1); [by eapply line_step_inv|done|done].
Qed.

Lemma c_string_text l : text l -> list_ascii_of_string (c_string l) = l.
Proof.
  intros [Hl _]. unfold c_string. rewrite before_nul_id; [apply list_ascii_of_string_of_list_ascii|].
  eapply forallb_weaken; [|exact Hl]. intros c. unfold text_char. by intros [_ ?]%andb_true_iff.
Qed.

(** C34: a line that is accepted gives a name and a value that are not empty,
    ASCII, without a space at either end, and together no longer than the
    line. *)
Theorem parsed_line_trimmed line o :
  forallb (none_of [NUL]) line = true -> _conf_parseLine line = Some o ->
  let name := list_ascii_of_string (var o) in
  let value := list_ascii_of_string (val o) in
  trimmed name /\ trimmed value /\ (length name + length value <= length line)%nat.
Proof.
  intros Hn Hp name value. unfold _conf_parseLine in Hp. destruct line as [|c line]; [done|].
  destruct (line_loop (c :: line) line_start) as [s|] eqn:E; [|done]. cbn [mbind option_bind] in Hp.
  apply (line_loop_inv _ 0) in E as [Hb Hv Hl]; [|by split; simpl; [split|..]|done].
  destruct (ls_buf s) as [|x buf] eqn:Eb; [done|]. destruct (ls_var s) as [v|] eqn:Ev; [|done].
  specialize (Hv v eq_refl). destruct (strip_end_trimmed _ Hb) as [Ht Hle]; [done|].
  rewrite skip_lead_id in Hp by apply Ht. destruct (strip_end (x :: buf)) as [|y w] eqn:Es; [by destruct Ht|].
  injection Hp as <-. unfold name, value. cbn [var val]. rewrite !c_string_text by (apply Hv || apply Ht).
  split_and!; [done|done|]. simpl in *. lia.
Qed.

Lemma parsed_line_trimmed_witness :
  let line := list_ascii_of_string "timeout =  30 " in
  _conf_parseLine line = Some (ConfObj "timeout" "30") /\
  trimmed (list_ascii_of_string "timeout") /\ trimmed (list_ascii_of_string "30") /\ (7 + 2 <= 14)%nat.
Proof.
  intros line. split; [reflexivity|].
  apply (parsed_line_trimmed line (ConfObj "timeout" "30")); [vm_compute; reflexivity|reflexivity].
Defined.

(** The line [remotehost = "[2001:db8::1]"]. *)
Definition bracket_line : list ascii :=
  list_ascii_of_string "remotehost = " ++ [DQUOTE] ++ list_ascii_of_string "[2001:db8::1]" ++ [DQUOTE].

(** A value in brackets is taken for a section although it is in quotes:
    the variable is lost and the values that follow go to another section. *)
Theorem bracket_value_is_section :
  _conf_parseConfig (list_ascii_of_string "[adsl]" ++ [LF] ++ bracket_line ++ [LF] ++
                     list_ascii_of_string "timeout = 30" ++ [LF]) false =
  Some (Some [Node (Some (ConfObj "timeout" "30")) (Some "2001:db8::1")]).
Proof. vm_compute. reflexivity. Qed.
