(* ===== verification/Config.v ===== *)
(** * The configuration ([src/src/config.c], reload of [src/src/mlvpn.c])

    [mlvpn_config] reads the file with [ConfigLib], sets the options from the
    section [general], creates or updates a tunnel for every other section,
    drops the tunnels that are no longer there and installs the filters;
    [mlvpn_config_reload] is the handler of SIGHUP.  The state is the one of
    [Tunnel]; a mandatory value that is missing is the [fatalx] of the source. *)

From Stdlib Require Import Ascii String.
From S2P Require Import Prelude Double CString Timestamp Pkt Buffer Reorder Tunnel Loss Wrr Protocol Tuntap Rtun ConfigLib.

Definition MAXPATHLEN : nat := Z.to_nat 4096.

Section config.
Context `{OS}.

(** ** Reading a value *)

Definition conf_str (config : config_t) (sec type : string) (def : option string) (exit_n : Z) : W (option string) :=
  expect (Fatal type) (_conf_set_str_from_conf config sec type def exit_n).
Definition conf_uint (config : config_t) (sec type : string) (def : Z) : W Z :=
  expect (Fatal type) (_conf_set_uint_from_conf config sec type def 0).

Definition set_opts (f : mlvpn_options_s -> mlvpn_options_s) : W unit :=
  modify (fun w => w <| w_options := f (w_options w) |>).

(** [if (tmp) strlcpy(mlvpn_options.x, tmp, sizeof(mlvpn_options.x))] *)
Definition copy_opt (tmp : option string) (set : string -> mlvpn_options_s -> mlvpn_options_s) (size : nat) : W unit :=
  match tmp with Some s => set_opts (set (strlcpy_s s size)) | None => mret tt end.

(** The same, with [else memset(mlvpn_options.y, 0, ...)]. *)
Definition copy_opt_or (tmp : option string) (set : string -> mlvpn_options_s -> mlvpn_options_s) (size : nat)
    (reset : mlvpn_options_s -> mlvpn_options_s) : W unit :=
  match tmp with Some s => set_opts (set (strlcpy_s s size)) | None => set_opts reset end.

(** ** The section [general] *)

(** The values that later sections use. *)
Record defaults := Defaults {
  df_loss_tolerence : Z;
  df_latency_tolerence : Z;
  df_timeout : Z;
  df_server_mode : bool
}.
Definition defaults0 : defaults := Defaults 100 1000 60 false.

(** The settings of the start. *)
Definition config_start (config : config_t) (sec : string) : W unit :=
  status_command ← conf_str config sec "statuscommand" None 0;
  modify (fun w => w <| w_status_command := status_command |>);;
  tundevname ← conf_str config sec "interface_name" (Some "mlvpn0") 0;
  match tundevname with
  | Some s => set_tuntap (fun tt => tt <| tt_devname := strlcpy_s s MLVPN_IFNAMSIZ |>)
  | None => mret tt
  end;;
  tmp ← conf_str config sec "tuntap" (Some "tun") 0;
  match tmp with
  | Some s => set_tuntap (fun tt => tt <| tt_type :=
      if mystr_eq tmp (Some "tun") then MLVPN_TUNTAPMODE_TUN else MLVPN_TUNTAPMODE_TAP |>)
  | None => mret tt
  end;;
  tmp ← conf_str config sec "control_unix_path" None 0;
  copy_opt tmp (fun s o => o <| o_control_unix_path := s |>) MAXPATHLEN;;
  tmp ← conf_str config sec "control_bind_host" None 0;
  copy_opt tmp (fun s o => o <| o_control_bind_host := s |>) MLVPN_MAXHNAMSTR;;
  tmp ← conf_str config sec "control_bind_port" None 0;
  copy_opt tmp (fun s o => o <| o_control_bind_port := s |>) MLVPN_MAXHNAMSTR.

(** The size of the reorder buffer changes. *)
Definition config_reorder (size : Z) : W unit :=
  old ← gets (fun w => o_reorder_buffer_size (w_options w));
  when (negb (size =? old)) (
    when (negb (size =? 0) && negb (old =? 0)) (modify (fun w => w <| w_reorder := None |>));;
    set_opts (fun o => o <| o_reorder_buffer_size := size |>);;
    when (0 <? size) (set_reorder (Reorder.mlvpn_reorder_create size))).

(** The addresses and routes of the interface. *)
Definition config_addresses (config : config_t) (sec : string) : W unit :=
  tmp ← conf_str config sec "ip4" None 0;
  copy_opt_or tmp (fun s o => o <| o_ip4 := s |>) 24 (fun o => o <| o_ip4_gateway := "" |>);;
  tmp ← conf_str config sec "ip6" None 0;
  copy_opt_or tmp (fun s o => o <| o_ip6 := s |>) 128 (fun o => o <| o_ip4_gateway := "" |>);;
  tmp ← conf_str config sec "ip4_gateway" None 0;
  copy_opt_or tmp (fun s o => o <| o_ip4_gateway := s |>) 16 (fun o => o <| o_ip4_gateway := "" |>);;
  tmp ← conf_str config sec "ip6_gateway" None 0;
  copy_opt_or tmp (fun s o => o <| o_ip6_gateway := s |>) 128 (fun o => o <| o_ip6_gateway := "" |>);;
  tmp ← conf_str config sec "ip4_routes" None 0;
  copy_opt_or tmp (fun s o => o <| o_ip4_routes := s |>) (Z.to_nat 4096) (fun o => o <| o_ip4_routes := "" |>);;
  tmp ← conf_str config sec "ip6_routes" None 0;
  copy_opt_or tmp (fun s o => o <| o_ip6_routes := s |>) (Z.to_nat 8192) (fun o => o <| o_ip6_routes := "" |>);;
  tun_mtu ← conf_uint config sec "mtu" 1432;
  when (negb (tun_mtu =? 0)) (set_opts (fun o => o <| o_mtu := i32 tun_mtu |>)).

Definition config_general (config : config_t) (first_time : bool) (sec : string) (d : defaults) : W defaults :=
  when first_time (config_start config sec);;
  mode ← conf_str config sec "mode" None 1;
  let server_mode := if mystr_eq mode (Some "server") then true else df_server_mode d in
  password ← conf_str config sec "password" None 2;
  match password with
  | Some p => modify (fun w => w <| w_key := crypto_set_password (bytes_of_string p) |>)
  | None => mret tt
  end;;
  cleartext_data ← conf_uint config sec "cleartext_data" 0;
  set_opts (fun o => o <| o_cleartext_data := negb (cleartext_data =? 0) |>);;
  timeout ← conf_uint config sec "timeout" 60;
  let timeout := if timeout <? 2 then 2 else timeout in
  reorder_buffer_size ← conf_uint config sec "reorder_buffer_size" 0;
  config_reorder reorder_buffer_size;;
  loss ← conf_uint config sec "loss_tolerence" 100;
  let loss := if 100 <? loss then 100 else loss in
  latency ← conf_uint config sec "latency_tolerence" 1000;
  let latency := if 1000 <? latency then 1000 else latency in
  config_addresses config sec;;
  mret (Defaults loss latency timeout server_mode).

(** ** A tunnel *)

(** What the section of a tunnel says. *)
Record tunnel_conf := TunnelConf {
  tc_bindaddr : option string;
  tc_bindport : option string;
  tc_bindfib : Z;
  tc_dstaddr : option string;
  tc_dstport : option string;
  tc_bwlimit : Z;
  tc_timeout : Z;
  tc_loss_tolerence : Z;
  tc_latency_tolerence : Z;
  tc_fallback_only : Z
}.

Definition read_tunnel (config : config_t) (sec : string) (d : defaults) : W tunnel_conf :=
  bindaddr ← conf_str config sec "bindhost" None 0;
  bindport ← conf_str config sec "bindport" None (if df_server_mode d then 1 else 0);
  bindfib ← conf_uint config sec "bindfib" 0;
  dstaddr ← conf_str config sec "remotehost" None (if df_server_mode d then 0 else 1);
  dstport ← conf_str config sec "remoteport" None (if df_server_mode d then 0 else 1);
  bwlimit ← conf_uint config sec "bandwidth_upload" 0;
  timeout ← conf_uint config sec "timeout" (df_timeout d);
  let timeout := if timeout <? 2 then 2 else timeout in
  loss ← conf_uint config sec "loss_tolerence" (df_loss_tolerence d);
  let loss := if 100 <? loss then 100 else loss in
  latency ← conf_uint config sec "latency_tolerence" (df_latency_tolerence d);
  let latency := if 1000 <? latency then 1000 else latency in
  fallback_only ← conf_uint config sec "fallback_only" 0;
  when (negb (fallback_only =? 0)) (set_opts (fun o => o <| o_fallback_available := true |>));;
  mret (TunnelConf bindaddr bindport bindfib dstaddr dstport bwlimit timeout loss latency fallback_only).

(** The first tunnel of the list with the name. *)
Fixpoint find_tunnel (name : string) (l : list nat) : W (option nat) :=
  match l with
  | [] => mret None
  | t :: l =>
      tun ← tun_get t;
      if mystr_eq (Some name) (Some (t_name tun)) then mret (Some t) else find_tunnel name l
  end.

(** Whether the ends of the tunnel are not those of the section. *)
Definition ends_changed (tun : mlvpn_tunnel_t) (c : tunnel_conf) : bool :=
  negb (mystr_eq (Some (t_bindaddr tun)) (tc_bindaddr c)) ||
  negb (mystr_eq (Some (t_bindport tun)) (tc_bindport c)) ||
  negb (t_bindfib tun =? tc_bindfib c) ||
  negb (mystr_eq (Some (t_destaddr tun)) (tc_dstaddr c)) ||
  negb (mystr_eq (Some (t_destport tun)) (tc_dstport c)).

(** The assignments to an existing tunnel. *)
Definition reconfigured (c : tunnel_conf) (tun : mlvpn_tunnel_t) : mlvpn_tunnel_t :=
  let cpy (s : option string) (old : string) n := match s with Some s => strlcpy_s s n | None => old end in
  tun <| t_bindaddr := cpy (tc_bindaddr c) (t_bindaddr tun) MLVPN_MAXHNAMSTR |>
      <| t_bindport := cpy (tc_bindport c) (t_bindport tun) MLVPN_MAXPORTSTR |>
      <| t_bindfib := tc_bindfib c |>
      <| t_destaddr := cpy (tc_dstaddr c) (t_destaddr tun) MLVPN_MAXHNAMSTR |>
      <| t_destport := cpy (tc_dstport c) (t_destport tun) MLVPN_MAXPORTSTR |>
      <| t_fallback_only := i32 (tc_fallback_only c) |>
      <| t_bandwidth := tc_bwlimit c |>
      <| t_loss_tolerence := tc_loss_tolerence c |>
      <| t_latency_tolerence := tc_latency_tolerence c |>.

Definition update_tunnel (t : nat) (c : tunnel_conf) : W unit :=
  tun ← tun_get t;
  when (ends_changed tun c) (mlvpn_rtun_status_down t);;
  tun_upd t (reconfigured c).

Definition config_tunnel (config : config_t) (sec : string) (d : defaults) : W unit :=
  c ← read_tunnel config sec d;
  rtuns ← gets w_rtuns;
  found ← find_tunnel sec rtuns;
  match found with
  | Some t => update_tunnel t c
  | None =>
      mlvpn_rtun_new sec (tc_bindaddr c) (tc_bindport c) (tc_bindfib c) (tc_dstaddr c) (tc_dstport c)
        (df_server_mode d) (tc_timeout c) (i32 (tc_fallback_only c)) (tc_bwlimit c)
        (tc_loss_tolerence c) (tc_latency_tolerence c);;
      mret tt
  end.

(** ** The loops *)

(** [strncmp(section, "filters", 7) == 0] *)
Definition is_filters (sec : string) : bool := String.prefix "filters" sec.

(** The body of the first loop, on [lastSection] and the defaults. *)
Definition config_node_step (config : config_t) (first_time : bool) (st : option string * defaults)
    (work : config_node) : W (option string * defaults) :=
  let '(lastSection, d) := st in
  match section work with
  | Some sec =>
      if mystr_eq (Some sec) lastSection then mret st
      else if mystr_eq (Some sec) (Some "general") then
        d ← config_general config first_time sec d; mret (Some sec, d)
      else if negb (is_filters sec) then
        config_tunnel config sec d;; mret (Some sec, d)
      else mret (Some sec, d)
  | None => mret st
  end.

Fixpoint config_nodes (config : config_t) (first_time : bool) (work : config_t) (st : option string * defaults) :
    W (option string * defaults) :=
  match work with
  | [] => mret st
  | n :: work => st ← config_node_step config first_time st n; config_nodes config first_time work st
  end.

(** Whether a section of the file has the name of the tunnel. *)
Definition found_in_config (config : config_t) (name : string) : bool :=
  existsb (fun n => negb (bool_decide (conf n = None)) && mystr_eq (section n) (Some name)) config.

Definition drop_missing (config : config_t) (t : nat) : W unit :=
  tun ← tun_get t;
  when (negb (found_in_config config (t_name tun))) (mlvpn_rtun_drop t).

(** The inner loop over the tunnels for a filter. *)
Fixpoint filter_tunnels (filter : nat) (name : string) (l : list nat) : W unit :=
  match l with
  | [] => mret tt
  | t :: l =>
      tun ← tun_get t;
      if bool_decide (name = t_name tun) then
        r ← mlvpn_filters_add filter t;
        if negb (r =? 0) then filter_tunnels filter name l else mret tt
      else filter_tunnels filter name l
  end.

Definition config_filter (work : config_node) : W unit :=
  match section work with
  | Some sec =>
      when (is_filters sec) (
        c ← expect (BadAccess "work->conf") (conf work);
        match os_pcap_compile (val c) with
        | None => mret tt
        | Some filter => rtuns ← gets w_rtuns; filter_tunnels filter (var c) rtuns
        end)
  | None => mret tt
  end.

(** [content] and [read_error] are what reading the descriptor gives. *)
Definition mlvpn_config (content : list ascii) (read_error first_time : bool) : W Z :=
  set_opts (fun o => o <| o_fallback_available := false |>);;
  modify (fun w => w <| w_filters := [] |>);;
  config ← expect (BadAccess "line") (_conf_parseConfig content read_error);
  match config with
  | None => mret 1
  | Some config =>
      config_nodes config first_time config (None, defaults0);;
      when (negb first_time) (rtuns ← gets w_rtuns; for_each rtuns (drop_missing config));;
      for_each config config_filter;;
      status_command ← gets w_status_command;
      match status_command with
      | Some path => when first_time (emit (InitScript path))
      | None => mret tt
      end;;
      mret 0
  end.

(** [fd] is the descriptor [priv_open_config] gives, with its content. *)
Definition mlvpn_config_reload (fd : Z) (content : list ascii) (read_error : bool) : W unit :=
  when (0 <? fd) (
    r ← mlvpn_config content read_error false;
    when (r =? 0) (
      now ← ask os_time;
      modify (fun w => w <| w_status := (w_status w) <| s_last_reload := now |> |>);;
      mlvpn_rtun_recalc_weight)).
End config.
