(* ===== verification/Reload.v ===== *)
(** * Loading and reloading the configuration keeps the invariant

    [mlvpn_config] on a file that has its mandatory values, no more tunnels
    than the scheduler's table holds, names the process title can show, and
    whose removed tunnels were resolved once.  At the end the tunnels of the
    list are those of the file. *)

From Stdlib Require Import Ascii String.
From S2P Require Import Prelude Double CString Timestamp Pkt Buffer Reorder Tunnel Loss Wrr Protocol Tuntap Rtun Frame Stage Invariant Status Safety Events ConfigLib Config.

(** ** What a file must have *)

(** A size that [mlvpn_reorder_create] can use, or 0. *)
Definition good_reorder_size (size : Z) : bool :=
  (size =? 0) || existsb (Z.eqb size) [2; 4; 8; 16; 32; 64; 128; 256; 512; 1024].

Definition has_value (config : config_t) (sec v : string) : bool :=
  bool_decide (is_Some (_conf_getValue config sec v).1).

(** The section of a tunnel. *)
Definition ordinary (sec : string) : bool := negb (bool_decide (sec = "general")) && negb (is_filters sec).

(** The mandatory values are there, for the mode in force at each section. *)
Fixpoint complete_nodes (config work : config_t) (last : option string) (server : bool) : bool :=
  match work with
  | [] => true
  | n :: work =>
      match section n with
      | None => complete_nodes config work last server
      | Some sec =>
          if mystr_eq (Some sec) last then complete_nodes config work last server
          else if mystr_eq (Some sec) (Some "general") then
            has_value config sec "mode" && has_value config sec "password" &&
            complete_nodes config work (Some sec)
              (mystr_eq (_conf_getValue config sec "mode").1 (Some "server") || server)
          else
            (if negb (is_filters sec) then
               if server then has_value config sec "bindport"
               else has_value config sec "remotehost" && has_value config sec "remoteport"
             else true) && complete_nodes config work (Some sec) server
      end
  end.

Definition short_names (config : config_t) : bool :=
  forallb (fun n => match section n with Some s => (String.length s <=? 29)%nat | None => true end) config.

Definition config_fits (config : config_t) (w : world) : bool :=
  complete_nodes config config None false && short_names config &&
  (Z.of_nat (length (w_rtuns w) + length config) <=? MAX_TUNNELS) &&
  good_reorder_size (default 0 (_conf_set_uint_from_conf config "general" "reorder_buffer_size" 0 0)) &&
  forallb (tun_test w (fun tun => ordinary (t_name tun) && (found_in_config config (t_name tun) || has_addr tun))) (w_rtuns w).

(** ** The list the reader gives *)

Definition node_ok (n : config_node) : bool :=
  match conf n, section n with
  | Some _, Some _ | None, None => true
  | _, _ => false
  end.

Lemma end_line_ok s : forallb node_ok (ps_config s) = true -> forallb node_ok (ps_config (end_line s)) = true.
Proof.
  intros Hs. unfold end_line. destruct (_conf_strip_comment _) as [newline|]; [|done].
  destruct (_conf_get_section _); [done|]. destruct (_conf_parseLine _) as [o|]; [|done].
  destruct (ps_section s) as [sec|]; [|done]. unfold _conf_setValue. destruct (ps_config s) as [|first rest] eqn:Hc; [by rewrite <- Hc in Hs|].
  destruct (conf first); cbn [ps_config update]; [|done]. by rewrite forallb_app, Hs.
Qed.

Lemma parse_node_ok content read_error config :
  _conf_parseConfig content read_error = Some (Some config) -> forallb node_ok config = true.
Proof.
  unfold _conf_parseConfig. destruct (parse_chars content parse_start) as [s|] eqn:Hp; [|done]. cbn.
  destruct read_error; [done|]. intros [= <-].
  assert (forallb node_ok (ps_config parse_start) = true) as H0 by done. revert H0 Hp. generalize parse_start.
  induction content as [|c content IH]; intros s0 H0; cbn [parse_chars]; [by intros [= <-]|].
  destruct (parse_char s0 c) as [s1|] eqn:H1; [|done]. apply IH. revert H1. unfold parse_char.
  set (s2 := if ps_bufsize s0 <? _ then _ else _).
  assert (ps_config s2 = ps_config s0) as Hs2 by (unfold s2; by destruct (_ <? _)). rewrite <- Hs2 in H0.
  destruct (bool_decide _); [by intros [= <-]|]. destruct (_ <=? _); [done|].
  destruct (bool_decide _); intros [= <-]; [by apply end_line_ok|done].
Qed.

Section config.
Context `{SodiumLaws} (config : config_t).

(** ** Reading values *)

Lemma wp_conf_str sec ty def n (Q : option string -> world -> Prop) w :
  ((0 <? n) = true -> has_value config sec ty = true) ->
  (forall o, o = match (_conf_getValue config sec ty).1 with Some v => Some v | None => def end -> Q o w) ->
  wp (conf_str config sec ty def n) Q w.
Proof.
  intros Hn HQ. unfold conf_str, _conf_set_str_from_conf. unfold has_value in Hn.
  destruct (_conf_getValue config sec ty).1 as [v|]; [by apply HQ|].
  destruct (0 <? n); [by specialize (Hn eq_refl)|by apply HQ].
Qed.

Lemma pres_conf_str I sec ty def : preserves I (conf_str config sec ty def 0).
Proof. intros w Hw. by apply wp_conf_str. Qed.

Lemma wp_conf_uint sec ty def (Q : Z -> world -> Prop) w :
  (forall z, _conf_set_uint_from_conf config sec ty def 0 = Some z -> Q z w) -> wp (conf_uint config sec ty def) Q w.
Proof.
  intros HQ. unfold conf_uint, _conf_set_uint_from_conf in *. destruct (_conf_getValue config sec ty).1; by apply HQ.
Qed.

Lemma pres_conf_uint I sec ty def : preserves I (conf_uint config sec ty def).
Proof. intros w Hw. by apply wp_conf_uint. Qed.

(** ** The globals *)

(** The invariant, with the tunnels as in [w0]. *)
Definition G (w0 w : world) : Prop := winv w /\ w_tuns w = w_tuns w0 /\ w_rtuns w = w_rtuns w0.

Lemma winv_globals w (f : world -> world) :
  winv w -> w_tuns (f w) = w_tuns w -> w_rtuns (f w) = w_rtuns w -> w_status (f w) = w_status w ->
  w_wrr (f w) = w_wrr w -> w_trace (f w) = w_trace w -> w_process_title (f w) = w_process_title w ->
  w_filters (f w) = w_filters w -> w_data_seq (f w) = w_data_seq w -> stage_ok (f w) -> winv (f w).
Proof.
  intros [[S A N M T Go Nm Ti F D] [Y1 Y2 Y3 Y4 Y5]] Ht Hr Hs Hw Htr Hp Hf Hd Hst.
  assert (up_tunnels (f w) = up_tunnels w) as Hup.
  { unfold up_tunnels, tun_test. by rewrite Hr, Ht. }
  split; split; unfold rtuns_alloc; rewrite ?Hup, ?Ht, ?Hr, ?Hs, ?Hw, ?Htr, ?Hp, ?Hf, ?Hd; done.
Qed.

Lemma pres_G_modify w0 (f : world -> world) :
  (forall w, winv w -> stage_ok (f w)) ->
  (forall w, (w_tuns (f w), w_rtuns (f w), w_status (f w), w_wrr (f w), w_trace (f w), w_process_title (f w), w_filters (f w), w_data_seq (f w)) =
    (w_tuns w, w_rtuns w, w_status w, w_wrr w, w_trace w, w_process_title w, w_filters w, w_data_seq w)) ->
  preserves (G w0) (modify f).
Proof.
  intros Hst Heq w (Hw & Ht & Hr). apply wp_modify. pose proof (Heq w) as E. injection E as E1 E2 E3 E4 E5 E6 E7 E8.
  split_and!; [apply winv_globals; auto|congruence|congruence].
Qed.

Lemma pres_set_opts w0 f : preserves (G w0) (set_opts f).
Proof. apply pres_G_modify; [|done]. intros w Hw. destruct (v_stage _ (wv_0 _ Hw)). by split. Qed.

Lemma pres_set_tuntap w0 f :
  (forall t, tt_ok t -> tt_ok (f t)) -> preserves (G w0) (set_tuntap f).
Proof. intros Hf. apply pres_G_modify; [|done]. intros w Hw. destruct (v_stage _ (wv_0 _ Hw)). by split; [apply Hf|..]. Qed.

Create HintDb conf.
#[local] Hint Resolve pres_conf_str pres_conf_uint pres_set_opts preserves_ret : conf.

(** Through a sequence of readings and assignments. *)
Ltac conf_step :=
  repeat first
    [ solve [auto 2 with conf] | apply preserves_bind; [|intros ?] | apply preserves_when; intros _
    | match goal with |- preserves _ (match ?o with _ => _ end) => destruct o end ].

Lemma good_size size : good_reorder_size size = true -> 0 < size ->
  Reorder.pow2 size /\ 2 <= size <= Z.of_nat Reorder.drain_max.
Proof.
  intros Hg Hp. unfold good_reorder_size in Hg. apply orb_true_iff in Hg as [?%Z.eqb_eq|Hg]; [lia|].
  apply existsb_exists in Hg as (x & Hx & ->%Z.eqb_eq).
  assert (Forall (fun x => Reorder.pow2 x /\ 2 <= x <= Z.of_nat Reorder.drain_max)
    [2; 4; 8; 16; 32; 64; 128; 256; 512; 1024]) as Hall.
  { change 1024 with (2 ^ 10) at 1; change 512 with (2 ^ 9); change 256 with (2 ^ 8); change 128 with (2 ^ 7).
    change 64 with (2 ^ 6); change 32 with (2 ^ 5); change 16 with (2 ^ 4); change 8 with (2 ^ 3).
    repeat constructor; unfold Reorder.drain_max; try lia; try (by eexists; split; [|reflexivity]).
    - by exists 1.
    - by exists 2. }
  rewrite Forall_forall in Hall. apply Hall. by apply list_elem_of_In.
Qed.

(** A new reorder buffer holds nothing. *)
Lemma create_stage fb size :
  good_reorder_size size = true -> 0 < size ->
  Reorder.quiet (Reorder.mlvpn_reorder_create size) /\ in_use fb (held (Reorder.mlvpn_reorder_create size)).
Proof.
  intros Hg Hp. destruct (good_size size Hg Hp) as [Hp2 Hb]. destruct (Reorder.create_quiet _ Hp2 Hb) as (Hq & Hw & _).
  split; [done|]. assert (held (Reorder.mlvpn_reorder_create size) = []) as ->.
  { etransitivity; [apply (f_equal Reorder.somes Hw)|apply Reorder.somes_replicate]. }
  split; [constructor|set_solver].
Qed.

Lemma pres_config_reorder w0 size : 0 <= size -> good_reorder_size size = true -> preserves (G w0) (config_reorder size).
Proof.
  intros Hz Hg w HG. unfold config_reorder. wp_steps. apply wp_when; intros Hne; [|done]. wp_steps.
  destruct (Z.ltb_spec 0 size) as [Hp|].
  - assert (forall r, wp (set_opts (fun o => o <| o_reorder_buffer_size := size |>);; when true (set_reorder (Reorder.mlvpn_reorder_create size)))
      (fun _ => G w0) (w <| w_reorder := r |>)) as Hset.
    { intros r. unfold set_opts, set_reorder. wp_steps. cbn [when]. apply wp_modify. destruct HG as (Hw & Ht & Hr). split; [|done].
      apply (winv_globals w (fun w => w <| w_reorder := r |> <| w_options := _ |> <| w_reorder := _ |>)); try done.
      destruct (v_stage _ (wv_0 _ Hw)). split; [done|done|]. by apply create_stage. }
    destruct (_ && _); cbn [when]; wp_steps; [apply Hset|].
    assert (w = w <| w_reorder := w_reorder w |>) as Hid by (by destruct w). rewrite Hid. apply Hset.
  - assert (size = 0) as -> by lia. cbn [negb andb Z.eqb when]. wp_steps.
    eapply wp_mono; [by apply pres_set_opts|]. by intros [] w'.
Qed.

Lemma pres_config_start w0 sec : preserves (G w0) (config_start config sec).
Proof.
  assert (forall f, preserves (G w0) (modify (fun w => w <| w_status_command := f |>))) as Hsc.
  { intros f. apply pres_G_modify; [|done]. intros w Hw. destruct (v_stage _ (wv_0 _ Hw)). by split. }
  unfold config_start, copy_opt. conf_step; try apply Hsc; apply pres_set_tuntap; by intros t [].
Qed.

Lemma pres_config_addresses w0 sec : preserves (G w0) (config_addresses config sec).
Proof. unfold config_addresses, copy_opt_or. conf_step. Qed.

Lemma wp_config_general w0 first_time sec d w :
  G w0 w -> has_value config sec "mode" = true -> has_value config sec "password" = true ->
  good_reorder_size (default 0 (_conf_set_uint_from_conf config sec "reorder_buffer_size" 0 0)) = true ->
  wp (config_general config first_time sec d) (fun d' w' => G w0 w' /\
    df_server_mode d' = mystr_eq (_conf_getValue config sec "mode").1 (Some "server") || df_server_mode d) w.
Proof.
  intros HG Hm Hp Hg. unfold config_general. wp_steps.
  eapply wp_mono; [apply preserves_when; [intros _; apply pres_config_start|exact HG]|]. clear HG w. intros [] w HG. wp_steps.
  apply wp_conf_str; [done|]. intros mode Hmode. wp_steps. apply wp_conf_str; [done|]. intros password _. wp_steps.
  set (server := if mystr_eq mode (Some "server") then true else df_server_mode d).
  assert (server = mystr_eq (_conf_getValue config sec "mode").1 (Some "server") || df_server_mode d) as Hserver.
  { unfold server. subst mode. unfold has_value in Hm. apply bool_decide_eq_true_1 in Hm as [v ->]. by destruct (mystr_eq _ _). }
  clearbody server. cbv zeta.
  eapply wp_mono; [apply (fun H => H : preserves (G w0) _); [|exact HG]|].
  { destruct password; [|apply preserves_ret]. apply pres_G_modify; [|done]. intros w1 Hw1. destruct (v_stage _ (wv_0 _ Hw1)). by split. }
  clear HG w. intros [] w HG. wp_steps. apply wp_conf_uint. intros ct _. wp_steps.
  eapply wp_mono; [by apply pres_set_opts|]. clear HG w. intros [] w HG. wp_steps.
  apply wp_conf_uint. intros timeout _. wp_steps. apply wp_conf_uint. intros size Hsize. wp_steps. rewrite Hsize in Hg.
  eapply wp_mono; [apply (pres_config_reorder w0 size)|]; [|done|done|].
  { unfold _conf_set_uint_from_conf in Hsize.
    destruct (_conf_getValue config sec "reorder_buffer_size").1; injection Hsize as <-; [apply Z.mod_pos_bound; lia|lia]. }
  clear HG w. intros [] w HG. wp_steps. apply wp_conf_uint. intros loss _. wp_steps. apply wp_conf_uint. intros latency _.
  wp_steps. eapply wp_mono; [by apply pres_config_addresses|]. intros [] w' HG'. wp_steps. done.
Qed.
(** ** The tunnels *)

Record cinv (n : nat) (w : world) : Prop := {
  ci_winv : winv w;
  ci_room : Z.of_nat (length (w_rtuns w) + n) <= MAX_TUNNELS;
  ci_listed t tun : t ∈ w_rtuns w -> w_tuns w !! t = Some tun ->
    ordinary (t_name tun) = true /\ (found_in_config config (t_name tun) || has_addr tun) = true
}.

Lemma cinv_weaken n m w : cinv n w -> (m <= n)%nat -> cinv m w.
Proof. intros [] Hm. split; [done|lia|done]. Qed.

Lemma cinv_G n w0 w : cinv n w0 -> G w0 w -> cinv n w.
Proof. intros [C1 C2 C3] (Hw & Ht & Hr). split; [done|by rewrite Hr|]. rewrite Ht, Hr. apply C3. Qed.

(** A tunnel of the list has the name. *)
Definition named (w : world) (s : string) : Prop :=
  exists t tun, t ∈ w_rtuns w /\ w_tuns w !! t = Some tun /\ t_name tun = s.

(** The name of a tunnel, as a fact about the two maps. *)
Lemma named_fmap w s : named w s <-> exists t, t ∈ w_rtuns w /\ t_name <$> w_tuns w !! t = Some s.
Proof.
  unfold named. split; [intros (t & tun & Hin & Ht & <-); exists t; by rewrite Ht|].
  intros (t & Hin & (tun & Ht & ->)%fmap_Some). eauto.
Qed.

Lemma named_G w0 w s : G w0 w -> named w s <-> named w0 s.
Proof. intros (_ & Ht & Hr). unfold named. by rewrite Ht, Hr. Qed.

Lemma find_tunnel_spec name l w :
  Forall (fun t => is_Some (w_tuns w !! t)) l ->
  exists o, find_tunnel name l w = Ok o w /\
    match o with
    | Some t => t ∈ l /\ exists tun, w_tuns w !! t = Some tun /\ t_name tun = name
    | None => forall t tun, t ∈ l -> w_tuns w !! t = Some tun -> t_name tun <> name
    end.
Proof.
  induction 1 as [|t l [tun Ht] Hl IH].
  - exists None. split; [done|]. set_solver.
  - cbn [find_tunnel]. unfold mbind, M_bind, tun_get. rewrite Ht. cbn [mystr_eq]. destruct (decide (name = t_name tun)) as [Hn|Hn].
    + rewrite (bool_decide_eq_true_2 _ Hn). exists (Some t). split; [done|]. split; [set_solver|]. eauto.
    + rewrite (bool_decide_eq_false_2 _ Hn). destruct IH as (o & Ho & Hspec). exists o. split; [done|].
      destruct o as [x|]; [split; [set_solver|apply Hspec]|].
      intros x y [->|Hx]%elem_of_cons Hy; [by simplify_eq|]. by eapply Hspec.
Qed.

Lemma reconfigured_ok c tun : tun_ok tun -> tun_ok (reconfigured c tun).
Proof. intros [S1 S2 [W1 W2] R1 R2 B D A]. by split. Qed.

(** The tunnel after a reload. *)
Definition reloaded (c : tunnel_conf) (tun : mlvpn_tunnel_t) : mlvpn_tunnel_t :=
  reconfigured c (if ends_changed tun c then downed tun else tun).

Lemma wp_update_tunnel t c (Q : unit -> world -> Prop) w tun :
  winv w -> t ∈ w_rtuns w -> w_tuns w !! t = Some tun ->
  (forall w', winv w' -> w_rtuns w' = w_rtuns w -> w_tuns w' = <[t := reloaded c tun]> (w_tuns w) -> Q tt w') ->
  wp (update_tunnel t c) Q w.
Proof.
  intros Hw Hin Ht HQ. unfold update_tunnel. wp_steps. eapply wp_tun_get; [exact Ht|]. wp_steps.
  assert (forall w1 x, winv w1 -> w_rtuns w1 = w_rtuns w -> w_tuns w1 = <[t := x]> (w_tuns w) -> reconfigured c x = reloaded c tun ->
    wp (tun_upd t (reconfigured c)) Q w1) as Htail.
  { intros w1 x Hw1 Hr1 Heq Hx. assert (w_tuns w1 !! t = Some x) as Ht1 by (rewrite Heq; apply lookup_insert_eq).
    pose proof (reconfigured_ok c x (v_tuns _ (wv_0 _ Hw1) _ _ Ht1)) as Hok.
    eapply wp_tun_upd; [exact Ht1|]. apply HQ; [|done|].
    - split; [eapply winv0_put; [apply Hw1|by rewrite Hr1|done|done|done]|].
      destruct (wv_sync _ Hw1). split; rewrite ?(up_tunnels_put w1 t x (reconfigured c x) Ht1 eq_refl); done.
    - simpl. by rewrite Heq, insert_insert_eq, Hx. }
  unfold reloaded in *. destruct (ends_changed tun c); cbn [when].
  - eapply wp_status_down_any; [done|done|exact Ht|]. intros w1 Hw1 Hr1 Heq. by eapply Htail.
  - wp_steps. eapply (Htail w tun); [done|done| |done]. by rewrite insert_id.
Qed.

Lemma reloaded_keeps c tun : tun_ok tun -> t_name (reloaded c tun) = t_name tun /\ has_addr (reloaded c tun) = has_addr tun.
Proof.
  intros Hok. destruct (downed_ok tun Hok) as (_ & Hn & _ & Ha & _). unfold reloaded. by destruct (ends_changed tun c).
Qed.

(** What a section must have for its tunnel. *)
Definition ends_given (sec : string) (server : bool) : bool :=
  if server then has_value config sec "bindport"
  else has_value config sec "remotehost" && has_value config sec "remoteport".

Lemma has_value_not_none sec ty (o def : option string) :
  has_value config sec ty = true -> o = match (_conf_getValue config sec ty).1 with Some v => Some v | None => def end -> o <> None.
Proof. unfold has_value. intros [v ->]%bool_decide_eq_true_1. by intros ->. Qed.

Lemma wp_read_tunnel w0 sec d w :
  G w0 w -> ends_given sec (df_server_mode d) = true ->
  wp (read_tunnel config sec d) (fun c w' => G w0 w' /\ tc_bindaddr c = (_conf_getValue config sec "bindhost").1 /\
    if df_server_mode d then tc_bindport c <> None else tc_dstaddr c <> None /\ tc_dstport c <> None) w.
Proof.
  intros HG He. unfold read_tunnel. wp_steps.
  apply wp_conf_str; [done|]. intros bindaddr Hba. wp_steps. apply wp_conf_str.
  { unfold ends_given in He. by destruct (df_server_mode d). }
  intros bindport Hbp. wp_steps. apply wp_conf_uint. intros fib _. wp_steps. apply wp_conf_str.
  { unfold ends_given in He. destruct (df_server_mode d); [done|]. by apply andb_true_iff in He as [? _]. }
  intros dstaddr Hda. wp_steps. apply wp_conf_str.
  { unfold ends_given in He. destruct (df_server_mode d); [done|]. by apply andb_true_iff in He as [_ ?]. }
  intros dstport Hdp. wp_steps. apply wp_conf_uint. intros bw _. wp_steps. apply wp_conf_uint. intros timeout _. wp_steps.
  apply wp_conf_uint. intros loss _. wp_steps. apply wp_conf_uint. intros latency _. wp_steps.
  apply wp_conf_uint. intros fallback _. wp_steps. cbv zeta.
  eapply wp_mono; [apply preserves_when; [intros _; apply pres_set_opts|exact HG]|]. intros [] w' HG'. wp_steps. split; [done|].
  split; [cbn; subst bindaddr; by destruct (_conf_getValue config sec "bindhost").1|]. cbn [tc_bindport tc_dstaddr tc_dstport]. unfold ends_given in He. destruct (df_server_mode d); [exact (has_value_not_none _ _ _ _ He Hbp)|].
  apply andb_true_iff in He as [H1 H2]. split; [exact (has_value_not_none _ _ _ _ H1 Hda)|exact (has_value_not_none _ _ _ _ H2 Hdp)].
Qed.

Lemma wp_config_tunnel n sec d w :
  cinv (S n) w -> ordinary sec = true -> found_in_config config sec = true -> (String.length sec <= 29)%nat ->
  ends_given sec (df_server_mode d) = true ->
  wp (config_tunnel config sec d) (fun _ w' => cinv n w' /\ (forall s, named w' s <-> named w s \/ s = sec)) w.
Proof.
  intros HC Hord Hfound Hlen He. unfold config_tunnel. wp_steps.
  eapply wp_mono; [apply (wp_read_tunnel w); [split; [apply HC|done]|exact He]|]. intros c w1 (HG & _ & Hargs).
  pose proof (cinv_G _ _ _ HC HG) as HC1.
  assert (forall w', cinv n w' /\ (forall s, named w' s <-> named w1 s \/ s = sec) ->
    cinv n w' /\ (forall s, named w' s <-> named w s \/ s = sec)) as Hend.
  { intros w' [? Hn]. split; [done|]. intros s. by rewrite Hn, (named_G w w1 s HG). }
  wp_steps. destruct (find_tunnel_spec sec (w_rtuns w1) w1 (v_alloc _ (wv_0 _ (ci_winv _ _ HC1)))) as (o & Ho & Hspec).
  unfold wp at 1. rewrite Ho. destruct HC1 as [C1 C2 C3]. destruct o as [t|].
  - destruct Hspec as (Hin & tun & Ht & Hn). eapply wp_update_tunnel; [done|done|exact Ht|]. intros w2 Hw2 Hr2 Heq2. apply Hend.
    destruct (reloaded_keeps c tun (v_tuns _ (wv_0 _ C1) _ _ Ht)) as [Hkn Hka].
    split; [split; [done|rewrite Hr2; lia|]|].
    + intros x y Hix. rewrite Heq2, Hr2 in *. destruct (decide (x = t)) as [->|]; [|rewrite lookup_insert_ne by done; by apply C3].
      rewrite lookup_insert_eq. intros [= <-]. rewrite Hkn, Hka. by apply (C3 t).
    + assert (forall x, t_name <$> w_tuns w2 !! x = t_name <$> w_tuns w1 !! x) as Hx.
      { intros x. rewrite Heq2. destruct (decide (x = t)) as [->|]; [|by rewrite lookup_insert_ne].
        rewrite lookup_insert_eq, Ht. exact (f_equal Some Hkn). }
      intros s. rewrite !named_fmap, Hr2. setoid_rewrite Hx. split; [by left|]. intros [Hs| ->]; [done|].
      exists t. by rewrite Ht, <- Hn.
  - set (a := NewArgs sec (tc_bindaddr c) (tc_bindport c) (tc_bindfib c) (tc_dstaddr c) (tc_dstport c)
      (df_server_mode d) (tc_timeout c) (i32 (tc_fallback_only c)) (tc_bwlimit c) (tc_loss_tolerence c) (tc_latency_tolerence c)).
    wp_steps. eapply (wp_new a); [done| | |].
    + unfold may_add. rewrite !andb_true_iff. split_and!; [apply Z.ltb_lt; lia| |by apply orb_true_iff; right; apply Nat.leb_le].
      apply forallb_forall. intros t Hin%list_elem_of_In. unfold tun_test. destruct (w_tuns w1 !! t) as [tun|] eqn:Ht; [|done].
      apply negb_true_iff, bool_decide_eq_false_2. by eapply Hspec.
    + unfold lacks_args. cbn. destruct (df_server_mode d); [by apply bool_decide_eq_false_2|].
      destruct Hargs. by rewrite !bool_decide_eq_false_2.
    + intros t tun w2 Hw2 (Hfr & Heq2 & Hr2) Hn _. cbn in Hn. wp_steps. apply Hend.
      assert (forall x, x ∈ w_rtuns w1 -> x <> t) as Hne.
      { intros x Hix ->. destruct (proj1 (Forall_forall _ _) (v_alloc _ (wv_0 _ C1)) t Hix). congruence. }
      split; [split; [done|rewrite Hr2; simpl; lia|]|].
      * intros x y. rewrite Hr2, Heq2. intros [->|Hix]%elem_of_cons.
        -- rewrite lookup_insert_eq. intros [= <-]. by rewrite Hn, Hfound.
        -- rewrite lookup_insert_ne; [by apply C3|]. symmetry. by apply Hne.
      * intros s. rewrite !named_fmap, Hr2, Heq2. split.
        -- intros (x & [->|Hix]%elem_of_cons & Hx); [rewrite lookup_insert_eq in Hx; injection Hx as <-; by right|].
           rewrite lookup_insert_ne in Hx by (symmetry; by apply Hne). left. eauto.
        -- intros [(x & Hix & Hx)| ->]; [exists x; rewrite lookup_insert_ne by (symmetry; by apply Hne); set_solver|].
           exists t. rewrite lookup_insert_eq. simpl. rewrite Hn. set_solver.
Qed.
(** ** The loops *)

Lemma mystr_eq_some a b : mystr_eq (Some a) (Some b) = bool_decide (a = b).
Proof. done. Qed.

(** A section of the list is found in it. *)
Lemma section_found n sec : forallb node_ok config = true -> n ∈ config -> section n = Some sec -> found_in_config config sec = true.
Proof.
  intros Hok Hin Hs. unfold found_in_config. apply existsb_exists. exists n. split; [by apply list_elem_of_In|].
  rewrite forallb_forall in Hok. specialize (Hok n (proj1 (list_elem_of_In _ _) Hin)). unfold node_ok in Hok.
  rewrite Hs in *. destruct (conf n) as [c|]; [|done]. rewrite mystr_eq_some.
  by rewrite (bool_decide_eq_true_2 (sec = sec)), (bool_decide_eq_false_2 (Some c = None)).
Qed.

(** The last section was treated. *)
Definition treated (last : option string) (w : world) : Prop :=
  forall s, last = Some s -> ordinary s = true -> named w s.

Lemma wp_config_nodes first_time : forall work last d w,
  forallb node_ok config = true -> short_names config = true ->
  good_reorder_size (default 0 (_conf_set_uint_from_conf config "general" "reorder_buffer_size" 0 0)) = true ->
  (forall n, n ∈ work -> n ∈ config) -> complete_nodes config work last (df_server_mode d) = true ->
  cinv (length work) w -> treated last w ->
  wp (config_nodes config first_time work (last, d)) (fun _ w' => cinv 0 w' /\
    (forall s, named w' s <-> named w s \/ ordinary s = true /\ exists n, n ∈ work /\ section n = Some s)) w.
Proof.
  intros work. induction work as [|n work IH]; intros last d w Hok Hsh Hg Hsub Hcomp HC Htr.
  { cbn [config_nodes]. wp_steps. split; [done|]. intros s. split; [by left|]. intros [|(_ & n & Hn & _)]; [done|set_solver]. }
  assert (forall last' d' w1, cinv (length work) w1 -> treated last' w1 ->
    complete_nodes config work last' (df_server_mode d') = true ->
    (forall s, named w1 s <-> named w s \/ ordinary s = true /\ section n = Some s) ->
    wp (config_nodes config first_time work (last', d')) (fun _ w' => cinv 0 w' /\
      (forall s, named w' s <-> named w s \/ ordinary s = true /\ exists n0, n0 ∈ n :: work /\ section n0 = Some s)) w1) as Hgo.
  { intros last' d' w1 HC1 Htr1 Hc1 Hsec. eapply wp_mono; [apply IH; auto; set_solver|].
    intros st w2 (HC2 & Hn2). split; [done|]. intros s. rewrite Hn2, Hsec. setoid_rewrite elem_of_cons. naive_solver. }
  assert (cinv (length work) w) as HCw by (eapply cinv_weaken; [exact HC|simpl; lia]).
  cbn [config_nodes complete_nodes] in *. wp_steps. unfold config_node_step. destruct (section n) as [sec|] eqn:Hsec.
  2: { wp_steps. apply Hgo; try done. intros s. naive_solver. }
  destruct (mystr_eq (Some sec) last) eqn:Hsame.
  { apply mystr_eq_true in Hsame as (x & [= <-] & ->). wp_steps. apply Hgo; try done.
    intros s. split; [by left|]. intros [|[Hs [= <-]]]; [done|by apply Htr]. }
  destruct (mystr_eq (Some sec) (Some "general")) eqn:Hgen.
  - rewrite mystr_eq_some in Hgen. apply bool_decide_eq_true_1 in Hgen as ->.
    rewrite !andb_true_iff in Hcomp. destruct Hcomp as [[Hm Hp] Hcomp]. wp_steps.
    eapply wp_mono; [apply (wp_config_general w); [split; [apply HC|done]|done|done|done]|].
    intros d' w1 [HG Hd]. wp_steps. apply Hgo.
    + by eapply cinv_G.
    + intros s [= <-]. done.
    + by rewrite Hd.
    + intros s. rewrite (named_G w w1 s HG). split; [by left|]. intros [|[Hs [= <-]]]; done.
  - apply andb_true_iff in Hcomp as [Hends Hcomp]. destruct (is_filters sec) eqn:Hfi; cbn [negb] in *; wp_steps.
    + assert (ordinary sec = false) as Hord by (unfold ordinary; by rewrite Hfi, andb_false_r).
      apply Hgo; try done; [intros s [= <-]; congruence|]. intros s. split; [by left|]. intros [|[Hs [= <-]]]; congruence.
    + rewrite mystr_eq_some in Hgen. apply bool_decide_eq_false_1 in Hgen.
      assert (ordinary sec = true) as Hord by (unfold ordinary; rewrite Hfi, (bool_decide_eq_false_2 _ Hgen); done).
      assert (n ∈ config) as Hin by set_solver.
      eapply wp_mono; [apply (wp_config_tunnel (length work)); [done|done|by eapply section_found| |done]|].
      { unfold short_names in Hsh. rewrite forallb_forall in Hsh. specialize (Hsh n (proj1 (list_elem_of_In _ _) Hin)).
        rewrite Hsec in Hsh. by apply Nat.leb_le. }
      intros [] w1 [HC1 Hn1]. wp_steps. apply Hgo; try done; [intros s [= <-] _; apply Hn1; by right|].
      intros s. rewrite Hn1. naive_solver.
Qed.

(** The tunnels that are not in the file leave the list. *)
Lemma wp_drop_missing l w :
  NoDup l -> winv w ->
  (forall t, t ∈ l -> t ∈ w_rtuns w) ->
  (forall t tun, t ∈ l -> w_tuns w !! t = Some tun -> (found_in_config config (t_name tun) || has_addr tun) = true) ->
  wp (for_each l (drop_missing config)) (fun _ w' => winv w' /\
    forall t tun, (t ∈ w_rtuns w' /\ t_name <$> w_tuns w' !! t = Some tun) <->
      t ∈ w_rtuns w /\ t_name <$> w_tuns w !! t = Some tun /\ (t ∈ l -> found_in_config config tun = true)) w.
Proof.
  revert w. induction l as [|t l IH]; intros w Hnd Hw Hin Hadr; cbn [for_each].
  { wp_steps. split; [done|]. intros t tun. split; [intros [? ?]; split_and!; [done|done|set_solver]|by intros (? & ? & _)]. }
  apply NoDup_cons in Hnd as [Hnt Hnd]. assert (t ∈ w_rtuns w) as Hit by (apply Hin; set_solver).
  destruct (proj1 (Forall_forall _ _) (v_alloc _ (wv_0 _ Hw)) t Hit) as [tun Ht].
  wp_steps. unfold drop_missing at 1. wp_steps. eapply wp_tun_get; [exact Ht|].
  destruct (found_in_config config (t_name tun)) eqn:Hf; cbn [negb when].
  - wp_steps. eapply wp_mono; [apply IH; auto; set_solver|]. intros [] w' [Hw' Hspec]. split; [done|].
    intros x nm. rewrite Hspec. split; intros (H1 & H2 & H3); split_and!; try done; [|set_solver].
    intros [->|Hx]%elem_of_cons; [|by apply H3]. rewrite Ht in H2. simpl in H2. by injection H2 as <-.
  - assert (has_addr tun = true) as Ha.
    { specialize (Hadr t tun ltac:(set_solver) Ht). by rewrite Hf in Hadr. }
    destruct (wp_ok _ _ _ (drop_ok w t tun Hw Hit Ht Ha)) as ([] & w1 & Hd & Hw1 & Hr1).
    pose proof (keeps_drop (others t) t ltac:(done) w tt w1 Hd) as Hoth. unfold wp at 1. rewrite Hd.
    assert (forall x, x ∈ w_rtuns w1 <-> x ∈ w_rtuns w /\ x <> t) as Hmem.
    { intros x. rewrite Hr1, list_elem_of_filter. naive_solver. }
    eapply wp_mono; [apply IH; [done|done| |]|].
    + intros x Hx. apply Hmem. set_solver.
    + intros x y Hx. rewrite (others_lookup t w w1 x Hoth) by set_solver. apply Hadr. set_solver.
    + intros [] w' [Hw' Hspec]. split; [done|]. intros x nm. rewrite Hspec, Hmem. split.
      * intros ([H1 Hne] & H2 & H3). rewrite (others_lookup t w w1 x Hoth) in H2 by done. split_and!; [done|done|].
        intros [->|Hx]%elem_of_cons; [done|by apply H3].
      * intros (H1 & H2 & H3). assert (x <> t) as Hne.
        { intros ->. rewrite Ht in H2. injection H2 as <-. rewrite (H3 ltac:(set_solver)) in Hf. done. }
        rewrite (others_lookup t w w1 x Hoth) by done. split_and!; [done|done|done|]. intros Hx. apply H3. set_solver.
Qed.
(** ** The filters and the whole *)

Lemma winv_filters w fs : winv w -> Forall (fun f => is_Some (w_tuns w !! f.2)) fs -> winv (w <| w_filters := fs |>).
Proof. intros [[[S1 S2 S3] A N M T Go Nm Ti F D] []] Hf. split; [|by split]. by split. Qed.

Lemma wp_filters_add filter t w0 w :
  G w0 w -> is_Some (w_tuns w !! t) -> wp (mlvpn_filters_add filter t) (fun _ => G w0) w.
Proof.
  intros (Hw & Ht & Hr) Hs. unfold mlvpn_filters_add. wp_steps. apply wp_if; intros _; wp_steps; [done|].
  split; [|done]. apply winv_filters; [done|]. apply Forall_app. split; [apply Hw|]. by constructor.
Qed.

Lemma wp_filter_tunnels filter name w0 l : forall w,
  G w0 w -> Forall (fun t => is_Some (w_tuns w0 !! t)) l -> wp (filter_tunnels filter name l) (fun _ => G w0) w.
Proof.
  induction l as [|t l IH]; intros w HG Hl; cbn [filter_tunnels]; [done|].
  inversion Hl as [|? ? [tun Ht] Hl']; subst. wp_steps.
  assert (w_tuns w !! t = Some tun) as Htw by (destruct HG as (_ & -> & _); done).
  eapply wp_tun_get; [exact Htw|]. apply wp_if; intros _; [|by apply IH]. wp_steps.
  eapply wp_mono; [by apply wp_filters_add|]. intros r w1 HG1. apply wp_if; intros _; [by apply IH|done].
Qed.

Lemma pres_config_filter w0 n : node_ok n = true -> winv w0 -> preserves (G w0) (config_filter n).
Proof.
  intros Hn Hw0 w HG. unfold config_filter, node_ok in *. destruct (section n); [|done]. apply wp_when; intros _; [|done].
  destruct (conf n) as [c|]; [|done]. wp_steps. eapply wp_expect; [reflexivity|].
  destruct (os_pcap_compile (val c)); [|done]. wp_steps. apply wp_filter_tunnels; [done|].
  pose proof HG as (_ & _ & ->). apply Hw0.
Qed.

(** The tunnels of [w] are exactly those of the file. *)
Definition tunnels_of_config (w : world) : Prop :=
  forall s, named w s <-> ordinary s = true /\ exists n, n ∈ config /\ section n = Some s.

Lemma found_section s : found_in_config config s = true -> exists n, n ∈ config /\ section n = Some s.
Proof.
  unfold found_in_config. intros (n & Hin & Hn)%existsb_exists. apply andb_true_iff in Hn as [_ Hn].
  apply mystr_eq_true in Hn as (x & Hx & [= <-]). exists n. split; [by apply list_elem_of_In|done].
Qed.

(** [old] are the names before. *)
Lemma wp_after_nodes first_time (old : string -> Prop) w :
  forallb node_ok config = true -> cinv 0 w -> (first_time = true -> forall s, ~ old s) ->
  (forall s, named w s <-> old s \/ ordinary s = true /\ exists n, n ∈ config /\ section n = Some s) ->
  wp (when (negb first_time) (rtuns ← gets w_rtuns; for_each rtuns (drop_missing config)))
    (fun _ w' => winv w' /\ tunnels_of_config w') w.
Proof.
  intros Hok [Hw _ Hl] Hfirst Hnamed.
  assert (forall s, named w s -> ordinary s = true) as Hord.
  { intros s (t & tun & Hin & Ht & <-). by apply (Hl t tun). }
  destruct first_time; cbn [negb when].
  - wp_steps. split; [done|]. intros s. rewrite Hnamed. specialize (Hfirst eq_refl s). tauto.
  - wp_steps. eapply wp_mono; [apply wp_drop_missing; [apply Hw|apply Hw|done|]|].
    { intros t tun Hin Ht. by apply (Hl t tun). }
    intros [] w' [Hw' Hspec]. split; [done|]. intros s. rewrite named_fmap. split.
    + intros (t & Hin & Ht). destruct (proj1 (Hspec t s) (conj Hin Ht)) as (Hin' & Ht' & Hf).
      split; [|by apply found_section, Hf]. apply Hord, named_fmap. eauto.
    + intros [Ho Hn]. destruct (proj1 (named_fmap w s)) as (t & Hin & Ht); [apply Hnamed; by right|].
      exists t. apply Hspec. split_and!; [done|done|]. intros _. destruct Hn as (n & Hin' & Hs). by eapply section_found.
Qed.
End config.

Section whole.
Context `{SodiumLaws}.

(** The file can be loaded in the state [w]. *)
Definition file_fits (content : list ascii) (read_error : bool) (w : world) : bool :=
  match _conf_parseConfig content read_error with
  | Some (Some config) => config_fits config w
  | _ => true
  end.

(** The state in which the file is read. *)
Lemma fits_cinv config w : winv w -> config_fits config w = true -> cinv config (length config) w.
Proof.
  intros Hw Hf. unfold config_fits in Hf. rewrite !andb_true_iff in Hf. destruct Hf as [[[_ Hroom%Z.leb_le] _] Hl].
  split; [done|done|]. intros t tun Hin Ht. rewrite forallb_forall in Hl.
  specialize (Hl t (proj1 (list_elem_of_In _ _) Hin)). unfold tun_test in Hl. rewrite Ht in Hl.
  by apply andb_true_iff in Hl.
Qed.

Lemma tunnels_G config w0 w : G w0 w -> tunnels_of_config config w0 -> tunnels_of_config config w.
Proof. intros HG Ht s. rewrite (named_G w0 w s HG). apply Ht. Qed.

Lemma pres_filters config w0 :
  forallb node_ok config = true -> winv w0 -> forall l, (forall n, n ∈ l -> n ∈ config) -> preserves (G w0) (for_each l config_filter).
Proof.
  intros Hok Hw0 l. induction l as [|n l IH]; intros Hsub; cbn [for_each]; [apply preserves_ret|].
  apply preserves_bind; [|intros []; apply IH; set_solver]. apply pres_config_filter; [|done].
  rewrite forallb_forall in Hok. apply Hok, list_elem_of_In, Hsub. set_solver.
Qed.

(** The result of [mlvpn_config]. *)
Definition loaded (content : list ascii) (read_error : bool) (r : Z) (w' : world) : Prop :=
  match _conf_parseConfig content read_error with
  | Some (Some config) => r = 0 /\ tunnels_of_config config w'
  | _ => r = 1
  end.

Lemma wp_config content read_error first_time w :
  winv w -> file_fits content read_error w = true -> (first_time = true -> w_rtuns w = []) ->
  wp (mlvpn_config content read_error first_time) (fun r w' => winv w' /\ loaded content read_error r w') w.
Proof.
  intros Hw Hfits Hfirst. unfold mlvpn_config, set_opts, loaded. wp_steps.
  set (w1 := w <| w_options := _ |> <| w_filters := [] |>).
  assert (winv w1) as Hw1.
  { apply winv_filters; [|done]. apply (winv_globals w (fun w => w <| w_options := _ |>)); try done.
    destruct (v_stage _ (wv_0 _ Hw)). by split. }
  destruct (parse_total content read_error) as [c Hp]. unfold file_fits in Hfits. rewrite Hp in *.
  eapply wp_expect; [reflexivity|]. destruct read_error; [by wp_steps|].
  pose proof (parse_node_ok _ _ _ Hp) as Hok. pose proof (fits_cinv c w Hw Hfits) as HC.
  assert (cinv c (length c) w1) as HC1 by (by eapply cinv_G).
  unfold config_fits in Hfits. rewrite !andb_true_iff in Hfits. destruct Hfits as [[[[Hcomp Hsh] _] Hg] _].
  wp_steps. eapply wp_mono; [by eapply (wp_config_nodes c first_time c None defaults0)|].
  intros st w2 [HC2 Hn2]. wp_steps.
  eapply wp_mono; [apply (wp_after_nodes c first_time (named w1)); [done|done| |exact Hn2]|].
  { intros Hf s (t & tun & Hin & _). change (w_rtuns w1) with (w_rtuns w) in Hin. rewrite (Hfirst Hf) in Hin. set_solver. }
  intros [] w3 [Hw3 Ht3]. wp_steps.
  eapply wp_mono; [apply (pres_filters c w3 Hok Hw3 c); [done|by split]|]. intros [] w4 HG4. wp_steps.
  assert (forall path, wp (when first_time (emit (InitScript path))) (fun _ => G w3) w4) as Hscript.
  { intros path. apply wp_when; intros _; [|done]. destruct HG4 as (Hw4 & Ht4 & Hr4).
    pose proof (pres_winv_of_J (emit (InitScript path)) (fun w0 => pres_emit w0 (InitScript path) eq_refl) w4 Hw4) as Hwp.
    apply wp_ok in Hwp as ([] & w5 & He & Hw5). unfold wp. rewrite He. injection He as <-. by split. }
  destruct (w_status_command w4) as [path|].
  - wp_steps. eapply wp_mono; [apply Hscript|]. intros [] w5 HG5. wp_steps.
    split; [apply HG5|]. split; [done|]. by eapply (tunnels_G c w3).
  - wp_steps. split; [apply HG4|]. split; [done|]. by eapply (tunnels_G c w3).
Qed.

Lemma pres_reload fd content read_error w :
  winv w -> (fd <= 0 \/ file_fits content read_error w = true) ->
  wp (mlvpn_config_reload fd content read_error) (fun _ => winv) w.
Proof.
  intros Hw Hf. unfold mlvpn_config_reload. destruct (Z.ltb_spec 0 fd) as [Hfd|]; cbn [when]; [|by wp_steps].
  destruct Hf as [|Hf]; [lia|]. wp_steps. eapply wp_mono; [by apply wp_config|]. intros r w1 [Hw1 _].
  apply wp_when; intros _; [|done]. wp_steps. apply wp_ask. wp_steps. apply pres_recalc_weight.
  set (w2 := w1 <| w_calls := S (w_calls w1) |>). assert (winv w2) as [[[S1 S2 S3] A N M T Go Nm Ti F D] [Y1 Y2 Y3 Y4 Y5]] by (by apply winv_ask).
  split; [|by split]. by split.
Qed.

(** C23: after the configuration is read, at the start or on a reload, the
    tunnels of the list are exactly those of the file's sections, whatever was
    there before. *)
Theorem config_tunnels content read_error first_time w :
  winv w -> file_fits content read_error w = true -> (first_time = true -> w_rtuns w = []) ->
  exists r w', mlvpn_config content read_error first_time w = Ok r w' /\ loaded content read_error r w'.
Proof.
  intros Hw Hf Hfirst. destruct (wp_ok _ _ _ (wp_config content read_error first_time w Hw Hf Hfirst)) as (r & w' & Hr & _ & Hl).
  eauto.
Qed.
End whole.
