(* ===== verification/Daemon.v ===== *)
(** * The event loop

    One turn of the loop of [main] ([src/src/mlvpn.c]): an event whose watcher
    is active is handled.  From the state [main] builds, no event stops the
    process or reaches outside its objects, and the control state stays
    consistent. *)

From Stdlib Require Import Ascii String.
From S2P Require Import Prelude Double CString Timestamp Pkt Buffer Reorder Tunnel Loss Wrr Protocol Tuntap Rtun Stage Invariant Status Safety Events ConfigLib Config Reload.

(** ** Events *)

Inductive event :=
  | EvClock (now : double)
  | EvRtunRead (t : nat) (r : io_result) (data : list Z) (client : sockaddr)
  | EvRtunWrite (t : nat)
  | EvRtunTimer (t : nat)
  | EvTunRead (r : io_result) (data : list Z)
  | EvTunWrite
  | EvDrain
  | EvAdjust
  | EvNew (a : new_args)
  | EvDrop (t : nat)
  | EvFilter (filter t : nat)
  | EvRecalc
  | EvStart (content : list ascii)
  | EvReload (fd : Z) (content : list ascii) (read_error : bool)
  | EvQuit.

Definition is_break (e : effect) : bool := match e with Break => true | _ => false end.
(** [ev_break] was not called. *)
Definition running (w : world) : bool := negb (existsb is_break (w_trace w)).

Section daemon.
Context `{OS}.

Definition handle (ev : event) : W unit :=
  match ev with
  | EvClock now => modify (fun w => w <| w_now := now |>)
  | EvRtunRead t r data client => mlvpn_rtun_read t r data client
  | EvRtunWrite t => mlvpn_rtun_write t
  | EvRtunTimer t => mlvpn_rtun_check_timeout t
  | EvTunRead r data => tuntap_io_read r data
  | EvTunWrite => tuntap_io_write
  | EvDrain => mlvpn_rtun_reorder_drain_timeout
  | EvAdjust => mlvpn_rtun_adjust_reorder_timeout
  | EvNew a => rtun_new a;; mret tt
  | EvDrop t => mlvpn_rtun_drop t
  | EvFilter filter t => mlvpn_filters_add filter t;; mret tt
  | EvRecalc => mlvpn_rtun_recalc_weight
  | EvStart content => mlvpn_config content false true;; mret tt
  | EvReload fd content read_error => mlvpn_config_reload fd content read_error
  | EvQuit => mlvpn_quit
  end.

(** When an event may occur: its watcher is active; the device did not fail;
    a new tunnel fits and a removed one was resolved once; a configuration
    file fits the state. *)
Definition enabled (ev : event) (w : world) : bool :=
  running w &&
  match ev with
  | EvRtunRead t _ _ _ => tun_test w t_io_read t
  | EvRtunWrite t => tun_test w t_io_write t
  | EvRtunTimer t => tun_test w t_io_timeout t
  | EvTunRead r data => tun_readable r data
  | EvTunWrite => tt_io_write (w_tuntap w)
  | EvDrain => w_drain_timer w
  | EvNew a => may_add a w
  | EvDrop t => bool_decide (t ∈ w_rtuns w) && tun_test w has_addr t
  | EvFilter _ t => tun_test w (fun _ => true) t
  | EvStart content => bool_decide (w_rtuns w = []) && file_fits content false w
  | EvReload fd content read_error => (fd <=? 0) || file_fits content read_error w
  | _ => true
  end.

Inductive step : world -> world -> Prop :=
  | step_event ev w w' : enabled ev w = true -> handle ev w = Ok tt w' -> step w w'.

(** The state when [main] has read the general options of its configuration;
    the tunnels are the [EvNew] that follow. *)
Definition main_state (o : mlvpn_options_s) (title : option string) (key : list Z) : world :=
  World ∅ [] (Stat false 0 false 0 0) o mlvpn_tuntap_init 0
    (if 0 <? o_reorder_buffer_size o then Some (Reorder.mlvpn_reorder_create (o_reorder_buffer_size o)) else None)
    (Free.mlvpn_freebuffer_init 512) false (d_of_Z 0) (Wrr [] []) [] title None (d_of_Z 0) key 0 [].

(** The reorder buffer is disabled or has a size that [mlvpn_reorder_create]
    can use. *)
Definition good_options (o : mlvpn_options_s) : bool := good_reorder_size (o_reorder_buffer_size o).

Definition reachable (o : mlvpn_options_s) (title : option string) (key : list Z) (w : world) : Prop :=
  rtc step (main_state o title key) w.
End daemon.

Section safety.
Context `{SodiumLaws}.

(** An active watcher belongs to a tunnel of the list. *)
Lemma active_listed w t tun :
  winv w -> w_tuns w !! t = Some tun -> t_io_read tun || t_io_write tun || t_io_timeout tun = true -> t ∈ w_rtuns w.
Proof.
  intros Hw Ht Ha. destruct (decide (t ∈ w_rtuns w)) as [|Hn]; [done|].
  destruct (v_gone _ (wv_0 _ Hw) t tun Ht Hn) as (_ & H1 & H2 & H3). by rewrite H1, H2, H3 in Ha.
Qed.

Lemma tun_test_true w p t : tun_test w p t = true -> exists tun, w_tuns w !! t = Some tun /\ p tun = true.
Proof. unfold tun_test. destruct (w_tuns w !! t); naive_solver. Qed.

(** The socket watchers only run on tunnels with an address. *)
Lemma socket_K w t p :
  winv w -> tun_test w p t = true -> (forall tun, p tun = true -> t_io_read tun || t_io_write tun = true) ->
  K (w_rtuns w) t w.
Proof.
  intros Hw Ht Hp. apply tun_test_true in Ht as (tun & Ht & Hpt). specialize (Hp tun Hpt).
  split_and!; [done|done| |].
  - eapply active_listed; [done|done|]. by rewrite Hp.
  - exists tun. split; [done|]. apply (v_tuns _ (wv_0 _ Hw) _ _ Ht). unfold started.
    rewrite <- !orb_assoc, (orb_assoc (t_io_read tun)), Hp. by rewrite orb_true_r.
Qed.

Lemma pres_quit : preserves winv mlvpn_quit.
Proof.
  intros w Hw. unfold mlvpn_quit. wp_steps. set (rt := w_rtuns w).
  eapply wp_mono; [apply (wp_for_each _ _ (fun _ w' => winv w' /\ w_rtuns w' = rt))|]; [done| |].
  - intros t _ w1 Hin [Hw1 Hr1]. pose proof (conj Hw1 (conj Hr1 Hin) : E rt t w1) as HE.
    destruct (E_lookup rt t w1 HE) as (tun & Ht & Hok). wp_steps.
    eapply (wp_E_upd rt t w1 tun); [done|done| |done|done|].
    { destruct Hok as [S1 S2 [W1 W2] R1 R2 B D A]. split; try done. intros Hs. apply A. revert Hs.
      unfold started, t_up. simpl. destruct (status_up _), (t_io_read tun); simpl; try done. }
    intros w2 HE2. destruct (E_lookup rt t w2 HE2) as (tun2 & Ht2 & Hok2). wp_steps.
    unfold wp at 1, tun_get at 1. rewrite Ht2. apply wp_when; intros Hu; [|by destruct HE2 as (? & ? & _)].
    eapply wp_mono; [apply (pres_disconnect rt t)|].
    + eapply K_of_E; [done|done|by apply up_has_addr].
    + intros [] w3 (? & ? & _). done.
  - intros [] w' [Hw' _]. apply (pres_winv_of_J (emit Break)); [|done]. intros w0. by apply pres_emit.
Qed.

Lemma handle_ok ev w : winv w -> enabled ev w = true -> wp (handle ev) (fun _ => winv) w.
Proof.
  intros Hw Hen. unfold enabled in Hen. apply andb_true_iff in Hen as [_ Hen].
  destruct ev as [now|t r data client|t|t|r data| | | |a|t|f t| |content|fd content err|]; cbn [handle].
  - apply wp_modify. destruct Hw as [[[S1 S2 S3] A N M T G Nm Ti F D] []]. split; [|by split]. by split.
  - eapply wp_mono; [apply (pres_read (w_rtuns w) t)|by intros [] ? (? & _)].
    eapply socket_K; [done|exact Hen|]. by intros tun ->.
  - eapply wp_mono; [apply (pres_write (w_rtuns w) t)|by intros [] ? (? & _)].
    eapply socket_K; [done|exact Hen|]. intros tun ->. apply orb_true_r.
  - apply tun_test_true in Hen as (tun & Ht & Hto).
    eapply wp_mono; [apply (pres_check_timeout (w_rtuns w) t)|by intros [] ? (? & _)].
    split_and!; [done|done|]. eapply active_listed; [done|done|]. by rewrite Hto, orb_true_r.
  - by apply pres_tun_read.
  - by apply tun_write_ok.
  - by apply drain_timer_ok.
  - by apply pres_adjust.
  - wp_steps. eapply wp_mono; [by apply pres_new|done].
  - apply andb_true_iff in Hen as [Hin%bool_decide_eq_true_1 (tun & Ht & Ha)%tun_test_true].
    eapply wp_mono; [by eapply drop_ok|by intros [] ? [? _]].
  - apply tun_test_true in Hen as (tun & Ht & _). wp_steps.
    eapply wp_mono; [apply (wp_filters_add f t w); [by split|by eexists]|]. by intros r w' (? & _).
  - by apply pres_recalc_weight.
  - apply andb_true_iff in Hen as [Hr%bool_decide_eq_true_1 Hf]. wp_steps. eapply wp_mono; [by apply wp_config|].
    by intros r w' [? _].
  - apply pres_reload; [done|]. apply orb_true_iff in Hen as [?%Z.leb_le|?]; [by left|by right].
  - by apply pres_quit.
Qed.

Lemma main_winv o title key : good_options o = true -> winv (main_state o title key).
Proof.
  intros Hg. destruct (Ring.init_spec PKTBUFSIZE) as (Hv & Hcont & Hcap); [done|].
  assert (stage_ok (main_state o title key)) as Hs.
  { split; simpl.
    - split; [|done|done]. split; [done|done|]. apply Forall_replicate. by split.
    - split; [by apply Free.init_inv|]. apply Forall_replicate. by split.
    - destruct (Z.ltb_spec 0 (o_reorder_buffer_size o)) as [Hp|]; [|done]. by apply create_stage. }
  split; [|by split]. split; simpl; try done.
  - constructor.
  - apply NoDup_nil_2.
  - right. set_solver.
Qed.

Lemma reachable_winv o title key w : good_options o = true -> reachable o title key w -> winv w.
Proof.
  intros Hg Hr. unfold reachable in Hr. apply (rtc_ind_r (R := step) (fun w => winv w) (main_state o title key)); [by apply main_winv| |done].
  intros w1 w2 _ Hst Hw1. inversion Hst as [ev ? ? Hen Hh]; subst.
  pose proof (handle_ok ev w1 Hw1 Hen) as Hwp. unfold wp in Hwp. by rewrite Hh in Hwp.
Qed.
End safety.

(** ** Runs

    [run] executes events one after the other; a run from [main_state] is a
    reachable state. *)
Section run.
Context `{OS}.

Definition run1 (ev : event) (w : world) : option world :=
  if enabled ev w then match handle ev w with Ok _ w' => Some w' | Fault _ => None end else None.
Fixpoint run (evs : list event) (w : world) : option world :=
  match evs with
  | [] => Some w
  | ev :: evs => w ← run1 ev w; run evs w
  end.

Lemma run_step ev w w' : run1 ev w = Some w' -> step w w'.
Proof.
  unfold run1. destruct (enabled ev w) eqn:He; [|done]. destruct (handle ev w) as [[] w1|] eqn:Hh; [|done].
  intros [= <-]. by eapply step_event.
Qed.

Lemma run_rtc evs : forall w w', run evs w = Some w' -> rtc step w w'.
Proof.
  induction evs as [|ev evs IH]; intros w w'; cbn [run]; [intros [= <-]; done|].
  destruct (run1 ev w) as [w1|] eqn:H1; [|done]. intros Hr. eapply rtc_l; [by eapply run_step|by apply IH].
Qed.

(** A run whose end passes a test. *)
Lemma run_witness o title key evs p :
  match run evs (main_state o title key) with Some w => p w | None => false end = true ->
  exists w, reachable o title key w /\ p w = true.
Proof.
  destruct (run evs _) as [w|] eqn:Hr; [|done]. intros Hp. exists w. split; [|done]. by eapply run_rtc.
Qed.
End run.

(** ** A client that connects

    Used to show that the hypotheses of the theorems can hold: a tunnel is
    created, its timer starts it and sends the challenge, the answer of the
    server connects it, and a packet comes from the device. *)
Definition demo_options : mlvpn_options_s :=
  Opts "" "" "" "10.42.42.2/30" "" "10.42.42.1" "" "" "" 1400 false 64 false.
Definition demo_args : new_args :=
  NewArgs "adsl" None None 0 (Some "192.0.2.1") (Some "5080") false 30 0 128000 100 1000.
Definition demo_key : list Z := [1; 2; 3].
(** The datagram of a peer: the packet [p] sent from a fresh tunnel. *)
Definition demo_dgram (p : mlvpn_pkt_t) : list Z :=
  match encap_dgram (rtun_encap (H := os_ideal) false demo_key 0 0 tun_zero p) with Some d => d | None => [] end.
Definition demo_auth_ok : list Z := demo_dgram (fill_two 79 75 MLVPN_PKT_AUTH_OK zero_pkt).
Definition demo_client : sockaddr := SA [2; 0; 20; 81; 10; 0; 0; 1] 8.
Definition demo_events : list event :=
  [EvNew demo_args; EvRecalc; EvClock (d_of_Z 1); EvRtunTimer 0; EvRtunWrite 0;
   EvRtunRead 0 (IoOk (Z.of_nat (length demo_auth_ok))) demo_auth_ok demo_client;
   EvTunRead (IoOk 3) [69; 0; 1]].

Definition demo_ok (w : world) : bool :=
  bool_decide (wrr_tunnel (w_wrr w) = [O]) && s_initialized (w_status w) &&
  enabled (EvRtunWrite 0) w && tun_test w t_up 0 && bool_decide (w_rtuns w = [O]) && negb (w_drain_timer w).

Lemma demo_facts w : demo_ok w = true ->
  O ∈ wrr_tunnel (w_wrr w) /\ s_initialized (w_status w) = true /\ enabled (EvRtunWrite 0) w = true /\
  exists tun, w_tuns w !! O = Some tun /\ t_up tun = true.
Proof.
  unfold demo_ok. rewrite !andb_true_iff. intros (((((Hw%bool_decide_eq_true_1 & Hi) & He) & Hu) & _) & _).
  split_and!; [rewrite Hw; set_solver|done|done|]. unfold tun_test in Hu. destruct (w_tuns w !! O); naive_solver.
Qed.

Lemma demo_run : exists w, reachable (H := os_ideal) demo_options (Some "mlvpn") demo_key w /\ demo_ok w = true.
Proof. apply run_witness with (evs := demo_events). vm_compute. reflexivity. Qed.

(** ** What holds of every reachable state *)



(** C16: the scheduler's table only ever holds tunnels of the list that are
    connected, so that no packet is queued on a tunnel that is down or gone. *)
Theorem scheduler_connected `{SodiumLaws} o title key w t :
  good_options o = true -> reachable o title key w -> t ∈ wrr_tunnel (w_wrr w) ->
  t ∈ w_rtuns w /\ tun_test w t_up t = true.
Proof.
  intros Hg Hr Ht. destruct (wv_sync _ (reachable_winv o title key w Hg Hr)) as [_ _ Hw _ _].
  rewrite Forall_forall in Hw. specialize (Hw t Ht). unfold up_tunnels in Hw.
  apply list_elem_of_filter in Hw as [? ?]. done.
Qed.

Lemma scheduler_connected_witness : exists w, O ∈ wrr_tunnel (w_wrr w) /\ O ∈ w_rtuns w /\ tun_test w t_up O = true.
Proof.
  destruct demo_run as (w & Hr & Hd). exists w. pose proof (demo_facts w Hd) as (Ht & _). split; [exact Ht|].
  exact (@scheduler_connected os_ideal os_ideal_sodium demo_options (Some "mlvpn") demo_key w O eq_refl Hr Ht).
Defined.

(** C18: [mlvpn_status.connected] is the number of connected tunnels of the
    list, and the interface is initialized exactly when there is one. *)
Theorem connected_count `{SodiumLaws} o title key w :
  good_options o = true -> reachable o title key w ->
  s_connected (w_status w) = Z.of_nat (length (up_tunnels w)) /\
  (s_initialized (w_status w) = true <-> up_tunnels w <> []).
Proof.
  intros Hg Hr. destruct (wv_sync _ (reachable_winv o title key w Hg Hr)) as [Hc Hi _ _ _].
  split; [done|]. rewrite Hi, Hc, Z.ltb_lt. destruct (up_tunnels w); simpl; split; try done; lia.
Qed.

Lemma connected_count_witness : exists w, s_initialized (w_status w) = true /\
  s_connected (w_status w) = Z.of_nat (length (up_tunnels w)) /\
  (s_initialized (w_status w) = true <-> up_tunnels w <> []).
Proof.
  destruct demo_run as (w & Hr & Hd). exists w. split; [apply (demo_facts w Hd)|].
  exact (@connected_count os_ideal os_ideal_sodium demo_options (Some "mlvpn") demo_key w eq_refl Hr).
Defined.

(** C17: the tuntap_up and tuntap_down scripts alternate, up first: the
    interface is never configured twice nor taken down before it is up, and
    the last of them is the state of the interface. *)
Theorem scripts_alternate `{SodiumLaws} o title key w :
  good_options o = true -> reachable o title key w ->
  alternate false (updown (w_trace w)) = Some (s_initialized (w_status w)).
Proof. intros Hg Hr. apply (wv_sync _ (reachable_winv o title key w Hg Hr)). Qed.

Lemma scripts_alternate_witness : exists w, s_initialized (w_status w) = true /\
  alternate false (updown (w_trace w)) = Some (s_initialized (w_status w)).
Proof.
  destruct demo_run as (w & Hr & Hd). exists w. split; [apply (demo_facts w Hd)|].
  exact (@scripts_alternate os_ideal os_ideal_sodium demo_options (Some "mlvpn") demo_key w eq_refl Hr).
Defined.

(** The delay between two connection attempts of a tunnel is one of 1, 2,
    4, ..., 64 seconds: the doubling stops at the first delay that is not
    below the maximum of 60. *)
Theorem retry_delays `{SodiumLaws} o title key w t tun :
  good_options o = true -> reachable o title key w -> w_tuns w !! t = Some tun ->
  exists k, 0 <= k <= 6 /\ t_io_timeout_repeat tun = d_of_Z (2 ^ k).
Proof.
  intros Hg Hr Ht. pose proof (v_tuns _ (wv_0 _ (reachable_winv o title key w Hg Hr)) _ _ Ht) as Hok.
  pose proof (tk_repeat _ Hok) as Hd. unfold delays in Hd. apply list_elem_of_fmap in Hd as (z & -> & Hz).
  assert (z = 2 ^ Z.log2 z /\ 0 <= Z.log2 z <= 6) as [Hz1 Hz2].
  { revert Hz. rewrite !elem_of_cons. intros Hz. repeat destruct Hz as [->|Hz]; [..|set_solver]; vm_compute; intuition discriminate. }
  exists (Z.log2 z). split; [done|]. by rewrite <- Hz1.
Qed.

Lemma retry_delays_witness : exists w tun, w_tuns w !! O = Some tun /\
  exists k, 0 <= k <= 6 /\ t_io_timeout_repeat tun = d_of_Z (2 ^ k).
Proof.
  destruct demo_run as (w & Hr & Hd).
  pose proof (demo_facts w Hd) as (_ & _ & _ & tun & Ht & _).
  exists w, tun. split; [exact Ht|].
  exact (@retry_delays os_ideal os_ideal_sodium demo_options (Some "mlvpn") demo_key w O tun eq_refl Hr Ht).
Defined.
