(* ===== verification/Behaviour.v ===== *)
(** * What the handlers achieve

    The functional side of the handlers of [Rtun], on the states where the
    invariant holds: a packet crosses a tunnel, the authentication exchange
    connects both ends, a silent peer is disconnected, a lossy tunnel leaves
    the scheduler's table; and what happens where the code goes wrong. *)

From Stdlib Require Import Ascii String.
From S2P Require Import Prelude Double CString Timestamp Pkt Buffer Reorder Tunnel Loss Wrr Protocol Tuntap Rtun Frame Stage Invariant Status Safety Events ConfigLib Config Reload Daemon.

(** ** Reception of a datagram *)

Section reception.
Context `{SodiumLaws}.

(** The tunnel [t] is in the list of [w], is [tun] and has an address. *)
Record at_tun (w : world) (t : nat) (tun : mlvpn_tunnel_t) : Prop := {
  at_inv : winv w;
  at_in : t ∈ w_rtuns w;
  at_look : w_tuns w !! t = Some tun;
  at_addr : has_addr tun = true
}.

Lemma at_K w t tun : at_tun w t tun -> K (w_rtuns w) t w.
Proof. intros []. split_and!; eauto. Qed.

(** What the daemon makes of the datagram [data] of [len] bytes. *)
Definition decap_of (w : world) (tun : mlvpn_tunnel_t) (len : Z) (data : list Z) :
    option (mlvpn_tunnel_t * mlvpn_pkt_t) :=
  mlvpn_protocol_read (o_cleartext_data (w_options w)) (w_key w) (mlvpn_timestamp64 (w_now w)) tun
    (Pkt (u16 len) 0 0 0 data).

(** The tunnel after an accepted datagram, with the counters and the address. *)
Definition heard (tun : mlvpn_tunnel_t) (ai : list sockaddr) (rb rp : Z) : mlvpn_tunnel_t :=
  tun <| t_recvbytes := rb |> <| t_recvpackets := rp |> <| t_addrinfo := ai |>.

(** The sender's address is always accepted. *)
Lemma learn_addr_spec w t tun client :
  w_tuns w !! t = Some tun -> has_addr tun = true ->
  exists ai n, learn_addr t client w =
    Ok true (w <| w_tuns := <[t := tun <| t_addrinfo := ai |>]> (w_tuns w) |> <| w_calls := n |>) /\ ai <> [].
Proof.
  intros Ht Ha. unfold has_addr in Ha. destruct (t_addrinfo tun) as [|a l] eqn:Hai; [done|].
  assert (forall x, x = w -> w = x <| w_tuns := <[t := tun <| t_addrinfo := a :: l |>]> (w_tuns x) |> <| w_calls := w_calls x |>) as Hid.
  { intros x ->. destruct w. simpl in *. f_equal. symmetry. apply insert_id. rewrite Ht. f_equal.
    destruct tun. simpl in *. by subst. }
  unfold learn_addr. unfold mbind at 1, M_bind at 1, tun_get at 1. rewrite Ht, Hai. cbn [lookup list_lookup expect].
  unfold mbind at 1, M_bind at 1, mret at 1, M_ret at 1. destruct (same_addr a client).
  { exists (a :: l), (w_calls w). split; [|done]. by rewrite <- (Hid w eq_refl). }
  assert ((status_rank MLVPN_AUTHOK <=? (if status_rank (t_status tun) =? 0 then 1 else 0)) = false) as ->.
  { by destruct (t_status tun). }
  unfold mbind at 1, M_bind at 1, ask at 1. destruct (os_getnameinfo (w_calls w) <? 0).
  - exists (a :: l), (S (w_calls w)). split; [|done]. cbn. unfold mbind, M_bind, mret, M_ret. f_equal.
    rewrite (Hid w eq_refl) at 1. done.
  - exists (copy_addr client a :: l), (S (w_calls w)). split; [|done]. cbn [negb when].
    unfold tun_upd, tun_put, modify, mbind, M_bind, tun_get, mret, M_ret. simpl. rewrite Ht, Hai. done.
Qed.

Lemma read_accepted w t tun len data client tun' decap :
  at_tun w t tun -> 0 < len -> decap_of w tun len data = Some (tun', decap) ->
  exists ai rb rp n,
    let w1 := w <| w_tuns := <[t := heard tun' ai rb rp]> (w_tuns w) |> <| w_calls := n |> in
    mlvpn_rtun_read t (IoOk len) data client w = rtun_dispatch t decap w1 /\
    at_tun w1 t (heard tun' ai rb rp) /\ t_ctl tun' = t_ctl tun /\ pkt_ok decap /\ 0 <= pkt_seq decap < 2 ^ 64.
Proof.
  intros [Hw Hin Ht Ha] Hlen Hd. pose proof (v_tuns _ (wv_0 _ Hw) _ _ Ht) as Hok. simpl in Hok.
  destruct (protocol_read_ok _ _ _ _ _ _ _ _ Hok Hd) as (Hok' & Hct & Hp & Hs).
  assert (has_addr tun' = has_addr tun) as Hat by exact (f_equal snd Hct).
  set (rb := u64 (t_recvbytes tun' + len)). set (rp := u64 (t_recvpackets tun' + 1)).
  set (x := tun' <| t_recvbytes := rb |> <| t_recvpackets := rp |>).
  set (w0 := w <| w_tuns := <[t := x]> (w_tuns w) |>).
  destruct (learn_addr_spec w0 t x client) as (ai & n & Hl & Hai).
  { apply lookup_insert_eq. }
  { change (has_addr tun' = true). by rewrite Hat. }
  exists ai, rb, rp, n. cbv zeta.
  assert (w <| w_tuns := <[t := heard tun' ai rb rp]> (w_tuns w) |> <| w_calls := n |> =
    w0 <| w_tuns := <[t := x <| t_addrinfo := ai |>]> (w_tuns w0) |> <| w_calls := n |>) as Heq.
  { unfold w0. simpl. f_equal. by rewrite insert_insert_eq. }
  assert (tun_ok (heard tun' ai rb rp) /\ t_ctl (heard tun' ai rb rp) = t_ctl tun') as [Hokh Hcth].
  { assert (has_addr (heard tun' ai rb rp) = has_addr tun') as Hah.
    { unfold has_addr at 1. simpl. rewrite Hat, Ha. by destruct ai. }
    split; [|unfold t_ctl; by rewrite Hah].
    destruct Hok' as [S1 S2 [W1 W2] R1 R2 B D A]. split; try done. intros Hst. rewrite Hah. by apply A. }
  split_and!.
  - unfold mlvpn_rtun_read. rewrite (proj2 (Z.eqb_neq _ _)) by lia. cbn [negb when].
    unfold mbind at 1, M_bind at 1, ev_now at 1, gets at 1. unfold mbind at 1, M_bind at 1, gets at 1.
    unfold mbind at 1, M_bind at 1, gets at 1. unfold mbind at 1, M_bind at 1, tun_get at 1. rewrite Ht.
    unfold decap_of in Hd. rewrite Hd. unfold mbind at 1, M_bind at 1, tun_put at 1, modify at 1.
    fold rb rp x w0. unfold mbind at 1, M_bind at 1. rewrite Hl. cbn [when]. by rewrite Heq.
  - split; [|done|apply lookup_insert_eq|exact (eq_trans (f_equal snd Hcth) (eq_trans Hat Ha))].
    apply winv_ask. split.
    + eapply winv0_put; [apply Hw|done|done|done|]. rewrite Hct in Hcth. by injection Hcth.
    + assert (t_up (heard tun' ai rb rp) = t_up tun) as Hu.
      { exact (f_equal (fun c => status_up c.1.1.2) (eq_trans Hcth Hct)). }
      destruct (wv_sync _ Hw). split; rewrite ?(up_tunnels_put w t tun _ Ht Hu); done.
  - done.
  - done.
  - apply Hs.
  - apply Hs.
Qed.

Lemma dispatch_data_down w t tun decap :
  w_tuns w !! t = Some tun -> t_up tun = false -> pkt_type decap = MLVPN_PKT_DATA ->
  rtun_dispatch t decap w = Ok tt w.
Proof.
  intros Ht Hu Hty. unfold rtun_dispatch, mbind, M_bind, tun_get. rewrite Ht, Hty. cbn. by rewrite Hu.
Qed.

(** A packet copied to the device's ring. *)
Definition deliver (pkt : mlvpn_pkt_t) (tt : tuntap_s) : tuntap_s :=
  let tt := tt <| tt_sbuf := Ring.push (fun slot =>
      slot <| pkt_len := pkt_len pkt |>
           <| pkt_data := memcpy (pkt_data slot) (pkt_data pkt) (Z.to_nat (pkt_len pkt)) |>) (tt_sbuf tt) |> in
  if negb (tt_io_write tt) then tt <| tt_io_write := true |> else tt.

Lemma deliver_spec pkt tt :
  tt_ok tt -> pkt_ok pkt ->
  exists q, Ring.contents (tt_sbuf (deliver pkt tt)) =
      drop (length (Ring.contents (tt_sbuf tt)) + 1 - cap) (Ring.contents (tt_sbuf tt)) ++ [q] /\
    payload q = payload pkt /\ tt_io_write (deliver pkt tt) = true.
Proof.
  intros [Hr _ _] [Hl Ht Hd]. unfold deliver.
  destruct (Ring.push_spec (tt_sbuf tt) (fun slot => slot <| pkt_len := pkt_len pkt |>
           <| pkt_data := memcpy (pkt_data slot) (pkt_data pkt) (Z.to_nat (pkt_len pkt)) |>))
    as (slot & Hc & _); [apply Hr|rewrite (Ring.ri_capacity _ _ _ Hr); apply cap_pos|].
  rewrite (Ring.ri_capacity _ _ _ Hr) in Hc. eexists. split; [|split].
  - destruct (negb _); exact Hc.
  - unfold payload. simpl. rewrite take_memcpy; [done|lia].
  - cbv zeta. cbn [tt_io_write update]. destruct (tt_io_write tt) eqn:E; cbn; done.
Qed.

Lemma dispatch_data_up w t tun decap :
  w_tuns w !! t = Some tun -> t_up tun = true -> pkt_type decap = MLVPN_PKT_DATA -> w_reorder w = None ->
  rtun_dispatch t decap w =
  Ok tt (w <| w_tuns := <[t := tun <| t_last_activity := w_now w |>]> (w_tuns w) |>
           <| w_tuntap := deliver decap (w_tuntap w) |>).
Proof.
  intros Ht Hu Hty Hr. unfold rtun_dispatch. unfold mbind at 1, M_bind at 1, tun_get at 1. rewrite Ht, Hty.
  cbn [Z.eqb MLVPN_PKT_DATA Pos.eqb]. rewrite Hu. cbn [when].
  unfold mbind at 1, M_bind at 1, mlvpn_rtun_tick at 1, tun_upd, tun_put, ev_now.
  unfold mbind at 1, M_bind at 1, gets at 1. unfold mbind at 1, M_bind at 1, tun_get at 1. rewrite Ht.
  unfold modify at 1. unfold mbind at 1, M_bind at 1, mlvpn_rtun_recv_data at 1.
  unfold mbind at 1, M_bind at 1, gets at 1. cbn [w_reorder update]. rewrite Hr. done.
Qed.


(** ** A packet crosses a tunnel *)

(** What emission leaves alone. *)
Definition sends_as (t : nat) (tun : mlvpn_tunnel_t) (w w' : world) : Prop :=
  w_key w' = w_key w /\ w_options w' = w_options w /\
  exists tun', at_tun w' t tun' /\ t_status tun' = t_status tun /\ t_server_mode tun' = t_server_mode tun.

Lemma send_ok w t tun hp p l n dgram :
  at_tun w t tun -> Ring.contents (ring_of hp tun) = p :: l -> os_sendto (w_calls w) = IoOk n ->
  encap_dgram (rtun_encap (o_cleartext_data (w_options w)) (w_key w) (mlvpn_timestamp64 (w_now w))
    (w_data_seq w) tun p) = Some dgram ->
  exists w', mlvpn_rtun_send t hp w = Ok n w' /\ w_trace w' = w_trace w ++ [Sent t dgram] /\ sends_as t tun w w'.
Proof.
  intros Hat Hc Hs Hd. pose proof Hat as [Hw Hin Ht Ha]. pose proof (v_tuns _ (wv_0 _ Hw) _ _ Ht) as Hok. simpl in Hok.
  assert (Ring.ring_inv tx_ok cap (ring_of hp tun)) as Hri by (destruct hp; apply Hok).
  destruct (Ring.pop_spec (ring_of hp tun) p l) as (Hp & _); [apply Hri|done|].
  unfold Ring.pop in Hp. destruct (Ring.mlvpn_pktbuffer_read (ring_of hp tun)) as [slot ring] eqn:Hrd. cbn [fst] in Hp.
  destruct (Ring.read_inv _ _ cap_pos _ _ _ Hri Hrd) as [_ [[Hlp _ _] _ _]].
  set (e := rtun_encap _ _ _ _ _ _) in Hd.
  destruct (encap_frame (o_cleartext_data (w_options w)) (w_key w) (mlvpn_timestamp64 (w_now w)) (w_data_seq w) tun p)
    as (_ & _ & st & sr & Hfr). fold e in Hfr.
  assert (wp (mlvpn_rtun_send t hp) (fun r w' => (r = n /\ w_trace w' = w_trace w ++ [Sent t dgram] /\
    w_key w' = w_key w /\ w_options w' = w_options w) /\ exists tun', w_tuns w' !! t = Some tun' /\
      t_status tun' = t_status tun /\ t_server_mode tun' = t_server_mode tun) w) as Hwp.
  { unfold mlvpn_rtun_send, ev_now. wp_steps. cbv zeta. eapply wp_tun_get; [exact Ht|]. rewrite Hrd.
    rewrite (proj2 (Z.ltb_ge _ _)) by apply Hlp. rewrite Hp. wp_steps. fold e. rewrite Hd.
    set (ring' := Ring.pkt_store _ _ _). set (tun1 := set_ring hp ring' (encap_tun e)). unfold tun_put. wp_steps.
    unfold has_addr in Ha. destruct (t_addrinfo tun) as [|ai al]; [done|]. eapply wp_expect; [reflexivity|].
    unfold emit. wp_steps. apply wp_ask. cbn [w_calls update]. rewrite Hs.
    match goal with |- wp _ _ ?x => assert (w_tuns x !! t = Some tun1 /\ w_trace x = w_trace w ++ [Sent t dgram] /\
      w_key x = w_key w /\ w_options x = w_options w) as (Ht1 & Hx);
      [split; [apply lookup_insert_eq|done]|generalize dependent x] end.
    assert (t_status tun1 = t_status tun /\ t_server_mode tun1 = t_server_mode tun) as Hst.
    { unfold tun1. rewrite Hfr. by destruct hp. }
    clearbody tun1. intros w1 Ht1 Hx. wp_steps. eapply wp_tun_upd; [exact Ht1|]. wp_steps.
    eapply wp_tun_upd; [apply lookup_insert_eq|]. wp_steps. split; [done|]. eexists.
    split; [apply lookup_insert_eq|]. destruct hp; cbn; case_match; exact Hst. }
  apply wp_ok in Hwp as (r & w' & Hs' & (-> & Htr & Hk & Ho) & tun' & Ht' & Hst).
  exists w'. do 4 (split; [done|]). exists tun'. split; [|done].
  pose proof (pres_send (w_rtuns w) t hp w (at_K _ _ _ Hat)) as HK. unfold wp in HK. rewrite Hs' in HK.
  destruct HK as (Hw' & Hrt & _ & y & Hy & Hay). rewrite Ht' in Hy. injection Hy as <-.
  split; [done|by rewrite Hrt|done|done].
Qed.

(** The bytes [recvfrom] leaves in [pkt.data] for the datagram. *)
Definition recv_buffer (dgram : list Z) : list Z := memcpy (zeroes DEFAULT_MTU) dgram (length dgram).

(** Two daemons with the same key and the same choice about data in clear. *)
Definition paired (wa wb : world) : Prop :=
  w_key wb = w_key wa /\ o_cleartext_data (w_options wb) = o_cleartext_data (w_options wa).

(** The network takes every datagram and the cipher never fails. *)
Definition sealing (key : list Z) : Prop := forall m nonce, is_Some (secretbox_easy m nonce key).

(** The packet at the head of a ring is sent, and the other end decodes it. *)
Lemma crosses wa ta tuna hp p l n wb tunb :
  at_tun wa ta tuna -> Ring.contents (ring_of hp tuna) = p :: l -> os_sendto (w_calls wa) = IoOk n ->
  sealing (w_key wa) -> paired wa wb ->
  exists wa' dgram tunb' decap,
    mlvpn_rtun_send ta hp wa = Ok n wa' /\ w_trace wa' = w_trace wa ++ [Sent ta dgram] /\ sends_as ta tuna wa wa' /\
    0 < Z.of_nat (length dgram) /\
    decap_of wb tunb (Z.of_nat (length dgram)) (recv_buffer dgram) = Some (tunb', decap) /\
    pkt_type decap = pkt_type p /\ payload decap = payload p.
Proof.
  intros Ha Hc Hs Hseal [Hkey Hct].
  pose proof (v_tuns _ (wv_0 _ (at_inv _ _ _ Ha)) _ _ (at_look _ _ _ Ha)) as Hok. simpl in Hok.
  assert (tx_ok p) as [Hp Hlp Hdp].
  { assert (Ring.ring_inv tx_ok cap (ring_of hp tuna)) as Hri by (destruct hp; apply Hok).
    destruct (Ring.pop_spec (ring_of hp tuna) p l) as (Hpp & _); [apply Hri|done|]. unfold Ring.pop in Hpp.
    destruct (Ring.mlvpn_pktbuffer_read (ring_of hp tuna)) as [slot ring] eqn:Hrd. cbn [fst] in Hpp. rewrite <- Hpp.
    by apply (Ring.read_inv _ _ cap_pos _ _ _ Hri Hrd). }
  set (ct := o_cleartext_data (w_options wa)) in *.
  assert (plain ct p = true -> 0 < pkt_len p /\ pkt_len p + Z.of_nat PKTHDRSIZ <= Z.of_nat DEFAULT_MTU) as Hplain.
  { unfold plain. intros [_ Hty]%andb_true_iff. apply Z.eqb_eq in Hty. specialize (Hdp Hty). unfold PKTHDRSIZ, DEFAULT_MTU. lia. }
  destruct (encap_total ct (w_key wa) (mlvpn_timestamp64 (w_now wa)) (w_data_seq wa) tuna p) as [dgram Hd].
  { right. split; [done|]. unfold PKTHDRSIZ, DEFAULT_MTU, crypto_PADSIZE. lia. }
  destruct (send_ok wa ta tuna hp p l n dgram Ha Hc Hs Hd) as (wa' & Hsend & Htr & Has).
  pose proof (dgram_length _ _ _ _ _ _ _ Hp (tk_wire _ Hok) (v_data_seq _ (wv_0 _ (at_inv _ _ _ Ha))) Hplain Hd) as Hdl.
  destruct (read_encap ct (w_key wa) _ _ tuna p dgram (mlvpn_timestamp64 (w_now wb)) tunb Hp (tk_wire _ Hok)
    (v_data_seq _ (wv_0 _ (at_inv _ _ _ Ha))) Hplain Hd) as (tunb' & decap & Hrd & Hlen & Hpay & Htyp & _).
  exists wa', dgram, tunb', decap. split_and!; try done; [lia|].
  unfold decap_of. rewrite Hct, Hkey. unfold u16, wrap. rewrite Z.mod_small by (unfold DEFAULT_MTU in *; lia). exact Hrd.
Qed.

End reception.

(** ** Connection and disconnection *)

Section connection.
Context `{SodiumLaws}.

(** A tunnel that an authentication packet connects: a server's that is down
    or already up, a client's that waits for the answer. *)
Definition expects_auth (tun : mlvpn_tunnel_t) : bool :=
  if t_server_mode tun then bool_decide (t_status tun = MLVPN_DISCONNECTED) || t_up tun
  else bool_decide (t_status tun = MLVPN_AUTHSENT).

(** The frame [K] of the handlers, with a property of the tunnel itself. *)
Definition KP (rt : list nat) (t : nat) (P : mlvpn_tunnel_t -> Prop) (w : world) : Prop :=
  K rt t w /\ exists tun, w_tuns w !! t = Some tun /\ P tun.

Lemma wp_KP_upd rt t (P P' : mlvpn_tunnel_t -> Prop) f (Q : unit -> world -> Prop) w :
  KP rt t P w ->
  (forall tun, tun_ok tun -> has_addr tun = true -> P tun ->
    tun_ok (f tun) /\ t_name (f tun) = t_name tun /\ t_up (f tun) = t_up tun /\ has_addr (f tun) = true /\ P' (f tun)) ->
  (forall w', KP rt t P' w' -> Q tt w') -> wp (tun_upd t f) Q w.
Proof.
  intros [HK (tun & Ht & HP)] Hf HQ. pose proof HK as (Hw & _ & _ & x & Hx & Ha).
  rewrite Ht in Hx. injection Hx as <-.
  destruct (Hf tun (v_tuns _ (wv_0 _ Hw) _ _ Ht) Ha HP) as (Hok & Hn & Hu & Ha' & HP').
  eapply wp_K_upd_is; [done..|]. intros w' HK' Ht'. apply HQ. split; eauto.
Qed.

Lemma wp_KP_status_up rt t (P P' : mlvpn_tunnel_t -> Prop) (Q : unit -> world -> Prop) w :
  KP rt t P w -> (forall now tun, P tun -> P' (upped now tun)) ->
  (forall w', KP rt t P' w' -> Q tt w') -> wp (mlvpn_rtun_status_up t) Q w.
Proof.
  intros [HK (tun & Ht & HP)] Hf HQ. eapply wp_status_up; [done..|]. intros w' HK' Heq. apply HQ.
  split; [done|]. exists (upped (w_now w) tun). rewrite Heq. split; [apply lookup_insert_eq|auto].
Qed.

(** What reception leaves alone in the tunnel: the mode and the rings. *)
Definition t_side (tun : mlvpn_tunnel_t) : bool * pktbuffer * pktbuffer :=
  (t_server_mode tun, t_hpsbuf tun, t_sbuf tun).

Lemma read_side ct key now64 tun pkt tun' decap :
  mlvpn_protocol_read ct key now64 tun pkt = Some (tun', decap) -> t_side tun' = t_side tun.
Proof. by intros (l & v & st & sr & s & rv & h & ->)%read_frame. Qed.

(** An end that believes it is connected; a server has its answer queued,
    behind [l]. *)
Definition answering (l : list mlvpn_pkt_t) (tun : mlvpn_tunnel_t) : Prop :=
  exists q, Ring.contents (t_hpsbuf tun) = l ++ [q] /\ pkt_type q = MLVPN_PKT_AUTH_OK.

Definition connected (server : bool) (tun : mlvpn_tunnel_t) : Prop :=
  t_status tun = MLVPN_AUTHOK /\
  (server = true -> t_io_write tun = true /\ exists l, answering l tun).

Definition answered (l : list mlvpn_pkt_t) (tun : mlvpn_tunnel_t) : Prop :=
  t_status tun = MLVPN_AUTHOK /\ t_io_write tun = true /\ answering l tun.

Lemma status_sent_ok tun : tun_ok tun -> has_addr tun = true -> tun_ok (tun <| t_status := MLVPN_AUTHSENT |>).
Proof. intros [S1 S2 [W1 W2] R1 R2 B D A] Ha. by split. Qed.

Lemma push_answer l tun :
  tun_ok tun -> has_addr tun = true -> Ring.contents (t_hpsbuf tun) = l ->
  let tun' := tun <| t_hpsbuf := Ring.push (fill_two 79 75 MLVPN_PKT_AUTH_OK) (t_hpsbuf tun) |> in
  tun_ok tun' /\ answering (drop (length l + 1 - cap) l) tun'.
Proof.
  intros Hok Ha Hl tun'. pose proof (tk_hpsbuf _ Hok) as Hri.
  destruct (Ring.push_inv _ _ cap_pos _ _ Hri (fill_two_tx 79 75 MLVPN_PKT_AUTH_OK ltac:(done) ltac:(done))) as [Hri' _].
  split; [by apply tun_ok_hp|].
  destruct (Ring.push_spec (t_hpsbuf tun) (fill_two 79 75 MLVPN_PKT_AUTH_OK)) as (slot & Hc & _);
    [apply Hri|rewrite (Ring.ri_capacity _ _ _ Hri); apply cap_pos|].
  rewrite (Ring.ri_capacity _ _ _ Hri), Hl in Hc. eexists. split; [exact Hc|done].
Qed.

Lemma answer_auth rt t l w :
  KP rt t (fun tun => Ring.contents (t_hpsbuf tun) = l) w ->
  wp (push_hp t (fill_two 79 75 MLVPN_PKT_AUTH_OK);;
      tun_upd t (fun tun => if negb (t_up tun) then tun <| t_status := MLVPN_AUTHSENT |> else tun);;
      mlvpn_rtun_tick t;; mlvpn_rtun_status_up t;; start_io_write t)
    (fun _ => KP rt t (answered (drop (length l + 1 - cap) l))) w.
Proof.
  intros HK. set (A := answering (drop (length l + 1 - cap) l)). wp_steps. unfold push_hp.
  eapply (wp_KP_upd rt t _ A); [exact HK| |].
  { intros tun Hok Ha Hl. destruct (push_answer l tun Hok Ha Hl). by split_and!. }
  clear HK w. intros w HK. wp_steps. eapply (wp_KP_upd rt t A A); [done|..].
  { intros tun Hok Ha HP. destruct (t_up tun) eqn:Hu; simpl; [done|]. split_and!; try done. by apply status_sent_ok. }
  clear HK w. intros w HK. unfold mlvpn_rtun_tick, ev_now. wp_steps. eapply (wp_KP_upd rt t A A); [done|..].
  { intros tun Hok Ha HP. split_and!; try done. ok_ext. }
  clear HK w. intros w HK. wp_steps.
  eapply (wp_KP_status_up rt t A (fun tun => t_status tun = MLVPN_AUTHOK /\ A tun)); [done|done|].
  clear HK w. intros w HK. unfold start_io_write. eapply wp_KP_upd; [done| |done].
  intros tun Hok Ha [Hs HP]. destruct (t_io_write tun) eqn:Hio; cbn [negb]; [by split_and!|].
  split_and!; try done. by apply tun_ok_io_write.
Qed.

Lemma send_auth_server rt t w tun l :
  K rt t w -> w_tuns w !! t = Some tun -> expects_auth tun = true -> t_server_mode tun = true ->
  Ring.contents (t_hpsbuf tun) = l ->
  wp (mlvpn_rtun_send_auth t) (fun _ w' => exists l', KP rt t (answered l') w' /\ (l = [] -> l' = [])) w.
Proof.
  intros HK Ht He Hsm Hl. unfold mlvpn_rtun_send_auth. wp_steps. eapply wp_tun_get; [exact Ht|].
  unfold expects_auth in He. rewrite Hsm in *. rewrite He. cbn [when]. unfold hp_full, tun_is. wp_steps.
  eapply wp_tun_get; [exact Ht|]. wp_steps. destruct (Ring.is_full (t_hpsbuf tun)); cbn [when].
  - eapply (wp_KP_upd rt t (fun tun => True) (fun tun => Ring.contents (t_hpsbuf tun) = [])).
    { split; eauto. }
    { intros x Hok Ha _. pose proof (tk_hpsbuf _ Hok) as Hri.
      destruct (Ring.reset_ring_inv _ _ _ Hri) as [Hr _]. split_and!; try done. by apply tun_ok_hp. }
    intros w' HK'. eapply wp_mono; [by eapply answer_auth|]. intros [] w2 HK2. by eexists.
  - apply wp_ret. eapply wp_mono; [eapply (answer_auth rt t l); split; eauto|]. intros [] w2 HK2. eexists.
    split; [done|]. by intros ->.
Qed.

Lemma send_auth_client rt t w tun :
  K rt t w -> w_tuns w !! t = Some tun -> expects_auth tun = true -> t_server_mode tun = false ->
  wp (mlvpn_rtun_send_auth t) (fun _ => KP rt t (fun tun => t_status tun = MLVPN_AUTHOK)) w.
Proof.
  intros HK Ht He Hsm. unfold mlvpn_rtun_send_auth. wp_steps. eapply wp_tun_get; [exact Ht|].
  unfold expects_auth in He. rewrite Hsm in *. rewrite He. cbn [when]. unfold mlvpn_rtun_tick, ev_now. wp_steps.
  eapply (wp_KP_upd rt t (fun _ => True) (fun _ => True)); [split; eauto| |].
  { intros x Hok Ha _. split_and!; try done. ok_ext. }
  clear HK. intros w1 HK. wp_steps. by eapply (wp_KP_status_up rt t (fun _ => True) (fun tun => t_status tun = MLVPN_AUTHOK)).
Qed.

Lemma heard_auth w t tun len data client tun' decap :
  at_tun w t tun -> 0 < len -> expects_auth tun = true ->
  decap_of w tun len data = Some (tun', decap) ->
  pkt_type decap = MLVPN_PKT_AUTH \/ pkt_type decap = MLVPN_PKT_AUTH_OK ->
  exists w1 tun1, mlvpn_rtun_read t (IoOk len) data client w = mlvpn_rtun_send_auth t w1 /\
    at_tun w1 t tun1 /\ t_side tun1 = t_side tun /\ expects_auth tun1 = true /\
    w_key w1 = w_key w /\ w_options w1 = w_options w /\ w_rtuns w1 = w_rtuns w.
Proof.
  intros Hat Hlen He Hd Hty. pose proof (read_side _ _ _ _ _ _ _ Hd) as Hside.
  destruct (read_accepted w t tun len data client tun' decap Hat Hlen Hd) as (ai & rb & rp & n & Hrd & Hat1 & Hct & _).
  cbv zeta in Hrd, Hat1. set (w1 := w <| w_tuns := _ |> <| w_calls := n |>) in *.
  exists w1, (heard tun' ai rb rp). split_and!; try done.
  - rewrite Hrd. unfold rtun_dispatch. unfold mbind at 1, M_bind at 1, tun_get at 1.
    rewrite (at_look _ _ _ Hat1). by destruct Hty as [-> | ->].
  - assert (t_status tun' = t_status tun) as Hst by exact (f_equal (fun c => c.1.1.2) Hct).
    assert (t_server_mode tun' = t_server_mode tun) as Hsm by exact (f_equal (fun c => c.1.1) Hside).
    revert He. unfold expects_auth, t_up. cbn [t_status t_server_mode heard update]. by rewrite Hst, Hsm.
Qed.

(** An authentic AUTH or AUTH_OK datagram connects a tunnel that expects
    one: a server's that is down or already up, a client's that has sent its
    challenge. The server has an AUTH_OK queued for the peer and its socket
    watched for writing, and the tunnel is in the scheduler's table. *)
Theorem auth_connects w t tun len data client tun' decap :
  at_tun w t tun -> 0 < len -> expects_auth tun = true ->
  decap_of w tun len data = Some (tun', decap) ->
  pkt_type decap = MLVPN_PKT_AUTH \/ pkt_type decap = MLVPN_PKT_AUTH_OK ->
  exists w' tun1, mlvpn_rtun_read t (IoOk len) data client w = Ok tt w' /\
    at_tun w' t tun1 /\ connected (t_server_mode tun) tun1 /\ t ∈ up_tunnels w'.
Proof.
  intros Hat Hlen He Hd Hty.
  destruct (heard_auth w t tun len data client tun' decap Hat Hlen He Hd Hty)
    as (w1 & tun1 & -> & Hat1 & Hside & He1 & _).
  assert (t_server_mode tun1 = t_server_mode tun) as Hsm by exact (f_equal (fun c => c.1.1) Hside).
  assert (wp (mlvpn_rtun_send_auth t) (fun _ => KP (w_rtuns w1) t (connected (t_server_mode tun))) w1) as Hwp.
  { destruct (t_server_mode tun).
    - eapply wp_mono; [eapply send_auth_server; [by apply at_K in Hat1|apply Hat1|done..]|].
      intros [] w2 (l' & [HK (x & Hx & Hs & Hio & Han)] & _). split; [done|]. exists x. split; [done|]. split; eauto.
    - eapply wp_mono; [eapply send_auth_client; [by apply at_K in Hat1|apply Hat1|done..]|].
      intros [] w2 [HK (x & Hx & Hs)]. split; [done|]. exists x. split; [done|]. by split. }
  apply wp_ok in Hwp as ([] & w' & -> & (Hw' & Hrt & Hin & y & Hy & Ha) & x & Hx & Hc).
  rewrite Hx in Hy. injection Hy as <-. exists w', x. split_and!; [done|split; [done|by rewrite Hrt|done..]|done|].
  apply (elem_up_tunnels w' t x); [by rewrite Hrt|done|]. unfold t_up. by rewrite (proj1 Hc).
Qed.

(** The server's side of the exchange: the answer is alone in the ring. *)
Lemma server_answers wb tb tunb len data client tunb' decap :
  at_tun wb tb tunb -> t_server_mode tunb = true -> t_status tunb = MLVPN_DISCONNECTED ->
  Ring.contents (t_hpsbuf tunb) = [] -> 0 < len ->
  decap_of wb tunb len data = Some (tunb', decap) -> pkt_type decap = MLVPN_PKT_AUTH ->
  exists wb1 tunb1 q, mlvpn_rtun_read tb (IoOk len) data client wb = Ok tt wb1 /\ config wb1 = config wb /\
    at_tun wb1 tb tunb1 /\ t_status tunb1 = MLVPN_AUTHOK /\
    Ring.contents (t_hpsbuf tunb1) = [q] /\ pkt_type q = MLVPN_PKT_AUTH_OK.
Proof.
  intros Hat Hsm Hst Hnil Hlen Hd Hty.
  destruct (heard_auth wb tb tunb len data client tunb' decap Hat Hlen) as (w1 & tun1 & -> & Hat1 & Hside & He1 & Hk & Ho & _);
    [by unfold expects_auth; rewrite Hsm, Hst|done|by left|].
  injection Hside as Hs1 Hh1 _.
  destruct (wp_ok _ _ _ (send_auth_server _ _ _ _ [] (at_K _ _ _ Hat1) (at_look _ _ _ Hat1) He1 ltac:(congruence) ltac:(congruence)))
    as ([] & wb1 & Hr & l' & [HK (x & Hx & Hs & _ & q & Hq & Hqt)] & Hl'). rewrite (Hl' eq_refl) in Hq.
  exists wb1, x, q. split_and!; try done.
  - transitivity (config w1); [by eapply (keeps_send_auth config)|]. unfold config. congruence.
  - destruct HK as (Hw' & Hrt & Hin & y & Hy & Ha). rewrite Hx in Hy. injection Hy as <-. split; [done|by rewrite Hrt|done..].
Qed.

(** C13: the whole handshake: the AUTH a client has queued, the server's answer
    and its reception leave both ends connected. Both daemons have the same
    key, the client waits for the answer, the server's tunnel is down with
    nothing queued, and no datagram is lost. *)
Theorem auth_handshake wa ta tuna p l wb tb tunb ca cb :
  at_tun wa ta tuna -> t_server_mode tuna = false -> t_status tuna = MLVPN_AUTHSENT ->
  Ring.contents (t_hpsbuf tuna) = p :: l -> pkt_type p = MLVPN_PKT_AUTH ->
  at_tun wb tb tunb -> t_server_mode tunb = true -> t_status tunb = MLVPN_DISCONNECTED ->
  Ring.contents (t_hpsbuf tunb) = [] ->
  sealing (w_key wa) -> paired wa wb -> (forall k, exists n, os_sendto k = IoOk n) ->
  exists n1 wa1 d1 wb1 n2 wb2 d2 wa2 tuna2 tunb2,
    mlvpn_rtun_send ta true wa = Ok n1 wa1 /\ w_trace wa1 = w_trace wa ++ [Sent ta d1] /\
    mlvpn_rtun_read tb (IoOk (Z.of_nat (length d1))) (recv_buffer d1) cb wb = Ok tt wb1 /\
    mlvpn_rtun_send tb true wb1 = Ok n2 wb2 /\ w_trace wb2 = w_trace wb1 ++ [Sent tb d2] /\
    mlvpn_rtun_read ta (IoOk (Z.of_nat (length d2))) (recv_buffer d2) ca wa1 = Ok tt wa2 /\
    at_tun wa2 ta tuna2 /\ t_status tuna2 = MLVPN_AUTHOK /\
    at_tun wb2 tb tunb2 /\ t_status tunb2 = MLVPN_AUTHOK.
Proof.
  intros Ha Hsa Hta Hp Hpt Hb Hsb Htb Hnil Hseal Hpair Hnet.
  destruct (Hnet (w_calls wa)) as [n1 Hn1].
  destruct (crosses wa ta tuna true p l n1 wb tunb Ha Hp Hn1 Hseal Hpair)
    as (wa1 & d1 & tunb' & dec1 & Hsend1 & Htr1 & (Hk1 & Ho1 & tuna1 & Ha1 & Hst1 & Hsm1) & Hl1 & Hd1 & Hty1 & _).
  destruct (server_answers wb tb tunb _ _ cb tunb' dec1 Hb Hsb Htb Hnil Hl1 Hd1 ltac:(congruence))
    as (wb1 & tunb1 & q & Hrd1 & Hcf & Hb1 & Hstb1 & Hq & Hqt).
  injection Hcf as Hkb Hob. destruct Hpair as [Hkey Hct]. destruct (Hnet (w_calls wb1)) as [n2 Hn2].
  destruct (crosses wb1 tb tunb1 true q [] n2 wa1 tuna1 Hb1 Hq Hn2) as (wb2 & d2 & tuna' & dec2 & Hsend2 & Htr2 &
    (_ & _ & tunb2 & Hb2 & Hst2 & _) & Hl2 & Hd2 & Hty2 & _); [by rewrite Hkb, Hkey|split; congruence|].
  destruct (heard_auth wa1 ta tuna1 _ (recv_buffer d2) ca tuna' dec2 Ha1 Hl2) as (w1 & x & Hrd2 & Hx & Hside & He & _);
    [unfold expects_auth; by rewrite Hsm1, Hsa, Hst1, Hta|done|right; congruence|].
  injection Hside as Hsx _ _.
  destruct (wp_ok _ _ _ (send_auth_client _ _ _ _ (at_K _ _ _ Hx) (at_look _ _ _ Hx) He ltac:(congruence)))
    as ([] & wa2 & Hr & (Hw2 & Hrt & Hin & z & Hz & Haz) & y & Hy & Hsy).
  rewrite Hy in Hz. injection Hz as <-. rewrite Hr in Hrd2.
  exists n1, wa1, d1, wb1, n2, wb2, d2, wa2, y, tunb2. do 6 (split; [done|]).
  split_and!; [split; [done|by rewrite Hrt|done..]|done|done|congruence].
Qed.
End connection.

(** ** Silent, lossy and slow peers *)

Section quality.
Context `{SodiumLaws}.

(** The tests of the source on a connected tunnel that has a timeout. *)
Definition silent (now : double) (tun : mlvpn_tunnel_t) : bool :=
  t_up tun && (0 <? t_timeout tun) && negb (deqb (t_last_keepalive_ack tun) (d_of_Z 0)) &&
  dltb (dadd (t_last_keepalive_ack tun) (d_of_Z (t_timeout tun))) now.

Lemma down_unchecked w t tun :
  w_tuns w !! t = Some tun -> t_status tun = MLVPN_DISCONNECTED ->
  mlvpn_rtun_check_lossy t w = Ok tt w /\ mlvpn_rtun_check_slow t w = Ok tt w.
Proof.
  intros Ht Hs. unfold mlvpn_rtun_check_lossy, mlvpn_rtun_check_slow, mbind, M_bind, tun_get. rewrite Ht.
  cbv zeta. rewrite !Hs. cbn. rewrite !andb_false_r. cbn. split; [done|]. by destruct (negb _).
Qed.

(** C20: the periodic check disconnects a connected tunnel whose last keepalive
    answer is older than its timeout: its rings are emptied, it leaves the
    scheduler, and the other tunnels are left alone. *)
Theorem timeout_disconnects w t tun :
  winv w -> t ∈ w_rtuns w -> w_tuns w !! t = Some tun -> silent (w_now w) tun = true ->
  exists w', mlvpn_rtun_check_timeout t w = Ok tt w' /\ w_tuns w' = <[t := downed tun]> (w_tuns w) /\
    (t ∉ up_tunnels w') /\ (t ∉ wrr_tunnel (w_wrr w')).
Proof.
  intros Hw Hin Ht Hs. pose proof (v_tuns _ (wv_0 _ Hw) _ _ Ht) as Hok. simpl in Hok.
  unfold silent in Hs. rewrite !andb_true_iff in Hs. destruct Hs as [[[Hu Hto] Hz] Hlt].
  destruct (downed_ok tun Hok) as (_ & _ & Hst & _).
  assert (t_io_write (downed tun) = false /\ Ring.is_empty (t_hpsbuf (downed tun)) = true) as [Hio Hem].
  { unfold downed. cbv zeta. split; [|by destruct (t_io_write _)].
    destruct (t_io_write (tun <| t_status := _ |> <| _ := _ |> <| _ := _ |> <| _ := _ |>)) eqn:Hio; done. }
  assert (K (w_rtuns w) t w) as HK by (split_and!; eauto using up_has_addr).
  assert (wp (mlvpn_rtun_check_timeout t) (fun _ w' => winv w' /\ w_tuns w' = <[t := downed tun]> (w_tuns w)) w) as Hwp.
  { unfold mlvpn_rtun_check_timeout, ev_now. wp_steps. eapply wp_tun_get; [exact Ht|]. rewrite Hu, Hto, Hz, Hlt. wp_steps.
    eapply wp_status_down; [exact HK|exact Ht|]. intros w1 HK1 Heq.
    assert (w_tuns w1 !! t = Some (downed tun)) as Ht1 by (rewrite Heq; apply lookup_insert_eq).
    wp_steps. eapply wp_tun_upd; [exact Ht1|]. rewrite Hio, Hem. cbn [negb andb].
    assert (w1 <| w_tuns := <[t := downed tun]> (w_tuns w1) |> = w1) as ->.
    { rewrite insert_id by done. by destruct w1. }
    destruct (down_unchecked w1 t _ Ht1 Hst) as [Hl Hsl]. wp_steps. unfold wp at 1. rewrite Hl.
    unfold wp. rewrite Hsl. split; [apply HK1|done]. }
  apply wp_ok in Hwp as ([] & w' & Hr & Hw' & Heq). exists w'. split_and!; [done..| |].
  - intros (_ & x & Hx & Hux)%elem_up. rewrite Heq, lookup_insert_eq in Hx. injection Hx as <-.
    unfold t_up in Hux. by rewrite Hst in Hux.
  - intros Hi. eapply (proj1 (Forall_forall _ _) (y_wrr _ (wv_sync _ Hw'))) in Hi.
    apply elem_up in Hi as (_ & x & Hx & Hux). rewrite Heq, lookup_insert_eq in Hx. injection Hx as <-.
    unfold t_up in Hux. by rewrite Hst in Hux.
Qed.

(** A loss tolerence of 99 or more, the default of 100 among them, turns
    the loss check off: the loss ratio never reaches it, because the last
    packet received is always in the window. *)
Theorem tolerant_never_lossy w t tun :
  winv w -> w_tuns w !! t = Some tun -> 99 <= t_loss_tolerence tun -> t_status tun <> MLVPN_LOSSY ->
  mlvpn_rtun_check_lossy t w = Ok tt w.
Proof.
  intros Hw Ht Htol Hst. pose proof (v_tuns _ (wv_0 _ Hw) _ _ Ht) as Hok. simpl in Hok.
  pose proof (loss_ratio_bit0 tun (tk_bit0 _ Hok)) as Hl.
  unfold mlvpn_rtun_check_lossy, mbind, M_bind, tun_get. rewrite Ht. cbv zeta.
  rewrite (proj2 (Z.leb_gt _ _)) by lia. rewrite (bool_decide_eq_false_2 _ Hst), andb_false_r. done.
Qed.

(** A tunnel that keeps the daemon out of the fallback mode. *)
Definition normal (tun : mlvpn_tunnel_t) : bool :=
  negb (t_fallback tun) && negb (bool_decide (t_status tun = MLVPN_HIGH_LATENCY)) &&
  negb (bool_decide (t_status tun = MLVPN_LOSSY)).

Lemma any_normal_spec w l :
  Forall (fun t => is_Some (w_tuns w !! t)) l -> any_normal l w = Ok (existsb (tun_test w normal) l) w.
Proof.
  induction 1 as [|t l [tun Ht] Hl IH]; [done|]. cbn [any_normal existsb].
  unfold mbind, M_bind, tun_get, tun_test at 1. rewrite Ht. fold (normal tun). by destruct (normal tun).
Qed.

(** The mode and the table [switch_to_fallback_if_necessary] leaves. *)
Definition switched (w : world) : mlvpn_status_s * mlvpn_wrr :=
  let table (fb : bool) := ((w_status w) <| s_fallback_mode := fb |>,
    Wrr (candidates fb w) (replicate (length (candidates fb w)) (d_of_Z 0))) in
  if existsb (tun_test w normal) (w_rtuns w) then table false
  else if o_fallback_available (w_options w) then table true
  else (w_status w, w_wrr w).

Lemma switch_spec w :
  winv0 w -> switch_to_fallback_if_necessary w =
    Ok tt (w <| w_status := (switched w).1 |> <| w_wrr := (switched w).2 |>).
Proof.
  intros Hw. unfold switch_to_fallback_if_necessary. unfold mbind at 1, M_bind at 1, gets at 1.
  unfold mbind at 1, M_bind at 1. rewrite any_normal_spec by apply Hw. unfold switched.
  assert (forall fb, (set_status (fun s => s <| s_fallback_mode := fb |>);; mlvpn_rtun_wrr_reset fb) w =
    Ok tt (w <| w_status := (w_status w) <| s_fallback_mode := fb |> |>
             <| w_wrr := Wrr (candidates fb w) (replicate (length (candidates fb w)) (d_of_Z 0)) |>)) as Hr.
  { intros fb. unfold set_status, mbind, M_bind, modify. rewrite wrr_reset_spec; [done|apply Hw|].
    change (candidates fb (w <| w_status := _ |>)) with (candidates fb w).
    etransitivity; [|apply (v_max _ Hw)]. unfold candidates.
    pose proof (length_filter (fun t => tun_test w (eligible fb) t = true) (w_rtuns w)). lia. }
  destruct (existsb _ _); [apply Hr|]. unfold mbind at 1, M_bind at 1, gets at 1.
  destruct (o_fallback_available (w_options w)); [apply Hr|]. cbn. by destruct w.
Qed.

Lemma restatus_spec w t tun s :
  winv w -> t ∈ w_rtuns w -> w_tuns w !! t = Some tun -> t_up tun = true -> status_up s = true ->
  let w1 := w <| w_tuns := <[t := tun <| t_status := s |>]> (w_tuns w) |> in
  (tun_upd t (fun tun => tun <| t_status := s |>);; switch_to_fallback_if_necessary) w =
  Ok tt (w1 <| w_status := (switched w1).1 |> <| w_wrr := (switched w1).2 |>).
Proof.
  intros Hw Hin Ht Hu Hs w1. unfold mbind at 1, M_bind at 1. unfold tun_upd at 1, tun_put, mbind at 1, M_bind at 1, tun_get at 1.
  rewrite Ht. unfold modify at 1. apply switch_spec.
  pose proof (v_tuns _ (wv_0 _ Hw) _ _ Ht) as Hok. simpl in Hok. pose proof (up_has_addr tun Hok Hu) as Ha.
  eapply winv0_put; [apply Hw|exact Hin|exact Ht| |done]. destruct Hok as [S1 S2 [W1 W2] R1 R2 B Dl A]. by split.
Qed.

Lemma lossy_ineligible w t tun fb :
  t_fallback tun = false ->
  t ∉ candidates fb (w <| w_tuns := <[t := tun <| t_status := MLVPN_LOSSY |>]> (w_tuns w) |>).
Proof.
  intros Hfo. unfold candidates, tun_test. rewrite list_elem_of_filter. cbn. rewrite lookup_insert_eq.
  unfold eligible, t_fallback in *. cbn. rewrite Hfo. cbn. rewrite andb_false_r. naive_solver.
Qed.

End quality.

(** ** Runs that reach the states above *)

(** A run of the daemon after which the tunnel [t] passes a test. *)
Lemma run_at o evs t (p : world -> mlvpn_tunnel_t -> bool) :
  good_options o = true ->
  match run (H := os_ideal) evs (main_state o (Some "mlvpn") demo_key) with
  | Some w => match w_tuns w !! t with
              | Some tun => bool_decide (t ∈ w_rtuns w) && has_addr tun && p w tun
              | None => false
              end
  | None => false
  end = true ->
  exists w tun, at_tun w t tun /\ p w tun = true.
Proof.
  intros Hg. destruct (run evs _) as [w|] eqn:Hr; [|done]. destruct (w_tuns w !! t) as [tun|] eqn:Ht; [|done].
  rewrite !andb_true_iff. intros [[Hin%bool_decide_eq_true_1 Ha] Hp]. exists w, tun. split; [|done].
  apply run_rtc in Hr. split; try done.
  exact (@reachable_winv os_ideal os_ideal_sodium o (Some "mlvpn") demo_key w Hg Hr).
Qed.

(** A client that sent its challenge, one that is connected, one that has a
    packet to send; a server that waits. *)
Definition sim_options : mlvpn_options_s := demo_options <| o_reorder_buffer_size := 0 |>.
Definition sim_server : new_args :=
  NewArgs "adsl" (Some "192.0.2.1") (Some "5080") 0 None None true 30 0 128000 100 1000.
Definition sim_lossy : new_args :=
  NewArgs "adsl" None None 0 (Some "192.0.2.1") (Some "5080") false 30 0 128000 10 1000.
Definition ev_dgram (d : list Z) : event := EvRtunRead 0 (IoOk (Z.of_nat (length d))) (recv_buffer d) demo_client.
Definition sim_challenge (a : new_args) : list event := [EvNew a; EvRecalc; EvClock (d_of_Z 1); EvRtunTimer 0].
Definition sim_connect (a : new_args) : list event := sim_challenge a ++ [EvRtunWrite 0; ev_dgram demo_auth_ok].
Definition sim_data : list Z := demo_dgram (zero_pkt <| pkt_len := 3 |> <| pkt_type := MLVPN_PKT_DATA |>).

(** The type of the datagram [d] as the tunnel reads it. *)
Definition reads_type (d : list Z) (type : Z) (w : world) (tun : mlvpn_tunnel_t) : bool :=
  match decap_of (H := os_ideal) w tun (Z.of_nat (length d)) (recv_buffer d) with
  | Some (_, decap) => pkt_type decap =? type
  | None => false
  end.

Lemma reads_type_spec d type w tun :
  reads_type d type w tun = true ->
  exists tun' decap, decap_of (H := os_ideal) w tun (Z.of_nat (length d)) (recv_buffer d) = Some (tun', decap) /\ pkt_type decap = type.
Proof.
  unfold reads_type. destruct (decap_of _ _ _ _) as [[tun' decap]|]; [|done]. intros Ht%Z.eqb_eq. eauto.
Qed.



Lemma auth_connects_witness : exists w w' tun1,
  mlvpn_rtun_read (H := os_ideal) 0 (IoOk (Z.of_nat (length demo_auth_ok))) (recv_buffer demo_auth_ok) demo_client w = Ok tt w' /\
  at_tun w' 0 tun1 /\ connected false tun1 /\ 0%nat ∈ up_tunnels w'.
Proof.
  destruct (run_at demo_options (sim_challenge demo_args) 0 (fun w tun => negb (t_server_mode tun) && expects_auth tun &&
    reads_type demo_auth_ok MLVPN_PKT_AUTH_OK w tun) eq_refl) as (w & tun & Hat & Hp); [vm_compute; reflexivity|].
  rewrite !andb_true_iff in Hp. destruct Hp as [[Hs%negb_true_iff He] (tun' & decap & Hd & Hty)%reads_type_spec].
  exists w. rewrite <- Hs.
  exact (@auth_connects os_ideal os_ideal_sodium w 0 tun (Z.of_nat (length demo_auth_ok)) _ demo_client tun' decap Hat eq_refl He Hd (or_intror Hty)).
Defined.

Lemma auth_handshake_witness : exists wa tuna wb tunb,
  t_status tuna = MLVPN_AUTHSENT /\ t_status tunb = MLVPN_DISCONNECTED /\
  exists n1 wa1 d1 wb1 n2 wb2 d2 wa2 tuna2 tunb2,
    mlvpn_rtun_send (H := os_ideal) 0 true wa = Ok n1 wa1 /\ w_trace wa1 = w_trace wa ++ [Sent 0 d1] /\
    mlvpn_rtun_read (H := os_ideal) 0 (IoOk (Z.of_nat (length d1))) (recv_buffer d1) demo_client wb = Ok tt wb1 /\
    mlvpn_rtun_send (H := os_ideal) 0 true wb1 = Ok n2 wb2 /\ w_trace wb2 = w_trace wb1 ++ [Sent 0 d2] /\
    mlvpn_rtun_read (H := os_ideal) 0 (IoOk (Z.of_nat (length d2))) (recv_buffer d2) demo_client wa1 = Ok tt wa2 /\
    at_tun wa2 0 tuna2 /\ t_status tuna2 = MLVPN_AUTHOK /\
    at_tun wb2 0 tunb2 /\ t_status tunb2 = MLVPN_AUTHOK.
Proof.
  destruct (run_at demo_options (sim_challenge demo_args) 0 (fun w tun => negb (t_server_mode tun) &&
      bool_decide (t_status tun = MLVPN_AUTHSENT) && bool_decide (config w = (demo_key, demo_options)) &&
      match Ring.contents (t_hpsbuf tun) with p :: _ => pkt_type p =? MLVPN_PKT_AUTH | [] => false end) eq_refl)
    as (wa & tuna & Ha & Hp); [vm_compute; reflexivity|].
  destruct (run_at demo_options (sim_challenge sim_server) 0 (fun w tun => t_server_mode tun &&
      bool_decide (t_status tun = MLVPN_DISCONNECTED) && bool_decide (config w = (demo_key, demo_options)) &&
      match Ring.contents (t_hpsbuf tun) with [] => true | _ => false end) eq_refl)
    as (wb & tunb & Hb & Hq); [vm_compute; reflexivity|].
  rewrite !andb_true_iff in Hp, Hq.
  destruct Hp as [[[Hs1%negb_true_iff Ht1%bool_decide_eq_true_1] Hc1%bool_decide_eq_true_1] Hh1].
  destruct Hq as [[[Hs2 Ht2%bool_decide_eq_true_1] Hc2%bool_decide_eq_true_1] Hh2].
  destruct (Ring.contents (t_hpsbuf tuna)) as [|p l] eqn:Hcont; [discriminate Hh1|]. apply Z.eqb_eq in Hh1.
  destruct (Ring.contents (t_hpsbuf tunb)) as [|p' l'] eqn:Hcont'; [|discriminate Hh2].
  exists wa, tuna, wb, tunb. split; [exact Ht1|]. split; [exact Ht2|].
  refine (@auth_handshake os_ideal os_ideal_sodium wa 0 tuna p l wb 0 tunb demo_client demo_client Ha Hs1 Ht1 Hcont Hh1
    Hb Hs2 Ht2 Hcont' (fun m nonce => ex_intro _ _ eq_refl) _ (fun k => ex_intro _ _ eq_refl)).
  injection Hc1 as Hk1 Ho1. injection Hc2 as Hk2 Ho2. split; congruence.
Defined.

Lemma timeout_disconnects_witness : exists w tun, silent (w_now w) tun = true /\
  exists w', mlvpn_rtun_check_timeout (H := os_ideal) 0 w = Ok tt w' /\ w_tuns w' = <[0%nat := downed tun]> (w_tuns w) /\
    (0%nat ∉ up_tunnels w') /\ (0%nat ∉ wrr_tunnel (w_wrr w')).
Proof.
  destruct (run_at demo_options (sim_connect demo_args ++ [EvClock (d_of_Z 60)]) 0 (fun w tun => silent (w_now w) tun) eq_refl)
    as (w & tun & [Hw Hin Ht _] & Hs); [vm_compute; reflexivity|]. exists w, tun. split; [exact Hs|].
  exact (@timeout_disconnects os_ideal w 0 tun Hw Hin Ht Hs).
Defined.

Lemma tolerant_never_lossy_witness : exists w tun, 99 <= t_loss_tolerence tun /\
  mlvpn_rtun_check_lossy 0 w = Ok tt w.
Proof.
  destruct (run_at demo_options (sim_connect demo_args) 0 (fun w tun => (99 <=? t_loss_tolerence tun) &&
    bool_decide (t_status tun = MLVPN_AUTHOK)) eq_refl) as (w & tun & [Hw _ Ht _] & Hp); [vm_compute; reflexivity|].
  apply andb_true_iff in Hp as [Hl%Z.leb_le Hs%bool_decide_eq_true_1]. exists w, tun. split; [exact Hl|].
  apply (@tolerant_never_lossy w 0 tun Hw Ht Hl). rewrite Hs. discriminate.
Defined.

(** A keepalive of the peer that comes after a gap of 40 numbers. *)
Definition sim_gap : list Z :=
  default [] (encap_dgram (rtun_encap (H := os_ideal) false demo_key 0 0 (tun_zero <| t_seq := 40 |>)
    (zero_pkt <| pkt_len := 1 |> <| pkt_type := MLVPN_PKT_KEEPALIVE |>))).


(** ** Where the handlers go wrong *)

(** The data packet number [n] of a peer, with the byte [b]. *)
Definition sim_numbered (n b : Z) : event :=
  ev_dgram (default [] (encap_dgram (rtun_encap (H := os_ideal) false demo_key 0 n (tun_zero <| t_seq := n |>)
    (zero_pkt <| pkt_len := 1 |> <| pkt_type := MLVPN_PKT_DATA |> <| pkt_data := b :: zeroes 1499 |>)))).

(** A packet that comes too late for the reorder window reaches the device
    at once and stays in the pool as well, so that the next forced drain
    injects it a second time: of the packets 10, 2 and 12, the second is
    delivered twice. *)
Theorem late_packet_twice :
  option_map (fun w => payload <$> Ring.contents (tt_sbuf (w_tuntap w)))
    (run (H := os_ideal) (sim_connect demo_args ++ [EvAdjust; sim_numbered 10 65; sim_numbered 2 66; sim_numbered 12 67; EvDrain])
      (main_state demo_options (Some "mlvpn") demo_key)) = Some [[65]; [66]; [66]; [67]].
Proof. vm_compute. reflexivity. Qed.

Section starved.
Context `{OS}.

(** C22: a tunnel that is down counts as usable when the daemon decides about
    its fallback mode: with every ordinary tunnel down, the check that finds a
    connected fallback tunnel too lossy empties the scheduler's table,
    although that tunnel and other fallback tunnels are connected. *)
Theorem fallback_starved w t tun d :
  winv w -> t ∈ w_rtuns w -> w_tuns w !! t = Some tun -> t_status tun = MLVPN_AUTHOK -> t_fallback tun = true ->
  t_loss_tolerence tun <= mlvpn_loss_ratio tun ->
  d ∈ w_rtuns w -> d <> t -> tun_test w (fun x => negb (t_fallback x)) d = true ->
  Forall (fun x => tun_test w (fun tun => t_fallback tun || bool_decide (t_status tun = MLVPN_DISCONNECTED)) x = true) (w_rtuns w) ->
  exists w', mlvpn_rtun_check_lossy t w = Ok tt w' /\ t ∈ up_tunnels w' /\
    s_fallback_mode (w_status w') = false /\ wrr_tunnel (w_wrr w') = [].
Proof.
  intros Hw Hin Ht Hs Hfo Hl Hd Hdt Hdn Hall.
  assert (t_up tun = true) as Hu by (unfold t_up; by rewrite Hs).
  unfold mlvpn_rtun_check_lossy. unfold mbind at 1, M_bind at 1, tun_get at 1. rewrite Ht.
  cbv zeta. rewrite (proj2 (Z.leb_le _ _) Hl), (bool_decide_eq_true_2 _ Hs). cbn [andb].
  rewrite (restatus_spec w t tun MLVPN_LOSSY Hw Hin Ht Hu eq_refl).
  set (w1 := w <| w_tuns := <[t := tun <| t_status := MLVPN_LOSSY |>]> (w_tuns w) |>).
  assert (switched w1 = ((w_status w1) <| s_fallback_mode := false |>,
    Wrr (candidates false w1) (replicate (length (candidates false w1)) (d_of_Z 0)))) as ->.
  { unfold switched. replace (existsb _ _) with true; [done|]. symmetry. apply existsb_exists. exists d.
    split; [by apply list_elem_of_In|]. unfold tun_test in *. cbn. rewrite lookup_insert_ne by done.
    rewrite Forall_forall in Hall. specialize (Hall d Hd). destruct (w_tuns w !! d) as [x|]; [|done].
    unfold normal. apply negb_true_iff in Hdn. rewrite Hdn in *. cbn in *. apply bool_decide_eq_true_1 in Hall. by rewrite Hall. }
  eexists. split; [done|]. split; [|split; [done|]].
  - apply elem_up. split; [done|]. eexists. split; [apply lookup_insert_eq|done].
  - cbn [wrr_tunnel w_wrr update snd]. unfold candidates. apply elem_of_nil_inv. intros x [He Hx]%list_elem_of_filter.
    rewrite Forall_forall in Hall. specialize (Hall x Hx). revert He. unfold tun_test in *. cbn.
    destruct (decide (x = t)) as [->|Hne]; [|].
    { rewrite lookup_insert_eq. unfold eligible. unfold t_fallback in Hfo. apply negb_true_iff in Hfo. cbn. by rewrite Hfo. }
    rewrite lookup_insert_ne by done. destruct (w_tuns w !! x) as [y|]; [|done]. unfold eligible.
    unfold t_fallback in *. destruct (t_fallback_only y =? 0); [|done]. cbn in *.
    apply bool_decide_eq_true_1 in Hall. by rewrite Hall.
Qed.
End starved.

(** An ordinary tunnel that never started and a fallback tunnel that is
    connected and loses packets. *)
Definition sim_fallback : new_args :=
  NewArgs "lte" None None 0 (Some "192.0.2.1") (Some "5080") false 30 1 128000 10 1000.
Definition sim_fallback_options : mlvpn_options_s :=
  Opts "" "" "" "10.42.42.2/30" "" "10.42.42.1" "" "" "" 1400 false 64 true.
Definition sim_starving : list event :=
  sim_connect sim_fallback ++ [EvNew demo_args; ev_dgram sim_gap].

Lemma fallback_starved_witness : exists w, exists w', mlvpn_rtun_check_lossy 0 w = Ok tt w' /\ 0%nat ∈ up_tunnels w' /\
    s_fallback_mode (w_status w') = false /\ wrr_tunnel (w_wrr w') = [].
Proof.
  destruct (run_at sim_fallback_options sim_starving 0 (fun w tun =>
    (t_loss_tolerence tun <=? mlvpn_loss_ratio tun) && bool_decide (t_status tun = MLVPN_AUTHOK) &&
    t_fallback tun && bool_decide (w_rtuns w = [1%nat; 0%nat]) && tun_test w (fun x => negb (t_fallback x)) 1 &&
    forallb (tun_test w (fun tun => t_fallback tun || bool_decide (t_status tun = MLVPN_DISCONNECTED))) (w_rtuns w)) eq_refl)
    as (w & tun & [Hw Hin Ht _] & Hp); [vm_compute; reflexivity|].
  rewrite !andb_true_iff in Hp.
  destruct Hp as [[[[[Hl%Z.leb_le Hs%bool_decide_eq_true_1] Hf] Hr%bool_decide_eq_true_1] Hd] Ha]. exists w.
  apply (@fallback_starved w 0 tun 1 Hw Hin Ht Hs Hf Hl); [rewrite Hr; set_solver|discriminate|exact Hd|].
  apply Forall_forall. intros x Hx%list_elem_of_In. by apply (proj1 (forallb_forall _ _) Ha).
Defined.

(** ** A daemon started from a file *)

Definition sim_entry (e : string * string * string) : entry :=
  Entry (list_ascii_of_string e.1.1) (list_ascii_of_string e.1.2) (list_ascii_of_string e.2).
Definition sim_entries : list (string * string * string) :=
  [("general", "mode", "client"); ("general", "password", "secret"); ("general", "reorder_buffer_size", "64");
   ("adsl", "remotehost", "192.0.2.1"); ("adsl", "remoteport", "5080"); ("filters", "adsl", "udp")].
Definition sim_file : list ascii := print_config (sim_entry <$> sim_entries).
Definition sim_started : list event :=
  [EvStart sim_file; EvClock (d_of_Z 1); EvRtunTimer 0; EvRtunWrite 0; ev_dgram demo_auth_ok].

Lemma config_tunnels_witness : exists w, w_rtuns w <> [] /\
  exists r w', mlvpn_config (H := os_ideal) sim_file false false w = Ok r w' /\ loaded sim_file false r w'.
Proof.
  destruct (run_at sim_options sim_started 0 (fun w _ => negb (bool_decide (w_rtuns w = [])) && file_fits sim_file false w) eq_refl)
    as (w & tun & Hat & Hp); [vm_compute; reflexivity|].
  apply andb_true_iff in Hp as [Hne%negb_true_iff%bool_decide_eq_false_1 Hf]. exists w. split; [exact Hne|].
  apply (@config_tunnels os_ideal os_ideal_sodium sim_file false false w (at_inv _ _ _ Hat) Hf). discriminate.
Defined.

