(* ===== verification/Network.v ===== *)
(** * Two daemons and the network between them

    Two daemons with the same key, each with its own outside ([OS]), exchange
    datagrams over a network that may lose, duplicate, delay, reorder and
    misroute them, to any tunnel of the peer: a datagram that a daemon reads
    is one its peer sent some time before.  Seen from the two devices the
    whole is a [link]: what comes out of one device was read from the other,
    unchanged.

    [net_step] is a turn of the event loop of either daemon ([handle] of
    [Daemon]), with a record of the packets its device gave it. *)

From S2P Require Import Prelude Double CString Timestamp Pkt Buffer Reorder Tunnel Loss Wrr Protocol Tuntap Rtun Stage Invariant Status Safety Events Flow Reload Daemon Behaviour.

(** ** The abstract link *)

Record link := Link { l_sent : list (list Z); l_delivered : list (list Z) }.

(** A packet enters on one side; a packet that entered comes out on the other,
    any number of times and in any order. *)
Inductive link_step : link -> link -> Prop :=
  | link_send p s d : link_step (Link s d) (Link (s ++ [p]) d)
  | link_deliver p s d : p ∈ s -> link_step (Link s d) (Link s (d ++ [p])).

Lemma link_integrity l l' :
  rtc link_step l l' -> l_delivered l ⊆ l_sent l -> l_delivered l' ⊆ l_sent l'.
Proof.
  induction 1 as [|l1 l2 l3 Hs _ IH]; [done|]. intros Hl. apply IH. destruct Hs as [p s d|p s d Hp]; simpl in *; set_solver.
Qed.

Lemma link_sends ps s d : rtc link_step (Link s d) (Link (s ++ ps) d).
Proof.
  revert s. induction ps as [|p ps IH]; intros s; [by rewrite app_nil_r|].
  eapply rtc_l; [apply (link_send p)|]. rewrite (cons_middle p _ ps), app_assoc. apply IH.
Qed.
Lemma link_delivers ps s d : Forall (fun p => p ∈ s) ps -> rtc link_step (Link s d) (Link s (d ++ ps)).
Proof.
  intros Hps. revert d. induction Hps as [|p ps Hp _ IH]; intros d; [by rewrite app_nil_r|].
  eapply rtc_l; [by apply (link_deliver p)|]. rewrite (cons_middle p _ ps), app_assoc. apply IH.
Qed.

(** ** Two daemons *)

(** A daemon, and what its device gave it. *)
Record node := Node { nd_world : world; nd_read : list (list Z) }.
Record net := Net { n_a : node; n_b : node }.

Definition sent_of (w : world) : list (list Z) := omap (fun e => match e with Sent _ d => Some d | _ => None end) (w_trace w).
Definition written_of (w : world) : list (list Z) := omap (fun e => match e with TunWrite b => Some b | _ => None end) (w_trace w).

Definition input_of (ev : event) : list (list Z) :=
  match ev with EvTunRead r data => device_input r data | _ => [] end.

(** The datagrams come from the peer, and the configuration stays. *)
Definition from_peer (ev : event) (peer : world) : bool :=
  match ev with
  | EvRtunRead _ (IoOk n) data _ =>
      bool_decide (take (Z.to_nat n) data ∈ sent_of peer) && (Z.of_nat (length (take (Z.to_nat n) data)) =? n)
  | EvStart _ | EvReload _ _ _ => false
  | _ => true
  end.

Definition node_turn (os : OS) (peer : world) (ev : event) (x : node) : option node :=
  if enabled ev (nd_world x) && from_peer ev peer then
    match handle (H := os) ev (nd_world x) with
    | Ok _ w => Some (Node w (nd_read x ++ input_of ev))
    | Fault _ => None
    end
  else None.

Inductive net_step (osa osb : OS) : net -> net -> Prop :=
  | step_a ev a a' b : node_turn osa (nd_world b) ev a = Some a' -> net_step osa osb (Net a b) (Net a' b)
  | step_b ev a b b' : node_turn osb (nd_world a) ev b = Some b' -> net_step osa osb (Net a b) (Net a b').

(** Both run libsodium. *)
Record same_sodium (os os' : OS) : Prop := {
  ss_seal m n k : secretbox_easy (OS := os) m n k = secretbox_easy (OS := os') m n k;
  ss_open c n k : secretbox_open_easy (OS := os) c n k = secretbox_open_easy (OS := os') c n k
}.

(** ** What is sent may be received *)

Lemma encap_same os os' ct key now64 ds tun p :
  same_sodium os os' ->
  encap_dgram (rtun_encap (H := os) ct key now64 ds tun p) = encap_dgram (rtun_encap (H := os') ct key now64 ds tun p).
Proof.
  intros [Hs _]. unfold rtun_encap. destruct (rtun_header _ _ _ _) as [[proto tun'] ds']. destruct (_ && _); [done|].
  destruct (_ <? _); [done|]. unfold crypto_encrypt. rewrite Hs. by destruct (secretbox_easy _ _ _).
Qed.

(** [mlvpn_protocol_read] only looks at the bytes that were received. *)
Lemma protocol_read_bytes `{OS} ct key now64 tun p q :
  pkt_len p = pkt_len q -> payload p = payload q ->
  mlvpn_protocol_read ct key now64 tun p = mlvpn_protocol_read ct key now64 tun q.
Proof. intros El Ep. unfold mlvpn_protocol_read. by rewrite El, Ep. Qed.

Lemma sent_arrives os os' ct key (Out : list Z -> Prop) n data :
  SodiumLaws (H := os) -> same_sodium os' os -> sent_ok (H := os') ct key Out (take (Z.to_nat n) data) ->
  Z.of_nat (length (take (Z.to_nat n) data)) = n -> arrives_ok (H := os) ct key Out n data.
Proof.
  intros Hl Hss (now64 & ds & tun & p & Htun & Hds & [Htx Ho] & He) Hn now64' tun1 tun' decap Hr Hd.
  rewrite (encap_same os' os) in He by done. set (d := take (Z.to_nat n) data) in *.
  assert (plain ct p = true -> 0 < pkt_len p /\ pkt_len p + Z.of_nat PKTHDRSIZ <= Z.of_nat DEFAULT_MTU) as Hpl.
  { intros [_ E%Z.eqb_eq]%andb_true_iff. pose proof (tx_data _ Htx E). pose proof (tx_len _ Htx).
    unfold PKTHDRSIZ, DEFAULT_MTU. lia. }
  pose proof (dgram_length _ _ _ _ _ _ _ (tx_pkt _ Htx) Htun Hds Hpl He) as Hlen.
  destruct (read_encap _ _ _ _ _ _ _ now64' tun1 (tx_pkt _ Htx) Htun Hds Hpl He)
    as (peer' & decap' & Hr' & _ & Hpay & Hty & _).
  rewrite (protocol_read_bytes (H := os) _ _ _ _ _ (received d)) in Hr.
  - rewrite Hr in Hr'. injection Hr' as -> ->. rewrite Hpay. apply Ho. congruence.
  - simpl. unfold u16, wrap. rewrite Z.mod_small by (unfold DEFAULT_MTU in *; lia). lia.
  - rewrite payload_received. unfold payload. simpl. unfold u16, wrap.
    rewrite Z.mod_small by (unfold DEFAULT_MTU in *; lia). done.
Qed.

(** ** One turn *)

(** The invariant when more is allowed, on the whole trace. *)
Lemma sent_mono `{OS} ct key (Out Out' : list Z -> Prop) d :
  (forall b, Out b -> Out' b) -> sent_ok ct key Out d -> sent_ok ct key Out' d.
Proof.
  intros Ho (now64 & ds & tun & p & Ht & Hds & [Htx Hd] & He). exists now64, ds, tun, p. split_and!; try done; try apply Hds.
  split; auto.
Qed.

Section mono.
Context `{SodiumLaws} (ct : bool) (key : list Z) (Out Out' In In' : list Z -> Prop).
Hypothesis Hout : forall b, Out b -> Out' b.
Hypothesis Hin : forall b, In b -> In' b.

Lemma effect_mono e : effect_ok ct key Out In e -> effect_ok ct key Out' In' e.
Proof. destruct e; simpl; [by apply sent_mono|done|done|apply Hin|done|done]. Qed.

Lemma ring_mono r : Ring.ring_inv (out_ok Out) cap r -> Ring.ring_inv (out_ok Out') cap r.
Proof. intros [V C F]. split; [done|done|]. eapply Forall_impl; [exact F|]. intros p []. split; auto. Qed.

Lemma flow_mono tr0 w : flow ct key Out In tr0 w -> flow ct key Out' In' tr0 w.
Proof.
  intros [K C D T [V Vc Vf Vm] [Pf Pu] (new & Hn & Hf)]. split; try done.
  - intros t tun Ht. destruct (T t tun Ht) as [R1 R2 Wr]. split; [by apply ring_mono..|done].
  - split; try done. eapply Forall_impl; [exact Vf|]. intros p. apply Hin.
  - split; [done|]. eapply Forall_impl; [exact Pu|]. intros e [He [Hp Hi]]. split; [done|]. split; auto.
  - exists new. split; [done|]. eapply Forall_impl; [exact Hf|]. apply effect_mono.
Qed.

(** From the trace so far to an empty one, and back. *)
Lemma flow_rebase w : flow ct key Out In [] w -> flow ct key Out In (w_trace w) w.
Proof. intros []. split; try done. exists []. by rewrite app_nil_r. Qed.
Lemma flow_join w0 w :
  flow ct key Out In [] w0 -> flow ct key Out In (w_trace w0) w -> flow ct key Out In [] w.
Proof.
  intros [_ _ _ _ _ _ (tr & Ht & Hf)] [? ? ? ? ? ? (new & Hn & Hf')]. split; try done. exists (tr ++ new).
  rewrite Hn, Ht. split; [done|]. by apply Forall_app.
Qed.
End mono.

(** A handler whose datagrams may arrive and whose input may be sent. *)
Lemma handle_flow `{SodiumLaws} ct key (Out In : list Z -> Prop) tr0 ev w w' :
  enabled ev w = true -> Forall Out (input_of ev) ->
  match ev with
  | EvRtunRead _ (IoOk n) data _ => arrives_ok ct key In n data
  | EvStart _ | EvReload _ _ _ => False
  | _ => True
  end ->
  flow ct key Out In tr0 w -> handle ev w = Ok tt w' -> flow ct key Out In tr0 w'.
Proof.
  intros Hen Hin Hev Hw. apply andb_true_iff in Hen as [_ Hen].
  destruct ev as [now|t r data client|t|t|r data| | | |a|t|f t| |content|fd content err|]; cbn [handle]; try done.
  - intros [= <-]. eapply flow_ext; [exact Hw|reflexivity..].
  - apply (stays_read ct key Out In tr0 t r data client); [|done]. intros n -> _. exact Hev.
  - by apply (stays_write ct key Out In tr0 t).
  - by apply (stays_check_timeout ct key Out In tr0 t).
  - by apply (stays_tun_read ct key Out In tr0 r data).
  - by apply (stays_tun_write ct key Out In tr0).
  - by apply (stays_drain_timeout ct key Out In tr0).
  - by apply (stays_adjust ct key Out In tr0).
  - intros Hh. refine (stays_bind _ _ _ (stays_new ct key Out In tr0 a) _ w tt w' Hw Hh). intros o. apply stays_ret.
  - by apply (stays_drop ct key Out In tr0 t).
  - intros Hh. refine (stays_bind _ _ _ (stays_filters_add ct key Out In tr0 f t) _ w tt w' Hw Hh). intros o. apply stays_ret.
  - by apply (stays_recalc ct key Out In tr0).
  - by apply (stays_quit ct key Out In tr0).
Qed.

Lemma elem_sent w d : d ∈ sent_of w -> exists t, Sent t d ∈ w_trace w.
Proof.
  unfold sent_of. rewrite list_elem_of_omap. intros (e & He & Hd). destruct e; simplify_eq. by eexists.
Qed.

Lemma flow_sent `{OS} ct key Out In w d : flow ct key Out In [] w -> d ∈ sent_of w -> sent_ok ct key Out d.
Proof.
  intros Hw [t Ht]%elem_sent. destruct (fl_trace _ _ _ _ _ _ Hw) as (new & Hn & Hf). rewrite Hn in Ht.
  by apply (proj1 (Forall_forall _ _) Hf) in Ht.
Qed.

(** What a node knows of itself and of its peer. *)
Abbreviation node_flow os ct key x y :=
  (flow (H := os) ct key (fun b => b ∈ nd_read x) (fun b => b ∈ nd_read y) [] (nd_world x)).

(** A turn of [x] keeps the invariants of both and writes packets the peer
    read before. *)
Lemma turn_flow os os' ct key x x' y ev :
  SodiumLaws (H := os) -> same_sodium os' os ->
  node_flow os ct key x y -> node_flow os' ct key y x -> node_turn os (nd_world y) ev x = Some x' ->
  node_flow os ct key x' y /\ node_flow os' ct key y x' /\
  exists inp out, nd_read x' = nd_read x ++ inp /\
    written_of (nd_world x') = written_of (nd_world x) ++ out /\ Forall (fun b => b ∈ nd_read y) out.
Proof.
  intros Hl Hss Hx Hy Ht. unfold node_turn in Ht. destruct (enabled ev (nd_world x) && from_peer ev (nd_world y)) eqn:Hc; [|done].
  apply andb_true_iff in Hc as [Hen Hfp]. destruct (handle (H := os) ev (nd_world x)) as [[] w'|] eqn:Hh; [|done].
  injection Ht as <-. simpl.
  set (Out := fun b => b ∈ nd_read x ++ input_of ev). set (In := fun b => b ∈ nd_read y).
  assert (flow (H := os) ct key Out In [] (nd_world x)) as Hx0.
  { eapply flow_mono; [..|exact Hx]; [|done]. intros b Hb. apply elem_of_app. by left. }
  assert (flow (H := os) ct key Out In (w_trace (nd_world x)) w') as Hw'.
  { eapply handle_flow; [exact Hen| | |by apply flow_rebase|exact Hh].
    - apply Forall_forall. intros b Hb. apply elem_of_app. by right.
    - destruct ev as [| ? [n| |] data ?| | | | | | | | | | | | |]; try done.
      apply andb_true_iff in Hfp as [Hd%bool_decide_eq_true_1 Hn%Z.eqb_eq].
      eapply sent_arrives; [done|exact Hss| |done]. by eapply flow_sent. }
  split_and!.
  - by eapply flow_join.
  - eapply flow_mono; [..|exact Hy]; [done|]. intros b Hb. apply elem_of_app. by left.
  - destruct (fl_trace _ _ _ _ _ _ Hw') as (new & Hn & Hf).
    exists (input_of ev), (omap (fun e => match e with TunWrite b => Some b | _ => None end) new).
    unfold written_of. rewrite Hn, omap_app. split_and!; [done|done|]. apply Forall_forall.
    intros b (e & He & Hb)%list_elem_of_omap. destruct e; simplify_eq.
    by apply (proj1 (Forall_forall _ _) Hf) in He.
Qed.

(** ** The system *)

Definition start_node (o : mlvpn_options_s) (title : option string) (key : list Z) : node :=
  Node (main_state o title key) [].

Lemma start_flow `{OS} o title key Out In : flow (o_cleartext_data o) key Out In [] (main_state o title key).
Proof.
  destruct (Ring.init_spec PKTBUFSIZE) as (Hv & Hcont & Hcap); [done|]. split; try done.
  - destruct (Free.init_inv 512) as [Hp _ _ Hl]; [done|]. change (w_freebuf (main_state o title key)) with (Free.mlvpn_freebuffer_init 512).
    split; [|constructor]. rewrite Hl. assert (Free.free_head (Free.mlvpn_freebuffer_init 512) ≡ₚ seq 0 512) as Hp' by (rewrite <- Hp; by rewrite app_nil_r).
    rewrite Hp'. apply Forall_seq. simpl. lia.
  - by exists [].
Qed.

(** The invariant of the system: both flows, and the link in both directions. *)
Record net_inv (osa osb : OS) (ct : bool) (key : list Z) (n : net) : Prop := {
  ni_a : node_flow osa ct key (n_a n) (n_b n);
  ni_b : node_flow osb ct key (n_b n) (n_a n);
  ni_ab : rtc link_step (Link [] []) (Link (nd_read (n_a n)) (written_of (nd_world (n_b n))));
  ni_ba : rtc link_step (Link [] []) (Link (nd_read (n_b n)) (written_of (nd_world (n_a n))))
}.

Lemma same_sodium_sym os os' : same_sodium os os' -> same_sodium os' os.
Proof. intros [H1 H2]. by split. Qed.

Lemma net_step_inv osa osb ct key n n' :
  SodiumLaws (H := osa) -> SodiumLaws (H := osb) -> same_sodium osa osb ->
  net_inv osa osb ct key n -> net_step osa osb n n' -> net_inv osa osb ct key n'.
Proof.
  intros Ha Hb Hss [Fa Fb Lab Lba] Hs. destruct Hs as [ev a a' b Ht|ev a b b' Ht]; simpl in *.
  - destruct (turn_flow osa osb ct key a a' b ev Ha (same_sodium_sym _ _ Hss) Fa Fb Ht)
      as (Fa' & Fb' & inp & out & Hr & Hw & Hout). split; simpl; [done|done|rewrite Hr|rewrite Hw].
    + etransitivity; [exact Lab|apply link_sends].
    + etransitivity; [exact Lba|by apply link_delivers].
  - destruct (turn_flow osb osa ct key b b' a ev Hb Hss Fb Fa Ht)
      as (Fb' & Fa' & inp & out & Hr & Hw & Hout). split; simpl; [done|done|rewrite Hw|rewrite Hr].
    + etransitivity; [exact Lab|by apply link_delivers].
    + etransitivity; [exact Lba|apply link_sends].
Qed.


(** ** A run

    Two daemons connect, one of them reads a packet from its device and the
    other writes it. *)

Inductive action :=
  | Do (a : bool) (ev : event)
  (** the daemon reads the [k]-th datagram of its peer on the tunnel [t] *)
  | Deliver (a : bool) (t k : nat).

Definition action_event (peer : world) (t k : nat) : event :=
  let d := default [] (sent_of peer !! k) in
  EvRtunRead t (IoOk (Z.of_nat (length d))) (recv_buffer d) demo_client.

Definition net_turn (osa osb : OS) (x : action) (n : net) : option net :=
  let turn (a : bool) ev := if a then (fun y => Net y (n_b n)) <$> node_turn osa (nd_world (n_b n)) ev (n_a n)
                   else (fun y => Net (n_a n) y) <$> node_turn osb (nd_world (n_a n)) ev (n_b n) in
  match x with
  | Do a ev => turn a ev
  | Deliver a t k => turn a (action_event (nd_world (if a then n_b n else n_a n)) t k)
  end.

Fixpoint net_run (osa osb : OS) (l : list action) (n : net) : option net :=
  match l with
  | [] => Some n
  | x :: l => n ← net_turn osa osb x n; net_run osa osb l n
  end.

Lemma net_turn_step osa osb x n n' : net_turn osa osb x n = Some n' -> net_step osa osb n n'.
Proof.
  destruct n as [a b]. destruct x as [s ev|s t k]; simpl; (destruct s; intros (y & Hy & ->)%fmap_Some; econstructor; exact Hy).
Qed.

Lemma net_run_rtc osa osb l : forall n n', net_run osa osb l n = Some n' -> rtc (net_step osa osb) n n'.
Proof.
  induction l as [|x l IH]; intros n n'; cbn [net_run]; [by intros [= <-]|].
  destruct (net_turn osa osb x n) as [n1|] eqn:E; [|done]. intros Hr. eapply rtc_l; [by eapply net_turn_step|by apply IH].
Qed.

Definition demo_net : net := Net (start_node demo_options None demo_key) (start_node sim_options None demo_key).
Definition demo_actions : list action :=
  [Do true (EvNew demo_args); Do true EvRecalc; Do true (EvClock (d_of_Z 1)); Do true (EvRtunTimer 0); Do true (EvRtunWrite 0);
   Do false (EvNew sim_server); Do false EvRecalc; Do false (EvClock (d_of_Z 1)); Do false (EvRtunTimer 0);
   Deliver false 0 0; Do false (EvRtunWrite 0); Deliver true 0 0;
   Do true (EvTunRead (IoOk 3) [69; 0; 1]); Do true (EvRtunWrite 0); Deliver false 0 1; Do false EvTunWrite;
   Deliver false 0 1; Do false EvTunWrite].

(** A run whose end passes a test. *)
Lemma net_run_witness osa osb l n0 p :
  match net_run osa osb l n0 with Some n => p n | None => false end = true ->
  exists n, rtc (net_step osa osb) n0 n /\ p n = true.
Proof.
  destruct (net_run osa osb l n0) as [n|] eqn:Hr; [|done]. intros Hp. exists n. split; [|done]. by eapply net_run_rtc.
Qed.

Definition demo_delivered (n : net) : bool :=
  bool_decide (nd_read (n_a n) = [[69; 0; 1]]) && bool_decide (written_of (nd_world (n_b n)) = [[69; 0; 1]; [69; 0; 1]]).


(** ** What the network could do

    The theorem above is about a network that does not make datagrams up.
    libsodium seals the payload under a nonce made of the sequence number and
    the flow identifier, and nothing else: the type of the packet, its number
    in the stream of data and its timestamps are not covered. *)

(** The bytes of a datagram outside the half word of its bit fields. *)
Definition same_but_bits (d d' : list Z) : Prop :=
  length d' = length d /\ forall i, (i < 2)%nat \/ (4 <= i)%nat -> d' !! i = d !! i.

Lemma lookup_outside (h b b' rest : list Z) i :
  length h = 2%nat -> length b = 2%nat -> length b' = 2%nat -> (i < 2)%nat \/ (4 <= i)%nat ->
  (h ++ b' ++ rest) !! i = (h ++ b ++ rest) !! i.
Proof.
  intros Hh Hb Hb' [Hi|Hi]; [by rewrite !lookup_app_l by lia|]. rewrite !(lookup_app_r h) by lia.
  rewrite (lookup_app_r b'), (lookup_app_r b) by lia. by rewrite Hb, Hb'.
Qed.

Lemma encode_flags proto f n :
  length (proto_data proto) = DEFAULT_MTU -> (n <= sizeof_proto)%nat ->
  same_but_bits (encode_proto (to_network proto) n) (encode_proto (to_network (proto <| proto_flags := f |>)) n).
Proof.
  intros Hd Hn. split.
  - by rewrite !length_encode_proto.
  - intros i Hi. unfold encode_proto. destruct (decide (i < n)%nat) as [Hlt|Hge].
    2: { rewrite !lookup_take_ge by lia. done. }
    rewrite !lookup_take_lt by lia. unfold encode_hdr. rewrite <- !app_assoc.
    apply lookup_outside; by rewrite ?length_le_bytes.
Qed.

(** C15: the type of a packet is not authenticated.  From any datagram a daemon
    sent encrypted, changing only the half word of the bit fields makes one
    that the peer accepts as a packet of any other type, with the payload of
    the first: a keepalive becomes a disconnect, or data for the device. *)
Theorem type_not_authenticated `{SodiumLaws} key now64 ds tun p d type now64' peer :
  pkt_ok p -> tun_wire tun -> 0 <= ds < 2 ^ 64 ->
  encap_dgram (rtun_encap false key now64 ds tun p) = Some d -> 0 <= type < 64 ->
  exists d' peer' decap, same_but_bits d d' /\
    mlvpn_protocol_read false key now64' peer (received d') = Some (peer', decap) /\
    pkt_type decap = type /\ payload decap = payload p.
Proof.
  intros Hp Ht Hds Hd Hty.
  destruct (encap_sendable false key now64 ds tun p d Hp Ht Hds ltac:(done) Hd) as (proto & c & Hs & -> & _ & _ & Hc).
  cbn [plain andb] in Hc. set (proto' := proto <| proto_flags := type |>).
  assert (sendable proto' c) as Hs' by (destruct Hs; by split).
  exists (encode_proto (to_network proto') (PKTHDRSIZ + length c)).
  rewrite (read_sendable false key now64' peer proto' c Hs'). cbn [andb]. unfold crypto_decrypt.
  change (proto_seq proto') with (proto_seq proto). change (proto_flow_id proto') with (proto_flow_id proto).
  rewrite (open_seal _ _ _ _ Hc). set (hp := proto' <| proto_data_seq := _ |> <| proto_len := _ |>).
  destruct (protocol_accept now64' peer hp _ _) as [peer' decap] eqn:E. exists peer', decap.
  apply (f_equal snd) in E. rewrite accept_pkt in E by apply Hs. simpl in E. subst decap.
  pose proof (seal_length _ _ _ _ Hc) as Hl. pose proof (sd_fits _ _ Hs) as Hfit. split_and!; [|done|done|].
  - apply encode_flags; [|unfold sizeof_proto; lia].
    rewrite (sd_data _ _ Hs), length_memcpy; rewrite ?length_zeroes; unfold PKTHDRSIZ in *; lia || done.
  - apply payload_memcpy. unfold u16, wrap, crypto_PADSIZE, DEFAULT_MTU, PKTHDRSIZ in *. rewrite Z.mod_small; lia.
Qed.

(** A keepalive turned into data. *)
Lemma type_not_authenticated_witness :
  let p := Pkt 2 MLVPN_PKT_AUTH 0 0 (memcpy (zeroes DEFAULT_MTU) [65; 85] 2) in
  exists d' peer' decap,
    mlvpn_protocol_read (H := os_ideal) false [1] 5 tun_zero (received d') = Some (peer', decap) /\
    pkt_type decap = MLVPN_PKT_DATA /\ payload decap = [65; 85].
Proof.
  intros p.
  destruct (encap_dgram (rtun_encap (H := os_ideal) false [1] 0 42 tun_zero p)) as [d|] eqn:Hd; [|exfalso; revert Hd; vm_compute; discriminate].
  destruct (@type_not_authenticated os_ideal os_ideal_sodium [1] 0 42 tun_zero p d MLVPN_PKT_DATA 5 tun_zero)
    as (d' & peer' & decap & _ & Hr & Ht & Hp).
  - split; [split; vm_compute; discriminate|split; vm_compute; (discriminate || reflexivity)|reflexivity].
  - split; split; vm_compute; (discriminate || reflexivity).
  - split; vm_compute; (discriminate || reflexivity).
  - exact Hd.
  - split; vm_compute; (discriminate || reflexivity).
  - exists d', peer', decap. split; [exact Hr|]. split; [exact Ht|]. rewrite Hp. vm_compute. reflexivity.
Defined.
