(* ===== verification/Privsep.v ===== *)
(** * Privilege separation ([src/src/privsep.c], [root_tuntap_open])

    The privileged parent of the daemon serves requests that come as bytes on
    a socket from the unprivileged child: it opens the configuration file and
    the device, resolves names and runs the status script.  The child reads
    the network and may be taken over, so the bytes are arbitrary here.

    The parent is a state transformer that may end the process: [Exit] is
    [_exit], [errx] or [fatalx] with its code, [Bad] an access outside a
    buffer, and both keep the state, so that a theorem about a run is about
    everything done before.  [p_ops] records what was done with privileges,
    each operation with the state of the parent at that time.  The second
    part models the functions of the child that send the requests. *)

From Stdlib Require Import Sorted.
From S2P Require Import Prelude CString Pkt.

Definition MAXPATHLEN : Z := 4096.
Definition MLVPN_MAXHNAMSTR : Z := 256.
Definition MLVPN_IFNAMSIZ : Z := 16.
Definition ERRMSGSIZ : Z := 8192.
Definition INT_SIZE : Z := 4.
Definition SIZE_T_SIZE : Z := 8.
Definition ADDRINFO_SIZE : Z := 48.

(** ** Data *)

Inductive priv_state := STATE_INIT | STATE_CONFIG | STATE_RUNNING | STATE_QUIT.
#[export] Instance priv_state_eq_dec : EqDecision priv_state.
Proof. solve_decision. Defined.

Definition state_rank (s : priv_state) : Z :=
  match s with STATE_INIT => 0 | STATE_CONFIG => 1 | STATE_RUNNING => 2 | STATE_QUIT => 3 end.

(** [enum cmd_types] *)
Definition PRIV_OPEN_CONFIG : Z := 0.
Definition PRIV_INIT_SCRIPT : Z := 1.
Definition PRIV_OPEN_TUN : Z := 2.
Definition PRIV_RUN_SCRIPT : Z := 3.
Definition PRIV_RELOAD_RESOLVER : Z := 4.
Definition PRIV_GETADDRINFO : Z := 5.
Definition PRIV_SET_RUNNING_STATE : Z := 6.

(** An entry of the list [getaddrinfo] gives. *)
Record addrinfo := AddrInfo {
  ai_flags : Z; ai_family : Z; ai_socktype : Z; ai_protocol : Z; ai_addr : list Z
}.

(** What is done with privileges; strings are their bytes. *)
Inductive root_op :=
  | OpenFile (path : list Z)
  | OpenTun (mode : Z) (name : list Z) (mtu : Z)
  | CheckScript (path : list Z) (mode : option Z)
  | RunScript (path : list Z) (argv env : list (list Z))
  | Resolve (host serv : option (list Z)) (hints : list Z)
  | ReloadResolver.

Record priv := Priv {
  cur_state : priv_state;
  allowed_configfile : list Z;
  script_path : list Z;
  p_in : list Z;
  p_out : list Z;
  p_fds : list Z;
  p_ops : list (priv_state * root_op);
  p_calls : nat
}.
#[export] Instance priv_fields : Fields priv := fun p =>
  Priv (cur_state p) (allowed_configfile p) (script_path p) (p_in p) (p_out p) (p_fds p) (p_ops p) (p_calls p).

(** The results of the system calls, by the number of the call. *)
Class PrivOS := {
  po_open : nat -> Z;
  (** [st_mode], [None] for an error *)
  po_stat : nat -> option Z;
  po_strerror : nat -> list Z;
  po_getaddrinfo : nat -> list addrinfo;
  (** [fork] of [root_launch_script], and the status of its child *)
  po_fork : nat -> bool;
  po_launch : nat -> Z;
  po_alloc : nat -> bool;
  po_socket : nat -> Z;
  (** [TUNSETIFF]: the name of the interface, and [SIOCSIFMTU] *)
  po_tunsetiff : nat -> list Z -> option (list Z);
  po_setmtu : nat -> Z;
  (** SIGCHLD for the child came before [cur_state], which is volatile, is read *)
  po_child_died : nat -> bool
}.

(** ** The monad *)

Inductive outcome (A : Type) :=
  | Ret (a : A) (s : priv)
  | Exit (code : Z) (s : priv)
  | Bad (what : string) (s : priv).
Arguments Ret {A} a s.
Arguments Exit {A} code s.
Arguments Bad {A} what s.

Definition P (A : Type) : Type := priv -> outcome A.
#[export] Instance P_ret : MRet P := fun A a s => Ret a s.
#[export] Instance P_bind : MBind P := fun A B k m s =>
  match m s with
  | Ret a s' => k a s'
  | Exit c s' => Exit c s'
  | Bad e s' => Bad e s'
  end.

Definition exit {A} (code : Z) : P A := fun s => Exit code s.
Definition bad {A} (what : string) : P A := fun s => Bad what s.
Definition p_get {A} (f : priv -> A) : P A := fun s => Ret (f s) s.
Definition p_mod (f : priv -> priv) : P unit := fun s => Ret tt (f s).
Definition p_when (b : bool) (m : P unit) : P unit := if b then m else mret tt.
Definition p_ask {A} (f : nat -> A) : P A := fun s => Ret (f (p_calls s)) (s <| p_calls := S (p_calls s) |>).
Definition op (o : root_op) : P unit := p_mod (fun s => s <| p_ops := p_ops s ++ [(cur_state s, o)] |>).

(** ** Bytes of the socket *)

(** What one call of [read] does: it is interrupted, or gives at most [k + 1]
    bytes. *)
Inductive read_event := Interrupted | Chunk (k : nat).

(** The loop of [may_read] and [must_read]: [None] when the stream ends
    first.  When [sched] ends, the calls give all there is. *)
Fixpoint may_read (sched : list read_event) (n : nat) (stream : list Z) : option (list Z * list Z) :=
  match n with
  | O => Some ([], stream)
  | S _ =>
      match sched with
      | Interrupted :: sched => may_read sched n stream
      | Chunk k :: sched =>
          let got := Nat.min (Nat.min (S k) n) (length stream) in
          match got with
          | O => None
          | S _ =>
              '(l, rest) ← may_read sched (n - got) (drop got stream);
              Some (take got stream ++ l, rest)
          end
      | [] => if (length stream <? n)%nat then None else Some (take n stream, drop n stream)
      end
  end.

(** [must_read]: the process ends when the stream does. *)
Definition must_read (n : Z) : P (list Z) :=
  stream ← p_get p_in;
  if Z.of_nat (length stream) <? n then exit 0
  else p_mod (fun s => s <| p_in := drop (Z.to_nat n) stream |>);; mret (take (Z.to_nat n) stream).

Definition read_int : P Z := l ← must_read INT_SIZE; mret (i32 (of_le_bytes l)).
Definition read_size : P Z := l ← must_read SIZE_T_SIZE; mret (of_le_bytes l).

(** The bytes before the first zero. *)
Fixpoint c_bytes (l : list Z) : list Z :=
  match l with
  | [] => []
  | b :: l => if b =? 0 then [] else b :: c_bytes l
  end.

(** [must_read(fd, buf, len); buf[len - 1] = 0] into a buffer of [cap]
    bytes: the string in the buffer. *)
Definition read_string (cap len : Z) : P (list Z) :=
  if (cap <? len) || (len =? 0) then bad "buf"
  else l ← must_read len; mret (c_bytes (take (Z.to_nat len - 1) l)).

Definition must_write (l : list Z) : P unit := p_mod (fun s => s <| p_out := p_out s ++ l |>).
Definition write_size (n : Z) : P unit := must_write (le_bytes 8 n).
Definition write_int (n : Z) : P unit := must_write (le_bytes 4 n).
Definition send_fd (fd : Z) : P unit := p_mod (fun s => s <| p_fds := p_fds s ++ [fd] |>).

(** A string with its terminating zero, preceded by its length. *)
Definition write_string (l : list Z) : P unit := write_size (Z.of_nat (length l) + 1);; must_write (l ++ [0]).

(** ** The requests *)
Section monitor.
Context `{PrivOS}.

(** The handler of SIGCHLD. *)
Definition sig_got_chld : P unit :=
  died ← p_ask po_child_died;
  p_when (died : bool) (p_mod (fun s =>
    if state_rank (cur_state s) <? state_rank STATE_QUIT then s <| cur_state := STATE_QUIT |> else s)).

Definition read_state : P priv_state := sig_got_chld;; p_get cur_state.

Definition increase_state (state : priv_state) : P unit :=
  cur ← read_state;
  if state_rank state <=? state_rank cur then exit 1
  else p_mod (fun s => s <| cur_state := state |>).

Definition root_open_file (path : list Z) : P Z :=
  if default 0 (head path) =? 124 then mret (-1)
  else op (OpenFile path);; p_ask po_open.

(** [strlcpy(dst, path, len)] *)
Definition copy_path (path : list Z) (len : Z) : list Z := take (Z.to_nat len - 1) path.

Definition do_open_config : P unit :=
  len ← read_size;
  if (len =? 0) || (MAXPATHLEN <? len) then exit 0
  else
    path ← read_string MAXPATHLEN len;
    cur ← read_state;
    p_when (bool_decide (cur = STATE_CONFIG)) (p_mod (fun s => s <| allowed_configfile := copy_path path len |>));;
    allowed ← p_get allowed_configfile;
    if bool_decide (allowed = []) then exit 1
    else
      fd ← root_open_file allowed;
      send_fd fd.

(** [root_tuntap_open]: the descriptor and the name of the device.  [ifr_name]
    has [IFNAMSIZ] bytes, as [devname] has. *)
Definition root_tuntap_open (mode : Z) (devname : list Z) (mtu : Z) : P (Z * list Z) :=
  op (OpenTun mode devname mtu);;
  fd ← p_ask po_open;
  if fd <? 0 then mret (fd, devname)
  else
    name ← p_ask (fun n => po_tunsetiff n (take (Z.to_nat MLVPN_IFNAMSIZ - 1) devname));
    match name with
    | None => mret (-1, devname)
    | Some name =>
        sockfd ← p_ask po_socket;
        failed ← (if sockfd <? 0 then mret false else r ← p_ask po_setmtu; mret (r <? 0));
        if (failed : bool) then mret (-1, devname)
        else if 0 <? fd then mret (fd, take (Z.to_nat MLVPN_IFNAMSIZ - 1) (c_bytes name)) else mret (fd, devname)
    end.

Definition do_open_tun : P unit :=
  cur ← read_state;
  if negb (bool_decide (cur = STATE_CONFIG)) then exit 0
  else
    mode ← read_int;
    if negb (mode =? 0) && negb (mode =? 1) then exit 0
    else
      len ← read_size;
      if MLVPN_IFNAMSIZ <? len then exit 0
      else
        name ← (if 0 <? len then read_string MLVPN_IFNAMSIZ len else mret []);
        mtu ← read_int;
        if (mtu <? 0) || (1500 <? mtu) then exit 1
        else
          '(fd, name) ← root_tuntap_open mode name mtu;
          if fd <? 0 then write_size 0
          else write_string name;; send_fd fd.

(** The bits of [st_mode]: [S_IRWXG|S_IRWXO] and [S_IXUSR]. *)
Definition group_or_other (mode : Z) : bool := negb (Z.land mode 63 =? 0).
Definition user_executable (mode : Z) : bool := negb (Z.land mode 64 =? 0).
Definition script_allowed (mode : option Z) : bool :=
  match mode with Some m => negb (group_or_other m) && user_executable m | None => false end.

(** [snprintf(errormessage, ERRMSGSIZ, ...)], empty when the script is allowed. *)
Definition errormessage (path : list Z) (mode : option Z) (strerror : list Z) : list Z :=
  take (Z.to_nat ERRMSGSIZ - 1)
    match mode with
    | None => bytes_of_string "Unable to open file " ++ path ++ bytes_of_string ":" ++ strerror
    | Some m =>
        if group_or_other m then path ++ bytes_of_string " is group/other accessible"
        else if negb (user_executable m) then path ++ bytes_of_string " is not executable"
        else []
    end.

Definition do_init_script : P unit :=
  cur ← read_state;
  if negb (bool_decide (cur = STATE_CONFIG)) then exit 0
  else
    len ← read_size;
    if (len =? 0) || (MAXPATHLEN <? len) then exit 0
    else
      path ← read_string MAXPATHLEN len;
      mode ← p_ask po_stat;
      op (CheckScript path mode);;
      p_when (script_allowed mode) (p_mod (fun s => s <| script_path := copy_path path len |>));;
      strerror ← p_ask po_strerror;
      write_string (errormessage path mode strerror).

(** [*name ? name : NULL] *)
Definition or_null (l : list Z) : option (list Z) := if bool_decide (l = []) then None else Some l.

Definition write_addrinfo (a : addrinfo) : P unit :=
  write_int (ai_flags a);; write_int (ai_family a);; write_int (ai_socktype a);; write_int (ai_protocol a);;
  write_int (Z.of_nat (length (ai_addr a)));; must_write (ai_addr a).

Fixpoint write_addrinfos (l : list addrinfo) : P unit :=
  match l with
  | [] => mret tt
  | a :: l => write_addrinfo a;; write_addrinfos l
  end.

Definition do_getaddrinfo : P unit :=
  hostname_len ← read_size;
  if MLVPN_MAXHNAMSTR <? hostname_len then exit 0
  else
    host ← (if 0 <? hostname_len then l ← read_string MLVPN_MAXHNAMSTR hostname_len; mret (or_null l) else mret None);
    servname_len ← read_size;
    if MLVPN_MAXHNAMSTR <? servname_len then exit 0
    else
      serv ← (if 0 <? servname_len then l ← read_string MLVPN_MAXHNAMSTR servname_len; mret (or_null l) else mret None);
      hints ← must_read ADDRINFO_SIZE;
      op (Resolve host serv hints);;
      res ← p_ask po_getaddrinfo;
      write_size (Z.of_nat (length res));;
      write_addrinfos res.

(** The loop over [n] strings, each in a buffer of its own.  Every string
    takes bytes from the stream: [fuel] above its length is enough. *)
Fixpoint read_strings (fuel : nat) (n : Z) : P (list (list Z)) :=
  if n <=? 0 then mret []
  else
    match fuel with
    | O => bad "loop"
    | S fuel =>
        len ← read_size;
        if len =? 0 then exit 0
        else
          ok ← p_ask po_alloc;
          if negb ok then exit 0
          else
            l ← read_string len len;
            rest ← read_strings fuel (n - 1);
            mret (l :: rest)
    end.

(** A counted array of strings; [calloc] fails or not, also for the [INT_MAX]
    whose successor is not an [int]. *)
Definition read_array : P (list (list Z)) :=
  n ← read_int;
  if n <=? 0 then exit 0
  else
    ok ← p_ask po_alloc;
    if negb ok then exit 0
    else stream ← p_get p_in; read_strings (S (length stream)) n.

(** [execv(path, path :: argv)] with [env] added to the environment; its status
    is returned, or the -1 of the start when [fork] fails. *)
Definition root_launch_script (path : list Z) (argv env : list (list Z)) : P Z :=
  forked ← p_ask po_fork;
  if negb forked then mret (-1)
  else op (RunScript path argv env);; p_ask po_launch.

Definition do_run_script : P unit :=
  argv ← read_array;
  env ← read_array;
  script ← p_get script_path;
  i ← (if bool_decide (script = []) then mret (-1) else root_launch_script script argv env);
  write_int i.

Definition do_command (cmd : Z) : P unit :=
  if cmd =? PRIV_OPEN_CONFIG then do_open_config
  else if cmd =? PRIV_OPEN_TUN then do_open_tun
  else if cmd =? PRIV_INIT_SCRIPT then do_init_script
  else if cmd =? PRIV_GETADDRINFO then do_getaddrinfo
  else if cmd =? PRIV_RUN_SCRIPT then do_run_script
  else if cmd =? PRIV_RELOAD_RESOLVER then op ReloadResolver
  else if cmd =? PRIV_SET_RUNNING_STATE then increase_state STATE_RUNNING
  else exit 1.

(** [while (cur_state < STATE_QUIT)]; every turn takes the bytes of a command
    from the stream. *)
Fixpoint monitor_loop (fuel : nat) : P unit :=
  cur ← read_state;
  if state_rank STATE_QUIT <=? state_rank cur then mret tt
  else
    stream ← p_get p_in;
    if Z.of_nat (length stream) <? INT_SIZE then mret tt
    else
      cmd ← read_int;
      match fuel with
      | O => bad "loop"
      | S fuel => do_command cmd;; monitor_loop fuel
      end.

(** The parent's part of [priv_init], after the fork; it always ends in
    [_exit(1)] or before. *)
Definition priv_init_parent : P unit :=
  increase_state STATE_CONFIG;;
  stream ← p_get p_in;
  monitor_loop (length stream);;
  exit 1.

Definition priv_start (input : list Z) : priv := Priv STATE_INIT [] [] input [] [] [] 0.
End monitor.

(** ** What the parent does for arbitrary bytes *)

(** After the configuration nothing changes: the file opened and the script
    run are those that were set, and no device is opened nor script accepted. *)
Definition confined (allowed script : list Z) (o : root_op) : Prop :=
  match o with
  | OpenFile path => path = allowed
  | RunScript path _ _ => path = script
  | OpenTun _ _ _ | CheckScript _ _ => False
  | Resolve _ _ _ | ReloadResolver => True
  end.

(** The script was accepted: only its owner can access it and it is
    executable. *)
Definition checked (ops : list (priv_state * root_op)) (path : list Z) : Prop :=
  exists mode, (STATE_CONFIG, CheckScript path mode) ∈ ops /\ script_allowed mode = true.

Definition tag_ranks (ops : list (priv_state * root_op)) : list Z := (fun e => state_rank e.1) <$> ops.

Record core (st : priv_state) (allowed script : list Z) (ops : list (priv_state * root_op)) : Prop := {
  co_started : st <> STATE_INIT;
  co_tags x o : (x, o) ∈ ops -> 1 <= state_rank x <= state_rank st;
  co_sorted : Sorted Z.le (tag_ranks ops);
  co_late x o : (x, o) ∈ ops -> x <> STATE_CONFIG -> confined allowed script o;
  co_script : script = [] \/ checked ops script;
  co_runs l1 x path argv env l2 : ops = l1 ++ (x, RunScript path argv env) :: l2 -> checked l1 path
}.

Definition inv (n : nat) (s : priv) : Prop :=
  core (cur_state s) (allowed_configfile s) (script_path s) (p_ops s) /\ (length (p_in s) <= n)%nat.

(** From [s], [m] never goes wrong; if it returns, [Q] holds, and if the
    process ends, the invariant does. *)
Definition pwp {A} (m : P A) (Q : A -> priv -> Prop) (s : priv) : Prop :=
  match m s with
  | Ret a s' => Q a s'
  | Exit _ s' => core (cur_state s') (allowed_configfile s') (script_path s') (p_ops s')
  | Bad _ _ => False
  end.

Lemma pwp_bind {A B} (m : P A) (k : A -> P B) Q s : pwp m (fun a => pwp (k a) Q) s -> pwp (m ≫= k) Q s.
Proof. unfold pwp, mbind, P_bind. by destruct (m s). Qed.
Lemma pwp_mono {A} (m : P A) (Q Q' : A -> priv -> Prop) s : pwp m Q s -> (forall a s', Q a s' -> Q' a s') -> pwp m Q' s.
Proof. unfold pwp. destruct (m s); auto. Qed.
Lemma pwp_ret {A} (a : A) (Q : A -> priv -> Prop) s : Q a s -> pwp (mret a) Q s.
Proof. done. Qed.
Lemma pwp_get {A} (f : priv -> A) Q s : Q (f s) s -> pwp (p_get f) Q s.
Proof. done. Qed.
Lemma pwp_exit {A} c (Q : A -> priv -> Prop) n s : inv n s -> pwp (exit c) Q s.
Proof. by intros [Hc _]. Qed.

(** ** Computations that only read, write and ask *)

Definition pcore (s : priv) : priv_state * list Z * list Z * list (priv_state * root_op) :=
  (cur_state s, allowed_configfile s, script_path s, p_ops s).

(** [s'] has the same core as [s] and no more bytes to read. *)
Definition same (s s' : priv) : Prop := pcore s' = pcore s /\ (length (p_in s') <= length (p_in s))%nat.

Lemma same_refl s : same s s.
Proof. done. Qed.
Lemma same_trans s1 s2 s3 : same s1 s2 -> same s2 s3 -> same s1 s3.
Proof. intros [] []. split; [congruence|lia]. Qed.
Lemma inv_same n s s' : inv n s -> same s s' -> inv n s'.
Proof.
  intros [Hc Hl] [Hp Hle]. unfold pcore in Hp. injection Hp as H1 H2 H3 H4. split; [|lia]. by rewrite H1, H2, H3, H4.
Qed.

Definition quiet {A} (m : P A) (R : A -> Prop) : Prop :=
  forall n s, inv n s -> pwp m (fun a s' => same s s' /\ R a) s.

Lemma quiet_ret {A} (a : A) (R : A -> Prop) : R a -> quiet (mret a) R.
Proof. intros HR n s Hi. split; [apply same_refl|done]. Qed.
Lemma quiet_bind {A B} (m : P A) (k : A -> P B) R R' :
  quiet m R -> (forall a, R a -> quiet (k a) R') -> quiet (m ≫= k) R'.
Proof.
  intros Hm Hk n s Hi. apply pwp_bind. eapply pwp_mono; [exact (Hm n s Hi)|]. intros a s1 [Hs1 Ha].
  eapply pwp_mono; [apply (Hk a Ha n); by eapply inv_same|]. intros b s2 [Hs2 Hb]. split; [by eapply same_trans|done].
Qed.
Lemma quiet_exit {A} c (R : A -> Prop) : quiet (exit c) R.
Proof. intros n s Hi. by eapply pwp_exit. Qed.
Lemma quiet_ask {A} (f : nat -> A) : quiet (p_ask f) (fun _ => True).
Proof. intros n s Hi. by split; [split|]. Qed.
Lemma quiet_weaken {A} (m : P A) (R R' : A -> Prop) : quiet m R -> (forall a, R a -> R' a) -> quiet m R'.
Proof. intros Hm HR n s Hi. eapply pwp_mono; [exact (Hm n s Hi)|]. naive_solver. Qed.
Lemma quiet_if {A} (b : bool) (m1 m2 : P A) R :
  (b = true -> quiet m1 R) -> (b = false -> quiet m2 R) -> quiet (if b then m1 else m2) R.
Proof. destruct b; auto. Qed.

(** A quiet computation, then the rest. *)
Lemma pwp_quiet {A B} (m : P A) (k : A -> P B) R Q n s :
  inv n s -> quiet m R -> (forall a s', same s s' -> inv n s' -> R a -> pwp (k a) Q s') -> pwp (m ≫= k) Q s.
Proof.
  intros Hi Hm HQ. apply pwp_bind. eapply pwp_mono; [exact (Hm n s Hi)|]. intros a s' [Hs Ha]. apply HQ; [done| |done].
  by eapply inv_same.
Qed.

Lemma quiet_must_read k : quiet (must_read k) (fun l => length l = Z.to_nat k).
Proof.
  intros n s Hi. unfold must_read. apply pwp_bind, pwp_get. destruct (Z.ltb_spec (Z.of_nat (length (p_in s))) k) as [|Hk].
  - by eapply pwp_exit.
  - split; [split; [done|simpl; rewrite length_drop; lia]|]. rewrite length_take. lia.
Qed.

Lemma quiet_read_int : quiet read_int (fun _ => True).
Proof. unfold read_int. eapply quiet_bind; [apply quiet_must_read|]. intros l _. by apply quiet_ret. Qed.
Lemma quiet_read_size : quiet read_size (fun _ => True).
Proof. unfold read_size. eapply quiet_bind; [apply quiet_must_read|]. intros l _. by apply quiet_ret. Qed.

Lemma length_c_bytes l : (length (c_bytes l) <= length l)%nat.
Proof. induction l as [|b l IH]; simpl; [lia|]. destruct (b =? 0); simpl; lia. Qed.

Lemma quiet_read_string cap len : len <= cap -> len <> 0 ->
  quiet (read_string cap len) (fun l => (length l <= Z.to_nat len - 1)%nat).
Proof.
  intros Hc H0. unfold read_string. rewrite (proj2 (Z.ltb_ge _ _) Hc), (proj2 (Z.eqb_neq _ _) H0). cbn [orb].
  eapply quiet_bind; [apply quiet_must_read|]. intros l Hl. apply quiet_ret.
  etransitivity; [apply length_c_bytes|]. rewrite length_take. lia.
Qed.

Lemma quiet_must_write l : quiet (must_write l) (fun _ => True).
Proof. intros n s Hi. by split; [split|]. Qed.
Lemma quiet_write_size n : quiet (write_size n) (fun _ => True).
Proof. apply quiet_must_write. Qed.
Lemma quiet_write_int n : quiet (write_int n) (fun _ => True).
Proof. apply quiet_must_write. Qed.
Lemma quiet_send_fd fd : quiet (send_fd fd) (fun _ => True).
Proof. intros n s Hi. by split; [split|]. Qed.
Lemma quiet_write_string l : quiet (write_string l) (fun _ => True).
Proof. unfold write_string. eapply quiet_bind; [apply quiet_write_size|]. intros [] _. apply quiet_must_write. Qed.

Section confinement.
Context `{PrivOS}.

Lemma quiet_write_addrinfo a : quiet (write_addrinfo a) (fun _ => True).
Proof.
  unfold write_addrinfo. do 5 (eapply quiet_bind; [apply quiet_write_int|intros [] _]). apply quiet_must_write.
Qed.
Lemma quiet_write_addrinfos l : quiet (write_addrinfos l) (fun _ => True).
Proof.
  induction l as [|a l IH]; cbn [write_addrinfos]; [by apply quiet_ret|].
  eapply quiet_bind; [apply quiet_write_addrinfo|by intros [] _].
Qed.

(** Reading a fixed number of bytes consumes them. *)
Lemma pwp_must_read k n s (Q : list Z -> priv -> Prop) :
  inv n s -> 0 <= k ->
  (forall l s', same s s' -> (length (p_in s') + Z.to_nat k <= length (p_in s))%nat -> Q l s') -> pwp (must_read k) Q s.
Proof.
  intros Hi Hk HQ. unfold must_read. apply pwp_bind, pwp_get. destruct (Z.ltb_spec (Z.of_nat (length (p_in s))) k).
  - by eapply pwp_exit.
  - apply HQ; [split; [done|]|]; simpl; rewrite length_drop; lia.
Qed.

Lemma pwp_read_strings fuel : forall n k s,
  inv n s -> (length (p_in s) < fuel)%nat -> pwp (read_strings fuel k) (fun _ s' => same s s') s.
Proof.
  induction fuel as [|fuel IH]; intros n k s Hi Hf; cbn [read_strings]; (destruct (k <=? 0); [apply pwp_ret, same_refl|]); [lia|].
  apply pwp_bind. unfold read_size. apply pwp_bind. eapply pwp_must_read; [done|done|]. intros l s1 Hs1 Hl1.
  apply pwp_ret. set (len := of_le_bytes l). pose proof (inv_same _ _ _ Hi Hs1) as Hi1.
  destruct (Z.eqb_spec len 0) as [|H0]; [by eapply pwp_exit|].
  eapply pwp_quiet; [exact Hi1|apply quiet_ask|]. intros ok s2 Hs2 Hi2 _. destruct ok; cbn [negb]; [|by eapply pwp_exit].
  eapply pwp_quiet; [exact Hi2|by apply quiet_read_string|]. intros str s3 Hs3 Hi3 _. apply pwp_bind.
  eapply pwp_mono; [apply (IH n); [done|]|].
  - destruct Hs2 as [_ H2], Hs3 as [_ H3]. unfold SIZE_T_SIZE in Hl1. lia.
  - intros rest s4 Hs4. apply pwp_ret. eauto using same_trans.
Qed.

Lemma quiet_read_array : quiet read_array (fun _ => True).
Proof.
  unfold read_array. eapply quiet_bind; [apply quiet_read_int|]. intros n _. apply quiet_if; intros _; [apply quiet_exit|].
  eapply quiet_bind; [apply quiet_ask|]. intros ok _. apply quiet_if; intros _; [apply quiet_exit|].
  intros m s Hi. apply pwp_bind, pwp_get. eapply pwp_mono; [apply (pwp_read_strings _ m); [done|lia]|]. done.
Qed.

(** ** The operations *)

Lemma elem_snoc {A} (x : A) l y : x ∈ l ++ [y] <-> x ∈ l \/ x = y.
Proof. set_solver. Qed.

(** A new operation, in the state [st]. *)
Lemma core_op st allowed script ops o :
  core st allowed script ops ->
  (st <> STATE_CONFIG -> confined allowed script o) ->
  (forall path argv env, o = RunScript path argv env -> checked ops path) ->
  core st allowed script (ops ++ [(st, o)]).
Proof.
  intros [C1 C2 C3 C4 C5 C6] Ho Hr. split; [done| | | | |].
  - intros x y [Hx|[= -> ->]]%elem_snoc; [by eapply C2|]. by destruct st.
  - unfold tag_ranks in *. rewrite fmap_app. simpl.
    assert (Forall (fun z => z <= state_rank st) ((fun e => state_rank e.1) <$> ops)) as Hall.
    { apply Forall_fmap, Forall_forall. intros [x y] Hx. by apply (C2 x y). }
    revert C3 Hall. generalize ((fun e : priv_state * root_op => state_rank e.1) <$> ops). intros l Hl Hall.
    induction Hl as [|z l Hl IH Hhd]; simpl; [by repeat constructor|]. inversion Hall as [|? ? Hz Hall']; subst.
    constructor; [by apply IH|]. destruct Hhd; simpl; by constructor.
  - intros x y [Hx|[= -> ->]]%elem_snoc; [by apply C4|auto].
  - destruct C5 as [|(m & Hm & Ha)]; [by left|right]. exists m. split; [set_solver|done].
  - intros l1 x path argv env l2 Heq. destruct l2 as [|z l2 _] using rev_ind.
    + apply app_inj_tail in Heq as [-> [= -> ->]]. by eapply Hr.
    + rewrite app_comm_cons, app_assoc in Heq. apply app_inj_tail in Heq as [-> _].
      by eapply (C6 l1 x path argv env l2).
Qed.

Lemma pwp_op o n s (Q : unit -> priv -> Prop) :
  inv n s ->
  (cur_state s <> STATE_CONFIG -> confined (allowed_configfile s) (script_path s) o) ->
  (forall path argv env, o = RunScript path argv env -> checked (p_ops s) path) ->
  (forall s', inv n s' -> same (s <| p_ops := p_ops s ++ [(cur_state s, o)] |>) s' -> Q tt s') -> pwp (op o) Q s.
Proof. intros [Hc Hl] Ho Hr HQ. apply HQ; [split; [by apply core_op|done]|apply same_refl]. Qed.

(** The volatile state: it can only have moved to the end. *)
Lemma pwp_read_state n s (Q : priv_state -> priv -> Prop) :
  inv n s ->
  (forall s', inv n s' -> allowed_configfile s' = allowed_configfile s -> script_path s' = script_path s ->
    p_ops s' = p_ops s -> p_in s' = p_in s -> Q (cur_state s') s') -> pwp read_state Q s.
Proof.
  intros [Hc Hl] HQ. unfold read_state, sig_got_chld. apply pwp_bind, pwp_bind. unfold pwp at 1, p_ask.
  destruct (po_child_died (p_calls s)); cbn [p_when].
  - unfold pwp at 1, p_mod. apply pwp_get. apply HQ.
    2-5: by destruct (_ <? _).
    split; [|by destruct (_ <? _)]. destruct (Z.ltb_spec (state_rank (cur_state s)) (state_rank STATE_QUIT)) as [Hlt|]; simpl in *.
    + rewrite (proj2 (Z.ltb_lt _ _)) by done. simpl. destruct Hc as [C1 C2 C3 C4 C5 C6]. split; try done.
      intros x o Hx. specialize (C2 x o Hx). simpl. lia.
    + rewrite (proj2 (Z.ltb_ge _ _)) by done. done.
  - apply pwp_ret, pwp_get. by apply HQ.
Qed.
(** Go on from a later state. *)
Ltac forget s Hi s' Hi' := clear s Hi; rename s' into s, Hi' into Hi.

(** While the child configures itself, the paths may change. *)
Lemma core_configure allowed script allowed' script' ops :
  core STATE_CONFIG allowed script ops -> script' = [] \/ checked ops script' -> core STATE_CONFIG allowed' script' ops.
Proof.
  intros [C1 C2 C3 C4 C5 C6] Hs. split; try done. intros x o Hx Hn. destruct (C2 x o Hx) as [H1 H2].
  by destruct x.
Qed.

Lemma copy_path_full path len : (length path <= Z.to_nat len - 1)%nat -> copy_path path len = path.
Proof. intros Hl. unfold copy_path. by apply take_ge. Qed.

Lemma pwp_open_file n s (Q : Z -> priv -> Prop) :
  inv n s -> (forall fd s', inv n s' -> Q fd s') -> pwp (root_open_file (allowed_configfile s)) Q s.
Proof.
  intros Hi HQ. unfold root_open_file. destruct (_ =? 124); [by apply pwp_ret, HQ|]. apply pwp_bind.
  eapply pwp_op; [done|done|done|]. intros s' Hi' _. eapply pwp_mono; [exact (quiet_ask po_open n s' Hi')|].
  intros fd s2 [Hs2 _]. apply HQ. by eapply inv_same.
Qed.

Lemma quiet_inv {A} (m : P A) R n s : inv n s -> quiet m R -> pwp m (fun _ s' => inv n s') s.
Proof. intros Hi Hm. eapply pwp_mono; [exact (Hm n s Hi)|]. intros a s' [Hs _]. by eapply inv_same. Qed.

Lemma open_config_inv n s : inv n s -> pwp do_open_config (fun _ s' => inv n s') s.
Proof.
  intros Hi. unfold do_open_config. eapply pwp_quiet; [exact Hi|apply quiet_read_size|]. intros len s' _ Hi' _. forget s Hi s' Hi'.
  destruct (Z.eqb_spec len 0) as [|H0]; cbn [orb]; [by eapply pwp_exit|].
  destruct (Z.ltb_spec MAXPATHLEN len) as [|Hm]; [by eapply pwp_exit|].
  eapply pwp_quiet; [exact Hi|by apply quiet_read_string|]. intros path s' _ Hi' Hpl. forget s Hi s' Hi'. apply pwp_bind.
  eapply pwp_read_state; [exact Hi|]. intros s' Hi' _ _ _ _. forget s Hi s' Hi'. apply pwp_bind.
  assert (forall s, inv n s -> pwp (allowed ← p_get allowed_configfile;
    if bool_decide (allowed = []) then exit 1 else fd ← root_open_file allowed; send_fd fd) (fun _ s' => inv n s') s) as Htail.
  { clear s Hi. intros s Hi. apply pwp_bind, pwp_get. destruct (bool_decide _); [by eapply pwp_exit|].
    apply pwp_bind. eapply pwp_open_file; [exact Hi|]. intros fd s' Hi'. by eapply quiet_inv, quiet_send_fd. }
  destruct (decide (cur_state s = STATE_CONFIG)) as [Hc|Hc].
  - rewrite (bool_decide_eq_true_2 _ Hc). cbn [p_when]. unfold pwp at 1, p_mod. apply Htail. destruct Hi as [Hco Hl].
    split; [|done]. simpl. rewrite Hc in *. eapply core_configure; [done|]. apply Hco.
  - rewrite (bool_decide_eq_false_2 _ Hc). by apply pwp_ret, Htail.
Qed.

Lemma tuntap_open_inv mode name mtu n s (Q : Z * list Z -> priv -> Prop) :
  inv n s -> cur_state s = STATE_CONFIG -> (forall r s', inv n s' -> Q r s') -> pwp (root_tuntap_open mode name mtu) Q s.
Proof.
  intros Hi Hc HQ. unfold root_tuntap_open. apply pwp_bind. eapply pwp_op; [exact Hi|done|done|]. intros s1 Hi1 _.
  assert (quiet (A := Z * list Z) (fd ← p_ask po_open;
    if fd <? 0 then mret (fd, name)
    else
      name' ← p_ask (fun n => po_tunsetiff n (take (Z.to_nat MLVPN_IFNAMSIZ - 1) name));
      match name' with
      | None => mret (-1, name)
      | Some name' =>
          sockfd ← p_ask po_socket;
          failed ← (if sockfd <? 0 then mret false else r ← p_ask po_setmtu; mret (r <? 0));
          if (failed : bool) then mret (-1, name)
          else if 0 <? fd then mret (fd, take (Z.to_nat MLVPN_IFNAMSIZ - 1) (c_bytes name')) else mret (fd, name)
      end) (fun _ => True)) as Hq.
  { eapply quiet_bind; [apply quiet_ask|]. intros fd _. apply quiet_if; intros _; [by apply quiet_ret|].
    eapply quiet_bind; [apply quiet_ask|]. intros [nm|] _; [|by apply quiet_ret].
    eapply quiet_bind; [apply quiet_ask|]. intros sk _. eapply (quiet_bind _ _ (fun _ => True)).
    - apply quiet_if; intros _; [by apply quiet_ret|]. eapply quiet_bind; [apply quiet_ask|]. intros r _. by apply quiet_ret.
    - intros failed _. apply quiet_if; intros _; [by apply quiet_ret|]. apply quiet_if; intros _; by apply quiet_ret. }
  eapply pwp_mono; [exact (Hq n s1 Hi1)|]. intros r s2 [Hs2 _]. apply HQ. by eapply inv_same.
Qed.

Lemma open_tun_inv n s : inv n s -> pwp do_open_tun (fun _ s' => inv n s') s.
Proof.
  intros Hi. unfold do_open_tun. apply pwp_bind. eapply pwp_read_state; [exact Hi|]. intros s' Hi' _ _ _ _. forget s Hi s' Hi'.
  destruct (decide (cur_state s = STATE_CONFIG)) as [Hc|Hc]; [rewrite (bool_decide_eq_true_2 _ Hc)|rewrite (bool_decide_eq_false_2 _ Hc)];
    cbn [negb]; [|by eapply pwp_exit].
  assert (forall s s', same s s' -> cur_state s = STATE_CONFIG -> cur_state s' = STATE_CONFIG) as Hkeep.
  { intros s0 s' [Hp _] Hs. injection Hp as -> _ _ _. done. }
  eapply pwp_quiet; [exact Hi|apply quiet_read_int|]. intros mode s1 Hs1 Hi1 _. apply (Hkeep _ _ Hs1) in Hc.
  destruct (_ && _); [by eapply pwp_exit|].
  eapply pwp_quiet; [exact Hi1|apply quiet_read_size|]. intros len s2 Hs2 Hi2 _. apply (Hkeep _ _ Hs2) in Hc.
  destruct (Z.ltb_spec MLVPN_IFNAMSIZ len) as [|Hlen]; [by eapply pwp_exit|].
  eapply (pwp_quiet _ _ (fun _ => True)); [exact Hi2| |].
  { apply quiet_if; [|intros _; by apply quiet_ret]. intros Hp%Z.ltb_lt.
    eapply quiet_weaken; [apply quiet_read_string; lia|done]. }
  intros name s3 Hs3 Hi3 _. apply (Hkeep _ _ Hs3) in Hc.
  eapply pwp_quiet; [exact Hi3|apply quiet_read_int|]. intros mtu s4 Hs4 Hi4 _. apply (Hkeep _ _ Hs4) in Hc.
  destruct (_ || _); [by eapply pwp_exit|]. apply pwp_bind. eapply tuntap_open_inv; [exact Hi4|exact Hc|].
  intros [fd name'] s5 Hi5. destruct (fd <? 0); [by eapply quiet_inv, quiet_write_size|].
  eapply pwp_quiet; [exact Hi5|apply quiet_write_string|]. intros [] s6 _ Hi6 _. by eapply quiet_inv, quiet_send_fd.
Qed.

Lemma init_script_inv n s : inv n s -> pwp do_init_script (fun _ s' => inv n s') s.
Proof.
  intros Hi. unfold do_init_script. apply pwp_bind. eapply pwp_read_state; [exact Hi|]. intros s' Hi' _ _ _ _. forget s Hi s' Hi'.
  destruct (decide (cur_state s = STATE_CONFIG)) as [Hc|Hc]; [rewrite (bool_decide_eq_true_2 _ Hc)|rewrite (bool_decide_eq_false_2 _ Hc)];
    cbn [negb]; [|by eapply pwp_exit].
  eapply pwp_quiet; [exact Hi|apply quiet_read_size|]. intros len s1 [Hs1 _] Hi1 _.
  destruct (Z.eqb_spec len 0) as [|H0]; cbn [orb]; [by eapply pwp_exit|].
  destruct (Z.ltb_spec MAXPATHLEN len) as [|Hm]; [by eapply pwp_exit|].
  eapply pwp_quiet; [exact Hi1|by apply quiet_read_string|]. intros path s2 [Hs2 _] Hi2 Hpl.
  eapply pwp_quiet; [exact Hi2|apply quiet_ask|]. intros mode s3 [Hs3 _] Hi3 _.
  assert (cur_state s3 = STATE_CONFIG) as Hc3 by (injection Hs1 as ? _ _ _; injection Hs2 as ? _ _ _; injection Hs3 as ? _ _ _; congruence).
  apply pwp_bind. eapply pwp_op; [exact Hi3|done|done|]. intros s4 Hi4 [Hs4 _]. injection Hs4 as Hst Hal Hsc Hops. simpl in *.
  apply pwp_bind. assert (forall s, inv n s -> pwp (strerror ← p_ask po_strerror; write_string (errormessage path mode strerror))
    (fun _ s' => inv n s') s) as Htail.
  { intros s5 Hi5. eapply pwp_quiet; [exact Hi5|apply quiet_ask|]. intros e s6 _ Hi6 _. by eapply quiet_inv, quiet_write_string. }
  destruct (script_allowed mode) eqn:Ha; cbn [p_when]; [|by apply pwp_ret, Htail]. unfold pwp at 1, p_mod. apply Htail.
  destruct Hi4 as [Hco Hl]. split; [|done]. simpl. rewrite Hst, Hc3 in Hco |- *. eapply core_configure; [done|]. right.
  rewrite copy_path_full by done. exists mode. split; [|done]. rewrite Hops, Hc3. set_solver.
Qed.

Lemma getaddrinfo_inv n s : inv n s -> pwp do_getaddrinfo (fun _ s' => inv n s') s.
Proof.
  assert (forall len, len <= MLVPN_MAXHNAMSTR -> quiet (if 0 <? len then l ← read_string MLVPN_MAXHNAMSTR len; mret (or_null l) else mret None)
    (fun _ => True)) as Hname.
  { intros len Hlen. apply quiet_if; [|intros _; by apply quiet_ret]. intros Hp%Z.ltb_lt.
    eapply quiet_bind; [apply quiet_read_string; lia|]. intros l _. by apply quiet_ret. }
  intros Hi. unfold do_getaddrinfo. eapply pwp_quiet; [exact Hi|apply quiet_read_size|]. intros hl s' _ Hi' _. forget s Hi s' Hi'.
  destruct (Z.ltb_spec MLVPN_MAXHNAMSTR hl) as [|Hhl]; [by eapply pwp_exit|].
  eapply pwp_quiet; [exact Hi|by apply Hname|]. intros host s' _ Hi' _. forget s Hi s' Hi'.
  eapply pwp_quiet; [exact Hi|apply quiet_read_size|]. intros sl s' _ Hi' _. forget s Hi s' Hi'.
  destruct (Z.ltb_spec MLVPN_MAXHNAMSTR sl) as [|Hsl]; [by eapply pwp_exit|].
  eapply pwp_quiet; [exact Hi|by apply Hname|]. intros serv s' _ Hi' _. forget s Hi s' Hi'.
  eapply pwp_quiet; [exact Hi|apply quiet_must_read|]. intros hints s' _ Hi' _. forget s Hi s' Hi'.
  apply pwp_bind. eapply pwp_op; [exact Hi|done|done|]. intros s' Hi' _. forget s Hi s' Hi'.
  eapply pwp_quiet; [exact Hi|apply quiet_ask|]. intros res s' _ Hi' _. forget s Hi s' Hi'.
  eapply pwp_quiet; [exact Hi|apply quiet_write_size|]. intros [] s1 _ Hi1 _. by eapply quiet_inv, quiet_write_addrinfos.
Qed.

Lemma run_script_inv n s : inv n s -> pwp do_run_script (fun _ s' => inv n s') s.
Proof.
  intros Hi. unfold do_run_script. eapply pwp_quiet; [exact Hi|apply quiet_read_array|]. intros argv s' _ Hi' _. forget s Hi s' Hi'.
  eapply pwp_quiet; [exact Hi|apply quiet_read_array|]. intros env s' _ Hi' _. forget s Hi s' Hi'. apply pwp_bind, pwp_get, pwp_bind.
  destruct (decide (script_path s = [])) as [He|He]; [rewrite (bool_decide_eq_true_2 _ He)|rewrite (bool_decide_eq_false_2 _ He)].
  - apply pwp_ret. by eapply quiet_inv, quiet_write_int.
  - unfold root_launch_script. apply pwp_bind. unfold pwp at 1, p_ask. destruct (po_fork _); cbn [negb].
    2: { apply pwp_ret. eapply quiet_inv; [|apply quiet_write_int]. exact Hi. }
    apply pwp_bind. eapply (pwp_op _ n); [exact Hi|done| |].
    + intros path a e [= <- _ _]. destruct Hi as [[_ _ _ _ [|] _] _]; done.
    + intros s' Hi' _. eapply pwp_mono; [exact (quiet_ask po_launch n s' Hi')|]. intros i s2 [Hs2 _].
      by eapply quiet_inv, quiet_write_int; eapply inv_same.
Qed.

Lemma increase_running_inv n s : inv n s -> pwp (increase_state STATE_RUNNING) (fun _ s' => inv n s') s.
Proof.
  intros Hi. unfold increase_state. apply pwp_bind. eapply pwp_read_state; [exact Hi|]. intros s' Hi' _ _ _ _. forget s Hi s' Hi'.
  destruct (Z.leb_spec (state_rank STATE_RUNNING) (state_rank (cur_state s))) as [|Hlt]; [by eapply pwp_exit|].
  unfold pwp, p_mod. destruct Hi as [[C1 C2 C3 C4 C5 C6] Hl]. split; [|done]. simpl. split; try done.
  intros x o Hx. specialize (C2 x o Hx). simpl in *. lia.
Qed.

Lemma command_inv cmd n s : inv n s -> pwp (do_command cmd) (fun _ s' => inv n s') s.
Proof.
  intros Hi. unfold do_command.
  destruct (_ =? _); [by apply open_config_inv|]. destruct (_ =? _); [by apply open_tun_inv|].
  destruct (_ =? _); [by apply init_script_inv|]. destruct (_ =? _); [by apply getaddrinfo_inv|].
  destruct (_ =? _); [by apply run_script_inv|]. destruct (_ =? _); [by eapply pwp_op; [exact Hi|done|done|]|].
  destruct (_ =? _); [by apply increase_running_inv|by eapply pwp_exit].
Qed.

Lemma monitor_inv fuel : forall s, inv fuel s -> pwp (monitor_loop fuel) (fun _ s' => exists n, inv n s') s.
Proof.
  induction fuel as [|fuel IH]; intros s Hi; cbn [monitor_loop]; apply pwp_bind; (eapply pwp_read_state; [exact Hi|]);
    intros s' Hi' _ _ _ _; forget s Hi s' Hi'; (destruct (_ <=? _); [by apply pwp_ret; eauto|]); apply pwp_bind, pwp_get;
    (destruct (Z.ltb_spec (Z.of_nat (length (p_in s))) INT_SIZE) as [|Hlen]; [by apply pwp_ret; eauto|]).
  - destruct Hi as [_ Hl]. unfold INT_SIZE in Hlen. lia.
  - apply pwp_bind. unfold read_int. apply pwp_bind. eapply pwp_must_read; [exact Hi|done|]. intros l s1 Hs1 Hl1. apply pwp_ret.
    assert (inv fuel s1) as Hi1.
    { destruct (inv_same _ _ _ Hi Hs1) as [Hc _]. destruct Hi as [_ Hl]. split; [done|]. unfold INT_SIZE in Hl1. lia. }
    apply pwp_bind. eapply pwp_mono; [by apply command_inv|]. intros [] s2 Hi2. by apply IH.
Qed.

Lemma core_empty st : st <> STATE_INIT -> core st [] [] [].
Proof.
  intros Hst. split; [done|set_solver|constructor|set_solver|by left|]. intros l1 x path argv env l2 Heq. by destruct l1.
Qed.

(** C9: whatever bytes the child sends, the parent never reaches outside a
    buffer and always comes to its end; the privileged operations come in the
    order of the states; once the child has been configured no device is
    opened, no script accepted, and the only file opened and the only script
    run are those set before; and a script is only run after it was found
    accessible to its owner alone. *)
Theorem parent_confined input :
  exists code s, priv_init_parent (priv_start input) = Exit code s /\
    Sorted Z.le (tag_ranks (p_ops s)) /\
    (forall x o, (x, o) ∈ p_ops s -> x <> STATE_CONFIG -> confined (allowed_configfile s) (script_path s) o) /\
    (forall l1 x path argv env l2, p_ops s = l1 ++ (x, RunScript path argv env) :: l2 -> checked l1 path).
Proof.
  assert (pwp priv_init_parent (fun _ _ => False) (priv_start input)) as Hwp.
  { unfold priv_init_parent. apply pwp_bind. unfold increase_state, read_state, sig_got_chld. apply pwp_bind, pwp_bind, pwp_bind.
    unfold pwp at 1, p_ask. destruct (po_child_died _).
    - by apply core_empty.
    - cbn [p_when]. apply pwp_ret, pwp_get. cbn. apply pwp_bind, pwp_get, pwp_bind.
      eapply pwp_mono; [apply monitor_inv|].
      + split; [by apply core_empty|done].
      + intros [] s [n Hi]. by eapply pwp_exit. }
  unfold pwp in Hwp. destruct (priv_init_parent _) as [a s|code s|e s]; [done| |done]. exists code, s. by destruct Hwp.
Qed.
End confinement.

(** ** The reads *)

(** However the bytes arrive, in pieces and with interruptions, [may_read]
    and [must_read] end and give the next [n] bytes of the stream, or report
    its end when there are fewer. *)
Theorem read_in_pieces sched n stream :
  may_read sched n stream = if (length stream <? n)%nat then None else Some (take n stream, drop n stream).
Proof.
  revert n stream. induction sched as [|[|k] sched IH]; intros n stream; destruct n as [|n]; cbn [may_read]; try done.
  set (got := Nat.min (Nat.min (S k) (S n)) (length stream)). destruct got as [|g] eqn:Hg.
  - destruct stream; [done|]. simpl in got. subst got. lia.
  - assert (S g <= S n /\ S g <= length stream)%nat as [Hn Hs] by (subst got; lia). rewrite IH.
    rewrite length_drop. destruct (Nat.ltb_spec (length stream) (S n)) as [Hlt|Hge].
    + by rewrite (proj2 (Nat.ltb_lt _ _)) by lia.
    + rewrite (proj2 (Nat.ltb_ge _ _)) by lia. cbn [mbind option_bind]. f_equal. f_equal.
      * replace (S n) with (S g + (S n - S g))%nat at 2 by lia. by rewrite <- take_take_drop.
      * rewrite drop_drop. f_equal. lia.
Qed.

(** ** The child's requests *)

Definition string_bytes (l : list Z) : list Z := le_bytes 8 (Z.of_nat (length l) + 1) ++ l ++ [0].
Definition strings_bytes (l : list (list Z)) : list Z :=
  le_bytes 4 (Z.of_nat (length l)) ++ concat (string_bytes <$> l).

Definition priv_open_config_request (config_path : list Z) : list Z :=
  le_bytes 4 PRIV_OPEN_CONFIG ++ string_bytes config_path.

(** [devname] is [None] for [NULL]. *)
Definition priv_open_tun_request (tuntapmode : Z) (devname : option (list Z)) (mtu : Z) : list Z :=
  le_bytes 4 PRIV_OPEN_TUN ++ le_bytes 4 tuntapmode ++
  match devname with Some l => string_bytes l | None => le_bytes 8 0 end ++ le_bytes 4 mtu.

(** [strlcpy(hostcpy, host, sizeof(hostcpy))] *)
Definition host_bytes (host : option (list Z)) : list Z :=
  match host with
  | Some l => string_bytes (take (Z.to_nat MLVPN_MAXHNAMSTR - 1) l)
  | None => le_bytes 8 0
  end.
Definition priv_getaddrinfo_request (host serv : option (list Z)) (hints : list Z) : list Z :=
  le_bytes 4 PRIV_GETADDRINFO ++ host_bytes host ++ host_bytes serv ++ hints.

Definition priv_init_script_request (path : list Z) : list Z := le_bytes 4 PRIV_INIT_SCRIPT ++ string_bytes path.
Definition priv_run_script_request (argv env : list (list Z)) : list Z :=
  le_bytes 4 PRIV_RUN_SCRIPT ++ strings_bytes argv ++ strings_bytes env.
Definition priv_reload_resolver_request : list Z := le_bytes 4 PRIV_RELOAD_RESOLVER.
Definition priv_set_running_state_request : list Z := le_bytes 4 PRIV_SET_RUNNING_STATE.

(** The answer to [priv_open_tun], with the descriptor that comes with it:
    the result and the name left in [devname]; [None] is [errx]. *)
Definition priv_open_tun_answer (devname : list Z) (answer : list Z) (fd : Z) : option (Z * list Z) :=
  let len := of_le_bytes (take 8 answer) in
  if (0 <? len) && (len <? MLVPN_IFNAMSIZ) then
    Some (fd, c_bytes (take (Z.to_nat len - 1) (drop 8 answer)))
  else if len =? 0 then Some (0, devname)
  else None.

(** The answer to [priv_init_script]: 0 when the script is accepted. *)
Definition priv_init_script_answer (answer : list Z) : option Z :=
  let len := of_le_bytes (take 8 answer) in
  if len =? 0 then None
  else
    let len := if ERRMSGSIZ <? len then ERRMSGSIZ else len in
    Some (if bool_decide (c_bytes (take (Z.to_nat len - 1) (drop 8 answer)) = []) then 0 else -1).

(** The loop over the addresses of [priv_getaddrinfo]. *)
Fixpoint read_addrinfos (n : nat) (answer : list Z) : option (list addrinfo) :=
  match n with
  | O => Some []
  | S n =>
      let int k := i32 (of_le_bytes (take 4 (drop (4 * k) answer))) in
      let len := Z.to_nat (of_le_bytes (take 4 (drop 16 answer))) in
      if (length answer <? 20 + len)%nat then None
      else
        rest ← read_addrinfos n (drop (20 + len) answer);
        Some (AddrInfo (int 0%nat) (int 1%nat) (int 2%nat) (int 3%nat) (take len (drop 20 answer)) :: rest)
  end.
Definition priv_getaddrinfo_answer (answer : list Z) : option (list addrinfo) :=
  read_addrinfos (Z.to_nat (of_le_bytes (take 8 answer))) (drop 8 answer).

(** ** Requests and answers agree *)

(** A C string of bytes, as [argv] and [environ] hold them. *)
Definition text_bytes (l : list Z) : bool := forallb (fun b => (0 <? b) && (b <? 256)) l.

Lemma c_bytes_text l : text_bytes l = true -> c_bytes l = l.
Proof.
  induction l as [|b l IH]; [done|]. unfold text_bytes in *. cbn [forallb c_bytes].
  rewrite !andb_true_iff, Z.ltb_lt. intros [[Hb _] Hl]. rewrite (proj2 (Z.eqb_neq _ _)) by lia. f_equal. by apply IH.
Qed.

Lemma read_bytes n (l rest : list Z) s :
  p_in s = l ++ rest -> n = Z.of_nat (length l) -> must_read n s = Ret l (s <| p_in := rest |>).
Proof.
  intros Hp ->. unfold must_read, mbind, P_bind, p_get. rewrite Hp, length_app, (proj2 (Z.ltb_ge _ _)) by lia.
  rewrite Nat2Z.id, take_app_length, drop_app_length. done.
Qed.

Lemma read_size_bytes z rest s : p_in s = le_bytes 8 z ++ rest -> 0 <= z < 2 ^ 64 ->
  read_size s = Ret z (s <| p_in := rest |>).
Proof.
  intros Hp Hz. unfold read_size, mbind, P_bind. rewrite (read_bytes _ _ rest s Hp) by (by rewrite length_le_bytes).
  rewrite of_le_le. unfold mret, P_ret. f_equal. change (256 ^ Z.of_nat 8) with (2 ^ 64). by apply Z.mod_small.
Qed.

Lemma read_int_bytes z rest s : p_in s = le_bytes 4 z ++ rest -> 0 <= z < 2 ^ 31 ->
  read_int s = Ret z (s <| p_in := rest |>).
Proof.
  intros Hp Hz. unfold read_int, mbind, P_bind. rewrite (read_bytes _ _ rest s Hp) by (by rewrite length_le_bytes).
  rewrite of_le_le. unfold mret, P_ret. f_equal. change (256 ^ Z.of_nat 4) with (2 ^ 32). rewrite Z.mod_small by lia.
  unfold i32. rewrite Z.mod_small by lia. lia.
Qed.

Lemma read_string_bytes l cap rest s :
  p_in s = l ++ [0] ++ rest -> text_bytes l = true -> Z.of_nat (length l) + 1 <= cap ->
  read_string cap (Z.of_nat (length l) + 1) s = Ret l (s <| p_in := rest |>).
Proof.
  intros Hp Hl Hc. unfold read_string. rewrite (proj2 (Z.ltb_ge _ _)) by lia. rewrite (proj2 (Z.eqb_neq _ _)) by lia.
  cbn [orb]. unfold mbind, P_bind. rewrite app_assoc in Hp. rewrite (read_bytes _ _ rest s Hp) by (rewrite length_app; simpl; lia).
  unfold mret, P_ret. f_equal. replace (Z.to_nat (Z.of_nat (length l) + 1) - 1)%nat with (length l) by lia.
  rewrite take_app_length. by apply c_bytes_text.
Qed.

Section roundtrip.
Context `{PrivOS}.

(** An array of arguments the child can send. *)
Definition args_ok (l : list (list Z)) : Prop :=
  (0 < Z.of_nat (length l) < 2 ^ 31) /\ Forall (fun a => text_bytes a = true /\ Z.of_nat (length a) < 2 ^ 63) l.

Lemma read_strings_bytes l : forall fuel rest s,
  (forall n, po_alloc n = true) -> Forall (fun a => text_bytes a = true /\ Z.of_nat (length a) < 2 ^ 63) l ->
  p_in s = concat (string_bytes <$> l) ++ rest -> (length l < fuel)%nat ->
  exists k, read_strings fuel (Z.of_nat (length l)) s = Ret l (s <| p_in := rest |> <| p_calls := k |>).
Proof.
  induction l as [|a l IH]; intros fuel rest s Hal Hl Hp Hf.
  { exists (p_calls s). assert (s <| p_in := rest |> <| p_calls := p_calls s |> = s) as -> by (simpl in Hp; subst; by destruct s).
    by destruct fuel. }
  destruct fuel as [|fuel]; [simpl in Hf; lia|]. inversion Hl as [|? ? [Ha Hla] Hl']; subst.
  cbn [read_strings length]. rewrite (proj2 (Z.leb_gt _ _)) by lia. rewrite fmap_cons in Hp. cbn [concat] in Hp.
  unfold string_bytes at 1 in Hp. rewrite <- !app_assoc in Hp.
  unfold mbind at 1, P_bind at 1. rewrite (read_size_bytes _ _ s Hp) by lia. rewrite (proj2 (Z.eqb_neq _ _)) by lia.
  unfold mbind at 1, P_bind at 1, p_ask. rewrite Hal. cbn [negb]. unfold mbind at 1, P_bind at 1.
  set (s1 := s <| p_in := _ |> <| p_calls := _ |>).
  rewrite (read_string_bytes a _ (concat (string_bytes <$> l) ++ rest) s1) by (done || lia).
  set (s2 := s1 <| p_in := _ |>). replace (Z.of_nat (S (length l)) - 1) with (Z.of_nat (length l)) by lia.
  destruct (IH fuel rest s2 Hal Hl' eq_refl ltac:(simpl in Hf; lia)) as [k Hk].
  unfold mbind at 1, P_bind at 1. rewrite Hk. exists k. done.
Qed.

Lemma length_strings_bytes l : (length l <= length (concat (string_bytes <$> l)))%nat.
Proof.
  induction l as [|a l IH]; [done|]. rewrite fmap_cons. cbn [concat length]. rewrite length_app.
  unfold string_bytes at 1. rewrite !length_app. simpl. lia.
Qed.

Lemma read_array_bytes l rest s :
  (forall n, po_alloc n = true) -> args_ok l -> p_in s = strings_bytes l ++ rest ->
  exists k, read_array s = Ret l (s <| p_in := rest |> <| p_calls := k |>).
Proof.
  intros Hal [Hlen Hl] Hp. unfold strings_bytes in Hp. rewrite <- app_assoc in Hp. unfold read_array.
  unfold mbind at 1, P_bind at 1. rewrite (read_int_bytes _ _ s Hp) by lia. rewrite (proj2 (Z.leb_gt _ _)) by lia.
  unfold mbind at 1, P_bind at 1, p_ask. rewrite Hal. cbn [negb]. unfold mbind at 1, P_bind at 1, p_get.
  set (s1 := s <| p_in := _ |> <| p_calls := _ |>).
  destruct (read_strings_bytes l (S (length (p_in s1))) rest s1 Hal Hl eq_refl) as [k Hk].
  - simpl. rewrite length_app. pose proof (length_strings_bytes l). lia.
  - exists k. exact Hk.
Qed.

(** C26: a script request of the child reaches the parent unchanged: the script
    accepted before is run with exactly the arguments and the environment the
    child gave, the request is consumed, and its status is answered. *)
Theorem run_script_roundtrip argv env rest s :
  (forall n, po_alloc n = true) -> (forall n, po_fork n = true) -> args_ok argv -> args_ok env -> script_path s <> [] ->
  p_in s = priv_run_script_request argv env ++ rest ->
  exists k s', (cmd ← read_int; do_command cmd) s = Ret tt s' /\ p_in s' = rest /\
    p_ops s' = p_ops s ++ [(cur_state s, RunScript (script_path s) argv env)] /\
    p_out s' = p_out s ++ le_bytes 4 (po_launch k).
Proof.
  intros Hal Hfork Ha He Hsc Hp. unfold priv_run_script_request in Hp. rewrite <- !app_assoc in Hp.
  unfold mbind at 1, P_bind at 1. rewrite (read_int_bytes PRIV_RUN_SCRIPT _ s Hp) by (unfold PRIV_RUN_SCRIPT; lia).
  unfold do_command, PRIV_RUN_SCRIPT. cbn [Z.eqb Pos.eqb PRIV_OPEN_CONFIG PRIV_OPEN_TUN PRIV_INIT_SCRIPT PRIV_GETADDRINFO].
  unfold do_run_script. set (s1 := s <| p_in := _ |>).
  destruct (read_array_bytes argv (strings_bytes env ++ rest) s1 Hal Ha eq_refl) as [k1 H1].
  unfold mbind at 1, P_bind at 1. rewrite H1. set (s2 := s1 <| p_in := _ |> <| p_calls := k1 |>).
  destruct (read_array_bytes env rest s2 Hal He eq_refl) as [k2 H2]. unfold mbind at 1, P_bind at 1. rewrite H2.
  unfold mbind at 1, P_bind at 1, p_get. cbn [script_path update s2 s1]. rewrite (bool_decide_eq_false_2 _ Hsc).
  unfold root_launch_script. unfold mbind at 1, P_bind at 1. unfold mbind at 1, P_bind at 1, p_ask at 1. rewrite Hfork. cbn [negb].
  eexists _, _. split; [reflexivity|]. done.
Qed.

(** A device whose name has fifteen bytes, the longest the kernel allows,
    is opened by the parent and then refused by the child, which ends. *)
Theorem long_device_refused devname name fd s :
  length name = 15%nat ->
  exists answer s', write_string name s = Ret tt s' /\ p_out s' = p_out s ++ answer /\
    priv_open_tun_answer devname answer fd = None.
Proof.
  intros Hl. eexists _, _. split; [reflexivity|]. split; [symmetry; apply app_assoc|].
  unfold priv_open_tun_answer. rewrite take_app_le by (by rewrite length_le_bytes).
  rewrite take_ge by (by rewrite length_le_bytes). rewrite of_le_le, Hl. done.
Qed.
End roundtrip.

(** ** A parent at work *)

Definition priv_ideal : PrivOS := {|
  po_open _ := 5;
  po_stat _ := Some 33216;
  po_strerror _ := [];
  po_getaddrinfo _ := [];
  po_fork _ := true;
  po_launch _ := 0;
  po_alloc _ := true;
  po_socket _ := 6;
  po_tunsetiff _ name := Some name;
  po_setmtu _ := 0;
  po_child_died _ := false
|}.

Definition demo_argv : list (list Z) := [bytes_of_string "mlvpn0"; bytes_of_string "tuntap_up"].
Definition demo_env : list (list Z) := [bytes_of_string "IP4=10.42.42.1"].
Definition demo_script : list Z := bytes_of_string "/etc/mlvpn/updown.sh".
Definition demo_priv : priv :=
  Priv STATE_RUNNING (bytes_of_string "/etc/mlvpn.conf") demo_script
    (priv_run_script_request demo_argv demo_env ++ priv_reload_resolver_request) [] [] [] 0.

Lemma run_script_roundtrip_witness :
  exists k s', (cmd ← read_int; do_command (H := priv_ideal) cmd) demo_priv = Ret tt s' /\ p_in s' = priv_reload_resolver_request /\
    p_ops s' = [(STATE_RUNNING, RunScript demo_script demo_argv demo_env)] /\
    p_out s' = le_bytes 4 (po_launch (PrivOS := priv_ideal) k).
Proof.
  apply (@run_script_roundtrip priv_ideal demo_argv demo_env priv_reload_resolver_request demo_priv).
  - reflexivity.
  - reflexivity.
  - split; [vm_compute; split; reflexivity|]. repeat constructor.
  - split; [vm_compute; split; reflexivity|]. repeat constructor.
  - discriminate.
  - reflexivity.
Defined.

Lemma long_device_refused_witness :
  let name := bytes_of_string "mlvpn-interface" in
  exists answer s', write_string name demo_priv = Ret tt s' /\ p_out s' = answer /\
    priv_open_tun_answer name answer 7 = None.
Proof. intros name. apply (long_device_refused name name 7 demo_priv). reflexivity. Defined.

(** A child that configures itself and is then taken over: its later attempts
    end the parent or only reach what was set. *)
Definition demo_session : list Z :=
  priv_open_config_request (bytes_of_string "/etc/mlvpn.conf") ++ priv_init_script_request demo_script ++
  priv_set_running_state_request ++ priv_open_config_request (bytes_of_string "/etc/shadow") ++
  priv_run_script_request demo_argv demo_env ++ priv_init_script_request (bytes_of_string "/tmp/evil").

Example demo_session_confined :
  match priv_init_parent (H := priv_ideal) (priv_start demo_session) with
  | Exit code s => (code, (p_ops s).*2)
  | _ => (2, [])
  end = (0, [OpenFile (bytes_of_string "/etc/mlvpn.conf"); CheckScript demo_script (Some 33216);
             OpenFile (bytes_of_string "/etc/mlvpn.conf"); RunScript demo_script demo_argv demo_env]).
Proof. vm_compute. reflexivity. Qed.
