(* ===== verification/Control.v ===== *)
(** * The control socket ([src/src/control.c], [src/src/control.h])

    A client of the UNIX or the TCP socket sends a line and gets the state of
    the daemon as JSON or as metrics.  One client is served at a time; its
    input is gathered in [rbuf], the answers wait in [wbuf].  The handlers
    read the state of the tunnels, the [world] of [Tunnel], and change only
    the control structure.

    A buffer of [char] is a [list ascii] of the size of the buffer.  What the
    system calls give is an argument of the handlers.  Memory that [malloc],
    [realloc] or the stack leave indeterminate is filled with NUL. *)

From Stdlib Require Import Ascii String.
From stdpp Require Import pretty.
From S2P Require Import Prelude Double CString Timestamp Pkt Buffer Reorder Tunnel Loss Rtun Frame ConfigLib.
Import ListNotations.
Open Scope list_scope.
Open Scope Z_scope.

(** ** Data *)

Definition MLVPN_CTRL_EOF : ascii := "004"%char.
Definition MLVPN_CTRL_TERMINATOR : ascii := LF.
Definition MLVPN_CTRL_BUFSIZ : Z := 1024.
Definition MLVPN_CTRL_TIMEOUT : Z := 5.

Inductive control_mode := MLVPN_CONTROL_DISABLED | MLVPN_CONTROL_READONLY | MLVPN_CONTROL_READWRITE.
#[export] Instance control_mode_eq_dec : EqDecision control_mode.
Proof. solve_decision. Defined.

(** What leaves the process on the control sockets. *)
Inductive control_effect :=
  | CWrite (fd : Z) (bytes : list ascii)
  | CSend (fd : Z) (bytes : list ascii)
  | CClose (fd : Z)
  | CUnlink (path : string).

(** [struct mlvpn_control], with what it did.  Of the watchers, whether they
    are active. *)
Record mlvpn_control := Ctl {
  c_mode : control_mode;
  c_fifo_path : string;
  c_fifofd : Z;
  c_bindaddr : string;
  c_bindport : string;
  c_sockfd : Z;
  c_clientfd : Z;
  c_last_activity : Z;
  c_rbuf : list ascii;
  c_rbufpos : Z;
  c_wbuf : list ascii;
  c_wbuflen : Z;
  c_wbufpos : Z;
  c_http : bool;
  c_close_after_write : bool;
  c_fifo_watcher : bool;
  c_sock_watcher : bool;
  c_client_io_read : bool;
  c_client_io_write : bool;
  c_timeout_watcher : bool;
  c_trace : list control_effect
}.
#[export] Instance control_fields : Fields mlvpn_control := fun c =>
  Ctl (c_mode c) (c_fifo_path c) (c_fifofd c) (c_bindaddr c) (c_bindport c) (c_sockfd c) (c_clientfd c)
    (c_last_activity c) (c_rbuf c) (c_rbufpos c) (c_wbuf c) (c_wbuflen c) (c_wbufpos c) (c_http c)
    (c_close_after_write c) (c_fifo_watcher c) (c_sock_watcher c) (c_client_io_read c)
    (c_client_io_write c) (c_timeout_watcher c) (c_trace c).

Abbreviation C := (M mlvpn_control).

Definition c_emit (e : control_effect) : C unit := modify (fun c => c <| c_trace := c_trace c ++ [e] |>).

(** ** Text

    A string literal of the source is written with a backquote for the escaped
    double quote, a bar for the newline and a caret for the carriage return; a
    percent sign is a conversion of [printf], whose text is given. *)
Definition unescape (c : ascii) : ascii :=
  if bool_decide (c = "`"%char) then DQUOTE
  else if bool_decide (c = "|"%char) then LF
  else if bool_decide (c = "^"%char) then CR
  else c.

Fixpoint format (f : string) (args : list string) : string :=
  match f with
  | EmptyString => EmptyString
  | String c f =>
      if bool_decide (c = "%"%char) then
        match args with
        | [] => format f []
        | a :: args => a +:+ format f args
        end
      else String (unescape c) (format f args)
  end.
Definition literal (f : string) : string := format f [].

(** [%u] and [PRIu64]; a [double] converted to [uint32_t]. *)
Definition show_u (z : Z) : string := pretty (u32 z).
Definition show_u64 (z : Z) : string := pretty (u64 z).
Definition u32_of_d (d : double) : Z := u32 (Z_of_d d).

Definition HTTP_HEADERS : string := literal
  "HTTP/1.1 200 OK^|Connection: close^|Content-type: application/json^|Access-Control-Allow-Origin: *^|Server: mlvpn^|^|".

Definition JSON_STATUS_BASE : string :=
  "{`name`: `%`,|`version`: `%.%`,|`uptime`: %,|`last_reload`: %,|`pid`: %,|`tuntap`: {|   `type`: `%`,|   `name`: `%`|},|`tunnels`: [|".

Definition JSON_STATUS_RTUN : string :=
  "{|   `name`: `%`,|   `mode`: `%`,|   `bindaddr`: `%`,|   `bindport`: `%`,|   `destaddr`: `%`,|   `destport`: `%`,|   `status`: `%`,|   `sentpackets`: %,|   `recvpackets`: %,|   `sentbytes`: %,|   `recvbytes`: %,|   `bandwidth`: %,|   `srtt`: %,|   `loss`: %,|   `disconnects`: %,|   `last_packet`: %,|   `timeout`: %|}%|".

Definition JSON_STATUS_ERROR_UNKNOWN_COMMAND : string := literal "{`error`: 'unknown command'}|".

(** ** Output *)

Definition mlvpn_control_close_client : C unit :=
  modify (fun c => c <| c_client_io_read := false |> <| c_client_io_write := false |>);;
  fd ← gets c_clientfd;
  when (0 <=? fd) (c_emit (CClose fd));;
  modify (fun c => c <| c_clientfd := -1 |>).

(** [ctrl->wbuflen - (ctrl->wbufpos + len)], computed in [size_t]. *)
Definition room (c : mlvpn_control) (len : Z) : Z := u64 (c_wbuflen c - u64 (c_wbufpos c + len)).

(** [buf] is an object of [size] bytes, of which [len] are copied. *)
Definition mlvpn_control_write (size : Z) (buf : list ascii) (len : Z) : C Z :=
  c ← get;
  when (room c len <=? 0) (modify (fun c =>
    c <| c_wbuflen := c_wbuflen c + 1024 * 32 |>
      <| c_wbuf := c_wbuf c ++ replicate (Z.to_nat (1024 * 32)) NUL |>));;
  c ← get;
  if room c len <=? 0 then mlvpn_control_close_client;; mret (-1)
  else if (size <? len) || (c_wbuflen c <? c_wbufpos c + len) then fail (BadAccess "memcpy(ctrl->wbuf)")
  else
    modify (fun c =>
      c <| c_wbuf := take (Z.to_nat (c_wbufpos c)) (c_wbuf c) ++ take (Z.to_nat len) buf ++
                     drop (Z.to_nat (c_wbufpos c + len)) (c_wbuf c) |>
        <| c_wbufpos := c_wbufpos c + len |>
        <| c_client_io_write := true |>);;
    mret len.

(** [snprintf(buf, 1024, ...)] returns the length of the whole text. *)
Definition control_writef (s : string) : C unit :=
  mlvpn_control_write 1024 (list_ascii_of_string (snprintf 1024 s) ++ [NUL]) (Z.of_nat (String.length s));; mret tt.

(** [mlvpn_control_write(ctrl, s, strlen(s))] *)
Definition control_puts (s : string) : C unit :=
  mlvpn_control_write (Z.of_nat (String.length s) + 1) (list_ascii_of_string s) (Z.of_nat (String.length s));; mret tt.

(** Flush; [r] is the result of [write] of the [wbufpos] bytes, of which it
    takes at most all. *)
Definition mlvpn_control_send (r : io_result) : C Z :=
  c ← get;
  if c_wbufpos c <=? 0 then mret (-1)
  else
    ret ← (match r with
           | IoOk n =>
               let ret := Z.max 0 (Z.min n (c_wbufpos c)) in
               c_emit (CWrite (c_clientfd c) (take (Z.to_nat ret) (c_wbuf c)));;
               let pos := c_wbufpos c - ret in
               modify (fun c => c <| c_wbufpos := pos |>);;
               when (0 <? pos) (modify (fun c =>
                 c <| c_wbuf := take (Z.to_nat pos) (drop (Z.to_nat ret) (c_wbuf c)) ++
                                drop (Z.to_nat pos) (c_wbuf c) |>));;
               mret ret
           | IoAgain | IoError => mlvpn_control_close_client;; mret (-1)
           end : C Z);
    c ← get;
    when (c_close_after_write c && (c_wbufpos c <=? 0)) mlvpn_control_close_client;;
    when (c_wbufpos c <=? 0) (modify (fun c => c <| c_client_io_write := false |>));;
    mret ret.

(** ** The answers *)
Section answers.
(** [_progname] and the state of the daemon. *)
Context (progname : string) (w : world).

Definition bit (b : bool) : string := if b then "1" else "0".
Definition has_status (tun : mlvpn_tunnel_t) (s : chap_status) : bool := bool_decide (t_status tun = s).

Definition tunnel_metrics (tun : mlvpn_tunnel_t) : list string :=
  let line f v := format f [t_name tun; v] in
  [line "disconnected{tunnel=`%`} %|" (bit (has_status tun MLVPN_DISCONNECTED));
   line "waitingpeer{tunnel=`%`} %|" (bit (has_status tun MLVPN_AUTHSENT));
   line "connected{tunnel=`%`} %|" (bit (has_status tun MLVPN_AUTHOK));
   line "lossy{tunnel=`%`} %|" (bit (has_status tun MLVPN_LOSSY));
   line "slow{tunnel=`%`} %|" (bit (has_status tun MLVPN_HIGH_LATENCY));
   line "sentpackets{tunnel=`%`} %|" (show_u64 (t_sentpackets tun));
   line "recvpackets{tunnel=`%`} %|" (show_u64 (t_recvpackets tun));
   line "sentbytes{tunnel=`%`} %|" (show_u64 (t_sentbytes tun));
   line "recvbytes{tunnel=`%`} %|" (show_u64 (t_recvbytes tun));
   line "bandwidth{tunnel=`%`} %|" (show_u (t_bandwidth tun));
   line "srtt{tunnel=`%`} %|" (show_u (u32_of_d (t_srtt tun)));
   line "loss{tunnel=`%`} %|" (show_u (mlvpn_loss_ratio tun));
   line "disconnects{tunnel=`%`} %|" (show_u (t_disconnects tun));
   line "last_packet{tunnel=`%`} %|" (show_u (u32_of_d (t_last_activity tun)));
   line "timeout{tunnel=`%`} %|" (show_u (t_timeout tun))].

Definition tunnel_at (t : nat) : C mlvpn_tunnel_t := expect (BadAccess "tunnel") (w_tuns w !! t).

Definition mlvpn_control_write_metrics : C unit :=
  control_writef (format "uptime %|" [show_u (s_start_time (w_status w))]);;
  control_writef (format "last_reload %|" [show_u (s_last_reload (w_status w))]);;
  control_writef (format "pid %|" ["0"]);;
  for_each (w_rtuns w) (fun t => tun ← tunnel_at t; for_each (tunnel_metrics tun) control_writef).

Definition status_name (s : chap_status) : string :=
  match s with
  | MLVPN_DISCONNECTED => "disconnected"
  | MLVPN_AUTHSENT => "waiting peer"
  | MLVPN_AUTHOK => "connected"
  | MLVPN_LOSSY => "lossy link"
  | MLVPN_HIGH_LATENCY => "slow link"
  end.

Definition status_base : string :=
  format JSON_STATUS_BASE
    [progname; "1"; "1"; show_u (s_start_time (w_status w)); show_u (s_last_reload (w_status w)); "0";
     match tt_type (w_tuntap w) with MLVPN_TUNTAPMODE_TUN => "tun" | MLVPN_TUNTAPMODE_TAP => "tap" end;
     tt_devname (w_tuntap w)].

(** The addresses are arrays in the tunnel, never [NULL]. *)
Definition status_rtun (tun : mlvpn_tunnel_t) (more : bool) : string :=
  format JSON_STATUS_RTUN
    [t_name tun; if t_server_mode tun then "server" else "client"; t_bindaddr tun; t_bindport tun;
     t_destaddr tun; t_destport tun; status_name (t_status tun); show_u64 (t_sentpackets tun);
     show_u64 (t_recvpackets tun); show_u64 (t_sentbytes tun); show_u64 (t_recvbytes tun); "0";
     show_u (u32_of_d (t_srtt tun)); show_u (mlvpn_loss_ratio tun); show_u (t_disconnects tun);
     show_u (u32_of_d (t_last_activity tun)); show_u (t_timeout tun); if more then "," else ""].

Fixpoint write_rtuns (l : list nat) : C unit :=
  match l with
  | [] => mret tt
  | t :: l =>
      tun ← tunnel_at t;
      control_writef (status_rtun tun (negb (bool_decide (l = []))));;
      write_rtuns l
  end.

Definition mlvpn_control_write_status : C unit :=
  control_writef status_base;;
  write_rtuns (w_rtuns w);;
  control_puts (literal "]}|").

(** ** Commands *)

(** [strtok(s, delimiter)]: the token and where the next call goes on. *)
Fixpoint token (l : list ascii) : list ascii * list ascii :=
  match l with
  | [] => ([], [])
  | c :: l => if bool_decide (c = SPACE) then ([], l) else let '(t, l) := token l in (c :: t, l)
  end.
Fixpoint strtok (l : list ascii) : option (list ascii) * list ascii :=
  match l with
  | [] => (None, [])
  | c :: l' => if bool_decide (c = SPACE) then strtok l' else let '(t, l) := token l in (Some t, l)
  end.

(** [strcasecmp(l, s) == 0] *)
Definition tolower (c : ascii) : ascii :=
  let n := nat_of_ascii c in if (65 <=? n)%nat && (n <=? 90)%nat then ascii_of_nat (n + 32) else c.
Definition strcaseeq (l : list ascii) (s : string) : bool :=
  bool_decide ((tolower <$> l) = (tolower <$> list_ascii_of_string s)).

(** The line without its carriage returns, and the command in it: the first
    word, or the second one of an HTTP request. *)
Definition clean (line : list ascii) : list ascii := filter (fun c => c <> CR) (before_nul line).
Definition command (http : bool) (line : list ascii) : option (list ascii) :=
  let '(cmd, next) := strtok (clean line) in
  if http then (strtok next).1 else cmd.

Definition mlvpn_control_parse (line : list ascii) : C unit :=
  if MLVPN_CTRL_BUFSIZ <? Z.of_nat (length (clean line)) + 1 then fail (BadAccess "cline")
  else
    http ← gets c_http;
    match command http line with
    | None => mret tt
    | Some cmd =>
        when http (control_puts HTTP_HEADERS);;
        (if strcaseeq cmd "status" || strcaseeq cmd "/status" then mlvpn_control_write_status
         else if strcaseeq cmd "metrics" || strcaseeq cmd "/metrics" then mlvpn_control_write_metrics
         else if strcaseeq cmd "quit" then control_puts "bye.";; mlvpn_control_close_client
         else control_puts JSON_STATUS_ERROR_UNKNOWN_COMMAND);;
        when http (modify (fun c => c <| c_close_after_write := true |>))
    end.

(** ** Input *)

(** The loop of [mlvpn_control_read_check] from the position [i], [n] bytes
    before [rbufpos]. *)
Fixpoint check_loop (n : nat) (i : Z) : C bool :=
  match n with
  | O => mret false
  | S n =>
      c ← get;
      ch ← expect (BadAccess "ctrl->rbuf") (c_rbuf c !! Z.to_nat i);
      if bool_decide (ch = MLVPN_CTRL_EOF) then mlvpn_control_close_client;; mret false
      else if bool_decide (ch = MLVPN_CTRL_TERMINATOR) then
        if MLVPN_CTRL_BUFSIZ <=? i then fail (BadAccess "line")
        else
          modify (fun c =>
            c <| c_rbuf := take (Z.to_nat (MLVPN_CTRL_BUFSIZ - i)) (drop (Z.to_nat i) (c_rbuf c)) ++
                           drop (Z.to_nat (MLVPN_CTRL_BUFSIZ - i)) (c_rbuf c) |>
              <| c_rbufpos := c_rbufpos c - (i + 1) |>);;
          mlvpn_control_parse (take (Z.to_nat i) (c_rbuf c));;
          mret true
      else check_loop n (i + 1)
  end.
Definition mlvpn_control_read_check : C bool :=
  pos ← gets c_rbufpos; check_loop (Z.to_nat pos) 0.

(** [while (mlvpn_control_read_check(ctrl) != 0);] *)
Fixpoint read_check_all (fuel : nat) : C unit :=
  again ← mlvpn_control_read_check;
  if again : bool then
    match fuel with
    | O => fail Diverges
    | S fuel => read_check_all fuel
    end
  else mret tt.

(** What [read] gives: bytes, none at the end of the file, an error. *)
Inductive read_result := RData (l : list ascii) | RAgain | RError.

(** [time] is what [time(NULL)] gives. *)
Definition mlvpn_control_read (r : read_result) (time : Z) : C Z :=
  c ← get;
  match r with
  | RData l =>
      let got := take (Z.to_nat (MLVPN_CTRL_BUFSIZ - c_rbufpos c)) l in
      let ret := Z.of_nat (length got) in
      if 0 <? ret then
        modify (fun c =>
          c <| c_rbuf := take (Z.to_nat (c_rbufpos c)) (c_rbuf c) ++ got ++
                         drop (Z.to_nat (c_rbufpos c + ret)) (c_rbuf c) |>
            <| c_last_activity := time |>
            <| c_rbufpos := c_rbufpos c + ret |>);;
        pos ← gets c_rbufpos;
        if MLVPN_CTRL_BUFSIZ <=? pos then mlvpn_control_close_client;; mret (-1)
        else read_check_all (Z.to_nat pos);; mret 0
      else modify (fun c => c <| c_clientfd := -1 |>);; mret 0
  | RAgain => mret 0
  | RError => mlvpn_control_close_client;; mret 0
  end.
End answers.

(** ** Connections *)

(** [cfd] is the result of [accept], [nonblocking] the one of
    [mlvpn_sock_set_nonblocking].  libev does not allow [ev_io_set] on an
    active watcher, nor [ev_io_start] on a negative descriptor. *)
Definition mlvpn_control_accept (fd cfd nonblocking time : Z) : C Z :=
  c ← get;
  if (fd <? 0) || bool_decide (c_mode c = MLVPN_CONTROL_DISABLED) then mret 0
  else if cfd <? 0 then mret 0
  else if negb (c_clientfd c =? -1) then
    c_emit (CSend cfd (list_ascii_of_string (literal "ERR: Already connected.|")));;
    c_emit (CClose cfd);;
    mret 0
  else
    (if nonblocking <? 0 then c_emit (CClose cfd)
     else modify (fun c => c <| c_clientfd := cfd |>));;
    modify (fun c => c <| c_rbufpos := 0 |> <| c_wbufpos := 0 |> <| c_last_activity := time |>);;
    if c_client_io_read c || c_client_io_write c then fail (BadAccess "ev_io_set on an active watcher")
    else if nonblocking <? 0 then fail (BadAccess "ev_io_start on a negative descriptor")
    else modify (fun c => c <| c_client_io_read := true |>);; mret 1.

Definition mlvpn_control_timeout (time : Z) : C bool :=
  c ← get;
  if negb (bool_decide (c_mode c = MLVPN_CONTROL_DISABLED)) && (0 <=? c_clientfd c) &&
     (c_last_activity c + MLVPN_CTRL_TIMEOUT <=? time)
  then mlvpn_control_close_client;; mret true
  else mret false.

(** ** Start *)

(** What the system gives for one address of the TCP socket, and for the
    start: results of [socket], [setsockopt], [bind], [listen] and
    [mlvpn_sock_set_nonblocking], negative when they fail. *)
Record inet_result := InetResult { in_socket : Z; in_reuseaddr : Z; in_nodelay : Z; in_bind : Z }.
Record init_result := InitResult {
  ir_socket : Z;
  ir_bind : Z;
  ir_addrs : list inet_result;
  ir_fifo_nonblocking : Z;
  ir_fifo_listen : Z;
  ir_sock_nonblocking : Z;
  ir_sock_listen : Z
}.

Definition close_fifo : C unit :=
  fd ← gets c_fifofd; c_emit (CClose fd);; modify (fun c => c <| c_fifofd := -1 |>).
Definition close_sock : C unit :=
  fd ← gets c_sockfd; c_emit (CClose fd);; modify (fun c => c <| c_sockfd := -1 |>).

(** The UNIX domain socket; [sun_path] has 108 bytes. *)
Definition open_fifo (r : init_result) : C unit :=
  path ← gets c_fifo_path;
  when (negb (bool_decide (path = EmptyString))) (
    modify (fun c => c <| c_fifofd := ir_socket r |>);;
    when (0 <=? ir_socket r) (
      c_emit (CUnlink (strlcpy_s path 108));;
      when (ir_bind r <? 0) close_fifo)).

(** [while(res)]: the first address a socket can be made for. *)
Fixpoint open_sock (l : list inet_result) : C unit :=
  match l with
  | [] => mret tt
  | a :: l =>
      modify (fun c => c <| c_sockfd := in_socket a |>);;
      if in_socket a <? 0 then open_sock l
      else if in_reuseaddr a <? 0 then close_sock
      else if in_nodelay a <? 0 then close_sock
      else when (in_bind a <? 0) close_sock
  end.

Definition open_inet (r : init_result) : C unit :=
  c ← get;
  when (negb (bool_decide (c_bindaddr c = EmptyString)) && negb (bool_decide (c_bindport c = EmptyString))) (
    modify (fun c => c <| c_http := true |>);;
    open_sock (ir_addrs r)).

(** The sockets and the watchers on them. *)
Definition open_sockets (r : init_result) : C unit :=
  open_fifo r;;
  open_inet r;;
  c ← get;
  when (0 <=? c_fifofd c) (when ((ir_fifo_nonblocking r <? 0) || (ir_fifo_listen r <? 0)) close_fifo);;
  when (0 <=? c_sockfd c) (when ((ir_sock_nonblocking r <? 0) || (ir_sock_listen r <? 0)) close_sock);;
  modify (fun c => if 0 <=? c_sockfd c then c <| c_sock_watcher := true |> else c);;
  modify (fun c => if 0 <=? c_fifofd c then c <| c_fifo_watcher := true |> else c);;
  modify (fun c => c <| c_timeout_watcher := true |>).

Definition mlvpn_control_init (r : init_result) : C unit :=
  c ← get;
  if bool_decide (c_mode c = MLVPN_CONTROL_DISABLED) then mret tt
  else
    modify (fun c =>
      c <| c_fifofd := -1 |> <| c_sockfd := -1 |> <| c_clientfd := -1 |>
        <| c_wbuflen := 4096 |> <| c_wbuf := replicate (Z.to_nat 4096) NUL |>
        <| c_http := false |> <| c_close_after_write := false |>
        <| c_fifo_watcher := false |> <| c_sock_watcher := false |>
        <| c_client_io_read := false |> <| c_client_io_write := false |> <| c_timeout_watcher := false |>);;
    open_sockets r.

(** What [main] does with the structure on its stack, [c]. *)
Definition main_control (o : mlvpn_options_s) (r : init_result) : C unit :=
  modify (fun c =>
    c <| c_fifo_path := strlcpy_s (o_control_unix_path o) 1024 |> <| c_mode := MLVPN_CONTROL_READWRITE |>
      <| c_bindaddr := o_control_bind_host o |> <| c_bindport := o_control_bind_port o |>);;
  mlvpn_control_init r.

(** ** Events *)

(** An event of the sockets, with the state of the daemon when it comes. *)
Inductive control_event :=
  | CtlAccept (unix : bool) (cfd nonblocking time : Z)
  | CtlRead (w : world) (r : read_result) (time : Z)
  | CtlWrite (r : io_result)
  | CtlTimer (time : Z).

(** [mlvpn_control_io_event], [mlvpn_control_client_io_event] and
    [mlvpn_control_timeout_event]. *)
Definition control_handle (progname : string) (ev : control_event) : C unit :=
  match ev with
  | CtlAccept unix cfd nonblocking time =>
      fd ← gets (if unix then c_fifofd else c_sockfd);
      mlvpn_control_accept fd cfd nonblocking time;; mret tt
  | CtlRead w r time => mlvpn_control_read progname w r time;; mret tt
  | CtlWrite r => mlvpn_control_send r;; mret tt
  | CtlTimer time => mlvpn_control_timeout time;; modify (fun c => c <| c_timeout_watcher := true |>)
  end.

(** A format that begins with a character gives a text that is not empty. *)
Lemma format_pos c f args : c <> "%"%char -> (0 < length (list_ascii_of_string (format (String c f) args)))%nat.
Proof. intros Hc. cbn [format]. rewrite bool_decide_false by done. simpl. lia. Qed.

Lemma status_base_pos progname w : (0 < length (list_ascii_of_string (status_base progname w)))%nat.
Proof. by apply format_pos. Qed.

Strategy opaque [status_rtun status_base tunnel_metrics format show_u show_u64].

(** ** Output as a stream

    [pending] are the bytes that wait for the client; a write that fits adds
    its bytes at the end, and [mlvpn_control_send] takes some from the front. *)

Definition pending (c : mlvpn_control) : list ascii := take (Z.to_nat (c_wbufpos c)) (c_wbuf c).

Record out_ok (c : mlvpn_control) : Prop := {
  oo_len : Z.of_nat (length (c_wbuf c)) = c_wbuflen c;
  oo_pos : 0 <= c_wbufpos c <= c_wbuflen c;
  oo_int : c_wbuflen c < 2 ^ 31
}.

(** The effect of a write that fits. *)
Definition queued (d : list ascii) (c : mlvpn_control) : mlvpn_control :=
  let pos := c_wbufpos c + Z.of_nat (length d) in
  c <| c_wbuf := pending c ++ d ++ drop (Z.to_nat pos) (c_wbuf c) |> <| c_wbufpos := pos |> <| c_client_io_write := true |>.
Definition queue (ds : list (list ascii)) (c : mlvpn_control) : mlvpn_control := foldl (fun c d => queued d c) c ds.

Definition fits (n : nat) (c : mlvpn_control) : Prop := c_wbufpos c + Z.of_nat n < c_wbuflen c.

Lemma length_pending c : out_ok c -> Z.of_nat (length (pending c)) = c_wbufpos c.
Proof. intros [Hl Hp _]. unfold pending. rewrite length_take. lia. Qed.

Lemma pending_queued d c : out_ok c -> fits (length d) c -> pending (queued d c) = pending c ++ d.
Proof.
  intros Hok Hf. pose proof (length_pending c Hok) as Hl. destruct Hok as [_ Hp _].
  unfold pending at 1, queued. cbn -[pending Z.add]. rewrite app_assoc, take_app_le by (rewrite length_app; lia).
  apply take_ge. rewrite length_app. lia.
Qed.

Lemma queued_ok d c : out_ok c -> fits (length d) c -> out_ok (queued d c).
Proof.
  intros Hok Hf. pose proof (length_pending c Hok) as Hl. destruct Hok as [Hw Hp Hi]. unfold fits in Hf.
  split; cbn -[pending Z.add Z.pow]; [|lia|done]. rewrite !length_app, length_drop. lia.
Qed.

Lemma queue_spec ds : forall c, out_ok c -> fits (length (concat ds)) c ->
  out_ok (queue ds c) /\ pending (queue ds c) = pending c ++ concat ds /\
  c_wbufpos (queue ds c) = c_wbufpos c + Z.of_nat (length (concat ds)) /\ c_wbuflen (queue ds c) = c_wbuflen c /\
  c_client_io_write (queue ds c) = (c_client_io_write c || negb (bool_decide (ds = []))).
Proof.
  induction ds as [|d ds IH]; intros c Hok Hf; simpl in *.
  { rewrite app_nil_r, orb_false_r. split_and!; [done..|lia|done|done]. }
  rewrite length_app in *. unfold fits in *. assert (fits (length d) c) as Hd by (unfold fits; lia).
  destruct (IH (queued d c)) as (H1 & H2 & H3 & H4 & H5); [by apply queued_ok|cbn -[Z.add]; lia|].
  unfold queue in *. rewrite H2, H3, H4, H5, pending_queued by done. rewrite <- app_assoc. simpl.
  split_and!; [done|done|cbn -[Z.add]; lia|done|by rewrite orb_true_r].
Qed.

(** What the queue leaves alone. *)
Lemma queue_frame {X} (f : mlvpn_control -> X) :
  (forall d c, f (queued d c) = f c) -> forall ds c, f (queue ds c) = f c.
Proof. intros Hf ds. induction ds as [|d ds IH]; intros c; [done|]. simpl. unfold queue in *. by rewrite IH. Qed.

Lemma write_fits size buf len c :
  out_ok c -> 0 <= len <= size -> (Z.to_nat len <= length buf)%nat -> fits (Z.to_nat len) c ->
  mlvpn_control_write size buf len c = Ok len (queued (take (Z.to_nat len) buf) c).
Proof.
  intros [Hw Hp Hi] Hl Hb Hf. unfold fits in Hf.
  assert ((room c len <=? 0) = false) as Hr.
  { apply Z.leb_gt. unfold room, u64, wrap. rewrite (Z.mod_small (c_wbufpos c + len)) by lia. rewrite Z.mod_small; lia. }
  unfold mlvpn_control_write, mbind, M_bind, get, when. rewrite Hr. cbn [mret M_ret]. rewrite Hr.
  replace (size <? len) with false by lia. replace (c_wbuflen c <? c_wbufpos c + len) with false by lia.
  unfold queued. rewrite length_take_le by done. rewrite !Z2Nat.id by lia. done.
Qed.

(** [m] queues the texts [ds], when they fit. *)
Definition emits (m : C unit) (ds : list string) : Prop := forall c,
  out_ok c -> fits (length (concat (list_ascii_of_string <$> ds))) c ->
  m c = Ok tt (queue (list_ascii_of_string <$> ds) c).

Lemma emits_ret : emits (mret tt) [].
Proof. done. Qed.
Lemma emits_bind m1 m2 d1 d2 : emits m1 d1 -> emits m2 d2 -> emits (m1;; m2) (d1 ++ d2).
Proof.
  intros H1 H2 c Hok Hf. rewrite fmap_app, concat_app, length_app in Hf. unfold fits in Hf.
  assert (fits (length (concat (list_ascii_of_string <$> d1))) c) as Hf1 by (unfold fits; lia).
  destruct (queue_spec (list_ascii_of_string <$> d1) c Hok Hf1) as (Hok1 & _ & Hp & Hl & _).
  unfold mbind, M_bind. rewrite (H1 c Hok Hf1), (H2 _ Hok1) by (unfold fits; lia).
  unfold queue. by rewrite fmap_app, foldl_app.
Qed.
Lemma emits_for_each {A} (body : A -> C unit) (ds : A -> list string) l :
  (forall x, x ∈ l -> emits (body x) (ds x)) -> emits (for_each l body) (mjoin (ds <$> l)).
Proof.
  induction l as [|x l IH]; intros Hb; simpl; [apply emits_ret|].
  apply emits_bind; [apply Hb; set_solver|]. apply IH. intros y Hy. apply Hb. set_solver.
Qed.

Lemma emits_puts s : emits (control_puts s) [s].
Proof.
  intros c Hok Hf. cbn [fmap list_fmap concat] in Hf. rewrite app_nil_r, length_list_ascii in Hf.
  unfold control_puts, mbind, M_bind. rewrite write_fits; [|done|lia| |]; rewrite ?length_list_ascii, Nat2Z.id; [|done|done].
  rewrite take_ge by (rewrite length_list_ascii; lia). done.
Qed.
Lemma emits_writef s : (String.length s < 1024)%nat -> emits (control_writef s) [s].
Proof.
  intros Hs c Hok Hf. cbn [fmap list_fmap concat] in Hf. rewrite app_nil_r, length_list_ascii in Hf.
  unfold control_writef, mbind, M_bind, snprintf. rewrite str_take_short by lia.
  rewrite write_fits; [|done|lia| |]; rewrite ?length_app, ?length_list_ascii, Nat2Z.id; [|lia|done].
  rewrite take_app_le by (rewrite length_list_ascii; lia).
  rewrite take_ge by (rewrite length_list_ascii; lia). done.
Qed.

(** ** What a line is answered *)
Section replies.
Context (progname : string) (w : world).

(** The tunnels of the list are there. *)
Definition known_tunnels : bool := forallb (fun t => bool_decide (is_Some (w_tuns w !! t))) (w_rtuns w).
Definition tunnels : list mlvpn_tunnel_t := omap (fun t => w_tuns w !! t) (w_rtuns w).

Fixpoint rtuns_texts (l : list mlvpn_tunnel_t) : list string :=
  match l with
  | [] => []
  | tun :: l => status_rtun tun (negb (bool_decide (l = []))) :: rtuns_texts l
  end.
Definition status_texts : list string := status_base progname w :: rtuns_texts tunnels ++ [literal "]}|"].
Definition metrics_texts : list string :=
  [format "uptime %|" [show_u (s_start_time (w_status w))];
   format "last_reload %|" [show_u (s_last_reload (w_status w))];
   format "pid %|" ["0"]] ++ mjoin (tunnel_metrics <$> tunnels).

Definition is_quit (cmd : list ascii) : bool :=
  negb (strcaseeq cmd "status" || strcaseeq cmd "/status") &&
  negb (strcaseeq cmd "metrics" || strcaseeq cmd "/metrics") && strcaseeq cmd "quit".
Definition body (cmd : list ascii) : list string :=
  if strcaseeq cmd "status" || strcaseeq cmd "/status" then status_texts
  else if strcaseeq cmd "metrics" || strcaseeq cmd "/metrics" then metrics_texts
  else if strcaseeq cmd "quit" then ["bye."]
  else [JSON_STATUS_ERROR_UNKNOWN_COMMAND].

(** The texts queued for a line. *)
Definition answer (http : bool) (line : list ascii) : list string :=
  match command http line with
  | None => []
  | Some cmd => (if http then [HTTP_HEADERS] else []) ++ body cmd
  end.
Definition answer_bytes (http : bool) (line : list ascii) : list ascii :=
  concat (list_ascii_of_string <$> answer http line).

(** Every text is shorter than the buffer it is printed to and the whole
    answer fits in what is left of [wbuf]. *)
Definition answer_fits (line : list ascii) (c : mlvpn_control) : bool :=
  known_tunnels && forallb (fun s => (String.length s <? 1024)%nat) (answer (c_http c) line) &&
  (c_wbufpos c + Z.of_nat (length (answer_bytes (c_http c) line)) <? c_wbuflen c).

(** The state after a line that was answered. *)
Definition answered (line : list ascii) (c : mlvpn_control) : mlvpn_control :=
  match command (c_http c) line with
  | None => c
  | Some cmd =>
      let c1 := queue (list_ascii_of_string <$> answer (c_http c) line) c in
      let c2 := if is_quit cmd then
                  c1 <| c_client_io_read := false |> <| c_client_io_write := false |>
                     <| c_trace := c_trace c1 ++ (if 0 <=? c_clientfd c1 then [CClose (c_clientfd c1)] else []) |>
                     <| c_clientfd := -1 |>
                else c1 in
      if c_http c then c2 <| c_close_after_write := true |> else c2
  end.

Lemma known_tunnel t : known_tunnels = true -> t ∈ w_rtuns w -> exists tun, w_tuns w !! t = Some tun.
Proof.
  unfold known_tunnels. rewrite forallb_forall. intros Hk Ht. apply list_elem_of_In in Ht.
  specialize (Hk t Ht). by apply bool_decide_eq_true in Hk as [tun ?]; exists tun.
Qed.

Lemma emits_tunnel t tun (k : mlvpn_tunnel_t -> C unit) ds :
  w_tuns w !! t = Some tun -> emits (k tun) ds -> emits (tunnel_at w t ≫= k) ds.
Proof. intros Ht Hk c. unfold mbind, M_bind, tunnel_at. rewrite Ht. apply Hk. Qed.

Definition shorts (ds : list string) : Prop := Forall (fun s => String.length s < 1024)%nat ds.

Lemma emits_writes ds : shorts ds -> emits (for_each ds control_writef) ds.
Proof.
  intros Hs. replace ds with (mjoin ((fun s => [s]) <$> ds)) at 2 by (induction ds; inversion Hs; simpl; f_equal; auto).
  apply emits_for_each. intros s Hin. apply emits_writef. unfold shorts in Hs. rewrite Forall_forall in Hs. auto.
Qed.

(** The tunnels of a part of the list. *)
Definition tunnels_of (l : list nat) : list mlvpn_tunnel_t := omap (fun t => w_tuns w !! t) l.

Lemma tunnels_of_cons t tun l : w_tuns w !! t = Some tun -> tunnels_of (t :: l) = tun :: tunnels_of l.
Proof. intros Ht. unfold tunnels_of. simpl. by rewrite Ht. Qed.

Lemma emits_rtuns l :
  (forall t, t ∈ l -> exists tun, w_tuns w !! t = Some tun) -> shorts (rtuns_texts (tunnels_of l)) ->
  emits (write_rtuns w l) (rtuns_texts (tunnels_of l)).
Proof.
  induction l as [|t l IH]; intros Hk Hs; [apply emits_ret|]. destruct (Hk t) as [tun Ht]; [set_solver|].
  rewrite (tunnels_of_cons t tun l Ht) in *. cbn [rtuns_texts write_rtuns] in *. inversion Hs as [|? ? Hs1 Hs2]; subst.
  assert (bool_decide (l = []) = bool_decide (tunnels_of l = [])) as ->.
  { apply bool_decide_ext. destruct l as [|t' l]; [done|]. destruct (Hk t') as [tun' Ht']; [set_solver|].
    by rewrite (tunnels_of_cons t' tun' l Ht'). }
  eapply emits_tunnel; [done|]. apply (emits_bind _ _ [_] (rtuns_texts (tunnels_of l))); [by apply emits_writef|].
  apply IH; [|done]. intros t' ?. apply Hk. set_solver.
Qed.

Lemma emits_status : known_tunnels = true -> shorts status_texts -> emits (mlvpn_control_write_status progname w) status_texts.
Proof.
  intros Hk Hs. unfold status_texts in *. inversion Hs as [|? ? H1 Hs2]; subst. apply Forall_app in Hs2 as [H2 _].
  apply (emits_bind _ _ [_] _); [by apply emits_writef|]. apply emits_bind; [|apply emits_puts].
  apply emits_rtuns; [intros t; by apply known_tunnel|done].
Qed.

Lemma emits_metrics : known_tunnels = true -> shorts metrics_texts -> emits (mlvpn_control_write_metrics w) metrics_texts.
Proof.
  intros Hk Hs. unfold metrics_texts in *. repeat (apply Forall_cons in Hs as [? Hs]).
  repeat (apply (emits_bind _ _ [_] _); [by apply emits_writef|]). fold (@mjoin list).
  assert (forall l, (forall t, t ∈ l -> exists tun, w_tuns w !! t = Some tun) -> shorts (mjoin (tunnel_metrics <$> tunnels_of l)) ->
    emits (for_each l (fun t => tun ← tunnel_at w t; for_each (tunnel_metrics tun) control_writef))
      (mjoin (tunnel_metrics <$> tunnels_of l))) as Hl.
  { clear. intros l. induction l as [|t l IH]; intros Hk Hs; [apply emits_ret|]. destruct (Hk t) as [tun Ht]; [set_solver|].
    rewrite (tunnels_of_cons t tun l Ht) in *. cbn [fmap list_fmap mjoin list_join] in *. cbn [for_each].
    apply Forall_app in Hs as [H1 H2]. apply emits_bind; [eapply emits_tunnel; [done|by apply emits_writes]|].
    apply IH; [|done]. intros t' ?. apply Hk. set_solver. }
  apply Hl; [intros t; by apply known_tunnel|done].
Qed.

Lemma close_eq c : mlvpn_control_close_client c =
  Ok tt (c <| c_client_io_read := false |> <| c_client_io_write := false |>
           <| c_trace := c_trace c ++ (if 0 <=? c_clientfd c then [CClose (c_clientfd c)] else []) |>
           <| c_clientfd := -1 |>).
Proof.
  unfold mlvpn_control_close_client, mbind, M_bind, modify, gets, when, c_emit. simpl.
  destruct (0 <=? c_clientfd c); simpl; [done|]. by rewrite app_nil_r.
Qed.

Lemma parse_spec line c :
  out_ok c -> (length (clean line) < 1024)%nat -> answer_fits line c = true ->
  mlvpn_control_parse progname w line c = Ok tt (answered line c).
Proof.
  intros Hok Hl Hf. unfold answer_fits in Hf. apply andb_true_iff in Hf as [[Hk Hs]%andb_true_iff Hfit%Z.ltb_lt].
  assert (shorts (answer (c_http c) line)) as Hsh.
  { unfold shorts. apply Forall_forall. rewrite forallb_forall in Hs. intros s Hin%list_elem_of_In. by apply Nat.ltb_lt, Hs. }
  clear Hs. unfold mlvpn_control_parse, answered, answer_bytes, answer in *.
  replace (MLVPN_CTRL_BUFSIZ <? Z.of_nat (length (clean line)) + 1) with false by (unfold MLVPN_CTRL_BUFSIZ; lia).
  unfold gets, mbind at 1, M_bind at 1. cbv beta iota. destruct (command (c_http c) line) as [cmd|]; [|reflexivity].
  assert (emits (when (c_http c) (control_puts HTTP_HEADERS)) (if c_http c then [HTTP_HEADERS] else [])) as H1.
  { destruct (c_http c); [apply emits_puts|apply emits_ret]. }
  apply Forall_app in Hsh as [_ Hsh].
  set (m := if strcaseeq cmd "status" || _ then _ else _). set (ds := body cmd) in *.
  assert (emits (when (c_http c) (control_puts HTTP_HEADERS);; (if is_quit cmd then control_puts "bye." else m))
            ((if c_http c then [HTTP_HEADERS] else []) ++ ds)) as H2.
  { apply emits_bind; [done|]. subst m ds. unfold is_quit, body in *.
    destruct (_ || _); [by apply emits_status|]. destruct (_ || _); [by apply emits_metrics|].
    destruct (strcaseeq cmd "quit"); apply emits_puts. }
  specialize (H2 c Hok Hfit). unfold mbind, M_bind in H2 |- *.
  destruct (when (c_http c) (control_puts HTTP_HEADERS) c) as [[] c1|]; [|done].
  destruct (is_quit cmd) eqn:Hq.
  - subst m. unfold is_quit in Hq. destruct (_ || _); [done|]. destruct (_ || _); [done|]. simpl in Hq. rewrite Hq.
    unfold mbind, M_bind. rewrite H2, close_eq. by destruct (c_http c).
  - rewrite H2. by destruct (c_http c).
Qed.

(** ** The lines of the input *)

(** The first character that ends the search. *)
Inductive found := NoLine | EndOfFile | Line (line rest : list ascii).
Fixpoint scan (l : list ascii) : found :=
  match l with
  | [] => NoLine
  | c :: l =>
      if bool_decide (c = MLVPN_CTRL_EOF) then EndOfFile
      else if bool_decide (c = MLVPN_CTRL_TERMINATOR) then Line [] l
      else match scan l with Line line rest => Line (c :: line) rest | f => f end
  end.

Definition input (c : mlvpn_control) : list ascii := take (Z.to_nat (c_rbufpos c)) (c_rbuf c).

Record in_ok (c : mlvpn_control) : Prop := {
  io_len : length (c_rbuf c) = Z.to_nat MLVPN_CTRL_BUFSIZ;
  io_pos : 0 <= c_rbufpos c <= MLVPN_CTRL_BUFSIZ
}.

(** The buffer after a line of [i] characters: its terminator comes first. *)
Definition shifted (i : nat) (c : mlvpn_control) : mlvpn_control :=
  c <| c_rbuf := take (Z.to_nat (MLVPN_CTRL_BUFSIZ - Z.of_nat i)) (drop i (c_rbuf c)) ++
                 drop (Z.to_nat (MLVPN_CTRL_BUFSIZ - Z.of_nat i)) (c_rbuf c) |>
    <| c_rbufpos := c_rbufpos c - (Z.of_nat i + 1) |>.

Lemma scan_line l line rest : scan l = Line line rest -> l = line ++ LF :: rest.
Proof.
  revert line. induction l as [|c l IH]; intros line; simpl; [done|]. case_bool_decide; [done|].
  case_bool_decide as Ht; [intros [= <- <-]; by rewrite Ht|].
  destruct (scan l) as [| |line' rest'] eqn:E; try done. intros [= <- <-]. simpl. f_equal. by apply IH.
Qed.

Lemma check_loop_spec c : in_ok c -> forall n i,
  (Z.of_nat (i + n) = c_rbufpos c) ->
  check_loop progname w n (Z.of_nat i) c =
  match scan (drop i (input c)) with
  | NoLine => Ok false c
  | EndOfFile => (mlvpn_control_close_client;; mret false) c
  | Line line _ => (mlvpn_control_parse progname w (take (i + length line) (c_rbuf c));; mret true) (shifted (i + length line) c)
  end.
Proof.
  intros [Hlen Hpos] n. unfold MLVPN_CTRL_BUFSIZ in *. induction n as [|n IH]; intros i Hi.
  { rewrite drop_ge; [done|]. unfold input. rewrite length_take. lia. }
  assert (i < length (c_rbuf c))%nat as Hi' by lia. apply lookup_lt_is_Some in Hi' as [ch Hch].
  assert (input c !! i = Some ch) as Hin. { unfold input. rewrite lookup_take_lt by lia. done. }
  rewrite (drop_S _ ch i) by done. cbn [check_loop scan]. unfold get, mbind at 1, M_bind at 1. cbv beta iota.
  rewrite Nat2Z.id, Hch. unfold expect, mbind at 1, M_bind at 1. cbn [mret M_ret].
  case_bool_decide as He; [done|]. case_bool_decide as Hl.
  - replace (MLVPN_CTRL_BUFSIZ <=? Z.of_nat i) with false by (unfold MLVPN_CTRL_BUFSIZ; lia).
    simpl length. rewrite Nat.add_0_r. reflexivity.
  - replace (Z.of_nat i + 1) with (Z.of_nat (S i)) by lia. rewrite IH by lia.
    destruct (scan (drop (S i) (input c))) as [| |line rest]; [done..|]. simpl length. by rewrite Nat.add_succ_r.
Qed.

Lemma read_check_eq c : in_ok c ->
  mlvpn_control_read_check progname w c =
  match scan (input c) with
  | NoLine => Ok false c
  | EndOfFile => (mlvpn_control_close_client;; mret false) c
  | Line line _ => (mlvpn_control_parse progname w line;; mret true) (shifted (length line) c)
  end.
Proof.
  intros Hok. pose proof (check_loop_spec c Hok (Z.to_nat (c_rbufpos c)) 0) as Hc. destruct Hok as [Hlen Hpos].
  unfold mlvpn_control_read_check, gets, mbind at 1, M_bind at 1. change 0 with (Z.of_nat 0). rewrite Hc by lia. rewrite drop_0.
  destruct (scan (input c)) as [| |line rest] eqn:E; [done..|]. simpl.
  apply scan_line in E. assert (length line <= Z.to_nat (c_rbufpos c))%nat as Hle.
  { apply (f_equal length) in E. unfold input in E. rewrite length_take, length_app in E. simpl in E. lia. }
  apply (f_equal (take (length line))) in E. unfold input in E. rewrite take_app_length, take_take in E.
  by rewrite Nat.min_l in E by lia; rewrite E.
Qed.

Lemma parse_blank c : mlvpn_control_parse progname w [] c = Ok tt c.
Proof. unfold mlvpn_control_parse, gets, mbind at 1, M_bind at 1. simpl. by destruct (c_http c). Qed.

Lemma set_rbufpos c n : c_rbufpos c = n -> c <| c_rbufpos := n |> = c.
Proof. intros <-. by destruct c. Qed.

Lemma shifted_0 c : in_ok c -> shifted 0 c = c <| c_rbufpos := c_rbufpos c - 1 |>.
Proof.
  intros [Hl _]. unfold shifted. rewrite Z.sub_0_r, drop_0, take_drop. by destruct c.
Qed.

(** When the buffer begins with a terminator every character left in it counts
    as an empty line. *)
Lemma drop_rest n : forall c fuel, in_ok c -> head (c_rbuf c) = Some LF -> c_rbufpos c = Z.of_nat n -> (n <= fuel)%nat ->
  read_check_all progname w fuel c = Ok tt (c <| c_rbufpos := 0 |>).
Proof.
  induction n as [|n IH]; intros c fuel Hok Hh Hp Hf.
  all: destruct fuel as [|fuel]; try lia; cbn [read_check_all]; unfold mbind at 1, M_bind at 1; rewrite read_check_eq by done.
  1,2: assert (input c = []) as -> by (unfold input; by rewrite Hp); rewrite (set_rbufpos c 0) by done; reflexivity.
  assert (exists rest, scan (input c) = Line [] rest) as [rest ->].
  { unfold input. rewrite Hp, Nat2Z.id. destruct (c_rbuf c) as [|ch l]; [done|]. injection Hh as ->. by eexists. }
  unfold mbind at 1, M_bind at 1. rewrite parse_blank, shifted_0 by done. cbn [mret M_ret].
  rewrite (IH _ fuel); [done| |done|cbn; lia|lia]. destruct Hok as [H1 H2]. split; [done|]. cbn. lia.
Qed.

Definition in_buf (c : mlvpn_control) : list ascii * Z := (c_rbuf c, c_rbufpos c).

Ltac ckeep := repeat first
  [ apply keeps_bind; [|intros ?] | apply keeps_ret | apply keeps_gets | apply keeps_expect | apply keeps_fail
  | apply keeps_for_each; intros ? | by apply keeps_modify
  | match goal with |- keeps _ (if ?b then _ else _) => destruct b | |- keeps _ (when ?b _) => destruct b end ].

Lemma keeps_get {S X} (f : S -> X) : keeps f get.
Proof. by intros s a s' [= <- <-]. Qed.
Lemma keeps_close : keeps in_buf mlvpn_control_close_client.
Proof. unfold mlvpn_control_close_client, c_emit. ckeep. Qed.
Lemma keeps_control_write size buf len : keeps in_buf (mlvpn_control_write size buf len).
Proof.
  unfold mlvpn_control_write, when. apply keeps_bind; [apply keeps_get|intros c]. apply keeps_bind; [ckeep|intros []].
  apply keeps_bind; [apply keeps_get|intros c']. destruct (_ <=? 0); [|ckeep]. apply keeps_bind; [apply keeps_close|intros []; ckeep].
Qed.
Lemma keeps_writef s : keeps in_buf (control_writef s).
Proof. unfold control_writef. apply keeps_bind; [apply keeps_control_write|intros; apply keeps_ret]. Qed.
Lemma keeps_puts s : keeps in_buf (control_puts s).
Proof. unfold control_puts. apply keeps_bind; [apply keeps_control_write|intros; apply keeps_ret]. Qed.
Lemma keeps_write_rtuns l : keeps in_buf (write_rtuns w l).
Proof.
  induction l as [|t l IH]; simpl; [apply keeps_ret|]. apply keeps_bind; [apply keeps_expect|intros tun].
  apply keeps_bind; [apply keeps_writef|done].
Qed.
Lemma keeps_parse line : keeps in_buf (mlvpn_control_parse progname w line).
Proof.
  unfold mlvpn_control_parse, mlvpn_control_write_status, mlvpn_control_write_metrics, tunnel_at.
  destruct (_ <? _); [ckeep|]. apply keeps_bind; [apply keeps_gets|intros http]. destruct (command http line); [|ckeep].
  apply keeps_bind; [destruct http; [apply keeps_puts|ckeep]|intros _]. apply keeps_bind; [|intros _; destruct http; ckeep].
  destruct (_ || _); [|destruct (_ || _); [|destruct (strcaseeq _ _)]]; ckeep;
    auto using keeps_writef, keeps_puts, keeps_close, keeps_write_rtuns.
Qed.

Lemma shifted_ok line rest c : in_ok c -> input c = line ++ LF :: rest ->
  in_ok (shifted (length line) c) /\ head (c_rbuf (shifted (length line) c)) = Some LF /\
  c_rbufpos (shifted (length line) c) = Z.of_nat (length rest).
Proof.
  intros [Hl Hp] Hi. unfold MLVPN_CTRL_BUFSIZ in *.
  assert (Z.of_nat (length (input c)) = c_rbufpos c) as Hli by (unfold input; rewrite length_take; lia).
  rewrite Hi, length_app in Hli. simpl in Hli.
  assert (drop (length line) (c_rbuf c) = LF :: rest ++ drop (Z.to_nat (c_rbufpos c)) (c_rbuf c)) as Hd.
  { rewrite <- (take_drop (Z.to_nat (c_rbufpos c)) (c_rbuf c)) at 1. fold (input c).
    by rewrite Hi, <- app_assoc, drop_app_length. }
  split_and!; [split|..]; cbn -[Z.sub Z.of_nat take drop app length Z.add]; unfold MLVPN_CTRL_BUFSIZ.
  - rewrite length_app, length_take, !length_drop. lia.
  - lia.
  - rewrite Hd. destruct (Z.to_nat (1024 - Z.of_nat (length line))) eqn:E; [lia|]. done.
  - lia.
Qed.

Lemma read_check_all_unfold fuel :
  read_check_all progname w fuel =
  (again ← mlvpn_control_read_check progname w;
   if again : bool then match fuel with O => fail Diverges | S fuel => read_check_all progname w fuel end
   else mret tt).
Proof. by destruct fuel. Qed.

(** The loop ends after at most [rbufpos] lines, whatever the buffer holds: the
    first line is handled and what follows it is lost. *)
Lemma read_loop_eq c fuel : in_ok c -> c_rbufpos c <= Z.of_nat fuel ->
  read_check_all progname w fuel c =
  match scan (input c) with
  | NoLine => Ok tt c
  | EndOfFile => mlvpn_control_close_client c
  | Line line _ =>
      (mlvpn_control_parse progname w line;; modify (fun c => c <| c_rbufpos := 0 |>)) (shifted (length line) c)
  end.
Proof.
  intros Hok Hf. rewrite read_check_all_unfold.
  unfold mbind at 1, M_bind at 1. rewrite read_check_eq by done.
  destruct (scan (input c)) as [| |line rest] eqn:Hs; [done|unfold mbind, M_bind; by rewrite close_eq|].
  pose proof (scan_line _ _ _ Hs) as Hin. destruct (shifted_ok _ _ _ Hok Hin) as (Hsok & Hsh & Hsp).
  unfold mbind, M_bind. destruct (mlvpn_control_parse progname w line _) as [[] c2|f] eqn:Hp; [|done].
  pose proof (keeps_parse _ _ _ _ Hp) as [= Hb1 Hb2]. cbn [mret M_ret].
  assert (in_ok c2) as Hok2 by (destruct Hsok; split; by rewrite ?Hb1, ?Hb2).
  assert (S (length rest) <= fuel)%nat as Hr.
  { apply (f_equal length) in Hin. unfold input in Hin. rewrite length_take, length_app in Hin. simpl in Hin.
    destruct Hok as [H1 H2]. unfold MLVPN_CTRL_BUFSIZ in *. lia. }
  destruct fuel as [|fuel]; [lia|].
  rewrite (drop_rest (length rest)); [done|done|by rewrite Hb1|by rewrite Hb2|lia].
Qed.

(** The buffer with the bytes of a read. *)
Definition received (l : list ascii) (time : Z) (c : mlvpn_control) : mlvpn_control :=
  c <| c_rbuf := input c ++ l ++ drop (Z.to_nat (c_rbufpos c + Z.of_nat (length l))) (c_rbuf c) |>
    <| c_last_activity := time |> <| c_rbufpos := c_rbufpos c + Z.of_nat (length l) |>.

Lemma received_ok l time c : in_ok c -> c_rbufpos c + Z.of_nat (length l) <= MLVPN_CTRL_BUFSIZ ->
  in_ok (received l time c) /\ input (received l time c) = input c ++ l.
Proof.
  intros [Hl Hp] Hf. unfold MLVPN_CTRL_BUFSIZ in *.
  assert (length (input c) = Z.to_nat (c_rbufpos c)) as Hi by (unfold input; rewrite length_take; lia).
  split; [split|].
  - cbn -[input Z.add]. unfold MLVPN_CTRL_BUFSIZ. rewrite !length_app, length_drop. lia.
  - cbn -[input Z.add]. unfold MLVPN_CTRL_BUFSIZ. lia.
  - unfold input at 1. cbn -[input Z.add]. rewrite app_assoc, take_app_le by (rewrite length_app; lia).
    apply take_ge. rewrite length_app. lia.
Qed.

Lemma read_data_eq l time c : in_ok c -> l <> [] -> c_rbufpos c + Z.of_nat (length l) < MLVPN_CTRL_BUFSIZ ->
  mlvpn_control_read progname w (RData l) time c =
  (read_check_all progname w (Z.to_nat (c_rbufpos (received l time c)));; mret 0) (received l time c).
Proof.
  intros [_ Hp] Hl Hf. unfold mlvpn_control_read, get, mbind at 1, M_bind at 1. cbv beta iota.
  rewrite take_ge by (unfold MLVPN_CTRL_BUFSIZ in *; lia).
  replace (0 <? Z.of_nat (length l)) with true by (symmetry; apply Z.ltb_lt; destruct l; [done|cbn [length]; lia]).
  unfold mbind at 1, M_bind at 1, modify. cbv beta iota. fold (input c).
  change (update c_rbufpos _ _) with (received l time c). unfold mbind at 1, M_bind at 1, gets. cbv beta iota.
  replace (MLVPN_CTRL_BUFSIZ <=? c_rbufpos (received l time c)) with false by (symmetry; apply Z.leb_gt; exact Hf). done.
Qed.

(** What a read of some bytes does, by what it finds. *)
Lemma read_found l time c : in_ok c -> l <> [] -> c_rbufpos c + Z.of_nat (length l) < MLVPN_CTRL_BUFSIZ ->
  mlvpn_control_read progname w (RData l) time c =
  match scan (input c ++ l) with
  | NoLine => Ok 0 (received l time c)
  | EndOfFile => (mlvpn_control_close_client;; mret 0) (received l time c)
  | Line line _ =>
      ((mlvpn_control_parse progname w line;; modify (fun c => c <| c_rbufpos := 0 |>));; mret 0)
        (shifted (length line) (received l time c))
  end.
Proof.
  intros Hok Hl Hf. rewrite read_data_eq by done.
  destruct (received_ok l time c Hok ltac:(lia)) as [Hrok Hri].
  unfold mbind at 1, M_bind at 1. rewrite read_loop_eq, Hri by (done || (destruct Hrok; lia)).
  by destruct (scan (input c ++ l)).
Qed.
Lemma read_line l time c line rest c2 :
  in_ok c -> l <> [] -> c_rbufpos c + Z.of_nat (length l) < MLVPN_CTRL_BUFSIZ ->
  scan (input c ++ l) = Line line rest ->
  mlvpn_control_parse progname w line (shifted (length line) (received l time c)) = Ok tt c2 ->
  mlvpn_control_read progname w (RData l) time c = Ok 0 (c2 <| c_rbufpos := 0 |>).
Proof. intros Hok Hl Hf Hs Hp. rewrite read_found, Hs by done. unfold mbind, M_bind. by rewrite Hp. Qed.
Lemma read_no_line l time c : in_ok c -> l <> [] -> c_rbufpos c + Z.of_nat (length l) < MLVPN_CTRL_BUFSIZ ->
  scan (input c ++ l) = NoLine -> mlvpn_control_read progname w (RData l) time c = Ok 0 (received l time c).
Proof. intros Hok Hl Hf Hs. by rewrite read_found, Hs. Qed.
Lemma read_eof_char l time c : in_ok c -> l <> [] -> c_rbufpos c + Z.of_nat (length l) < MLVPN_CTRL_BUFSIZ ->
  scan (input c ++ l) = EndOfFile ->
  mlvpn_control_read progname w (RData l) time c = (mlvpn_control_close_client;; mret 0) (received l time c).
Proof. intros Hok Hl Hf Hs. by rewrite read_found, Hs. Qed.

(** The commands have no loop but those over the tunnels. *)
Lemma ends_control_write size buf len : ends (mlvpn_control_write size buf len).
Proof. unfold mlvpn_control_write, mlvpn_control_close_client, c_emit. eauto 20 with ends. Qed.
Lemma ends_writef s : ends (control_writef s).
Proof. unfold control_writef. eauto using ends_control_write with ends. Qed.
Lemma ends_puts s : ends (control_puts s).
Proof. unfold control_puts. eauto using ends_control_write with ends. Qed.
Lemma ends_close : ends mlvpn_control_close_client.
Proof. unfold mlvpn_control_close_client, c_emit. eauto with ends. Qed.
Lemma ends_write_rtuns l : ends (write_rtuns w l).
Proof. induction l; simpl; unfold tunnel_at; eauto using ends_writef with ends. Qed.
Lemma ends_parse line : ends (mlvpn_control_parse progname w line).
Proof.
  unfold mlvpn_control_parse, mlvpn_control_write_status, mlvpn_control_write_metrics, tunnel_at.
  apply ends_if; [auto with ends|]. apply ends_bind; [auto with ends|intros http].
  destruct (command http line); [|auto with ends].
  repeat first [apply ends_bind; [|intros ?] | apply ends_if | apply ends_when];
    eauto using ends_writef, ends_puts, ends_close, ends_write_rtuns with ends.
Qed.
End replies.
