(* ===== verification/Session.v ===== *)
(** * Sessions on the control socket

    The handlers of [Control] as events: what they keep, how a request is
    answered, and what happens to an answer that does not fit in the output
    buffer. *)

From Stdlib Require Import Ascii String.
From S2P Require Import Prelude Double CString Timestamp Pkt Buffer Reorder Tunnel ConfigLib Control.
Import ListNotations.
Open Scope list_scope.
Open Scope Z_scope.

(** ** When an event may occur

    Its watcher is active.  The claims below leave out the situations where
    the code goes wrong: a connection that is accepted while the watcher of
    the last client is still active, a socket that cannot be made
    non-blocking, an answer that does not fit. *)
Definition control_enabled (progname : string) (ev : control_event) (c : mlvpn_control) : bool :=
  match ev with
  | CtlAccept unix _ nonblocking _ =>
      (if unix then c_fifo_watcher c else c_sock_watcher c) && (0 <=? nonblocking) &&
      (negb (c_clientfd c =? -1) || negb (c_client_io_read c))
  | CtlRead w (RData l) _ =>
      c_client_io_read c &&
      match scan (input c ++ l) with Line line _ => answer_fits progname w line c | _ => true end
  | CtlRead _ _ _ => c_client_io_read c
  | CtlWrite _ => c_client_io_write c
  | CtlTimer _ => c_timeout_watcher c
  end.

Inductive control_step (progname : string) : mlvpn_control -> mlvpn_control -> Prop :=
  | control_step_event ev c c' :
      control_enabled progname ev c = true -> control_handle progname ev c = Ok tt c' -> control_step progname c c'.

(** ** The invariant *)

Lemma wp_result {S A} (m : M S A) Q s a s' : wp m Q s -> m s = Ok a s' -> Q a s'.
Proof. unfold wp. intros Hw Hm. by rewrite Hm in Hw. Qed.

Record ctl_inv (c : mlvpn_control) : Prop := {
  ci_rbuf : length (c_rbuf c) = Z.to_nat MLVPN_CTRL_BUFSIZ;
  ci_wbuf : Z.of_nat (length (c_wbuf c)) = c_wbuflen c;
  ci_wbuflen : 0 < c_wbuflen c < 2 ^ 31;
  ci_read : c_client_io_read c = true ->
    0 <= c_rbufpos c < MLVPN_CTRL_BUFSIZ /\ 0 <= c_wbufpos c < c_wbuflen c;
  ci_write : c_client_io_write c = true -> c_client_io_read c = true /\ 0 < c_wbufpos c
}.

Lemma inv_in c : ctl_inv c -> c_client_io_read c = true -> in_ok c.
Proof. intros [H1 _ _ H4 _] Hr. destruct (H4 Hr) as [? _]. split; [done|lia]. Qed.
Lemma inv_out c : ctl_inv c -> c_client_io_read c = true -> out_ok c.
Proof. intros [_ H2 H3 H4 _] Hr. destruct (H4 Hr) as [_ ?]. split; [done|lia|lia]. Qed.

Lemma inv_close : preserves ctl_inv mlvpn_control_close_client.
Proof. intros c [H1 H2 H3 H4 H5]. unfold wp. rewrite close_eq. by split. Qed.

Lemma inv_timeout time : preserves ctl_inv (mlvpn_control_timeout time).
Proof.
  intros c Hc. unfold mlvpn_control_timeout. wp_steps. apply wp_if; intros _; wp_steps; [|done].
  eapply wp_mono; [by apply inv_close|]. intros [] c' Hc'. by wp_steps.
Qed.

Lemma inv_accept fd cfd nonblocking time c :
  ctl_inv c -> 0 <= nonblocking -> c_clientfd c <> -1 \/ c_client_io_read c = false ->
  wp (mlvpn_control_accept fd cfd nonblocking time) (fun _ => ctl_inv) c.
Proof.
  intros [H1 H2 H3 H4 H5] Hn Hr. unfold mlvpn_control_accept, c_emit. wp_steps.
  apply wp_if; intros _; wp_steps; [by split|]. apply wp_if; intros _; wp_steps; [by split|].
  apply wp_if; intros Hcl; wp_steps; [by split|].
  destruct Hr as [Hr|Hr]; [by destruct (Z.eqb_spec (c_clientfd c) (-1))|].
  assert (c_client_io_write c = false) as Hw.
  { destruct (c_client_io_write c); [|done]. destruct H5 as [H5 _]; [done|congruence]. }
  rewrite Hr, Hw. replace (nonblocking <? 0) with false by lia. wp_steps. cbn.
  split; cbn; try done; [intros _; unfold MLVPN_CTRL_BUFSIZ; lia|by rewrite Hw].
Qed.

(** What is left when [x] was written. *)
Definition flushed (ret : Z) (c : mlvpn_control) : mlvpn_control :=
  let pos := c_wbufpos c - ret in
  let c1 := c <| c_trace := c_trace c ++ [CWrite (c_clientfd c) (take (Z.to_nat ret) (c_wbuf c))] |> <| c_wbufpos := pos |> in
  if 0 <? pos then
    c1 <| c_wbuf := take (Z.to_nat pos) (drop (Z.to_nat ret) (c_wbuf c)) ++ drop (Z.to_nat pos) (c_wbuf c) |>
  else if c_close_after_write c then
    c1 <| c_client_io_read := false |> <| c_client_io_write := false |>
       <| c_trace := c_trace c1 ++ (if 0 <=? c_clientfd c then [CClose (c_clientfd c)] else []) |>
       <| c_clientfd := -1 |>
  else c1 <| c_client_io_write := false |>.

Lemma send_eq n c : 0 < c_wbufpos c ->
  let ret := Z.max 0 (Z.min n (c_wbufpos c)) in mlvpn_control_send (IoOk n) c = Ok ret (flushed ret c).
Proof.
  intros Hp ret. unfold mlvpn_control_send, get, mbind, M_bind, c_emit, modify, when.
  replace (c_wbufpos c <=? 0) with false by lia. fold ret. cbn -[Z.sub mlvpn_control_close_client Z.to_nat ret].
  unfold flushed. destruct (Z.ltb_spec 0 (c_wbufpos c - ret)) as [Hl|Hl]; cbn -[Z.sub mlvpn_control_close_client Z.to_nat ret].
  - replace (c_wbufpos c - ret <=? 0) with false by lia. by rewrite andb_false_r.
  - replace (c_wbufpos c - ret <=? 0) with true by lia. rewrite andb_true_r. destruct (c_close_after_write c); [|done].
    rewrite close_eq. done.
Qed.

Lemma inv_flushed ret c : ctl_inv c -> c_client_io_write c = true -> 0 <= ret <= c_wbufpos c -> ctl_inv (flushed ret c).
Proof.
  intros [H1 H2 H3 H4 H5] Hw Hr. destruct (H5 Hw) as [Hrd Hp]. destruct (H4 Hrd) as [Hrp Hwp].
  unfold flushed. destruct (Z.ltb_spec 0 (c_wbufpos c - ret)) as [Hl|Hl].
  - split; cbn -[Z.sub take drop]; [done| |done|intros _; lia|intros _; split; [done|lia]].
    rewrite length_app, length_take, !length_drop. lia.
  - destruct (c_close_after_write c); split; cbn -[Z.sub]; try done. intros _. lia.
Qed.

(** A write to the client takes bytes from the front. *)
Lemma pending_flushed ret c : ctl_inv c -> c_client_io_write c = true -> 0 <= ret <= c_wbufpos c ->
  pending c = take (Z.to_nat ret) (c_wbuf c) ++ pending (flushed ret c) /\ c_wbufpos (flushed ret c) = c_wbufpos c - ret.
Proof.
  intros [H1 H2 H3 H4 H5] Hw Hr. destruct (H5 Hw) as [Hrd Hp]. destruct (H4 Hrd) as [Hrp Hwp].
  unfold flushed, pending. destruct (Z.ltb_spec 0 (c_wbufpos c - ret)) as [Hl|Hl].
  - cbn -[Z.sub take drop]. split; [|done]. rewrite take_app_le by (rewrite length_take, length_drop; lia).
    rewrite take_take, Nat.min_id, take_take_drop. f_equal. lia.
  - assert (ret = c_wbufpos c) as -> by lia.
    destruct (c_close_after_write c); cbn -[Z.sub take]; rewrite Z.sub_diag, take_0, app_nil_r; done.
Qed.

Lemma inv_send r c : ctl_inv c -> c_client_io_write c = true -> wp (mlvpn_control_send r) (fun _ => ctl_inv) c.
Proof.
  intros Hi Hw. destruct (ci_write _ Hi Hw) as [_ Hp]. destruct r as [n| |].
  { unfold wp. rewrite send_eq by done. apply inv_flushed; [done|done|lia]. }
  all: unfold mlvpn_control_send, wp, get, mbind, M_bind, when; replace (c_wbufpos c <=? 0) with false by lia; rewrite close_eq;
    cbn -[Z.leb]; replace (c_wbufpos c <=? 0) with false by lia; rewrite andb_false_r; destruct Hi; by split.
Qed.

(** ** Input *)
Section input.
Context (progname : string) (w : world).

Lemma clean_short (line : list ascii) : (length line < 1024)%nat -> (length (clean line) < 1024)%nat.
Proof.
  intros Hl. unfold clean. eapply Nat.le_lt_trans; [apply length_filter|]. eapply Nat.le_lt_trans; [|exact Hl].
  clear. induction line as [|c line IH]; simpl; [done|]. case_bool_decide; simpl; lia.
Qed.

Lemma inv_received l time c : ctl_inv c -> c_client_io_read c = true -> c_rbufpos c + Z.of_nat (length l) < MLVPN_CTRL_BUFSIZ ->
  ctl_inv (received l time c).
Proof.
  intros Hi Hr Hf. destruct (received_ok l time c (inv_in _ Hi Hr) ltac:(lia)) as [[H1 _] _].
  pose proof (ci_read _ Hi Hr) as [Hp Hq]. destruct Hi as [_ H2 H3 H4 H5].
  split; [done|done|done| |done]. intros _. cbn -[Z.add]. unfold MLVPN_CTRL_BUFSIZ in *. lia.
Qed.

Lemma inv_shifted line rest c : ctl_inv c -> c_client_io_read c = true -> input c = line ++ LF :: rest ->
  ctl_inv (shifted (length line) c).
Proof.
  intros Hi Hr Hin. destruct (shifted_ok line rest c (inv_in _ Hi Hr) Hin) as ([H1 H1'] & _ & Hp).
  pose proof (ci_read _ Hi Hr) as [Hb Hq]. destruct Hi as [_ H2 H3 H4 H5].
  split; [done|done|done| |done]. intros _. split; [|done]. cbn -[Z.sub Z.of_nat Z.add] in *. lia.
Qed.

(** A command is answered by some text. *)
Lemma answer_pos http line cmd : command http line = Some cmd -> (0 < length (answer_bytes progname w http line))%nat.
Proof.
  intros Hc. unfold answer_bytes, answer. rewrite Hc.
  assert (forall s ds, 0 < length (list_ascii_of_string s) -> 0 < length (concat (list_ascii_of_string <$> s :: ds)))%nat as Hh.
  { intros s ds Hs. cbn [fmap list_fmap concat]. rewrite length_app. lia. }
  destruct http; [by apply Hh, format_pos|]. unfold body.
  destruct (_ || _); [apply Hh, status_base_pos|]. destruct (_ || _); [by apply Hh, format_pos|].
  destruct (strcaseeq _ _); apply Hh; [simpl; lia|by apply format_pos].
Qed.

(** Answering a line keeps the invariant. *)
Lemma inv_answered line c : ctl_inv c -> c_client_io_read c = true -> answer_fits progname w line c = true ->
  ctl_inv (answered progname w line c).
Proof.
  intros Hi Hr Hf. unfold answer_fits in Hf. apply andb_true_iff in Hf as [_ Hfit%Z.ltb_lt].
  unfold answer_bytes in Hfit. pose proof (inv_out _ Hi Hr) as Hok.
  destruct (queue_spec _ c Hok Hfit) as (Hok1 & _ & Hp & Hl & Hw).
  set (ds := list_ascii_of_string <$> answer progname w (c_http c) line) in *.
  assert (c_client_io_read (queue ds c) = true /\ in_buf (queue ds c) = in_buf c) as [Hr1 [= Hb1 Hb2]].
  { split; [rewrite <- Hr; by apply (queue_frame c_client_io_read)|by apply (queue_frame in_buf)]. }
  pose proof (ci_read _ Hi Hr) as [Hq1 Hq2]. pose proof (ci_rbuf _ Hi) as Hrb. pose proof (ci_wbuflen _ Hi) as Hwl.
  destruct Hok1 as [Hk1 _ _].
  unfold answered. destruct (command (c_http c) line) as [cmd|] eqn:Hc; [|done]. fold ds.
  assert (0 < length (concat ds))%nat as Hd.
  { pose proof (answer_pos (c_http c) line cmd Hc) as Hpos. done. }
  assert (ctl_inv (queue ds c)) as Hi1.
  { split; [by rewrite Hb1|by rewrite Hk1|by rewrite Hl| |].
    - intros _. rewrite Hb2, Hl, Hp. lia.
    - intros _. split; [done|]. rewrite Hp. lia. }
  destruct (is_quit cmd), (c_http c); destruct Hi1 as [I1 I2 I3 I4 I5]; by split.
Qed.

(** A line longer than the buffer ends the session. *)
Lemma read_overflow l time c : in_ok c -> c_rbufpos c < MLVPN_CTRL_BUFSIZ -> MLVPN_CTRL_BUFSIZ <= c_rbufpos c + Z.of_nat (length l) ->
  mlvpn_control_read progname w (RData l) time c =
  (mlvpn_control_close_client;; mret (-1)) (received (take (Z.to_nat (MLVPN_CTRL_BUFSIZ - c_rbufpos c)) l) time c).
Proof.
  intros [_ Hp] Hlt Hl. unfold mlvpn_control_read, get, mbind at 1, M_bind at 1. cbv beta iota.
  set (got := take _ l). assert (Z.of_nat (length got) = MLVPN_CTRL_BUFSIZ - c_rbufpos c) as Hg by (subst got; rewrite length_take; lia).
  replace (0 <? Z.of_nat (length got)) with true by lia.
  unfold mbind at 1, M_bind at 1, modify. cbv beta iota. fold (input c).
  change (update c_rbufpos _ _) with (received got time c). unfold mbind at 1, M_bind at 1, gets. cbv beta iota.
  replace (MLVPN_CTRL_BUFSIZ <=? c_rbufpos (received got time c)) with true; [done|].
  symmetry. apply Z.leb_le. change (MLVPN_CTRL_BUFSIZ <= c_rbufpos c + Z.of_nat (length got)). lia.
Qed.

Lemma set_input_pos c : ctl_inv c -> ctl_inv (c <| c_rbufpos := 0 |>).
Proof.
  intros [H1 H2 H3 H4 H5]. split; try done. intros Hr. destruct (H4 Hr) as [_ ?]. cbn. unfold MLVPN_CTRL_BUFSIZ. split; [lia|done].
Qed.

Lemma inv_read r time c :
  ctl_inv c -> control_enabled progname (CtlRead w r time) c = true ->
  wp (mlvpn_control_read progname w r time) (fun _ => ctl_inv) c.
Proof.
  intros Hi Hen. assert (c_client_io_read c = true) as Hr by (destruct r; [by apply andb_true_iff in Hen as []|done|done]).
  pose proof (inv_in _ Hi Hr) as Hin. pose proof (ci_read _ Hi Hr) as [Hp Hq].
  destruct r as [l| |]; [|by wp_steps|].
  2:{ unfold mlvpn_control_read. wp_steps. eapply wp_mono; [by apply inv_close|]. intros [] c' Hc'. by wp_steps. }
  apply andb_true_iff in Hen as [_ Hen]. destruct (decide (l = [])) as [->|Hl].
  { unfold wp, mlvpn_control_read, get, mbind, M_bind. rewrite take_nil. destruct Hi. by split. }
  destruct (decide (c_rbufpos c + Z.of_nat (length l) < MLVPN_CTRL_BUFSIZ)) as [Hf|Hf].
  - pose proof (inv_received l time c Hi Hr Hf) as Hi1. destruct (scan (input c ++ l)) as [| |line rest] eqn:Hs.
    + unfold wp. by rewrite read_no_line.
    + unfold wp. rewrite read_eof_char by done. pose proof (inv_close _ Hi1) as Hc. unfold wp, mbind, M_bind in *. by rewrite close_eq in *.
    + destruct (received_ok l time c Hin ltac:(lia)) as [_ Hri]. pose proof (scan_line _ _ _ Hs) as Hsl. rewrite <- Hri in Hsl.
      pose proof (inv_shifted line rest _ Hi1 Hr Hsl) as Hi2.
      unfold wp. erewrite (read_line progname w l time c line rest);
        [|done|done|done|done|apply parse_spec; [by apply inv_out| |exact Hen]].
      * apply set_input_pos, inv_answered; [done|exact Hr|exact Hen].
      * apply clean_short. apply (f_equal length) in Hsl. rewrite Hri, length_app in Hsl. rewrite length_app in Hsl.
        simpl in Hsl. unfold input in Hsl. rewrite length_take in Hsl. unfold MLVPN_CTRL_BUFSIZ in *. lia.
  - unfold wp. rewrite read_overflow by (done || lia). set (got := take _ l).
    destruct (received_ok got time c Hin) as [[H1 _] _]; [subst got; rewrite length_take; lia|].
    unfold mbind, M_bind. rewrite close_eq. destruct Hi. by split.
Qed.
End input.

Lemma inv_handle progname ev c : ctl_inv c -> control_enabled progname ev c = true ->
  wp (control_handle progname ev) (fun _ => ctl_inv) c.
Proof.
  intros Hi Hen. destruct ev as [unix cfd nb time|w r time|r|time]; cbn [control_handle]; wp_steps.
  - apply andb_true_iff in Hen as [[_ Hn]%andb_true_iff Hr]. eapply wp_mono; [apply inv_accept; [done|lia|]|by intros [] ? ?].
    apply orb_true_iff in Hr as [Hr|Hr]; [left; lia|right; by apply negb_true_iff].
  - eapply wp_mono; [by apply inv_read|by intros ? ? ?].
  - eapply wp_mono; [by apply inv_send|by intros ? ? ?].
  - eapply wp_mono; [by apply inv_timeout|]. intros b c' [H1 H2 H3 H4 H5]. wp_steps. by split.
Qed.

(** ** Start *)

(** No client yet. *)
Definition idle (c : mlvpn_control) : Prop :=
  length (c_rbuf c) = Z.to_nat MLVPN_CTRL_BUFSIZ /\ Z.of_nat (length (c_wbuf c)) = c_wbuflen c /\ c_wbuflen c = 4096 /\
  c_client_io_read c = false /\ c_client_io_write c = false.

Lemma idle_inv c : idle c -> ctl_inv c.
Proof. intros (H1 & H2 & H3 & H4 & H5). split; [done|done|lia|congruence|congruence]. Qed.

Lemma idle_modify f : (forall c, c_rbuf (f c) = c_rbuf c /\ c_wbuf (f c) = c_wbuf c /\ c_wbuflen (f c) = c_wbuflen c /\
  c_client_io_read (f c) = c_client_io_read c /\ c_client_io_write (f c) = c_client_io_write c) -> preserves idle (modify f).
Proof. intros Hf. apply preserves_modify. intros c. unfold idle. by destruct (Hf c) as (-> & -> & -> & -> & ->). Qed.

Ltac keep_idle :=
  repeat lazymatch goal with
  | |- preserves _ (mbind _ _) => apply preserves_bind; [|intros ?]
  | |- preserves _ (gets _) => apply preserves_gets
  | |- preserves _ get => apply preserves_get
  | |- preserves _ (mret _) => apply preserves_ret
  | |- preserves _ (when _ _) => apply preserves_when; intros _
  | |- preserves _ (if _ then _ else _) => apply preserves_if; intros _
  | |- preserves _ (modify _) => apply idle_modify; intros ?; by try destruct (_ <=? _)
  end.

Lemma idle_open_sock l : preserves idle (open_sock l).
Proof. induction l as [|a l IH]; cbn [open_sock]; unfold close_sock, c_emit; keep_idle; done. Qed.

Lemma idle_open_sockets r : preserves idle (open_sockets r).
Proof. unfold open_sockets, open_fifo, open_inet, close_fifo, close_sock, c_emit. keep_idle. apply idle_open_sock. Qed.

Lemma main_control_inv o r c0 :
  length (c_rbuf c0) = Z.to_nat MLVPN_CTRL_BUFSIZ -> wp (main_control o r) (fun _ => ctl_inv) c0.
Proof.
  intros Hl. unfold main_control, mlvpn_control_init. wp_steps. rewrite bool_decide_false by done. wp_steps.
  eapply wp_mono; [apply idle_open_sockets; by split_and!|]. intros [] c'. apply idle_inv.
Qed.

(** ** Delivery *)

(** The bytes written to [fd]. *)
Definition written (fd : Z) (t : list control_effect) : list ascii :=
  concat ((fun e => match e with CWrite fd' l => if fd' =? fd then l else [] | _ => [] end) <$> t).

Lemma written_app fd t1 t2 : written fd (t1 ++ t2) = written fd t1 ++ written fd t2.
Proof. unfold written. by rewrite fmap_app, concat_app. Qed.
Lemma written_close fd t fd' (b : bool) : written fd (t ++ (if b then [CClose fd'] else [])) = written fd t.
Proof. rewrite written_app. destruct b; simpl; apply app_nil_r. Qed.

(** The writes the event loop does while the write watcher is active: the
    [i]-th one takes at most [ns[i]] bytes. *)
Fixpoint flush (ns : list Z) : C unit :=
  match ns with
  | [] => mret tt
  | n :: ns =>
      active ← gets c_client_io_write;
      when active (mlvpn_control_send (IoOk n);; flush ns)
  end.

(** The state when the output is empty. *)
Record delivered (c c' : mlvpn_control) : Prop := {
  dl_written : written (c_clientfd c) (c_trace c') = written (c_clientfd c) (c_trace c) ++ pending c;
  dl_idle : c_client_io_write c' = false /\ c_wbufpos c' = 0;
  dl_client : c_clientfd c' = (if c_close_after_write c then -1 else c_clientfd c);
  dl_input : in_buf c' = in_buf c
}.

Lemma flush_stop ns c : c_client_io_write c = false -> flush ns c = Ok tt c.
Proof. intros Hw. destruct ns as [|n ns]; [done|]. cbn [flush]. unfold gets, mbind, M_bind. by rewrite Hw. Qed.

Lemma flush_spec ns : forall c, ctl_inv c -> c_client_io_write c = true -> Forall (fun n => 0 < n) ns ->
  c_wbufpos c <= foldr Z.add 0 ns -> exists c', flush ns c = Ok tt c' /\ delivered c c'.
Proof.
  induction ns as [|n ns IH]; intros c Hi Hw Hns Hs; destruct (ci_write _ Hi Hw) as [Hr Hp]; cbn [foldr] in Hs; [lia|].
  inversion Hns as [|? ? Hn Hns']; subst.
  set (ret := Z.max 0 (Z.min n (c_wbufpos c))). assert (0 < ret <= c_wbufpos c /\ ret <= n) as Hret by lia.
  pose proof (inv_flushed ret c Hi Hw ltac:(lia)) as Hi'. destruct (pending_flushed ret c Hi Hw ltac:(lia)) as [Hpd Hpos].
  assert (flush (n :: ns) c = flush ns (flushed ret c)) as ->.
  { cbn [flush]. unfold gets, mbind, M_bind. rewrite Hw. unfold when. by rewrite send_eq. }
  set (x := take (Z.to_nat ret) (c_wbuf c)) in *.
  destruct (Z.ltb_spec 0 (c_wbufpos c - ret)) as [Hl|Hl].
  - assert (c_client_io_write (flushed ret c) = true /\ c_clientfd (flushed ret c) = c_clientfd c /\ in_buf (flushed ret c) = in_buf c /\
      c_trace (flushed ret c) = c_trace c ++ [CWrite (c_clientfd c) x] /\
      c_close_after_write (flushed ret c) = c_close_after_write c) as (H1 & H2 & H3 & H4 & H5).
    { unfold flushed. by replace (0 <? c_wbufpos c - ret) with true by lia. }
    destruct (IH (flushed ret c) Hi' H1 Hns' ltac:(lia)) as (c' & Hf & [D1 D2 D3 D4]). exists c'. split; [done|].
    rewrite H2, H5 in *. split; [|done|done|congruence]. rewrite D1, H4, Hpd, written_app, <- app_assoc. f_equal.
    unfold written. simpl. by rewrite Z.eqb_refl, app_nil_r.
  - assert (c_client_io_write (flushed ret c) = false) as H1.
    { unfold flushed. replace (0 <? c_wbufpos c - ret) with false by lia. by destruct (c_close_after_write c). }
    rewrite flush_stop by done. eexists. split; [done|].
    assert (pending (flushed ret c) = []) as He by (unfold pending; rewrite Hpos; by replace (c_wbufpos c - ret) with 0 by lia).
    rewrite He, app_nil_r in Hpd.
    assert (written (c_clientfd c) [CWrite (c_clientfd c) x] = x) as Hx by (unfold written; simpl; by rewrite Z.eqb_refl, app_nil_r).
    unfold flushed. replace (0 <? c_wbufpos c - ret) with false by lia. fold x. cbv zeta.
    destruct (c_close_after_write c) eqn:Hc; split; cbn -[written Z.leb Z.sub x pending]; rewrite ?Hc; try done; try (split; [done|lia]).
    + by rewrite written_close, written_app, Hx, Hpd.
    + by rewrite written_app, Hx, Hpd.
Qed.

Lemma scan_first line rest : MLVPN_CTRL_EOF ∉ line -> LF ∉ line -> scan (line ++ LF :: rest) = Line line rest.
Proof.
  induction line as [|c line IH]; intros He Hl; [done|]. apply not_elem_of_cons in He as [? ?]. apply not_elem_of_cons in Hl as [? ?].
  cbn [app scan]. rewrite !bool_decide_false by done. by rewrite IH.
Qed.

(** What an answered command leaves. *)
Lemma answered_spec progname w line cmd c :
  out_ok c -> answer_fits progname w line c = true -> command (c_http c) line = Some cmd -> is_quit cmd = false ->
  let c' := answered progname w line c in
  pending c' = pending c ++ answer_bytes progname w (c_http c) line /\ c_client_io_write c' = true /\
  c_wbufpos c' = c_wbufpos c + Z.of_nat (length (answer_bytes progname w (c_http c) line)) /\
  c_clientfd c' = c_clientfd c /\ c_trace c' = c_trace c /\ c_close_after_write c' = (c_http c || c_close_after_write c).
Proof.
  intros Hok Hf Hc Hq. unfold answer_fits in Hf. apply andb_true_iff in Hf as [_ Hfit%Z.ltb_lt].
  pose proof (answer_pos progname w (c_http c) line cmd Hc) as Hpos. unfold answer_bytes in *.
  destruct (queue_spec _ c Hok Hfit) as (_ & Hp & Hpo & _ & Hw). unfold answered. rewrite Hc, Hq.
  set (ds := list_ascii_of_string <$> answer progname w (c_http c) line) in *.
  rewrite bool_decide_false in Hw by (intros Hd; rewrite Hd in Hpos; simpl in Hpos; lia). rewrite orb_true_r in Hw.
  assert (c_clientfd (queue ds c) = c_clientfd c) as H1 by (by apply (queue_frame c_clientfd)).
  assert (c_trace (queue ds c) = c_trace c) as H2 by (by apply (queue_frame c_trace)).
  assert (c_close_after_write (queue ds c) = c_close_after_write c) as H3 by (by apply (queue_frame c_close_after_write)).
  destruct (c_http c); split_and!; done.
Qed.

(** ** Claims *)



(** The buffer after [realloc]. *)
Definition grown (c : mlvpn_control) : mlvpn_control :=
  c <| c_wbuflen := c_wbuflen c + 1024 * 32 |> <| c_wbuf := c_wbuf c ++ replicate (Z.to_nat (1024 * 32)) NUL |>.

Lemma grown_ok c : out_ok c -> c_wbuflen c + 1024 * 32 < 2 ^ 31 -> out_ok (grown c) /\ pending (grown c) = pending c.
Proof.
  intros [H1 H2 H3] Hg. split.
  - split; cbn -[replicate Z.of_nat length Z.add Z.pow Z.to_nat]; [|lia|done]. rewrite length_app, length_replicate. lia.
  - unfold pending. cbn -[replicate Z.to_nat]. apply take_app_le. lia.
Qed.

Lemma room_eq len c : out_ok c -> 0 <= len < 2 ^ 31 -> (room c len <=? 0) = (c_wbufpos c + len =? c_wbuflen c).
Proof.
  intros [H1 H2 H3] Hl. unfold room, u64, wrap. rewrite (Z.mod_small (c_wbufpos c + len)) by lia.
  destruct (Z.eqb_spec (c_wbufpos c + len) (c_wbuflen c)) as [->|Hne]; [by rewrite Z.sub_diag|].
  destruct (Z.lt_ge_cases (c_wbufpos c + len) (c_wbuflen c)).
  - rewrite Z.mod_small by lia. lia.
  - rewrite <- (Z.mod_add _ 1 (2 ^ 64)), Z.mod_small by lia. lia.
Qed.

(** C38: what a write to the output buffer does, by the room that is left.  The
    subtraction of the test is in [size_t], so it only sees the difference 0:
    below the end the bytes are added; up to the very end the buffer grows by
    32768 bytes first; beyond the end the buffer does not grow, the write is
    not refused and goes outside [wbuf]. *)
Theorem control_write_cases size buf len c :
  out_ok c -> c_wbuflen c + 1024 * 32 < 2 ^ 31 -> 0 <= len <= size -> len < 2 ^ 31 -> (Z.to_nat len <= length buf)%nat ->
  (c_wbufpos c + len < c_wbuflen c -> mlvpn_control_write size buf len c = Ok len (queued (take (Z.to_nat len) buf) c)) /\
  (c_wbufpos c + len = c_wbuflen c ->
     mlvpn_control_write size buf len c = Ok len (queued (take (Z.to_nat len) buf) (grown c)) /\
     pending (queued (take (Z.to_nat len) buf) (grown c)) = pending c ++ take (Z.to_nat len) buf) /\
  (c_wbuflen c < c_wbufpos c + len ->
     mlvpn_control_write size buf len c = Fault (BadAccess "memcpy(ctrl->wbuf)")).
Proof.
  intros Hok Hg Hl Hi Hb. pose proof Hok as [_ Hp _]. destruct (grown_ok c Hok Hg) as [Hok' Hpd]. split_and!.
  - intros Hf. apply write_fits; [done|done|done|unfold fits; lia].
  - intros Hf. assert (fits (Z.to_nat len) (grown c)) as Hfit by (unfold fits; cbn -[Z.add]; lia). split.
    + rewrite <- (write_fits size buf len (grown c)) by done. unfold mlvpn_control_write, mbind, M_bind, get at 1 3.
      rewrite (room_eq len c), (room_eq len (grown c)) by (done || lia).
      replace (c_wbufpos c + len =? c_wbuflen c) with true by lia.
      replace (c_wbufpos (grown c) + len =? c_wbuflen (grown c)) with false by (cbn -[Z.add]; lia). done.
    + rewrite pending_queued, Hpd; [done|done|]. rewrite length_take_le by done. done.
  - intros Hf. unfold mlvpn_control_write, mbind, M_bind, get. rewrite room_eq by (done || lia).
    replace (c_wbufpos c + len =? c_wbuflen c) with false by lia. cbn [when mret M_ret]. rewrite room_eq by (done || lia).
    replace (c_wbufpos c + len =? c_wbuflen c) with false by lia.
    replace (c_wbuflen c <? c_wbufpos c + len) with true by lia. by rewrite orb_true_r.
Qed.

(** C37: The loop [while (mlvpn_control_read_check(ctrl) != 0);] ends for every
    content of the input buffer and whatever the commands in it answer: with
    any bound of at least [rbufpos] iterations it is the same as code without
    a loop, which handles the first line and drops what follows it, closes the
    client at an end-of-file character before the first line, and changes
    nothing when there is neither.  So no result of [read] keeps
    [mlvpn_control_read] in its loop. *)
Theorem read_loop_terminates progname w c fuel :
  in_ok c -> c_rbufpos c < MLVPN_CTRL_BUFSIZ -> c_rbufpos c <= Z.of_nat fuel ->
  read_check_all progname w fuel c =
    match scan (input c) with
    | NoLine => Ok tt c
    | EndOfFile => mlvpn_control_close_client c
    | Line line _ =>
        (mlvpn_control_parse progname w line;; modify (fun c => c <| c_rbufpos := 0 |>)) (shifted (length line) c)
    end /\
  read_check_all progname w fuel c <> Fault Diverges /\
  forall r time, mlvpn_control_read progname w r time c <> Fault Diverges.
Proof.
  intros Hok Hlt Hf. pose proof (read_loop_eq progname w c fuel Hok Hf) as Hr. split_and!; [done|rewrite Hr|].
  - destruct (scan (input c)); [done|apply ends_close|]. apply ends_bind; [apply ends_parse|done].
  - intros [l| |] time; [|done|unfold mlvpn_control_read; apply ends_bind; eauto using ends_close with ends].
    destruct (decide (l = [])) as [->|Hl].
    { unfold mlvpn_control_read, get, mbind, M_bind. by rewrite take_nil. }
    destruct (decide (c_rbufpos c + Z.of_nat (length l) < MLVPN_CTRL_BUFSIZ)).
    + rewrite read_found by done. destruct (scan (input c ++ l)); [done|apply ends_bind; [apply ends_close|done]|].
      repeat apply ends_bind; auto using ends_parse with ends.
    + rewrite read_overflow by (done || lia). apply ends_bind; [apply ends_close|done].
Qed.

(** At the end of the file the client is forgotten but neither closed nor
    unwatched, so that a connection accepted next sets an active watcher. *)
Lemma eof_then_accept progname w time fd cfd nonblocking time' c :
  c_client_io_read c = true -> c_mode c = MLVPN_CONTROL_READWRITE -> 0 <= fd -> 0 <= cfd -> 0 <= nonblocking ->
  exists c', mlvpn_control_read progname w (RData []) time c = Ok 0 c' /\ c_clientfd c' = -1 /\ c_trace c' = c_trace c /\
    mlvpn_control_accept fd cfd nonblocking time' c' = Fault (BadAccess "ev_io_set on an active watcher").
Proof.
  intros Hr Hm Hfd Hcfd Hn. exists (c <| c_clientfd := -1 |>). split_and!; [|done|done|].
  - unfold mlvpn_control_read, get, mbind, M_bind. by rewrite take_nil.
  - unfold mlvpn_control_accept, get, mbind, M_bind, modify. replace (fd <? 0) with false by lia.
    replace (cfd <? 0) with false by lia. replace (nonblocking <? 0) with false by lia.
    cbn. rewrite Hm. cbn. by rewrite Hr.
Qed.

(** ** A session

    The two sockets are open, a client connects to the TCP one and asks for the
    status of a daemon with one tunnel. *)
Definition demo_struct : mlvpn_control :=
  Ctl MLVPN_CONTROL_DISABLED "" 0 "" "" 0 0 0 (replicate 1024 NUL) 7 [] 0 99 false false false false false false false [].
Definition demo_sockets : mlvpn_options_s := Opts "/run/mlvpn.sock" "127.0.0.1" "1040" "" "" "" "" "" "" 1400 false 64 false.
Definition demo_init : init_result := InitResult 3 0 [InetResult (-1) 0 0 0; InetResult 4 0 0 0] 0 0 0 0.
Definition state_of {A} (r : result mlvpn_control A) : mlvpn_control := match r with Ok _ c => c | Fault _ => demo_struct end.
Definition demo_started : mlvpn_control := state_of (main_control demo_sockets demo_init demo_struct).
Definition demo_accept : control_event := CtlAccept false 5 0 100.
Definition demo_connected : mlvpn_control := state_of (control_handle "mlvpn" demo_accept demo_started).
Definition demo_world : world := world_of [tun_zero <| t_name := "adsl" |> <| t_status := MLVPN_AUTHOK |>].
Definition demo_line : list ascii := list_ascii_of_string "GET /status HTTP/1.1" ++ [CR].
Definition demo_request : list ascii := demo_line ++ LF :: list_ascii_of_string "Host: localhost" ++ [CR; LF].


Lemma demo_connected_inv : ctl_inv demo_connected.
Proof.
  split; [vm_compute; reflexivity|vm_compute; reflexivity|vm_compute; split; reflexivity| |vm_compute; discriminate].
  intros _. vm_compute. by split_and!.
Qed.


(** A buffer with two lines: eleven iterations are enough. *)
Lemma read_loop_terminates_witness : exists c',
  read_check_all "mlvpn" demo_world 11 (received (list_ascii_of_string "status" ++ LF :: list_ascii_of_string "abc" ++ [LF]) 101 demo_connected) =
    Ok tt c' /\ c_rbufpos c' = 0.
Proof.
  destruct (read_loop_terminates "mlvpn" demo_world
    (received (list_ascii_of_string "status" ++ LF :: list_ascii_of_string "abc" ++ [LF]) 101 demo_connected) 11) as [H _].
  - split; vm_compute; [reflexivity|split; discriminate].
  - vm_compute; reflexivity.
  - vm_compute; discriminate.
  - eexists. rewrite H. split; vm_compute; reflexivity.
Defined.

Lemma control_write_cases_witness :
  mlvpn_control_write 4 (list_ascii_of_string "bye.") 4 (demo_connected <| c_wbufpos := 4094 |>) = Fault (BadAccess "memcpy(ctrl->wbuf)").
Proof.
  apply (control_write_cases 4 (list_ascii_of_string "bye.") 4 (demo_connected <| c_wbufpos := 4094 |>)).
  - split; vm_compute; [reflexivity|split; discriminate|reflexivity].
  - vm_compute; reflexivity.
  - split; discriminate.
  - reflexivity.
  - vm_compute. lia.
  - vm_compute; reflexivity.
Defined.

(** The metrics of eight tunnels do not fit in the 4096 bytes: a client that
    asks for them makes the daemon write outside its buffer. *)
Definition demo_tunnels : world := world_of (replicate 8 (tun_zero <| t_name := "tunnel-adsl" |>)).
Example metrics_overflow :
  control_handle "mlvpn" (CtlRead demo_tunnels (RData (list_ascii_of_string "GET /metrics HTTP/1.1" ++ [CR; LF])) 101) demo_connected =
  Fault (BadAccess "memcpy(ctrl->wbuf)").
Proof. vm_compute. reflexivity. Qed.

(** The answer to [quit] is queued, then the client is closed before it could
    be sent. *)
Example quit_not_answered : exists c',
  mlvpn_control_parse "mlvpn" demo_world (list_ascii_of_string "quit") (demo_connected <| c_http := false |>) = Ok tt c' /\
  pending c' = list_ascii_of_string "bye." /\ c_client_io_write c' = false /\ c_trace c' = c_trace demo_connected ++ [CClose 5].
Proof. eexists. split; [vm_compute; reflexivity|]. by vm_compute. Qed.
