(* ===== verification/Vis.v ===== *)
(** * The process title ([src/src/vis.c], [src/src/setproctitle.c])

    [vis] shows a character that cannot be printed as an escape sequence,
    [strvis], [strvisx] and [strnvis] do so for a string, and [setproctitle]
    writes the result over the arguments of the process.

    Bytes are numbers from 0 to 255; a [char] is signed, so the [int] the code
    computes with is the byte as a signed value.  The classes of characters
    are those of the C locale, which the program does not change. *)

From S2P Require Import Prelude.

(** ** Characters *)

Definition VIS_OCTAL : Z := 1.
Definition VIS_CSTYLE : Z := 2.
Definition VIS_SP : Z := 4.
Definition VIS_TAB : Z := 8.
Definition VIS_NL : Z := 16.
Definition VIS_SAFE : Z := 32.
Definition VIS_NOSLASH : Z := 64.
Definition VIS_GLOB : Z := 256.
Definition VIS_DQ : Z := 512.
Definition VIS_ALL : Z := 1024.

Definition has (flag bit : Z) : bool := negb (Z.land flag bit =? 0).

(** The [char] of a byte, and [(u_char) c]. *)
Definition schar (b : Z) : Z := if b <? 128 then b else b - 256.

Definition isoctal (c : Z) : bool := (48 <=? u8 c) && (u8 c <=? 55).
Definition isascii (c : Z) : bool := (0 <=? c) && (c <=? 127).
Definition isgraph (c : Z) : bool := (33 <=? c) && (c <=? 126).
Definition iscntrl (c : Z) : bool := ((0 <=? c) && (c <=? 31)) || (c =? 127).

(** '*', '?', '[' and '#'. *)
Definition isglob (c : Z) : bool := (c =? 42) || (c =? 63) || (c =? 91) || (c =? 35).

Definition isvisible (c flag : Z) : bool :=
  ((c =? 92) || negb (has flag VIS_ALL)) &&
  (((u32 c <=? 255) && isascii (u8 c) && (negb (isglob c) || negb (has flag VIS_GLOB)) && isgraph (u8 c)) ||
   (negb (has flag VIS_SP) && (c =? 32)) ||
   (negb (has flag VIS_TAB) && (c =? 9)) ||
   (negb (has flag VIS_NL) && (c =? 10)) ||
   (has flag VIS_SAFE && ((c =? 8) || (c =? 7) || (c =? 13) || isgraph (u8 c)))).

(** A visible character that gets a backslash. *)
Definition needs_slash (c flag : Z) : bool :=
  ((c =? 34) && has flag VIS_DQ) || ((c =? 92) && negb (has flag VIS_NOSLASH)).

(** The [switch] of the C escapes. *)
Definition cstyle (c nextc : Z) : option (list Z) :=
  if c =? 10 then Some [92; 110]
  else if c =? 13 then Some [92; 114]
  else if c =? 8 then Some [92; 98]
  else if c =? 7 then Some [92; 97]
  else if c =? 11 then Some [92; 118]
  else if c =? 9 then Some [92; 116]
  else if c =? 12 then Some [92; 102]
  else if c =? 32 then Some [92; 115]
  else if c =? 0 then Some ([92; 48] ++ if isoctal nextc then [48; 48] else [])
  else None.

(** The characters [vis] writes before the terminating NUL. *)
Definition vis (c flag nextc : Z) : list Z :=
  if isvisible c flag then (if needs_slash c flag then [92] else []) ++ [u8 c]
  else
    match (if has flag VIS_CSTYLE then cstyle c nextc else None) with
    | Some l => l
    | None =>
        if (Z.land c 127 =? 32) || has flag VIS_OCTAL || (has flag VIS_GLOB && isglob c) then
          [92; Z.land (Z.shiftr (u8 c) 6) 7 + 48; Z.land (Z.shiftr (u8 c) 3) 7 + 48; Z.land (u8 c) 7 + 48]
        else
          let '(c, meta) := if negb (Z.land c 128 =? 0) then (Z.land c 127, [77]) else (c, []) in
          (if has flag VIS_NOSLASH then [] else [92]) ++ meta ++
          (if iscntrl (u8 c) then [94; if c =? 127 then 63 else u8 (c + 64)] else [45; u8 c])
    end.

(** ** Strings

    A string is the list of its bytes with the terminating 0; reading past the
    end of the list is [None]. *)

(** The loop of [strvis]; [*++src] is the next byte. *)
Fixpoint strvis (src : list Z) (flag : Z) : option (list Z) :=
  match src with
  | [] => None
  | b :: src =>
      if b =? 0 then Some []
      else
        next ← head src;
        rest ← strvis src flag;
        Some (vis (schar b) flag (schar next) ++ rest)
  end.

(** [strvisx]: exactly the bytes given. *)
Fixpoint strvisx (src : list Z) (flag : Z) : list Z :=
  match src with
  | [] => []
  | [b] => vis (schar b) flag 0
  | b :: (next :: _) as src => vis (schar b) flag (schar next) ++ strvisx src flag
  end.

(** [*p = v] and [memcpy(p, l, ...)] in a buffer. *)
Definition put_at (dst : list Z) (d : Z) (l : list Z) : option (list Z) :=
  if (0 <=? d) && (d + Z.of_nat (length l) <=? Z.of_nat (length dst)) then
    Some (take (Z.to_nat d) dst ++ l ++ drop (Z.to_nat d + length l) dst)
  else None.

(** The loop of [strnvis], with [dst], [end] and [i] as in the source, as
    offsets: the buffer, [dst], [i] and what is left of [src]. *)
Fixpoint nvis_loop (src dst : list Z) (d end_ i flag : Z) : option (list Z * Z * Z * list Z) :=
  match src with
  | [] => None
  | b :: src' =>
      let c := schar b in
      if (c =? 0) || negb (d <? end_) then Some (dst, d, i, src)
      else if isvisible c flag then
        if needs_slash c flag && (end_ <=? d + 1) then Some (dst, d, 2, src)
        else
          let l := (if needs_slash c flag then [92] else []) ++ [u8 c] in
          dst ← put_at dst d l;
          nvis_loop src' dst (d + Z.of_nat (length l)) end_ 1 flag
      else
        next ← head src';
        let tbuf := vis c flag (schar next) in
        let i := Z.of_nat (length tbuf) in
        if 5 <? i + 1 then None
        else if d + i <=? end_ then
          dst ← put_at dst d tbuf;
          nvis_loop src' dst (d + i) end_ i flag
        else Some (dst, d, i, src)
  end.

(** [while ((c = *src)) dst += vis(tbuf, c, flag, *++src) - tbuf] *)
Fixpoint nvis_rest (src : list Z) (flag d : Z) : option Z :=
  match src with
  | [] => None
  | b :: src =>
      if b =? 0 then Some d
      else
        next ← head src;
        let tbuf := vis (schar b) flag (schar next) in
        if 5 <? Z.of_nat (length tbuf) + 1 then None
        else nvis_rest src flag (d + Z.of_nat (length tbuf))
  end.

Definition strnvis (dst src : list Z) (siz flag : Z) : option (list Z * Z) :=
  let end_ := siz - 1 in
  '(dst, d, i, src) ← nvis_loop src dst 0 end_ 0 flag;
  dst ← (if 0 <? siz then put_at dst d [0] else Some dst);
  if end_ <? d + i then r ← nvis_rest src flag d; Some (dst, r)
  else Some (dst, d).

(** ** What the functions write *)

(** The encodings of the characters of a string, one by one. *)
Fixpoint encodings (body : list Z) (flag : Z) : list (list Z) :=
  match body with
  | [] => []
  | b :: body => vis (schar b) flag (schar (default 0 (head body))) :: encodings body flag
  end.

(** The bytes of a C string before its end. *)
Definition is_text (body : list Z) : Prop := Forall (fun b => 1 <= b <= 255) body.

Lemma schar_nonzero b : 1 <= b <= 255 -> (schar b =? 0) = false.
Proof. intros Hb. unfold schar. destruct (Z.ltb_spec b 128); lia. Qed.

(** [tbuf] has room for every escape sequence. *)
Lemma vis_length c flag nextc : (1 <= length (vis c flag nextc) <= 4)%nat.
Proof.
  unfold vis, cstyle. repeat first [case_match | progress simpl in *]; simplify_eq/=; try lia.
Qed.

Lemma head_text body : head (body ++ [0]) = Some (default 0 (head body)).
Proof. by destruct body. Qed.

(** [strvis] encodes every character. *)
Lemma strvis_spec body flag : is_text body -> strvis (body ++ [0]) flag = Some (concat (encodings body flag)).
Proof.
  induction 1 as [|b body Hb Ht IH]; [done|]. cbn [app strvis encodings concat].
  replace (b =? 0) with false by lia. rewrite head_text. cbn [mbind option_bind]. by rewrite IH.
Qed.

Lemma encodings_drop k flag : forall body, encodings (drop k body) flag = drop k (encodings body flag).
Proof. induction k as [|k IH]; intros body; [done|]. destruct body as [|b body]; [done|]. apply IH. Qed.
Lemma encodings_length body flag : length (encodings body flag) = length body.
Proof. induction body; simpl; congruence. Qed.

Lemma put_at_spec dst d l : 0 <= d -> d + Z.of_nat (length l) <= Z.of_nat (length dst) ->
  put_at dst d l = Some (take (Z.to_nat d) dst ++ l ++ drop (Z.to_nat d + length l) dst).
Proof.
  intros Hd Hl. unfold put_at. replace (0 <=? d) with true by lia.
  by replace (d + Z.of_nat (length l) <=? Z.of_nat (length dst)) with true by lia.
Qed.

(** [out] was written at [d]. *)
Definition wrote (dst : list Z) (d : nat) (out : list Z) : list Z := take d dst ++ out ++ drop (d + length out) dst.

Lemma length_wrote dst d out : (d + length out <= length dst)%nat -> length (wrote dst d out) = length dst.
Proof. intros Hl. unfold wrote. rewrite !length_app, length_take, length_drop. lia. Qed.
Lemma wrote_nil dst d : wrote dst d [] = dst.
Proof. unfold wrote. simpl. by rewrite Nat.add_0_r, take_drop. Qed.
Lemma wrote_wrote dst d out1 out2 : (d + length out1 + length out2 <= length dst)%nat ->
  wrote (wrote dst d out1) (d + length out1) out2 = wrote dst d (out1 ++ out2).
Proof.
  intros Hl. unfold wrote. rewrite <- !app_assoc, length_app.
  rewrite (app_assoc (take d dst)). set (p := take d dst ++ out1).
  assert (length p = (d + length out1)%nat) as Hp by (subst p; rewrite length_app, length_take; lia).
  rewrite take_app_le, take_ge by lia. subst p. rewrite <- app_assoc. do 3 f_equal.
  rewrite drop_app_ge by lia. rewrite Hp, drop_drop. f_equal. lia.
Qed.

(** The loop stops after [k] characters: they fit, and either nothing is left
    or the next one does not fit. *)
Lemma nvis_loop_spec flag end_ : forall body dst d i,
  is_text body -> 0 <= d -> d <= end_ -> end_ < Z.of_nat (length dst) ->
  exists k i', let out := concat (take k (encodings body flag)) in
    nvis_loop (body ++ [0]) dst d end_ i flag =
      Some (wrote dst (Z.to_nat d) out, d + Z.of_nat (length out), i', drop k body ++ [0]) /\
    d + Z.of_nat (length out) <= end_ /\ (k <= length body)%nat /\
    ((k < length body)%nat -> end_ < d + Z.of_nat (length (concat (take (S k) (encodings body flag))))) /\
    ((k < length body)%nat -> end_ < d + Z.of_nat (length out) + i' \/ i' = i /\ k = 0%nat /\ d = end_).
Proof.
  induction body as [|b body IH]; intros dst d i Ht Hd He Hl.
  { exists 0%nat, i. cbn. rewrite wrote_nil, Z.add_0_r. split_and!; try lia. done. }
  inversion Ht as [|? ? Hb Ht']; subst. cbn [app nvis_loop encodings]. rewrite schar_nonzero by done. cbn [orb].
  set (nextc := schar (default 0 (head body))). set (e := vis (schar b) flag nextc).
  pose proof (vis_length (schar b) flag nextc) as Hvl. fold e in Hvl.
  assert (forall i0, d + Z.of_nat (length e) <= end_ -> 0 < i0 ->
    exists k i', let out := concat (take k (e :: encodings body flag)) in
    nvis_loop (body ++ [0]) (wrote dst (Z.to_nat d) e) (d + Z.of_nat (length e)) end_ i0 flag =
      Some (wrote dst (Z.to_nat d) out, d + Z.of_nat (length out), i', drop k (b :: body) ++ [0]) /\
    d + Z.of_nat (length out) <= end_ /\ (k <= S (length body))%nat /\
    ((k < S (length body))%nat -> end_ < d + Z.of_nat (length (concat (take (S k) (e :: encodings body flag))))) /\
    ((k < S (length body))%nat -> end_ < d + Z.of_nat (length out) + i' \/ i' = i /\ k = 0%nat /\ d = end_)) as Hstep.
  { intros i0 Hfit Hi0. destruct (IH (wrote dst (Z.to_nat d) e) (d + Z.of_nat (length e)) i0 Ht') as (k & i' & H1 & H2 & H3 & H4 & H5);
      [lia|lia|rewrite length_wrote; lia|]. cbv zeta in *.
    exists (S k), i'. cbn [take concat drop]. rewrite H1. rewrite length_app.
    replace (Z.to_nat (d + Z.of_nat (length e))) with (Z.to_nat d + length e)%nat by lia.
    rewrite wrote_wrote by lia. split_and!; [by rewrite Nat2Z.inj_add, Z.add_assoc|lia|lia| |].
    - intros Hk. cbn [take concat] in *. rewrite length_app in *. assert (k < length body)%nat as Hk' by lia. specialize (H4 Hk'). lia.
    - intros Hk. left. destruct H5 as [H5|(-> & -> & H5)]; [lia|lia|]. simpl. lia. }
  destruct (Z.ltb_spec d end_) as [Hlt|Hge]; cbn [negb].
  2:{ exists 0%nat, i. cbn [take concat drop]. rewrite wrote_nil, app_nil_r. cbn [length]. rewrite Z.add_0_r.
      split_and!; [done|lia|lia|intros _; lia|intros _; right; split_and!; lia]. }
  destruct (isvisible (schar b) flag) eqn:Hv.
  - assert (e = (if needs_slash (schar b) flag then [92] else []) ++ [u8 (schar b)]) as He' by (subst e; unfold vis; by rewrite Hv).
    rewrite <- He'. destruct (needs_slash (schar b) flag && (end_ <=? d + 1)) eqn:Hns.
    + apply andb_true_iff in Hns as [Hn Hle%Z.leb_le]. rewrite Hn in He'. assert (length e = 2%nat) as Hle2 by (by rewrite He').
      exists 0%nat, 2. cbn [take concat drop]. rewrite wrote_nil, app_nil_r. cbn [length]. rewrite Z.add_0_r.
      split_and!; [done|lia|lia|intros _; lia|intros _; left; lia].
    + assert (d + Z.of_nat (length e) <= end_) as Hfit.
      { rewrite He'. apply andb_false_iff in Hns as [->|Hle%Z.leb_gt]; [simpl; lia|]. destruct (needs_slash _ _); simpl; lia. }
      rewrite put_at_spec by lia. cbn [mbind option_bind]. apply Hstep; lia.
  - rewrite head_text. cbn [mbind option_bind]. fold nextc e. replace (5 <? Z.of_nat (length e) + 1) with false by lia.
    destruct (Z.leb_spec (d + Z.of_nat (length e)) end_) as [Hfit|Hno].
    + rewrite put_at_spec by lia. cbn [mbind option_bind]. apply Hstep; lia.
    + exists 0%nat, (Z.of_nat (length e)). cbn [take concat drop]. rewrite wrote_nil, app_nil_r. cbn [length]. rewrite Z.add_0_r.
      split_and!; [done|lia|lia|intros _; lia|intros _; left; lia].
Qed.

Lemma nvis_rest_spec flag : forall body d, is_text body ->
  nvis_rest (body ++ [0]) flag d = Some (d + Z.of_nat (length (concat (encodings body flag)))).
Proof.
  induction body as [|b body IH]; intros d Ht; [simpl; by rewrite Z.add_0_r|].
  inversion Ht as [|? ? Hb Ht']; subst. cbn [app nvis_rest encodings concat].
  replace (b =? 0) with false by lia. rewrite head_text. cbn [mbind option_bind].
  pose proof (vis_length (schar b) flag (schar (default 0 (head body)))) as Hl. rewrite length_app.
  replace (5 <? _) with false by lia. rewrite IH by done. f_equal. lia.
Qed.

(** ** The process title *)

(** A C string in memory: its address and its length.  [last] is [lastargv],
    [NULL] at first. *)
Definition extend_area (last : option Z) (s : Z * Z) : option Z :=
  match last with
  | None => Some (s.1 + s.2)
  | Some e => if e + 1 =? s.1 then Some (s.1 + s.2) else last
  end.

(** [compat_init_setproctitle]: [argv_start] and [argv_env_len]. *)
Definition compat_init_setproctitle (argv envp : list (Z * Z)) : option (Z * Z) :=
  first ← head argv;
  last ← foldl (fun last s => match last with Some e => if e + 1 =? s.1 then Some (s.1 + s.2) else last | None => None end)
           (foldl extend_area None argv) envp;
  Some (first.1, last - first.1 - 1).

Definition sizeof_title : Z := 1024.

(** [strlcpy(argv_start, ptitle, argv_env_len)] and the padding, in the bytes
    that begin at [argv_start]. *)
Definition show_title (area ptitle : list Z) (argv_env_len : Z) : option (list Z) :=
  let n := Z.to_nat argv_env_len in
  let copied := take (n - 1) ptitle ++ [0] in
  if (length area <? length copied)%nat || (length area <? n)%nat then None
  else
    let area := copied ++ drop (length copied) area in
    let len := Nat.min (length ptitle) n in
    Some (take len area ++ replicate (n - len) 0 ++ drop n area).

(** The bytes before the first 0 of a buffer. *)
Fixpoint c_text (l : list Z) : list Z :=
  match l with
  | [] => []
  | b :: l => if b =? 0 then [] else b :: c_text l
  end.

(** [setproctitle(fmt, ...)] for the formatted [text], not for a [NULL]
    format; [buf] and [ptitle] have 1024 bytes, [ptitle] with the bytes it has
    on the stack.  [Some area] when the title does not change. *)
Definition setproctitle (area ptitle progname text : list Z) (argv_env_len : Z) : option (list Z) :=
  if argv_env_len <=? 0 then Some area
  else
    let buf := take (Z.to_nat sizeof_title - 1) progname in
    let len := Z.of_nat (length buf) + 2 in
    let r := if len <? sizeof_title then Z.of_nat (length text) else -1 in
    if (r =? -1) || (sizeof_title - len <=? r) then Some area
    else
      '(ptitle, _) ← strnvis ptitle (buf ++ [58; 32] ++ text ++ [0]) sizeof_title
                       (Z.lor (Z.lor (Z.lor VIS_CSTYLE VIS_NL) VIS_TAB) VIS_OCTAL);
      show_title area (c_text ptitle) argv_env_len.

(** ** Claims *)

(** The loop, the terminator and the returned value together. *)
Lemma strnvis_spec dst body siz flag :
  is_text body -> 1 <= siz <= Z.of_nat (length dst) ->
  exists k r, let out := concat (take k (encodings body flag)) in
    strnvis dst (body ++ [0]) siz flag = Some (out ++ [0] ++ drop (S (length out)) dst, r) /\
    Z.of_nat (length out) < siz /\
    ((k < length body)%nat -> siz <= Z.of_nat (length (concat (take (S k) (encodings body flag))))) /\
    (2 <= siz -> r = Z.of_nat (length (concat (encodings body flag)))).
Proof.
  intros Ht Hs. destruct (nvis_loop_spec flag (siz - 1) body dst 0 0 Ht) as (k & i & H1 & H2 & H3 & H4 & H5); [lia..|].
  cbv zeta in *. unfold strnvis. rewrite H1. cbn [mbind option_bind].
  set (out := concat (take k (encodings body flag))) in *. rewrite Z.add_0_l in *.
  replace (0 <? siz) with true by lia. change (Z.to_nat 0) with 0%nat in *.
  assert (put_at (wrote dst 0 out) (Z.of_nat (length out)) [0] = Some (out ++ [0] ++ drop (S (length out)) dst)) as ->.
  { rewrite put_at_spec by (rewrite ?length_wrote; simpl; lia). f_equal. rewrite Nat2Z.id.
    pose proof (wrote_wrote dst 0 out [0] ltac:(simpl; lia)) as Hw. unfold wrote in Hw at 1. rewrite Nat.add_0_l in Hw. rewrite Hw.
    unfold wrote. rewrite take_0, length_app, <- app_assoc. simpl. by rewrite Nat.add_1_r. }
  cbn [mbind option_bind].
  assert (k = length body -> out = concat (encodings body flag)) as Hall.
  { intros ->. subst out. by rewrite take_ge by (rewrite encodings_length; done). }
  assert (is_text (drop k body)) as Htd by (by apply Forall_drop).
  destruct (Z.ltb_spec (siz - 1) (Z.of_nat (length out) + i)) as [Hlt|Hge].
  - rewrite nvis_rest_spec by done. cbn [mbind option_bind]. eexists k, _. cbv zeta. fold out. split_and!; [done|lia| |].
    + intros Hk. specialize (H4 Hk). lia.
    + intros _. rewrite encodings_drop. subst out. rewrite <- Nat2Z.inj_add, <- length_app, <- concat_app, take_drop. done.
  - eexists k, _. cbv zeta. fold out. split_and!; [done|lia| |].
    + intros Hk. specialize (H4 Hk). lia.
    + intros H2s. destruct (decide (k = length body)) as [Hk|Hk]; [by rewrite (Hall Hk)|].
      destruct H5 as [?|(-> & -> & ?)]; [lia|lia|lia].
Qed.

(** C39: [strnvis] stays inside the [siz] bytes of its buffer.  It writes the
    encodings of the first characters, as many as fit whole, and a NUL after
    them, and changes nothing behind; the value it returns is the length of
    the encoding of the whole string, except for a buffer of one byte. *)
Theorem strnvis_correct dst body siz flag :
  is_text body -> 1 <= siz <= Z.of_nat (length dst) ->
  exists k r, let out := concat (take k (encodings body flag)) in
    strnvis dst (body ++ [0]) siz flag = Some (out ++ [0] ++ drop (S (length out)) dst, r) /\
    Z.of_nat (length out) < siz /\
    ((k < length body)%nat -> siz <= Z.of_nat (length (concat (take (S k) (encodings body flag))))) /\
    (2 <= siz -> r = Z.of_nat (length (concat (encodings body flag)))).
Proof. apply strnvis_spec. Qed.

Lemma strnvis_correct_witness : exists k r,
  strnvis (replicate 4 7) ([97; 9; 98] ++ [0]) 4 (Z.lor VIS_CSTYLE VIS_TAB) =
    Some (concat (take k (encodings [97; 9; 98] (Z.lor VIS_CSTYLE VIS_TAB))) ++ [0] ++
          drop (S (length (concat (take k (encodings [97; 9; 98] (Z.lor VIS_CSTYLE VIS_TAB)))))) (replicate 4 7), r) /\
  r = 4.
Proof.
  destruct (strnvis_correct (replicate 4 7) [97; 9; 98] 4 (Z.lor VIS_CSTYLE VIS_TAB)) as (k & r & H1 & _ & _ & H4).
  - repeat constructor; vm_compute; discriminate.
  - vm_compute. split; discriminate.
  - exists k, r. split; [exact H1|]. rewrite H4; vm_compute; [reflexivity|discriminate].
Defined.

(** Every address up to the end of the area is in one of the strings. *)
Definition within (ss : list (Z * Z)) (a : Z) : Prop := exists s, s ∈ ss /\ s.1 <= a <= s.1 + s.2.

Lemma area_covered ss : forall seen last start,
  (forall a, start <= a <= last -> within seen a) ->
  forall e, foldl (fun last s => match last with Some e => if e + 1 =? s.1 then Some (s.1 + s.2) else last | None => None end)
    (Some last) ss = Some e -> forall a, start <= a <= e -> within (seen ++ ss) a.
Proof.
  induction ss as [|s ss IH]; intros seen last start Hc e; cbn [foldl].
  { intros [= <-] a Ha. rewrite app_nil_r. auto. }
  rewrite cons_middle, app_assoc. assert (forall a, within seen a -> within (seen ++ [s]) a) as Hmono.
  { intros a (x & Hx & ?). exists x. split; [set_solver|done]. }
  destruct (Z.eqb_spec (last + 1) s.1) as [Heq|Hne]; intros He.
  - apply (IH (seen ++ [s]) (s.1 + s.2) start); [|done]. intros a Ha.
    destruct (Z.le_gt_cases a last); [apply Hmono, Hc; lia|]. exists s. split; [set_solver|lia].
  - apply (IH (seen ++ [s]) last start); [|done]. intros a Ha. by apply Hmono, Hc.
Qed.

Lemma foldl_extend ss last : foldl extend_area (Some last) ss =
  foldl (fun last s => match last with Some e => if e + 1 =? s.1 then Some (s.1 + s.2) else last | None => None end) (Some last) ss.
Proof. revert last. induction ss as [|s ss IH]; intros last; [done|]. simpl. destruct (_ =? _); apply IH. Qed.

(** The area [compat_init_setproctitle] finds is made of the strings. *)
Lemma init_covered argv envp start n :
  compat_init_setproctitle argv envp = Some (start, n) ->
  forall a, start <= a < start + n -> within (argv ++ envp) a.
Proof.
  unfold compat_init_setproctitle. destruct argv as [|s argv]; [done|]. cbn [head mbind option_bind foldl extend_area].
  rewrite foldl_extend, <- foldl_app. destruct (foldl _ _ _) as [e|] eqn:Hf; [|done]. intros [= <- <-] a Ha.
  apply (area_covered (argv ++ envp) [s] (s.1 + s.2) s.1) with (e := e); [|done|lia].
  intros a' Ha'. exists s. split; [set_solver|done].
Qed.

(** What is shown is within [n] bytes. *)
Lemma show_title_spec area pt n : 0 < n <= Z.of_nat (length area) ->
  exists area', show_title area pt n = Some area' /\ length area' = length area /\
    drop (Z.to_nat n) area' = drop (Z.to_nat n) area.
Proof.
  intros Hn. unfold show_title. set (m := Z.to_nat n). set (copied := take (m - 1) pt ++ [0]).
  assert (length copied <= m)%nat as Hc by (subst copied; rewrite length_app, length_take; simpl; lia).
  replace ((length area <? length copied)%nat || (length area <? m)%nat) with false.
  2:{ symmetry. apply orb_false_iff. split; apply Nat.ltb_ge; lia. }
  set (area1 := copied ++ drop (length copied) area).
  assert (length area1 = length area) as Hl1 by (subst area1; rewrite length_app, length_drop; lia).
  eexists. split; [done|]. split.
  - rewrite !length_app, length_take, length_replicate, length_drop. lia.
  - rewrite app_assoc, drop_app_ge by (rewrite length_app, length_take, length_replicate; lia).
    rewrite length_app, length_take, length_replicate, drop_drop.
    subst area1. rewrite drop_app_ge by lia. rewrite drop_drop. f_equal. lia.
Qed.


Definition demo_argv : list (Z * Z) := [(100, 5); (106, 2); (109, 9)].
Definition demo_envp : list (Z * Z) := [(119, 20); (400, 3)].
