(* ===== verification/Log.v ===== *)
(** * Logging ([src/src/log.c])

    The settings of the log, the debug tokens of the command line and what
    every message becomes.  A message is the text [printf] makes of its format
    and arguments; allocations succeed.  The date and whether the standard
    error is a terminal are parameters. *)

From Stdlib Require Import Ascii String.
From S2P Require Import Prelude.
Open Scope list_scope.
Open Scope Z_scope.

(** ** Data *)

Inductive priority := LOG_EMERG | LOG_ALERT | LOG_CRIT | LOG_ERR | LOG_WARNING | LOG_NOTICE | LOG_INFO | LOG_DEBUG.

Inductive log_output :=
  | OpenLog (progname : string)
  | CloseLog
  | Handler (pri : priority) (msg : string)
  | Stderr (line : string)
  | Syslog (pri : priority) (msg : string).

(** The static variables; [lg_handler] is whether [logh] is set, [lg_tokens]
    the array [tokens], with [None] for [NULL]. *)
Record log_s := Log {
  lg_debug : bool;
  lg_level : Z;
  lg_opened : bool;
  lg_handler : bool;
  lg_tokens : list (option string);
  lg_out : list log_output
}.
#[export] Instance log_fields : Fields log_s := fun l =>
  Log (lg_debug l) (lg_level l) (lg_opened l) (lg_handler l) (lg_tokens l) (lg_out l).

Definition MAX_DBG_TOKENS : nat := 40.
Definition log_start : log_s := Log true 0 false false (replicate (S MAX_DBG_TOKENS) None) [].

Abbreviation L := (M log_s).

Definition log_emit (o : log_output) : L unit := modify (fun l => l <| lg_out := lg_out l ++ [o] |>).

(** ** Settings *)

Definition log_init (n_debug : bool) (n_level : Z) (progname : string) : L unit :=
  modify (fun l => l <| lg_debug := n_debug |> <| lg_level := n_level |>);;
  when (negb n_debug) (
    opened ← gets lg_opened;
    when (opened : bool) (log_emit CloseLog);;
    log_emit (OpenLog progname);;
    modify (fun l => l <| lg_opened := true |>)).

Definition log_register : L unit := modify (fun l => l <| lg_handler := true |>).

(** [tokens[i]] *)
Definition token_at (i : nat) : L (option string) :=
  l ← get; expect (BadAccess "tokens") (lg_tokens l !! i).
Definition set_token (i : nat) (t : option string) : L unit :=
  l ← get;
  if (length (lg_tokens l) <=? i)%nat then fail (BadAccess "tokens")
  else modify (fun l => l <| lg_tokens := <[i := t]> (lg_tokens l) |>).

(** The loop of [log_accept] from [i], [n] before the end. *)
Fixpoint accept_loop (n i : nat) (token : string) : L unit :=
  match n with
  | O => mret tt
  | S n =>
      t ← token_at i;
      match t with
      | None => set_token (S i) None;; set_token i (Some token)
      | Some _ => accept_loop n (S i) token
      end
  end.
Definition log_accept (token : string) : L unit := accept_loop MAX_DBG_TOKENS 0 token.

(** ** Messages *)
Section messages.
Context (date : string) (tty : bool).

Definition ESC : string := String (ascii_of_nat 27) EmptyString.

Definition translate (pri : priority) : string :=
  (if tty then ESC +:+
     match pri with
     | LOG_EMERG | LOG_ALERT | LOG_CRIT => "[1;37;41m"
     | LOG_ERR => "[1;31m"
     | LOG_WARNING => "[1;33m"
     | LOG_NOTICE | LOG_INFO => "[1;34m"
     | LOG_DEBUG => "[1;30m"
     end else "") +:+
  match pri with
  | LOG_EMERG => "[EMRG"
  | LOG_ALERT => "[ALRT"
  | LOG_CRIT => "[CRIT"
  | LOG_ERR => "[ ERR"
  | LOG_WARNING => "[WARN"
  | LOG_NOTICE => "[NOTI"
  | LOG_INFO => "[INFO"
  | LOG_DEBUG => "[ DBG"
  end.

Definition vlog (pri : priority) (token : option string) (msg : string) : L unit :=
  l ← get;
  if lg_handler l then log_emit (Handler pri msg)
  else if lg_debug l then
    log_emit (Stderr (date +:+ " " +:+ translate pri +:+
      match token with Some t => "/" +:+ t | None => "" end +:+ "]" +:+
      (if tty then ESC +:+ "[0m" else "") +:+ " " +:+ msg +:+ String (ascii_of_nat 10) EmptyString))
  else log_emit (Syslog pri msg).

(** [strerror] is the text of [errno]. *)
Definition log_warn (token : option string) (emsg strerror : string) : L unit :=
  vlog LOG_WARNING token (emsg +:+ ": " +:+ strerror).
Definition log_warnx (token : option string) (emsg : string) : L unit := vlog LOG_WARNING token emsg.
Definition log_crit (token : option string) (emsg : string) : L unit := vlog LOG_CRIT token emsg.

Definition log_info (token : option string) (emsg : string) : L unit :=
  l ← get; when ((1 <? lg_level l) || lg_handler l) (vlog LOG_INFO token emsg).

(** The loop of [log_debug_accept_token]. *)
Fixpoint accepted_loop (n i : nat) (token : string) : L bool :=
  match n with
  | O => mret false
  | S n =>
      t ← token_at i;
      match t with
      | None => mret false
      | Some t => if bool_decide (t = token) then mret true else accepted_loop n (S i) token
      end
  end.
Definition log_debug_accept_token (token : option string) : L bool :=
  first ← token_at 0;
  match token, first with
  | Some token, Some _ => accepted_loop MAX_DBG_TOKENS 0 token
  | _, _ => mret false
  end.

Definition log_debug (token : option string) (emsg : string) : L unit :=
  l ← get;
  accepted ← (if lg_level l =? 2 then log_debug_accept_token token else mret false);
  when ((accepted : bool) || lg_handler l || (2 <? lg_level l)) (vlog LOG_DEBUG token emsg).

(** [errno] and its text; the process ends. *)
Definition fatal {A} (token : option string) (emsg : string) (errno : Z) (strerror : string) : L A :=
  vlog LOG_CRIT (Some (default "fatal" token)) (if errno =? 0 then emsg else emsg +:+ ": " +:+ strerror);;
  fail (Fatal emsg).
End messages.

(** ** The debug tokens *)

(** The first tokens of the array are those accepted so far, the others [NULL]. *)
Definition holds_tokens (ts : list string) (l : log_s) : Prop :=
  (length ts <= MAX_DBG_TOKENS)%nat /\ lg_tokens l = (Some <$> ts) ++ replicate (S MAX_DBG_TOKENS - length ts) None.

Lemma accept_loop_spec token ts l : holds_tokens ts l -> forall n i, (i + n = MAX_DBG_TOKENS)%nat -> (i <= length ts)%nat ->
  accept_loop n i token l =
  Ok tt (if (length ts <? MAX_DBG_TOKENS)%nat
         then l <| lg_tokens := (Some <$> ts ++ [token]) ++ replicate (MAX_DBG_TOKENS - length ts) None |> else l).
Proof.
  intros [Hlen Hl] n. induction n as [|n IH]; intros i Hi Hits.
  { replace (length ts <? MAX_DBG_TOKENS)%nat with false; [done|]. symmetry. apply Nat.ltb_ge. lia. }
  cbn [accept_loop]. unfold token_at, get, mbind, M_bind. rewrite Hl.
  destruct (decide (i = length ts)) as [->|Hne].
  - rewrite lookup_app_r, lookup_replicate_2 by (rewrite length_fmap; lia). cbn [expect mret M_ret].
    replace (length ts <? MAX_DBG_TOKENS)%nat with true by (symmetry; apply Nat.ltb_lt; lia).
    unfold set_token, get, mbind, M_bind, modify. rewrite Hl.
    replace (length _ <=? S (length ts))%nat with false.
    2:{ symmetry. apply Nat.leb_gt. rewrite length_app, length_fmap, length_replicate. lia. }
    cbn -[insert replicate]. rewrite length_insert, Hl.
    replace (length _ <=? length ts)%nat with false.
    2:{ symmetry. apply Nat.leb_gt. rewrite length_app, length_fmap, length_replicate. lia. }
    do 2 f_equal. cbn [lg_tokens]. rewrite !insert_app_r_alt by (rewrite length_fmap; lia). rewrite length_fmap.
    replace (S (length ts) - length ts)%nat with 1%nat by lia. rewrite Nat.sub_diag, insert_replicate.
    change 40%nat with MAX_DBG_TOKENS. rewrite Nat.sub_succ_l by done. by rewrite fmap_app, <- app_assoc.
  - rewrite lookup_app_l by (rewrite length_fmap; lia). rewrite list_lookup_fmap.
    destruct (lookup_lt_is_Some_2 ts i ltac:(lia)) as [t ->]. cbn [fmap option_fmap option_map expect mret M_ret].
    apply IH; lia.
Qed.

Lemma log_accept_spec token ts l : holds_tokens ts l ->
  exists l', log_accept token l = Ok tt l' /\ holds_tokens (take MAX_DBG_TOKENS (ts ++ [token])) l' /\
    lg_level l' = lg_level l /\ lg_handler l' = lg_handler l.
Proof.
  intros Hh. unfold log_accept. rewrite (accept_loop_spec token ts l Hh) by (simpl; lia). eexists. split; [done|].
  destruct Hh as [Hlen Hl]. destruct (Nat.ltb_spec (length ts) MAX_DBG_TOKENS) as [Hlt|Hge].
  - split; [|done]. rewrite take_ge by (rewrite length_app; simpl; lia).
    split; [rewrite length_app; simpl; lia|]. cbn -[MAX_DBG_TOKENS replicate]. rewrite length_app. do 2 f_equal. simpl. lia.
  - split; [|done]. rewrite take_app_le, take_ge by lia. by split.
Qed.

Lemma accepted_loop_spec token ts l : holds_tokens ts l -> forall n i, (i + n = MAX_DBG_TOKENS)%nat -> (i <= length ts)%nat ->
  accepted_loop n i token l = Ok (bool_decide (token ∈ drop i ts)) l.
Proof.
  intros [Hlen Hl] n. induction n as [|n IH]; intros i Hi Hits.
  { rewrite drop_ge by lia. by rewrite bool_decide_false by set_solver. }
  cbn [accepted_loop]. unfold token_at, get, mbind, M_bind. rewrite Hl.
  destruct (decide (i = length ts)) as [->|Hne].
  - rewrite lookup_app_r, lookup_replicate_2 by (rewrite length_fmap; lia). cbn [expect mret M_ret].
    rewrite drop_ge by lia. by rewrite bool_decide_false by set_solver.
  - rewrite lookup_app_l by (rewrite length_fmap; lia). rewrite list_lookup_fmap.
    destruct (lookup_lt_is_Some_2 ts i ltac:(lia)) as [t Ht]. rewrite Ht, (drop_S _ _ _ Ht). cbn [fmap option_fmap option_map expect mret M_ret].
    case_bool_decide as Heq; [subst; rewrite bool_decide_true by set_solver; done|].
    rewrite IH by lia. f_equal. apply bool_decide_ext. set_solver.
Qed.

(** A debug message appears exactly when the level asks for all of them, or
    is 2 and its token is among the first forty given with [-D]. *)
Lemma debug_shown date tty ts l token msg :
  holds_tokens ts l -> lg_handler l = false ->
  log_debug date tty (Some token) msg l =
  if (2 <? lg_level l) || ((lg_level l =? 2) && bool_decide (token ∈ ts)) then vlog date tty LOG_DEBUG (Some token) msg l else Ok tt l.
Proof.
  intros Hh Hn. pose proof Hh as [Hlen Hl]. unfold log_debug, get, mbind, M_bind. rewrite Hn.
  destruct (Z.eqb_spec (lg_level l) 2) as [Heq|Hne].
  - assert (log_debug_accept_token (Some token) l = Ok (bool_decide (token ∈ ts)) l) as ->.
    { unfold log_debug_accept_token, token_at, get, mbind, M_bind. rewrite Hl. destruct ts as [|t ts].
      - by rewrite bool_decide_false by set_solver.
      - cbn -[accepted_loop]. rewrite (accepted_loop_spec token (t :: ts)) by (done || simpl; lia). done. }
    rewrite Heq. cbn. by destruct (bool_decide (token ∈ ts)).
  - cbn. by destruct (2 <? lg_level l).
Qed.
