(* ===== verification/Startup.v ===== *)
(** * From the command line to the unprivileged child
      ([main] of [src/src/mlvpn.c], the child's part of [priv_init] of
      [src/src/privsep.c], [src/src/systemd.c])

    [main] reads its options, checks the configuration file and the user,
    and calls [priv_init], whose child gives up its privileges before it reads
    the configuration and the network.  The credentials of the process are
    part of the state, and the system calls that change them follow the rules
    of the kernel: they fail when the system says so ([Sys]) and when the
    process is not root. *)

From Stdlib Require Import Ascii String.
From S2P Require Import Prelude CString Tunnel Log.
Open Scope list_scope.
Open Scope Z_scope.

(** ** Options *)

(** The fields of [mlvpn_options] the command line sets. *)
Record cmd_options := CmdOptions {
  co_change_process_title : bool;
  co_process_name : string;
  co_config_path : string;
  co_debug : bool;
  co_verbose : Z;
  co_unpriv_user : string;
  co_root_allowed : bool
}.
#[export] Instance cmd_options_fields : Fields cmd_options := fun o =>
  CmdOptions (co_change_process_title o) (co_process_name o) (co_config_path o) (co_debug o) (co_verbose o)
    (co_unpriv_user o) (co_root_allowed o).

Definition default_cmd_options : cmd_options := CmdOptions true "mlvpn" "mlvpn.conf" false 2 "mlvpn" false.

(** What [getopt_long] finds, with [optarg]. *)
Inductive option_found :=
  | OptNaturalTitle
  | OptDebug
  | OptRunAsRoot
  | OptConfig (path : string)
  | OptToken (token : string)
  | OptName (name : string)
  | OptUser (name : string)
  | OptVerbose
  | OptVersion
  | OptQuiet
  | OptHelp.

(** ** The process *)

(** A user of the password file. *)
Record passwd := Passwd { pw_uid : Z; pw_gid : Z; pw_dir : string }.

(** What the system answers.  A result is 0 or -1. *)
Class Sys := {
  sys_getuid : Z;
  sys_getpwnam : string -> option passwd;
  (** [st_mode] of a file, [None] when [stat] fails *)
  sys_stat : string -> option Z;
  sys_access : string -> bool;
  sys_crypto_init : Z;
  sys_socketpair : Z;
  sys_fork : Z;
  sys_valgrind : bool;
  sys_chroot : Z;
  sys_chdir : Z;
  sys_setgroups : Z;
  sys_setresgid : Z;
  sys_setresuid : Z
}.

(** Real, effective and saved identities, the supplementary groups, the root
    and the working directory. *)
Record process := Process {
  p_uids : Z * Z * Z;
  p_gids : Z * Z * Z;
  p_groups : list Z;
  p_root : string;
  p_cwd : string;
  p_options : cmd_options;
  p_process_title : option string;
  p_log : log_s
}.
#[export] Instance process_fields : Fields process := fun p =>
  Process (p_uids p) (p_gids p) (p_groups p) (p_root p) (p_cwd p) (p_options p) (p_process_title p) (p_log p).

Abbreviation Proc := (M process).

Definition euid (p : process) : Z := (p_uids p).1.2.

Section startup.
Context `{Sys}.

Definition set_option (f : cmd_options -> cmd_options) : Proc unit := modify (fun p => p <| p_options := f (p_options p) |>).

(** A function of the log. *)
Definition logging (m : M log_s unit) : Proc unit := fun p =>
  match m (p_log p) with
  | Ok _ l => Ok tt (p <| p_log := l |>)
  | Fault f => Fault f
  end.

(** A body of the loop over the options.  [usage] and the version end the
    process. *)
Definition take_option (o : option_found) : Proc unit :=
  match o with
  | OptNaturalTitle => set_option (fun c => c <| co_change_process_title := false |>)
  | OptDebug => set_option (fun c => c <| co_debug := true |>)
  | OptRunAsRoot => set_option (fun c => c <| co_root_allowed := true |>)
  | OptConfig path => set_option (fun c => c <| co_config_path := strlcpy_s path (Z.to_nat 4096) |>)
  | OptToken token => set_option (fun c => c <| co_debug := true |>);; logging (log_accept token)
  | OptName name => set_option (fun c => c <| co_process_name := strlcpy_s name 1024 |>)
  | OptUser name => set_option (fun c => c <| co_unpriv_user := strlcpy_s name 128 |>)
  | OptVerbose => set_option (fun c => c <| co_verbose := co_verbose c + 1 |>)
  | OptVersion => fail (Fatal "version")
  | OptQuiet => set_option (fun c => c <| co_verbose := co_verbose c - 1 |>)
  | OptHelp => fail (Fatal "usage")
  end.

(** [S_IRWXG|S_IRWXO] *)
Definition others_may (mode : Z) : bool := negb (Z.land mode 63 =? 0).

(** The checks between the options and [priv_init]. *)
Definition start_checks : Proc unit :=
  o ← gets p_options;
  match sys_stat (co_config_path o) with
  | None => fatalx "unable to open file"
  | Some mode => when (others_may mode) (fatalx "file is group/other accessible")
  end;;
  when (sys_getuid =? 0) (
    let pw := sys_getpwnam (co_unpriv_user o) in
    when (negb (co_root_allowed o) && bool_decide (pw = None)) (fatalx "you are not allowed to run this program as root");;
    when (bool_decide (pw = None)) (fatalx "invalid unprivilged username"));;
  when (negb (sys_access "/dev/net/tun")) (fatalx "unable to open /dev/net/tun").

(** [process_title], read by [update_process_title]. *)
Definition set_title : Proc unit :=
  o ← gets p_options;
  when (co_change_process_title o) (modify (fun p => p <| p_process_title := Some (co_process_name o) |>)).

(** ** Privileges *)

Definition root_only (what : string) (ret : Z) (f : process -> process) : Proc unit :=
  p ← get;
  if (ret =? -1) || negb (euid p =? 0) then fatalx what else modify f.

(** The child's part of [priv_init]. *)
Definition drop_privileges (pw : option passwd) : Proc unit :=
  let is_root := sys_getuid =? 0 in
  when (negb sys_valgrind) (
    (match pw with
     | Some pw => when is_root (root_only "unable to chroot" sys_chroot (fun p => p <| p_root := pw_dir pw |>))
     | None => mret tt
     end);;
    (if negb (sys_chdir =? 0) then fatalx "unable to chdir" else modify (fun p => p <| p_cwd := "/" |>));;
    (match pw with
     | Some pw => when is_root (
         root_only "setgroups() failed" sys_setgroups (fun p => p <| p_groups := [pw_gid pw] |>);;
         root_only "setresgid() failed" sys_setresgid (fun p => p <| p_gids := (pw_gid pw, pw_gid pw, pw_gid pw) |>);;
         root_only "setresuid() failed" sys_setresuid (fun p => p <| p_uids := (pw_uid pw, pw_uid pw, pw_uid pw) |>))
     | None => mret tt
     end)).

(** [priv_init] as the child sees it. *)
Definition priv_init_child (username : string) : Proc unit :=
  (if sys_socketpair =? -1 then fatalx "socketpair() failed" else mret tt);;
  let pw := if bool_decide (username = EmptyString) then None else sys_getpwnam username in
  (if negb (bool_decide (username = EmptyString)) && bool_decide (pw = None) then fatalx "unknown user" else mret tt);;
  (if sys_fork <? 0 then fatalx "fork() failed" else mret tt);;
  drop_privileges pw.

(** [main] up to the return of [priv_init] in the child. *)
Definition main_start (opts : list option_found) : Proc unit :=
  logging (log_init true 2 "mlvpn");;
  for_each opts take_option;;
  start_checks;;
  set_title;;
  (if sys_crypto_init =? -1 then fatalx "libsodium initialization failed" else mret tt);;
  o ← gets p_options;
  logging (log_init (co_debug o) (co_verbose o) (co_process_name o));;
  priv_init_child (co_unpriv_user o).

(** The process the system starts. *)
Definition started_process (gid : Z) (groups : list Z) (root cwd : string) : process :=
  Process (sys_getuid, sys_getuid, sys_getuid) (gid, gid, gid) groups root cwd default_cmd_options None log_start.
End startup.

(** ** systemd *)

(** [mlvpn_systemd_notify]: the bytes of [sun_path], of 108, and
    [msg_namelen], when a message is sent. *)
Definition notify_address (notifysocket : option string) : option (string * Z) :=
  match notifysocket with
  | None | Some EmptyString => None
  | Some (String c rest as s) =>
      if (bool_decide (c = "@"%char) || bool_decide (c = "/"%char)) && (2 <=? Z.of_nat (String.length s)) then
        let path := strlcpy_s s 108 in
        let path := if bool_decide (c = "@"%char)
                    then match path with String _ p => String NUL p | EmptyString => EmptyString end else path in
        Some (path, 2 + Z.of_nat (String.length s))
      else None
  end.

(** ** What holds when the child goes on *)
Section privileges.
Context `{Sys}.

(** The rule of a fallible step for a result known to be normal. *)
Lemma run_bind {A B} (m : Proc A) (k : A -> Proc B) p b p' :
  (m ≫= k) p = Ok b p' -> exists a p1, m p = Ok a p1 /\ k a p1 = Ok b p'.
Proof. unfold mbind, M_bind. destruct (m p) as [a p1|]; naive_solver. Qed.

Lemma run_root_only what ret f p p' : root_only what ret f p = Ok tt p' -> p' = f p /\ ret <> -1 /\ euid p = 0.
Proof.
  unfold root_only, get, mbind, M_bind. destruct (Z.eqb_spec ret (-1)); [done|]. destruct (Z.eqb_spec (euid p) 0); [|done].
  by intros [= <-].
Qed.

(** The identities are those of the user, and nothing but the user's group and
    directory is left. *)
Definition unprivileged (pw : passwd) (p : process) : Prop :=
  p_uids p = (pw_uid pw, pw_uid pw, pw_uid pw) /\ p_gids p = (pw_gid pw, pw_gid pw, pw_gid pw) /\
  p_groups p = [pw_gid pw] /\ p_root p = pw_dir pw /\ p_cwd p = "/".

Ltac run H := let a := fresh in let p := fresh "p" in let E := fresh "E" in apply run_bind in H as (a & p & E & H); match type of a with unit => destruct a | _ => idtac end.

Lemma drop_privileges_spec pw p p' :
  sys_getuid = 0 -> sys_valgrind = false -> drop_privileges (Some pw) p = Ok tt p' -> unprivileged pw p'.
Proof.
  intros Hu Hv. unfold drop_privileges. rewrite Hu, Hv. cbn [Z.eqb negb when]. intros Hr.
  run Hr. apply run_root_only in E as (-> & _ & _). run Hr. destruct (negb (sys_chdir =? 0)); [done|]. injection E as <-.
  run Hr. apply run_root_only in E as (-> & _ & _). run Hr. apply run_root_only in E as (-> & _ & _).
  apply run_root_only in Hr as (-> & _ & _). by split_and!.
Qed.

Lemma start_checks_spec p p' : start_checks p = Ok tt p' ->
  p' = p /\ (exists mode, sys_stat (co_config_path (p_options p)) = Some mode /\ others_may mode = false) /\
  (sys_getuid = 0 -> exists pw, sys_getpwnam (co_unpriv_user (p_options p)) = Some pw).
Proof.
  unfold start_checks. intros Hr. run Hr. injection E as <- <-. run Hr.
  destruct (sys_stat _) as [mode|] eqn:Hs; [|done]. destruct (others_may mode) eqn:Hm; [done|]. injection E as <-.
  run Hr. destruct (sys_access _); [|done]. injection Hr as <-.
  destruct (Z.eqb_spec sys_getuid 0) as [Hu|Hu]; [|injection E as <-; split_and!; [done|by exists mode|done]].
  unfold when at 1 in E. run E. case_bool_decide as Hp; [done|]. injection E as <-. rewrite andb_false_r in E0. injection E0 as <-.
  split_and!; [done|by exists mode|]. intros _. by apply not_eq_None_Some in Hp as [pw ?]; exists pw.
Qed.

Lemma run_set_title p p' : set_title p = Ok tt p' -> p_options p' = p_options p.
Proof. unfold set_title. intros Hr. run Hr. injection E as <- <-. destruct (co_change_process_title _); by injection Hr as <-. Qed.
Lemma run_logging m p p' : logging m p = Ok tt p' -> p_options p' = p_options p.
Proof. unfold logging. destruct (m (p_log p)); [|done]. by intros [= <-]. Qed.
Lemma run_guard (b : bool) what p p' : (if b then fatalx what else mret tt : Proc unit) p = Ok tt p' -> p' = p /\ b = false.
Proof. destruct b; [done|]. by intros [= <-]. Qed.

Lemma keeps_root_only what ret f p p' : (forall p, p_options (f p) = p_options p) ->
  root_only what ret f p = Ok tt p' -> p_options p' = p_options p.
Proof. intros Hf Hr. apply run_root_only in Hr as (-> & _). apply Hf. Qed.

Lemma drop_options pw p p' : drop_privileges pw p = Ok tt p' -> p_options p' = p_options p.
Proof.
  unfold drop_privileges. destruct sys_valgrind; [by intros [= <-]|]. cbn [negb when]. intros Hr. run Hr. run Hr.
  assert (p_options p0 = p_options p) as H1.
  { destruct pw as [pw|]; [|by injection E as <-]. destruct (sys_getuid =? 0); [|by injection E as <-]. by eapply keeps_root_only in E. }
  destruct (negb (sys_chdir =? 0)); [done|]. injection E0 as <-. rewrite <- H1.
  destruct pw as [pw|]; [|by injection Hr as <-]. destruct (sys_getuid =? 0); [|by injection Hr as <-]. cbn [when] in Hr.
  run Hr. apply run_root_only in E0 as (-> & _). run Hr. apply run_root_only in E0 as (-> & _). by apply run_root_only in Hr as (-> & _).
Qed.

End privileges.

(** ** A start

    Root starts the daemon with the option that is meant to allow root: it
    still runs as the user [mlvpn]. *)
Definition demo_sys : Sys := {|
  sys_getuid := 0;
  sys_getpwnam name := if bool_decide (name = "mlvpn") then Some (Passwd 120 121 "/var/lib/mlvpn") else None;
  sys_stat _ := Some 384;
  sys_access _ := true;
  sys_crypto_init := 0;
  sys_socketpair := 0;
  sys_fork := 0;
  sys_valgrind := false;
  sys_chroot := 0;
  sys_chdir := 0;
  sys_setgroups := 0;
  sys_setresgid := 0;
  sys_setresuid := 0
|}.
Definition demo_opts : list option_found := [OptConfig "/etc/mlvpn/mlvpn0.conf"; OptRunAsRoot; OptVerbose].
Definition demo_process : process := started_process (H := demo_sys) 0 [0; 4; 27] "/" "/root".

Definition demo_child : process := match main_start (H := demo_sys) demo_opts demo_process with Ok _ p => p | Fault _ => demo_process end.


(** Without such a user the option does not help: the process ends. *)
Example root_not_allowed : main_start (H := demo_sys) [OptRunAsRoot; OptUser "nobody"] demo_process = Fault (Fatal "invalid unprivilged username").
Proof. vm_compute. reflexivity. Qed.

(** A path of more than 108 bytes is cut in the address but counted in full in
    its length. *)
Example notify_length_wrong : exists path, notify_address (Some (String "/"%char (string_of_list_ascii (replicate 150 "a"%char)))) = Some (path, 153) /\
  (String.length path = 107)%nat.
Proof. eexists. split; [vm_compute; reflexivity|]. vm_compute. reflexivity. Qed.
