(* ===== verification/Descriptors.v ===== *)
(** * Descriptors and signals
      ([src/src/privsep_fdpass.c], [src/src/closefrom.c], the set-up of the
      parent and of its scripts in [src/src/privsep.c])

    A process has a table of descriptors, which name open files, and a
    disposition for every signal.  The parent keeps nothing of its terminal
    but the standard error, passes the termination signals on to its child,
    and hands descriptors to it over their socket; a script it runs inherits
    three descriptors and no disposition. *)

From stdpp Require Import pretty.
From Stdlib Require Import Ascii String.
From S2P Require Import Prelude CString.
Open Scope list_scope.
Open Scope Z_scope.

(** An open file, by a number; the table of a process. *)
Abbreviation fdtable := (gmap Z nat).

(** ** Passing a descriptor *)

Definition SCM_RIGHTS : Z := 1.

(** The message: the [int] of the data and, when there is one, the control
    message with its type and descriptor. *)
Record msg := Msg { m_result : Z; m_control : option (Z * Z) }.

(** [send_fd]; [errno] is the one the failed [open] left. *)
Definition send_fd (errno fd : Z) : msg :=
  if 0 <=? fd then Msg 0 (Some (SCM_RIGHTS, fd)) else Msg errno None.

(** What [recvmsg] gives: an error leaves the structure as it was set up. *)
Inductive received := RecvError | RecvEof | RecvMsg (m : msg).

(** [receive_fd]: the descriptor and [errno].  [result] and the control buffer
    are not initialised: [stale] and [stale_fd] are what they hold before. *)
Definition receive_fd (r : received) (stale stale_fd errno : Z) : Z * Z :=
  let result := match r with RecvMsg m => m_result m | _ => stale end in
  let control := match r with
                 | RecvError => Some stale_fd
                 | RecvEof => None
                 | RecvMsg m => snd <$> m_control m
                 end in
  if result =? 0 then
    match control with
    | None => (-1, errno)
    | Some fd => (fd, errno)
    end
  else (-1, result).

(** The kernel: a descriptor in a message becomes a free one of the receiver,
    for the same file; one that is not open makes [sendmsg] fail. *)
Section passing.
Variable pick : gset Z -> Z.

Definition transmit (sender receiver : fdtable) (m : msg) : option (msg * fdtable) :=
  match m_control m with
  | None => Some (m, receiver)
  | Some (type, fd) =>
      f ← sender !! fd;
      let fd' := pick (dom receiver) in
      Some (Msg (m_result m) (Some (type, fd')), <[fd' := f]> receiver)
  end.

Hypothesis pick_free : forall X, pick X ∉ X.
Hypothesis pick_pos : forall X, 0 <= pick X.

Lemma pass_open sender receiver fd f errno stale stale_fd errno' :
  0 <= fd -> sender !! fd = Some f ->
  exists m receiver' fd', transmit sender receiver (send_fd errno fd) = Some (m, receiver') /\
    receive_fd (RecvMsg m) stale stale_fd errno' = (fd', errno') /\ 0 <= fd' /\
    receiver !! fd' = None /\ receiver' = <[fd' := f]> receiver.
Proof.
  intros Hfd Hf. unfold send_fd, transmit. rewrite (proj2 (Z.leb_le _ _)) by done. cbn [m_control]. rewrite Hf.
  eexists _, _, (pick (dom receiver)). split; [reflexivity|]. split_and!; [done|apply pick_pos| |done].
  apply not_elem_of_dom, pick_free.
Qed.

Lemma pass_failed sender receiver fd errno stale stale_fd errno' :
  fd < 0 -> errno <> 0 ->
  transmit sender receiver (send_fd errno fd) = Some (send_fd errno fd, receiver) /\
  receive_fd (RecvMsg (send_fd errno fd)) stale stale_fd errno' = (-1, errno).
Proof.
  intros Hfd He. unfold send_fd. rewrite (proj2 (Z.leb_gt _ _)) by done. split; [done|].
  unfold receive_fd. cbn [m_result]. by rewrite (proj2 (Z.eqb_neq _ _)).
Qed.

End passing.

(** The first free descriptor above those in use. *)
Definition pick_above (X : gset Z) : Z := 1 + set_fold Z.max 0 X.

Lemma fold_max_ge (X : gset Z) : forall x, x ∈ X -> x <= set_fold Z.max 0 X.
Proof.
  apply (set_fold_ind_L (fun r X => forall x, x ∈ X -> x <= r)); [set_solver|].
  intros x Y r Hx IH y [->%elem_of_singleton|Hy]%elem_of_union; [lia|]. specialize (IH y Hy). lia.
Qed.
Lemma fold_max_pos (X : gset Z) : 0 <= set_fold Z.max 0 X.
Proof. apply (set_fold_ind_L (fun r _ => 0 <= r)); [done|]. lia. Qed.


(** When [recvmsg] fails, what the variables held decides the result. *)
Lemma receive_stale stale_fd errno : receive_fd RecvError 0 stale_fd errno = (stale_fd, errno).
Proof. done. Qed.

(** ** [closefrom] *)

Definition OPEN_MAX : Z := 256.
Definition INT_MAX : Z := 2 ^ 31 - 1.

(** The digits at the head of a string, after the value [acc], and the rest. *)
Fixpoint digits_end (s : string) (acc : Z) : Z * string :=
  match s with
  | EmptyString => (acc, EmptyString)
  | String c s' => match digit_val c with
                   | Some v => digits_end s' (acc * 10 + v)
                   | None => (acc, s)
                   end
  end.

(** [strtol(name, &endp, 10)] when the whole name is a number that starts with
    a digit; [None] when [endp] is not at the end.  The entries of
    [/proc/$$/fd] have no sign and no space. *)
Definition whole_number (name : string) : option Z :=
  match name with
  | EmptyString => None
  | _ => match digits_end name 0 with (v, EmptyString) => Some v | _ => None end
  end.

(** The descriptor an entry of the directory makes the loop close; [dirfd] is
    the descriptor of the directory itself. *)
Definition entry_closes (lowfd dirfd : Z) (name : string) : option Z :=
  match whole_number name with
  | Some fd => if (0 <=? fd) && (fd <? INT_MAX) && (lowfd <=? fd) && negb (fd =? dirfd) then Some fd else None
  | None => None
  end.

(** The loop over the directory. *)
Fixpoint close_entries (lowfd dirfd : Z) (names : list string) (fds : fdtable) : fdtable :=
  match names with
  | [] => fds
  | name :: names =>
      close_entries lowfd dirfd names
        (match entry_closes lowfd dirfd name with Some fd => delete fd fds | None => fds end)
  end.

(** [for (fd = lowfd; fd < maxfd; fd++) close(fd)], for [n] rounds. *)
Fixpoint close_range (n : nat) (fd : Z) (fds : fdtable) : fdtable :=
  match n with
  | O => fds
  | S n => close_range n (fd + 1) (delete fd fds)
  end.

(** [dir]: what [opendir] gives, its descriptor and the names it lists;
    [open_max]: what [sysconf] gives. *)
Definition closefrom (lowfd : Z) (dir : option (Z * list string)) (open_max : Z) (fds : fdtable) : fdtable :=
  match dir with
  | Some (dirfd, names) => delete dirfd (close_entries lowfd dirfd names fds)
  | None =>
      let maxfd := if open_max <? 0 then OPEN_MAX else open_max in
      close_range (Z.to_nat (maxfd - lowfd)) lowfd fds
  end.

(** *** Numbers and their names *)

Lemma digit_char d : 0 <= d < 10 -> digit_val (pretty_N_char (Z.to_N d)) = Some d.
Proof.
  intros Hd. assert (d ∈ seqZ 0 10) as Hin by (apply elem_of_seqZ; lia).
  revert d Hd Hin. intros d _ Hin. revert d Hin. apply Forall_forall. vm_compute. repeat constructor.
Qed.

Lemma digits_pretty : forall (x : N) s, digits_end (pretty_N_go x s) 0 = digits_end s (Z.of_N x).
Proof.
  intros x. induction (N.lt_wf_0 x) as [x _ IH]. intros s. destruct (decide (x = 0%N)) as [->|Hx].
  - by rewrite pretty_N_go_0.
  - rewrite pretty_N_go_step by lia. rewrite IH by (apply N.div_lt; lia). cbn [digits_end].
    assert (digit_val (pretty_N_char (x mod 10)) = Some (Z.of_N (x mod 10))) as ->.
    { pose proof (digit_char (Z.of_N (x mod 10))) as Hc. rewrite N2Z.id in Hc. apply Hc.
      assert (x mod 10 < 10)%N by (by apply N.mod_lt). split; [apply N2Z.is_nonneg|lia]. }
    f_equal. pose proof (N.div_mod x 10 ltac:(done)). lia.
Qed.

Lemma pretty_N_nonempty (x : N) : pretty x <> EmptyString.
Proof.
  unfold pretty, pretty_N. case_decide as Hx; [done|]. rewrite pretty_N_go_step by lia.
  assert (forall y s, s <> EmptyString -> pretty_N_go y s <> EmptyString) as Hgo; [|by apply Hgo].
  intros y. induction (N.lt_wf_0 y) as [y _ IH]. intros s Hs. destruct (decide (y = 0%N)) as [->|Hy].
  - by rewrite pretty_N_go_0.
  - rewrite pretty_N_go_step by lia. apply IH; [apply N.div_lt; lia|done].
Qed.

(** The name [/proc] has for a descriptor is read back. *)
Lemma whole_number_pretty (fd : Z) : 0 <= fd -> whole_number (pretty fd) = Some fd.
Proof.
  intros Hfd. assert (pretty fd = pretty (Z.to_N fd)) as -> by (destruct fd; [done|done|lia]).
  assert (digits_end (pretty (Z.to_N fd)) 0 = (fd, EmptyString)) as Hd.
  { unfold pretty, pretty_N. case_decide as Hx; [|rewrite digits_pretty; simpl; by rewrite Z2N.id].
    assert (fd = 0) as -> by lia. done. }
  pose proof (pretty_N_nonempty (Z.to_N fd)) as Hne. unfold whole_number. rewrite Hd. by destruct (pretty (Z.to_N fd)).
Qed.

(** *** What is left *)

Lemma close_entries_lookup lowfd dirfd names : forall fds fd,
  close_entries lowfd dirfd names fds !! fd =
  if decide (Some fd ∈ entry_closes lowfd dirfd <$> names) then None else fds !! fd.
Proof.
  induction names as [|name names IH]; intros fds fd; cbn [close_entries]; [done|].
  rewrite IH, fmap_cons. destruct (decide (Some fd ∈ entry_closes lowfd dirfd <$> names)) as [Hin|Hin].
  - by rewrite decide_True by (apply elem_of_cons; by right).
  - destruct (decide (entry_closes lowfd dirfd name = Some fd)) as [Hc|Hc].
    + by rewrite decide_True, Hc, lookup_delete_eq by (apply elem_of_cons; by left).
    + rewrite decide_False by (intros [?|?]%elem_of_cons; done).
      destruct (entry_closes lowfd dirfd name) as [v|]; [|done]. by rewrite lookup_delete_ne by congruence.
Qed.

Lemma close_range_lookup n : forall lo fds fd,
  close_range n lo fds !! fd = if (lo <=? fd) && (fd <? lo + Z.of_nat n) then None else fds !! fd.
Proof.
  induction n as [|n IH]; intros lo fds fd; cbn [close_range].
  - destruct (Z.leb_spec lo fd), (Z.ltb_spec fd (lo + Z.of_nat 0)); done || lia.
  - rewrite IH. destruct (decide (lo = fd)) as [->|Hne].
    + rewrite lookup_delete_eq. destruct (_ && _); [|]; destruct (Z.leb_spec fd fd), (Z.ltb_spec fd (fd + Z.of_nat (S n))); done || lia.
    + rewrite lookup_delete_ne by done.
      destruct (Z.leb_spec (lo + 1) fd), (Z.ltb_spec fd (lo + 1 + Z.of_nat n)), (Z.leb_spec lo fd),
        (Z.ltb_spec fd (lo + Z.of_nat (S n))); done || lia.
Qed.

(** The descriptors below [lowfd]. *)
Definition below (lowfd : Z) (fds : fdtable) : fdtable := filter (fun p => p.1 < lowfd) fds.

(** The directory lists the descriptors that are open. *)
Definition lists (names : list string) (fds : fdtable) : Prop :=
  forall fd, is_Some (fds !! fd) -> 0 <= fd < INT_MAX /\ pretty fd ∈ names.

Lemma entry_closes_ge lowfd dirfd name fd : entry_closes lowfd dirfd name = Some fd -> lowfd <= fd.
Proof.
  unfold entry_closes. destruct (whole_number name) as [v|]; [|done]. destruct (_ && _) eqn:E; [|done]. intros [= <-].
  rewrite !andb_true_iff in E. destruct E as [[_ E%Z.leb_le] _]. done.
Qed.

(** C28: [closefrom] leaves exactly the descriptors below its argument, when the
    directory of [/proc] lists those that are open, with any other entries; and
    also without [/proc] when none is above the limit [sysconf] gives. *)
Theorem closefrom_exact lowfd dir open_max fds :
  match dir with
  | Some (dirfd, names) => fds !! dirfd = None /\ lists names fds
  | None => forall fd, is_Some (fds !! fd) -> fd < if open_max <? 0 then OPEN_MAX else open_max
  end ->
  closefrom lowfd dir open_max fds = below lowfd fds.
Proof.
  intros Hd. apply map_eq. intros fd. unfold below. rewrite map_lookup_filter.
  destruct dir as [[dirfd names]|]; cbn [closefrom].
  - destruct Hd as [Hdir Hl]. destruct (decide (fd = dirfd)) as [->|Hne]; [by rewrite lookup_delete_eq, Hdir|].
    rewrite lookup_delete_ne, close_entries_lookup by done. destruct (fds !! fd) as [f|] eqn:Hf; [|by case_decide].
    destruct (Hl fd) as [Hr Hin]; [by eexists|]. cbn [mbind option_bind]. case_decide as Hc.
    + apply list_elem_of_fmap in Hc as (name & He & _). symmetry in He. apply entry_closes_ge in He.
      rewrite option_guard_False by (simpl; lia). done.
    + rewrite option_guard_True; [done|]. simpl. apply Z.nle_gt. intros Hge. apply Hc. apply list_elem_of_fmap.
      exists (pretty fd). split; [|done]. unfold entry_closes. rewrite whole_number_pretty by lia.
      rewrite (proj2 (Z.leb_le 0 fd)), (proj2 (Z.ltb_lt fd _)), (proj2 (Z.leb_le lowfd fd)), (proj2 (Z.eqb_neq _ _)) by lia. done.
  - rewrite close_range_lookup. destruct (fds !! fd) as [f|] eqn:Hf; [|by destruct (_ && _)].
    assert (fd < if open_max <? 0 then OPEN_MAX else open_max) as Hm by (apply Hd; by eexists).
    cbn [mbind option_bind]. destruct (Z.leb_spec lowfd fd) as [Hle|Hlt]; cbn [andb].
    + rewrite (proj2 (Z.ltb_lt _ _)) by lia. by rewrite option_guard_False by (simpl; lia).
    + by rewrite option_guard_True.
Qed.

Lemma closefrom_exact_witness :
  let fds : fdtable := {[ 0 := 1%nat; 1 := 1%nat; 2 := 2%nat; 5 := 3%nat; 17 := 4%nat ]} in
  closefrom 3 (Some (18, ["."; ".."; "0"; "1"; "2"; "5"; "17"; "18"]%string)) 1024 fds = below 3 fds.
Proof.
  intros fds. apply (closefrom_exact 3 (Some (18, ["."; ".."; "0"; "1"; "2"; "5"; "17"; "18"]%string)) 1024 fds).
  split; [reflexivity|]. intros fd Hfd. apply elem_of_dom in Hfd.
  assert (set_Forall (fun fd => 0 <= fd < INT_MAX /\ pretty fd ∈ ["."; ".."; "0"; "1"; "2"; "5"; "17"; "18"]%string) (dom fds)) as Hall
    by (apply (bool_decide_unpack _); vm_compute; reflexivity).
  exact (Hall fd Hfd).
Defined.

(** ** Signals and the standard descriptors *)

Definition NSIG : Z := 65.
Definition SIGHUP : Z := 1.
Definition SIGINT : Z := 2.
Definition SIGQUIT : Z := 3.
Definition SIGPIPE : Z := 13.
Definition SIGTERM : Z := 15.
Definition SIGCHLD : Z := 17.

(** What a process does with a signal: the handlers are those of the parent. *)
Inductive disposition := SIG_DFL | SIG_IGN | PassToChild | GotChild.

Record parent := Par {
  pr_sigs : gmap Z disposition;
  pr_fds : fdtable;
  pr_child_pid : Z;
  pr_kills : list (Z * Z)
}.
#[export] Instance parent_fields : Fields parent := fun p => Par (pr_sigs p) (pr_fds p) (pr_child_pid p) (pr_kills p).

Definition sigaction (d : disposition) (sigs : gmap Z disposition) (sig : Z) : gmap Z disposition := <[sig := d]> sigs.

(** The loop over all signals; [SIGKILL] and [SIGSTOP] have no other
    disposition. *)
Definition reset_default_signals (sigs : gmap Z disposition) : gmap Z disposition :=
  fold_left (sigaction SIG_DFL) (seqZ 1 (NSIG - 1)) sigs.

(** [priv_init] before the fork. *)
Definition init_signals (sigs : gmap Z disposition) : gmap Z disposition :=
  sigaction SIG_IGN (reset_default_signals sigs) SIGPIPE.

(** The handlers of the father. *)
Definition parent_signals (sigs : gmap Z disposition) : gmap Z disposition :=
  sigaction GotChild (fold_left (sigaction PassToChild) [SIGTERM; SIGHUP; SIGINT; SIGQUIT] sigs) SIGCHLD.

(** [/dev/null] on the standard input and output: [null] is the file and
    [nullfd] what [open] gives; [None] is [_exit]. *)
Definition null_stdio (null : nat) (nullfd : Z) (fds : fdtable) : option fdtable :=
  if nullfd <? 0 then None
  else
    let fds := <[1 := null]> (<[0 := null]> (<[nullfd := null]> fds)) in
    Some (if 2 <? nullfd then delete nullfd fds else fds).

(** The father up to its loop. *)
Definition parent_setup (child_pid socks1 : Z) (null : nat) (nullfd : Z) (sigs : gmap Z disposition) (fds : fdtable) :
    option parent :=
  fds ← null_stdio null nullfd (delete socks1 fds);
  Some (Par (parent_signals (init_signals sigs)) fds child_pid []).

Definition sig_pass_to_chld (sig : Z) (p : parent) : parent :=
  if negb (pr_child_pid p =? -1) then p <| pr_kills := pr_kills p ++ [(pr_child_pid p, sig)] |> else p.

(** The arrival of a signal; [sig_got_chld] is in [Privsep]. *)
Definition signal_arrives (sig : Z) (p : parent) : parent :=
  match pr_sigs p !! sig with Some PassToChild => sig_pass_to_chld sig p | _ => p end.

(** The child of [root_launch_script] before [execv]. *)
Definition script_start (dir : option (Z * list string)) (open_max : Z) (p : parent) : parent :=
  p <| pr_sigs := reset_default_signals (pr_sigs p) |> <| pr_fds := closefrom 3 dir open_max (pr_fds p) |>.

(** *** What they leave *)

Lemma fold_sigaction d l : forall sigs sig,
  fold_left (sigaction d) l sigs !! sig = if decide (sig ∈ l) then Some d else sigs !! sig.
Proof.
  induction l as [|x l IH]; intros sigs sig; cbn [fold_left]; [done|]. rewrite IH. unfold sigaction.
  destruct (decide (sig ∈ l)) as [Hin|Hin]; [by rewrite decide_True by (apply elem_of_cons; by right)|].
  destruct (decide (sig = x)) as [->|Hne].
  - by rewrite lookup_insert_eq, decide_True by (apply elem_of_cons; by left).
  - by rewrite lookup_insert_ne, decide_False by (done || intros [?|?]%elem_of_cons; done).
Qed.

Lemma reset_all sigs sig : 1 <= sig < NSIG -> reset_default_signals sigs !! sig = Some SIG_DFL.
Proof. intros Hs. unfold reset_default_signals. rewrite fold_sigaction, decide_True; [done|]. apply elem_of_seqZ. unfold NSIG in *. lia. Qed.

(** The termination signals and SIGHUP reach the child. *)
Lemma signals_forwarded pid socks1 null nullfd sigs fds p sig :
  parent_setup pid socks1 null nullfd sigs fds = Some p -> pid <> -1 -> sig ∈ [SIGTERM; SIGHUP; SIGINT; SIGQUIT] ->
  pr_kills (signal_arrives sig p) = [(pid, sig)].
Proof.
  unfold parent_setup. intros (fds' & _ & [= <-])%bind_Some Hp Hs. unfold signal_arrives. cbn [pr_sigs].
  unfold parent_signals, sigaction at 1. rewrite lookup_insert_ne.
  - rewrite fold_sigaction, decide_True by done. unfold sig_pass_to_chld. cbn [pr_child_pid]. by rewrite (proj2 (Z.eqb_neq _ _)).
  - intros <-. revert Hs. apply (bool_decide_unpack (SIGCHLD ∉ _)). vm_compute. reflexivity.
Qed.

Lemma null_stdio_low null nullfd fds fds' fd :
  null_stdio null nullfd fds = Some fds' -> 0 <= fd < 3 ->
  fds' !! fd = if fd <? 2 then Some null else if nullfd =? 2 then Some null else fds !! fd.
Proof.
  unfold null_stdio. destruct (Z.ltb_spec nullfd 0) as [|Hn]; [done|]. intros [= <-] Hfd.
  assert ((if 2 <? nullfd then delete nullfd (<[1 := null]> (<[0 := null]> (<[nullfd := null]> fds)))
           else <[1 := null]> (<[0 := null]> (<[nullfd := null]> fds))) !! fd
    = (<[1 := null]> (<[0 := null]> (<[nullfd := null]> fds)) : fdtable) !! fd) as ->.
  { destruct (Z.ltb_spec 2 nullfd); [|done]. by rewrite lookup_delete_ne by lia. }
  assert (fd = 0 \/ fd = 1 \/ fd = 2) as [->|[->| ->]] by lia;
    [by rewrite lookup_insert_ne, lookup_insert_eq by done|by rewrite lookup_insert_eq|].
  rewrite !(lookup_insert_ne _ _ 2) by done. change (2 <? 2) with false. cbv iota.
  destruct (Z.eqb_spec nullfd 2) as [->|]; [by rewrite lookup_insert_eq|by rewrite lookup_insert_ne].
Qed.

(** C27: a script the parent runs has no descriptor but 0, 1 and 2: the first
    two are [/dev/null] and the third the standard error the daemon was
    started with, whatever the parent has opened since; and all its signals
    have their default disposition, whatever the daemon was started with. *)
Theorem script_inherits pid socks1 null nullfd sigs fds p later dir open_max stderr :
  2 < nullfd -> 2 < socks1 -> fds !! 2 = Some stderr ->
  parent_setup pid socks1 null nullfd sigs fds = Some p ->
  (forall fd, 0 <= fd < 3 -> later !! fd = pr_fds p !! fd) ->
  match dir with
  | Some (dirfd, names) => later !! dirfd = None /\ lists names later
  | None => forall fd, is_Some (later !! fd) -> 0 <= fd < if open_max <? 0 then OPEN_MAX else open_max
  end ->
  let script := script_start dir open_max (p <| pr_fds := later |>) in
  pr_fds script = {[ 0 := null; 1 := null; 2 := stderr ]} /\
  forall sig, 1 <= sig < NSIG -> pr_sigs script !! sig = Some SIG_DFL.
Proof.
  intros Hn Hk Herr Hs Hlater Hdir script. split; [|by intros; apply reset_all].
  unfold parent_setup in Hs. apply bind_Some in Hs as (fds' & Hnull & [= <-]). cbn [pr_fds] in Hlater.
  unfold script, script_start. cbn [pr_fds update].
  assert (forall fd, is_Some (later !! fd) -> 0 <= fd) as Hpos.
  { intros fd Hfd. destruct dir as [[dirfd names]|]; [by apply (proj2 Hdir)|by apply Hdir]. }
  rewrite closefrom_exact; [|by destruct dir as [[]|]; [|intros; apply Hdir]].
  apply map_eq. intros fd. unfold below. rewrite map_lookup_filter. destruct (decide (0 <= fd < 3)) as [Hfd|Hfd].
  - rewrite Hlater by done. rewrite (null_stdio_low _ _ _ _ _ Hnull Hfd).
    assert (fd = 0 \/ fd = 1 \/ fd = 2) as [->|[->| ->]] by lia; [done|done|].
    rewrite (proj2 (Z.eqb_neq _ _)) by lia. rewrite lookup_delete_ne, Herr by lia. done.
  - transitivity (@None nat); [|rewrite !lookup_insert_ne by lia; by rewrite lookup_singleton_ne by lia].
    destruct (later !! fd) as [f|] eqn:Hl; [|done]. assert (0 <= fd) by (apply Hpos; by eexists). cbn [mbind option_bind].
    by rewrite option_guard_False by (simpl; lia).
Qed.

Definition demo_fds : fdtable := {[ 0 := 10%nat; 1 := 10%nat; 2 := 11%nat; 3 := 12%nat; 4 := 13%nat ]}.
Definition demo_parent : parent :=
  default (Par ∅ ∅ 0 []) (parent_setup 77 4 9 5 {[ SIGCHLD := SIG_IGN ]} demo_fds).

Lemma script_inherits_witness :
  let script := script_start None 1024 demo_parent in
  pr_fds script = {[ 0 := 9%nat; 1 := 9%nat; 2 := 11%nat ]} /\
  forall sig, 1 <= sig < NSIG -> pr_sigs script !! sig = Some SIG_DFL.
Proof.
  apply (script_inherits 77 4 9 5 {[ SIGCHLD := SIG_IGN ]} demo_fds demo_parent (pr_fds demo_parent) None 1024 11);
    [reflexivity|reflexivity|reflexivity|vm_compute; reflexivity|reflexivity|].
  assert (set_Forall (fun fd => 0 <= fd < 1024) (dom (pr_fds demo_parent))) as Hall
    by (apply (bool_decide_unpack _); vm_compute; reflexivity).
  intros fd Hfd. apply elem_of_dom in Hfd. exact (Hall fd Hfd).
Defined.
