(* ===== verification/Device.v ===== *)
(** * Opening the device, and the devices of BSD and Darwin
      ([mlvpn_tuntap_alloc] of [src/src/tuntap_linux.c],
      [src/src/tuntap_bsd.c], [src/src/tuntap_darwin.c])

    The child asks the parent for the device with [priv_open_tun]; on BSD and
    Darwin it tries the numbers one after the other.  What the parent answers
    to the [n]-th request is the class [Parent], so a theorem is about every
    parent.  The handlers of BSD and Darwin are those of [Tuntap] but for the
    header of four bytes that BSD puts before every packet. *)

From stdpp Require Import pretty.
From S2P Require Import Prelude Double CString Timestamp Pkt Buffer Reorder Tunnel Wrr Tuntap Privsep.

(** ** The request of the child *)

(** The bytes the parent answers and the descriptor that comes with them. *)
Class Parent := {
  pa_answer : nat -> list Z;
  pa_fd : nat -> Z
}.

(** The fields of [struct tuntap_s] that [mlvpn_tuntap_alloc] uses, [fd] being
    -1 when it is not set, and the requests that were sent. *)
Record device := Device {
  dv_type : tuntap_type;
  dv_devname : list Z;
  dv_maxmtu : Z;
  dv_fd : Z;
  dv_requests : list (list Z)
}.
#[export] Instance device_fields : Fields device := fun d =>
  Device (dv_type d) (dv_devname d) (dv_maxmtu d) (dv_fd d) (dv_requests d).

Definition mode_of (t : tuntap_type) : Z := match t with MLVPN_TUNTAPMODE_TUN => 0 | MLVPN_TUNTAPMODE_TAP => 1 end.

(** [snprintf(buf, n, ...)] of a text of these bytes. *)
Definition snprintf_bytes (n : nat) (l : list Z) : list Z := take (n - 1) l.

Definition base_name (t : tuntap_type) : list Z :=
  bytes_of_string (match t with MLVPN_TUNTAPMODE_TAP => "tap" | MLVPN_TUNTAPMODE_TUN => "tun" end).
Definition dev_prefix : list Z := bytes_of_string "/dev/".
(** [%d] *)
Definition number (i : nat) : list Z := bytes_of_string (pretty (Z.of_nat i)).

Section device.
Context `{Parent}.

(** [priv_open_tun]: the descriptor, and what [devname] holds afterwards. *)
Definition priv_open_tun (mode : tuntap_type) (devname : list Z) (mtu : Z) : M device (Z * list Z) :=
  sent ← gets dv_requests;
  modify (fun d => d <| dv_requests := sent ++ [priv_open_tun_request (mode_of mode) (Some devname) mtu] |>);;
  expect (Fatal "device name returned by privileged service is too long.")
    (priv_open_tun_answer devname (pa_answer (length sent)) (pa_fd (length sent))).

(** ** Linux *)

Definition mlvpn_tuntap_alloc : M device Z :=
  d ← get;
  '(fd, name) ← priv_open_tun (dv_type d) (dv_devname d) (dv_maxmtu d);
  modify (fun d => d <| dv_devname := name |>);;
  if fd <=? 0 then fatalx "failed to open /dev/net/tun read/write"
  else modify (fun d => d <| dv_fd := fd |>);; mret fd.

(** ** The numbered devices *)

(** The loop over the numbers from [i] on, for [n] rounds: the last descriptor
    and the last name.  [size] is what the name is printed with. *)
Fixpoint try_devices (size : nat) (n i : nat) (fd : Z) (name : list Z) : M device (Z * list Z) :=
  match n with
  | O => mret (fd, name)
  | S n =>
      d ← get;
      let name := snprintf_bytes size (base_name (dv_type d) ++ number i) in
      modify (fun d => d <| dv_devname := snprintf_bytes 16 (dev_prefix ++ name) |>);;
      d ← get;
      '(fd, devname) ← priv_open_tun (dv_type d) (dv_devname d) (dv_maxmtu d);
      modify (fun d => d <| dv_devname := devname |>);;
      if 0 <? fd then mret (fd, name) else try_devices size n (S i) fd name
  end.

(** [strcpy] of the name that was opened, with the descriptor. *)
Definition opened (fd : Z) (name : list Z) : M device Z :=
  modify (fun d => d <| dv_fd := fd |> <| dv_devname := snprintf_bytes 16 name |>);; mret fd.

Definition bsd_tuntap_alloc : M device Z :=
  d ← get;
  if bool_decide (dv_devname d = bytes_of_string "tun") then
    '(fd, name) ← try_devices 16 32 0 0 [];
    if fd <=? 0 then mret fd else opened fd name
  else
    '(fd, _) ← priv_open_tun (dv_type d) (snprintf_bytes 16 (dev_prefix ++ dv_devname d)) (dv_maxmtu d);
    if fd <=? 0 then mret fd else modify (fun d => d <| dv_fd := fd |>);; mret fd.

(** The name is printed in five bytes. *)
Definition darwin_tuntap_alloc : M device Z :=
  '(fd, name) ← try_devices 5 32 0 0 [];
  if fd <=? 0 then mret fd else opened fd name.

(** ** What is tried *)

(** The result of the [k]-th request for a name of which the answer is read. *)
Definition answer_fd (k : nat) : Z :=
  match priv_open_tun_answer [] (pa_answer k) (pa_fd k) with Some (fd, _) => fd | None => 0 end.
Definition answered (k : nat) : Prop := of_le_bytes (take 8 (pa_answer k)) < MLVPN_IFNAMSIZ.

Lemma answer_spec devname k :
  bytes (pa_answer k) -> answered k -> exists name, priv_open_tun_answer devname (pa_answer k) (pa_fd k) = Some (answer_fd k, name).
Proof.
  intros Hb Ha. unfold answered in Ha. unfold answer_fd, priv_open_tun_answer.
  pose proof (of_le_bytes_range (take 8 (pa_answer k)) (bytes_take _ _ Hb)) as Hr.
  destruct (Z.ltb_spec 0 (of_le_bytes (take 8 (pa_answer k)))) as [Hp|Hp].
  - rewrite (proj2 (Z.ltb_lt _ _)) by done. by eexists.
  - assert (of_le_bytes (take 8 (pa_answer k)) = 0) as -> by lia. by eexists.
Qed.

(** The name tried for the number [i]. *)
Definition tried_name (size : nat) (t : tuntap_type) (i : nat) : list Z := snprintf_bytes size (base_name t ++ number i).
Definition tried_request (size : nat) (d : device) (i : nat) : list Z :=
  priv_open_tun_request (mode_of (dv_type d)) (Some (snprintf_bytes 16 (dev_prefix ++ tried_name size (dv_type d) i))) (dv_maxmtu d).

(** The first number below [n + i] whose device opens, from [i] on; [k] is the
    number of the request. *)
Fixpoint first_open (n i k : nat) : option nat :=
  match n with
  | O => None
  | S n => if 0 <? answer_fd k then Some i else first_open n (S i) (S k)
  end.

(** The device after some requests. *)
Definition after (d : device) (devname : list Z) (reqs : list (list Z)) : device :=
  d <| dv_devname := devname |> <| dv_requests := dv_requests d ++ reqs |>.

Hypothesis Hans : forall k, bytes (pa_answer k) /\ answered k.

Lemma try_round size n i fd name d :
  exists devname, try_devices size (S n) i fd name d =
    let fd' := answer_fd (length (dv_requests d)) in
    let d' := after d devname [tried_request size d i] in
    if 0 <? fd' then Ok (fd', tried_name size (dv_type d) i) d'
    else try_devices size n (S i) fd' (tried_name size (dv_type d) i) d'.
Proof.
  destruct (Hans (length (dv_requests d))) as [Hb Ha].
  destruct (answer_spec (snprintf_bytes 16 (dev_prefix ++ tried_name size (dv_type d) i)) _ Hb Ha) as [devname Hn].
  exists devname. cbn [try_devices]. unfold priv_open_tun, get, gets, modify, expect, mbind, M_bind. cbv beta iota.
  cbn [dv_requests dv_type dv_devname dv_maxmtu update]. fold (tried_name size (dv_type d) i). rewrite Hn.
  unfold mret, M_ret. cbv beta iota zeta. by destruct (0 <? _).
Qed.

Lemma try_devices_spec size : forall n i fd name d,
  exists devname fd' name', 
    let k := length (dv_requests d) in
    match first_open n i k with
    | Some j => try_devices size n i fd name d =
        Ok (answer_fd (k + (j - i)), tried_name size (dv_type d) j) (after d devname (tried_request size d <$> seq i (j - i + 1))) /\
        (i <= j < i + n)%nat /\ 0 < answer_fd (k + (j - i))
    | None => try_devices size n i fd name d = Ok (fd', name') (after d devname (tried_request size d <$> seq i n)) /\
        (n <> O -> fd' <= 0)
    end.
Proof.
  induction n as [|n IH]; intros i fd name d.
  { exists (dv_devname d), fd, name. cbn. split; [|by intros []]. unfold after. rewrite app_nil_r. by destruct d. }
  destruct (try_round size n i fd name d) as [devname Hr]. cbv zeta in Hr. cbn [first_open].
  destruct (Z.ltb_spec 0 (answer_fd (length (dv_requests d)))) as [Hp|Hp].
  - exists devname, 0, []. rewrite Hr, Nat.sub_diag, Nat.add_0_r. split_and!; [done|lia|lia|done].
  - set (d' := after d devname [tried_request size d i]) in *.
    destruct (IH (S i) (answer_fd (length (dv_requests d))) (tried_name size (dv_type d) i) d') as (dn & fd' & name' & Hi).
    assert (length (dv_requests d') = S (length (dv_requests d))) as Hl by (simpl; rewrite length_app; simpl; lia).
    assert (forall reqs, after d' dn reqs = after d dn (tried_request size d i :: reqs)) as Haf.
    { intros reqs. unfold after, d'. simpl. by rewrite <- app_assoc. }
    cbv zeta in Hi. rewrite Hl in Hi. exists dn, fd', name'. cbv zeta. rewrite Hr.
    destruct (first_open n (S i) _) as [j|]; destruct Hi as [Hi Hj]; rewrite Hi, Haf.
    + destruct Hj as [Hij Hj]. replace (length (dv_requests d) + (j - i))%nat with (S (length (dv_requests d)) + (j - S i))%nat by lia.
      split_and!; [|lia|lia|done]. do 2 f_equal. replace (j - i + 1)%nat with (S (j - S i + 1)) by lia. done.
    + split; [done|]. intros _. destruct n; [|by apply Hj]. simpl in Hi. injection Hi as <-. done.
Qed.

(** On BSD the device [tun] stands for the first of the devices [tun0] to
    [tun31] (or [tap]) that the parent can open: they are asked for in order,
    none after it, and its name and descriptor are kept; when none opens,
    all thirty-two were tried and the result is not a descriptor. *)
Theorem bsd_alloc_first d :
  dv_devname d = bytes_of_string "tun" -> dv_requests d = [] ->
  exists fd d', bsd_tuntap_alloc d = Ok fd d' /\
    match first_open 32 0 0 with
    | Some j => (j < 32)%nat /\ fd = answer_fd j /\ dv_fd d' = fd /\ dv_devname d' = base_name (dv_type d) ++ number j /\
        dv_requests d' = tried_request 16 d <$> seq 0 (j + 1)
    | None => fd <= 0 /\ dv_requests d' = tried_request 16 d <$> seq 0 32
    end.
Proof.
  intros Hn Hr. unfold bsd_tuntap_alloc. unfold mbind at 1, M_bind at 1, get at 1. rewrite Hn, bool_decide_true by done.
  unfold mbind, M_bind. destruct (try_devices_spec 16 32 0 0 [] d) as (devname & fd' & name' & Hs).
  cbv zeta in Hs. rewrite Hr in Hs. change (length ([] : list (list Z))) with O in Hs.
  destruct (first_open 32 0 0) as [j|]; destruct Hs as [Hs Hj]; rewrite Hs.
  - destruct Hj as [Hlt Hj]. rewrite Nat.sub_0_r, Nat.add_0_l in *. rewrite (proj2 (Z.leb_gt _ _)) by done.
    eexists _, _. split; [reflexivity|]. cbn [dv_fd dv_devname dv_requests update after]. rewrite Hr, app_nil_l.
    assert (forall j, (j < 32)%nat -> snprintf_bytes 16 (tried_name 16 (dv_type d) j) = base_name (dv_type d) ++ number j) as Hnm.
    { clear. intros j Hj. assert (j ∈ seq 0 32) as Hin by (apply elem_of_seq; lia). revert j Hin Hj.
      destruct (dv_type d); (intros j Hin _; revert j Hin; apply Forall_forall; vm_compute; repeat constructor). }
    split_and!; [lia|done|done|apply Hnm; lia|done].
  - rewrite (proj2 (Z.leb_le _ _)) by auto. eexists _, _. split; [reflexivity|]. cbn [dv_requests update after]. rewrite Hr, app_nil_l.
    split; [by apply Hj|done].
Qed.

(** On Darwin the name is printed in five bytes, so that the devices 10 to
    31 are never asked for: from the tenth round on the loop asks again for the
    devices 1, 2 and 3, and fails when only a higher one is free. *)
Theorem darwin_single_digit d fd d' req :
  dv_requests d = [] -> darwin_tuntap_alloc d = Ok fd d' -> req ∈ dv_requests d' ->
  exists i, (i < 10)%nat /\ req = tried_request 16 d i.
Proof.
  intros Hr Ha Hreq. unfold darwin_tuntap_alloc, mbind, M_bind in Ha.
  destruct (try_devices_spec 5 32 0 0 [] d) as (devname & fd' & name' & Hs).
  cbv zeta in Hs. rewrite Hr in Hs. change (length ([] : list (list Z))) with O in Hs.
  assert (forall i, (i < 32)%nat -> exists k, (k < 10)%nat /\ tried_name 5 (dv_type d) i = tried_name 16 (dv_type d) k) as Hnm.
  { clear. intros i Hi. assert (Exists (fun k => tried_name 5 (dv_type d) i = tried_name 16 (dv_type d) k) (seq 0 10)) as Hex.
    - assert (i ∈ seq 0 32) as Hin by (apply elem_of_seq; lia). revert i Hin Hi.
      destruct (dv_type d); (intros i Hin _; revert i Hin; apply Forall_forall; apply (bool_decide_unpack _); vm_compute; reflexivity).
    - apply Exists_exists in Hex as (k & Hk%elem_of_seq & Heq). exists k. split; [lia|done]. }
  assert (forall n, (n <= 32)%nat -> req ∈ tried_request 5 d <$> seq 0 n -> exists i, (i < 10)%nat /\ req = tried_request 16 d i) as Hfin.
  { intros n Hn (i & -> & Hi%elem_of_seq)%list_elem_of_fmap. destruct (Hnm i) as (k & Hk & Heq); [lia|].
    exists k. split; [done|]. unfold tried_request. by rewrite Heq. }
  destruct (first_open 32 0 0) as [j|]; destruct Hs as [Hs Hj]; rewrite Hs in Ha.
  - destruct Hj as [Hlt Hj]. rewrite (proj2 (Z.leb_gt _ _)) in Ha by done. injection Ha as <- <-.
    cbn [dv_requests update after] in Hreq. rewrite Hr in Hreq. eapply Hfin; [|exact Hreq]. lia.
  - rewrite (proj2 (Z.leb_le _ _)) in Ha by auto. injection Ha as <- <-.
    cbn [dv_requests update after] in Hreq. rewrite Hr in Hreq. exact (Hfin 32%nat ltac:(lia) Hreq).
Qed.
End device.

(** A parent that opens the device of the third request only. *)
Definition demo_tuns : Parent := {|
  pa_answer k := if bool_decide (k = 2%nat) then le_bytes 8 10 ++ bytes_of_string "/dev/tun2" ++ [0] else le_bytes 8 0;
  pa_fd _ := 7
|}.
Definition demo_device : device := Device MLVPN_TUNTAPMODE_TUN (bytes_of_string "tun") 1444 (-1) [].

Lemma demo_tuns_answer : forall k, bytes (pa_answer (Parent := demo_tuns) k) /\ answered (H := demo_tuns) k.
Proof.
  intros k. unfold answered. cbn [pa_answer demo_tuns]. case_bool_decide.
  - split; [|vm_compute; reflexivity]. apply (bool_decide_unpack _). vm_compute. reflexivity.
  - split; [apply le_bytes_bytes|vm_compute; reflexivity].
Qed.

Lemma bsd_alloc_first_witness : exists d', bsd_tuntap_alloc (H := demo_tuns) demo_device = Ok 7 d' /\
  dv_fd d' = 7 /\ dv_devname d' = bytes_of_string "tun2" /\ length (dv_requests d') = 3%nat.
Proof.
  destruct (@bsd_alloc_first demo_tuns demo_tuns_answer demo_device eq_refl eq_refl) as (fd & d' & Ha & Hj).
  change (first_open (H := demo_tuns) 32 0 0) with (Some 2%nat) in Hj. destruct Hj as (_ & Hfd & H1 & H2 & H3).
  change (answer_fd (H := demo_tuns) 2) with 7 in Hfd. subst fd. exists d'. split; [exact Ha|]. split; [exact H1|].
  split; [exact H2|]. rewrite H3. reflexivity.
Defined.

Lemma darwin_single_digit_witness : exists d' req, req ∈ dv_requests d' /\
  exists i, (i < 10)%nat /\ req = tried_request 16 demo_device i.
Proof.
  destruct (darwin_tuntap_alloc (H := demo_tuns) demo_device) as [fd d'|] eqn:E; [|exfalso; revert E; vm_compute; discriminate].
  assert (tried_request 5 demo_device 1 ∈ dv_requests d') as Hin.
  { assert (match darwin_tuntap_alloc (H := demo_tuns) demo_device with
            | Ok _ d' => bool_decide (tried_request 5 demo_device 1 ∈ dv_requests d') | Fault _ => false end = true) as Hc
      by (vm_compute; reflexivity).
    rewrite E in Hc. exact (bool_decide_eq_true_1 _ Hc). }
  exists d', (tried_request 5 demo_device 1). split; [exact Hin|].
  exact (@darwin_single_digit demo_tuns demo_tuns_answer demo_device fd d' _ eq_refl E Hin).
Defined.

(** ** Packets of the BSD device

    The device puts the address family, four bytes, before every packet. *)

Definition AF_INET : Z := 2.
(** [htonl(AF_INET)] in memory *)
Definition bsd_type : list Z := [0; 0; 0; AF_INET].

Section bsd.
Context `{OS}.

(** [r] is what [readv] gives, the four bytes included, and [data] what the
    second buffer holds then. *)
Definition bsd_tuntap_read (r : io_result) (data : list Z) : W Z :=
  match r with
  | IoError => fatalx "unrecoverable read error"
  | IoAgain => mret 0
  | IoOk ret =>
      if ret =? 0 then fatalx "tuntap device closed"
      else
        maxmtu ← gets (fun w => tt_maxmtu (w_tuntap w));
        let ret := if maxmtu <? ret then maxmtu else ret in
        mlvpn_tuntap_generic_read data ret
  end.

Definition bsd_tuntap_write : W Z :=
  buf ← gets (fun w => tt_sbuf (w_tuntap w));
  if Ring.is_empty buf then fatalx "tuntap_write called with empty buffer"
  else
    let '(pkt, buf) := Ring.pop buf in
    set_tuntap (fun tt => tt <| tt_sbuf := buf |>);;
    emit (TunWrite (bsd_type ++ payload pkt));;
    r ← ask os_tunwrite;
    mret (match r with IoOk n => n - 4 | _ => 0 end).

(** The device of Darwin has no header: its two functions are those of Linux,
    line by line. *)
Definition darwin_tuntap_read (r : io_result) (data : list Z) : W Z := mlvpn_tuntap_read r data.
Definition darwin_tuntap_write : W Z := mlvpn_tuntap_write.

(** The handlers only look at the bytes they are told of. *)
Lemma push_ext f g (b : pktbuffer) : (forall p, f p = g p) -> Ring.push f b = Ring.push g b.
Proof.
  intros Hfg. unfold Ring.push. destruct (Ring.mlvpn_pktbuffer_write b) as [slot b']. unfold Ring.pkt_store. simpl. f_equal.
  apply list_eq. intros i. destruct (decide (Z.to_nat slot = i)) as [<-|].
  - rewrite !list_lookup_alter_eq. destruct (Ring.pb_pkts b' !! _); simpl; by rewrite ?Hfg.
  - by rewrite !list_lookup_alter_ne.
Qed.

Lemma tun_upd_ext t f g : (forall tun, f tun = g tun) -> forall w, tun_upd t f w = tun_upd t g w.
Proof. intros Hfg w. unfold tun_upd, mbind, M_bind. destruct (tun_get t w); [|done]. by rewrite Hfg. Qed.

Lemma fill_data_take len data p : 0 <= len < 2 ^ 16 -> fill_data len data p = fill_data len (take (Z.to_nat len) data) p.
Proof.
  intros Hl. unfold fill_data. do 2 f_equal. unfold memcpy. f_equal.
  assert (u16 len = len) as -> by (by apply Z.mod_small). by rewrite take_take, Nat.min_id.
Qed.

Lemma generic_read_take len data w :
  0 <= len < 2 ^ 16 -> mlvpn_tuntap_generic_read data len w = mlvpn_tuntap_generic_read (take (Z.to_nat len) data) len w.
Proof.
  intros Hl. set (put := fun (hp : bool) data (tun : mlvpn_tunnel_t) =>
    let tun := if hp then tun <| t_hpsbuf := Ring.push (fill_data len data) (t_hpsbuf tun) |>
               else tun <| t_sbuf := Ring.push (fill_data len data) (t_sbuf tun) |> in
    let sbuf := if hp then t_hpsbuf tun else t_sbuf tun in
    if negb (t_io_write tun) && negb (Ring.is_empty sbuf) then tun <| t_io_write := true |> else tun).
  assert (forall t hp w, tun_upd t (put hp data) w = tun_upd t (put hp (take (Z.to_nat len) data)) w) as Hput.
  { intros t hp w0. apply tun_upd_ext. intros tun. unfold put.
    by rewrite !(push_ext (fill_data len data) (fill_data len (take (Z.to_nat len) data))) by (intros; by apply fill_data_take). }
  unfold mlvpn_tuntap_generic_read. rewrite take_take, Nat.min_id. unfold mbind, M_bind.
  destruct (mlvpn_filters_choose _ w) as [[t|] w1|]; [|destruct (mlvpn_rtun_choose w1) as [[t|] w2|]; [|done|done]|done];
    unfold mret at 1 4, M_ret at 1 4; simpl (fmap _ _); cbv beta iota.
  - fold (put true data). fold (put true (take (Z.to_nat len) data)). by rewrite Hput.
  - fold (put false data). fold (put false (take (Z.to_nat len) data)). by rewrite Hput.
Qed.

(** On BSD the count [readv] returns includes the four bytes of the header,
    and is used as the length of the packet: a packet [p] of the device is
    sent with four bytes more, which are whatever the buffer on the stack held
    after it. *)
Theorem bsd_read_four_more p junk w :
  (0 < length p)%nat -> Z.of_nat (length p) + 4 <= tt_maxmtu (w_tuntap w) -> tt_maxmtu (w_tuntap w) <= 1444 ->
  (4 <= length junk)%nat ->
  bsd_tuntap_read (IoOk (Z.of_nat (length p) + 4)) (p ++ junk) w =
  mlvpn_tuntap_read (IoOk (Z.of_nat (length (p ++ take 4 junk)))) (p ++ take 4 junk) w.
Proof.
  intros Hp Hm Hmax Hj. assert (Z.of_nat (length (p ++ take 4 junk)) = Z.of_nat (length p) + 4) as ->.
  { rewrite length_app, length_take. lia. }
  unfold bsd_tuntap_read, mlvpn_tuntap_read. rewrite (proj2 (Z.eqb_neq _ _)) by lia.
  unfold mbind at 1 2, M_bind at 1 2, gets at 1 2. cbv zeta. rewrite (proj2 (Z.ltb_ge _ _)) by lia.
  rewrite generic_read_take by lia. rewrite Z2Nat.inj_add, Nat2Z.id, take_app_add by lia. done.
Qed.
End bsd.

Lemma bsd_read_four_more_witness :
  bsd_tuntap_read (H := os_ideal) (IoOk 7) ([69; 0; 1] ++ [1; 2; 3; 4; 5]) (world_of []) =
  mlvpn_tuntap_read (H := os_ideal) (IoOk 7) [69; 0; 1; 1; 2; 3; 4] (world_of []).
Proof.
  apply (@bsd_read_four_more os_ideal [69; 0; 1] [1; 2; 3; 4; 5] (world_of [])); simpl; lia.
Defined.

(** Every packet is written as IPv4, one that starts with the version 6 too. *)
Example bsd_write_family :
  match bsd_tuntap_write (H := os_ideal)
    ((world_of []) <| w_tuntap := (w_tuntap (world_of [])) <| tt_sbuf :=
       Ring.push (fun p => p <| pkt_len := 2 |> <| pkt_data := [96; 0] |>) (Ring.mlvpn_pktbuffer_init 4) |> |>) with
  | Ok _ w => w_trace w = [TunWrite [0; 0; 0; 2; 96; 0]]
  | Fault _ => False
  end.
Proof. vm_compute. reflexivity. Qed.

(** ** Opening as root *)

(** The system calls of the parent. *)
Inductive syscall :=
  | SysOpen (path : list Z)
  | SysIoctl (fd : Z) (request : string)
  | SysClose (fd : Z).

(** [root_tuntap_open] of BSD: [fd] is what [open] gives, [r1] and [r2] what
    the [ioctl]s give.  OpenBSD has one [ioctl]. *)
Definition bsd_root_tuntap_open (openbsd : bool) (devname : list Z) (fd r1 r2 : Z) : list syscall * Z :=
  if fd <? 0 then ([SysOpen devname], fd)
  else if openbsd then
    if r1 <? 0 then ([SysOpen devname; SysIoctl fd "TUNSIFINFO"; SysClose fd], -1)
    else ([SysOpen devname; SysIoctl fd "TUNSIFINFO"], fd)
  else if r1 <? 0 then ([SysOpen devname; SysIoctl fd "TUNSIFMODE"; SysClose fd], -1)
  else if r2 <? 0 then ([SysOpen devname; SysIoctl fd "TUNSIFMODE"; SysIoctl fd "TUNSIFHEAD"; SysClose fd], -1)
  else ([SysOpen devname; SysIoctl fd "TUNSIFMODE"; SysIoctl fd "TUNSIFHEAD"], fd).

Definition darwin_root_tuntap_open (devname : list Z) (fd : Z) : list syscall * Z := ([SysOpen devname], fd).

Definition closed_by (calls : list syscall) (fd : Z) : bool :=
  existsb (fun c => match c with SysClose x => x =? fd | _ => false end) calls.

(** The descriptor is closed exactly when it is not returned. *)
Lemma bsd_open_no_leak openbsd devname fd r1 r2 :
  0 <= fd -> let '(calls, ret) := bsd_root_tuntap_open openbsd devname fd r1 r2 in
  closed_by calls fd = negb (ret =? fd) /\ (ret = fd \/ ret = -1).
Proof.
  intros Hfd. unfold bsd_root_tuntap_open, closed_by. rewrite (proj2 (Z.ltb_ge _ _)) by done.
  assert ((-1 =? fd) = false) as Hne by (apply Z.eqb_neq; lia).
  destruct openbsd, (r1 <? 0), (r2 <? 0); cbn [existsb orb]; rewrite ?Z.eqb_refl, ?Hne; auto.
Qed.
