(* ===== verification/Boot.v ===== *)
(** * [main] from the unprivileged child to the event loop
      ([main] of [src/src/mlvpn.c], after [priv_init])

    [main_setup] reads the configuration, opens the device and computes the
    weights; when it returns the event loop runs.  This closes the gap between
    [Startup], which ends with the unprivileged child, and [Daemon], which is
    about the events that follow. *)

From Stdlib Require Import Ascii String.
From S2P Require Import Prelude Double CString Timestamp Pkt Buffer Reorder Tunnel Loss Wrr Protocol Tuntap Rtun Stage Invariant Status Safety Events ConfigLib Config Reload Daemon Behaviour Device.
Open Scope list_scope.
Open Scope Z_scope.

Definition O_NONBLOCK : Z := 2048.

(** [mlvpn_sock_set_nonblocking]: the result, and the flags that were set;
    [fl] is what [F_GETFL] gives and [set] what [F_SETFL] gives. *)
Definition mlvpn_sock_set_nonblocking (fl set : Z) : Z * option Z :=
  if fl <? 0 then (-1, None) else (set, Some (Z.lor fl O_NONBLOCK)).

(** The other flags stay. *)
Lemma nonblocking_flags fl set i :
  0 <= fl -> 0 <= i -> exists flags, (mlvpn_sock_set_nonblocking fl set).2 = Some flags /\
    Z.testbit flags i = Z.testbit fl i || (i =? 11).
Proof.
  intros Hf Hi. unfold mlvpn_sock_set_nonblocking. rewrite (proj2 (Z.ltb_ge _ _)) by done. eexists. split; [reflexivity|].
  rewrite Z.lor_spec. f_equal. change O_NONBLOCK with (2 ^ 11). rewrite Z.pow2_bits_eqb by done. apply Z.eqb_sym.
Qed.

(** The initial value of [mlvpn_options]. *)
Definition initial_options : mlvpn_options_s := Opts "" "" "" "" "" "" "" "" "" 0 true 0 false.

(** The globals when [priv_init] returns: the title is set, the pool and the
    device are not. *)
Definition boot_world (title : option string) (now : Z) : world :=
  World ∅ [] (Stat false 0 false now now) initial_options
    (TT 0 "" MLVPN_TUNTAPMODE_TUN (Ring.PB (Ring.CB 0 0 0) []) false) 0 None (Free.FB 0 0 [] [] [])
    false (d_of_Z 0) (Wrr [] []) [] title None (d_of_Z 0) [] 0 [].

Definition string_of_bytes (l : list Z) : string := string_of_list_ascii ((fun b => ascii_of_nat (Z.to_nat b)) <$> l).

Section boot.
Context `{OS} `{Parent}.

(** [mlvpn_tuntap_alloc] on the device of the state. *)
Definition device_of (tt : tuntap_s) : device :=
  Device (tt_type tt) (bytes_of_string (tt_devname tt)) (tt_maxmtu tt) (-1) [].
Definition open_device : W unit :=
  tt ← gets w_tuntap;
  match mlvpn_tuntap_alloc (device_of tt) with
  | Fault f => fail f
  | Ok fd d =>
      if fd <=? 0 then fatalx "cannot create tunnel device"
      else set_tuntap (fun tt => tt <| tt_devname := string_of_bytes (dv_devname d) |>)
  end.

(** [fd], [content] and [read_error]: the configuration file; [loop]: whether
    libev starts; [ppid]: what [getppid] gives.  [title] in the state is [None]
    when [change_process_title] is off.  What lies between [open_device] and
    the weights has a state of its own: [Control.main_control] and the request
    [Privsep.priv_set_running_state_request]. *)
Definition main_setup (fd : Z) (content : list ascii) (read_error loop : bool) (ppid : Z) : W unit :=
  update_process_title;;
  set_freebuf (Free.mlvpn_freebuffer_init 512);;
  (if fd <? 0 then fatalx "cannot open config file" else mret tt);;
  (if loop then mret tt else fatalx "cannot initialize libev. check LIBEV_FLAGS?");;
  set_tuntap (fun _ => mlvpn_tuntap_init);;
  r ← mlvpn_config content read_error true;
  (if negb (r =? 0) then fatalx "cannot open config file" else mret tt);;
  open_device;;
  mlvpn_rtun_recalc_weight;;
  if ppid =? 1 then fatalx "Privileged process died" else mret tt.

(** The state in which the configuration is read. *)
Definition boot_state (title : option string) (now : Z) (tr : list effect) : world :=
  (main_state initial_options title []) <| w_status := Stat false 0 false now now |> <| w_trace := tr |>.
End boot.

Section starts.
Context `{SodiumLaws} `{Parent}.

Lemma boot_winv title now tr : updown tr = [] -> winv (boot_state title now tr).
Proof.
  intros Ht. assert (winv (main_state initial_options title [])) as [[[S1 S2 S3] A N M T G Nm Ti F D] [Y1 Y2 Y3 Y4 Y5]]
    by (by apply main_winv).
  split; [by split|]. split; try done. unfold boot_state. simpl. by rewrite Ht.
Qed.

Lemma winv_tun w tt' : winv w -> tt_ok tt' -> winv (w <| w_tuntap := tt' |>).
Proof. intros Hw Ht. pose proof (winv_tuntap w tt' (w_trace w) (w_calls w) Hw Ht eq_refl) as Hw'. by destruct w. Qed.

(** The parent opens the device it is asked for. *)
Definition device_opens : Prop := bytes (pa_answer 0) /\ answered 0 /\ 0 < answer_fd 0.

Lemma alloc_opens d : device_opens -> dv_requests d = [] ->
  exists fd d', mlvpn_tuntap_alloc d = Ok fd d' /\ 0 < fd /\ dv_fd d' = fd /\
    dv_requests d' = [Privsep.priv_open_tun_request (mode_of (dv_type d)) (Some (dv_devname d)) (dv_maxmtu d)].
Proof.
  intros (Hb & Ha & Hfd) Hr. destruct (answer_spec (dv_devname d) 0 Hb Ha) as [name Hn].
  unfold mlvpn_tuntap_alloc, priv_open_tun, mbind, M_bind, get, gets, modify, expect. cbv beta iota. rewrite Hr.
  change (length ([] : list (list Z))) with O. rewrite Hn. unfold mret, M_ret. cbv beta iota.
  rewrite (proj2 (Z.leb_gt _ _)) by done. eexists _, _. split; [reflexivity|]. by split_and!.
Qed.

Lemma wp_open_device w : device_opens -> winv w -> wp open_device (fun _ => winv) w.
Proof.
  intros Hd Hw. unfold open_device. wp_steps.
  destruct (alloc_opens (device_of (w_tuntap w)) Hd eq_refl) as (fd & d' & Ha & Hfd & _). rewrite Ha.
  rewrite (proj2 (Z.leb_gt _ _)) by done. unfold set_tuntap. wp_steps. apply winv_tun; [done|].
  destruct (sg_tt _ (v_stage _ (wv_0 _ Hw))). by split.
Qed.

Lemma title_at_start title now (Q : unit -> world -> Prop) :
  (forall tr, updown tr = [] -> Q tt ((boot_world title now) <| w_trace := tr |>)) ->
  wp update_process_title Q (boot_world title now).
Proof. intros HQ. unfold update_process_title. wp_steps. destruct title; wp_steps; [unfold emit; wp_steps|]; by apply HQ. Qed.

Lemma wp_main_setup title now fd content ppid :
  0 <= fd -> file_fits content false (boot_state title now []) = true -> device_opens -> ppid <> 1 ->
  wp (main_setup fd content false true ppid) (fun _ => winv) (boot_world title now).
Proof.
  intros Hfd Hfits Hd Hp. unfold main_setup. wp_steps. apply title_at_start. intros tr Htr.
  unfold set_freebuf, set_tuntap. wp_steps. rewrite (proj2 (Z.ltb_ge _ _)) by done. wp_steps.
  match goal with |- wp _ _ ?w => change w with (boot_state title now tr) end.
  eapply wp_mono; [apply wp_config; [by apply boot_winv|exact Hfits|done]|]. intros r w [Hw Hl]. wp_steps.
  destruct (parse_total content false) as [c Hc]. unfold loaded in Hl. rewrite Hc in Hl.
  destruct Hl as [-> _]. cbn [Z.eqb negb]. wp_steps. eapply wp_mono; [by apply wp_open_device|]. intros [] w1 Hw1. wp_steps.
  eapply wp_mono; [by apply pres_recalc_weight|]. intros [] w2 Hw2. by rewrite (proj2 (Z.eqb_neq _ _)).
Qed.

End starts.

(** ** A start *)

Definition demo_tun0 : Parent := {|
  pa_answer _ := le_bytes 8 7 ++ bytes_of_string "mlvpn0" ++ [0];
  pa_fd _ := 6
|}.

Lemma demo_tun0_opens : device_opens (H1 := demo_tun0).
Proof. split; [apply (bool_decide_unpack _); vm_compute; reflexivity|]. split; vm_compute; reflexivity. Qed.


(** Without its device the daemon does not start. *)
Definition no_tun : Parent := {| pa_answer _ := le_bytes 8 0; pa_fd _ := 6 |}.
Example no_device :
  main_setup (H := os_ideal) (H0 := no_tun) 4 sim_file false true 100 (boot_world None 7) =
  Fault (Fatal "failed to open /dev/net/tun read/write").
Proof. vm_compute. reflexivity. Qed.
