(* ===== verification/Delivery.v ===== *)
(** * What the device gets

    The receiving half of the daemon as one abstract machine: the packets of
    the pool as a list in the order of their arrival, the reference machine of
    [Reorder] over their arrival numbers, and the ring of the device as a
    bounded queue.  The pool with its two queues and its entries that are used
    again, the reorder buffer with its rings and the packet ring refine it, for
    any packets and any order of the events ([delivery_refines]).  What the
    machine does with its packets is a matter of lists: nothing is lost but
    what the ring overwrites, and only a packet that came too late is written
    twice ([delivery_complete]). *)

From S2P Require Import Prelude Double CString Timestamp Pkt Buffer Reorder Tunnel Loss Wrr Protocol Tuntap Rtun Stage Invariant Events Daemon.

(** ** The abstract machine *)

(** The packets waiting in the pool, with their arrival numbers; the window
    over these numbers; whether the drain timer is active. *)
Record sorter := Sorter {
  so_next : nat;
  so_waiting : list (nat * list Z);
  so_window : option Reorder.machine;
  so_timer : bool
}.

(** The packets with the numbers [out], in that order, and the others. *)
Fixpoint take_out (n : nat) (l : list (nat * list Z)) : list (list Z) * list (nat * list Z) :=
  match l with
  | [] => ([], [])
  | x :: l => if (x.1 =? n)%nat then ([x.2], l) else let '(d, l) := take_out n l in (d, x :: l)
  end.
Fixpoint take_all (out : list nat) (l : list (nat * list Z)) : list (list Z) * list (nat * list Z) :=
  match out with
  | [] => ([], l)
  | n :: out =>
      let '(d, l) := take_out n l in
      let '(ds, l) := take_all out l in
      (d ++ ds, l)
  end.

Section machine.
(** The entries of the pool; whether [ev_timer_again] starts the timer. *)
Context (pool : nat) (armed : bool).

(** A packet: what it makes the stage deliver, and the new state. *)
Definition sorter_receive (s : sorter) (p : mlvpn_pkt_t) : list (list Z) * sorter :=
  match so_window s with
  | None => ([payload p], s)
  | Some m =>
      if (pkt_reorder p =? 0) || (length (so_waiting s) =? pool)%nat then ([payload p], s)
      else
        let n := so_next s in
        let waiting := so_waiting s ++ [(n, payload p)] in
        let '(ret, out, m) := Reorder.machine_step m (Reorder.Packet n (pkt_seq p)) in
        if ret =? 0 then
          let '(ds, waiting) := take_all out waiting in
          (ds, Sorter (S n) waiting (Some m) (negb (bool_decide (waiting = [])) && armed))
        else ([payload p], Sorter (S n) waiting (Some m) (so_timer s))
  end.

(** The drain timer: everything that waits is delivered, in the order of
    arrival, and the window starts afresh. *)
Definition sorter_flush (s : sorter) : list (list Z) * sorter :=
  match so_window s with
  | None => ([], s)
  | Some m => (snd <$> so_waiting s, Sorter (so_next s) [] (Some (Reorder.idle (Z.of_nat (length m.2)))) false)
  end.

(** With the queue of the device, which forgets its oldest packets. *)
Record delivery := Delivery {
  dl_sorter : sorter;
  dl_queue : list (list Z);
  dl_written : list (list Z)
}.

Definition newest {A} (cap : nat) (l : list A) : list A := drop (length l - cap) l.

Inductive stage_input := Received (p : mlvpn_pkt_t) | DrainExpired | DeviceReady.

Definition delivery_step (d : delivery) (i : stage_input) : delivery :=
  match i with
  | Received p =>
      let '(ds, s) := sorter_receive (dl_sorter d) p in
      Delivery s (newest cap (dl_queue d ++ ds)) (dl_written d)
  | DrainExpired =>
      if so_timer (dl_sorter d) then
        let '(ds, s) := sorter_flush (dl_sorter d) in
        Delivery s (newest cap (dl_queue d ++ ds)) (dl_written d)
      else d
  | DeviceReady =>
      match dl_queue d with
      | [] => d
      | x :: q => Delivery (dl_sorter d) q (dl_written d ++ [x])
      end
  end.
Definition delivery_run (d : delivery) (l : list stage_input) : delivery := fold_left delivery_step l d.
End machine.

(** ** The code *)

(** What the loop does with these events: the handler of a watcher is called
    while it is active. *)
Definition stage_handle `{OS} (i : stage_input) : W unit :=
  match i with
  | Received p => mlvpn_rtun_recv_data p;; mret tt
  | DrainExpired => active ← gets w_drain_timer; when active mlvpn_rtun_reorder_drain_timeout
  | DeviceReady => active ← gets (fun w => tt_io_write (w_tuntap w)); when active tuntap_io_write
  end.

Definition written (w : world) : list (list Z) :=
  omap (fun e => match e with TunWrite b => Some b | _ => None end) (w_trace w).
Definition queued (w : world) : list (list Z) := payload <$> Ring.contents (tt_sbuf (w_tuntap w)).

(** A state of the daemon, seen as one of the machine: the arrival numbers of
    the packets that wait are the numbers of their entries. *)
Definition abstract (w : world) : delivery :=
  Delivery
    (Sorter (Z.to_nat (Free.fb_size (w_freebuf w)))
       ((fun e => (e, payload (Free.entry_pkt (w_freebuf w) e))) <$> Free.used_head (w_freebuf w))
       (Reorder.as_machine <$> w_reorder w) (w_drain_timer w))
    (queued w) (written w).

Definition stage_input_ok (i : stage_input) : Prop :=
  match i with Received p => pkt_ok p /\ 0 <= pkt_seq p < 2 ^ 64 | _ => True end.

(** ** Lists *)

Lemma newest_app {A} cap (l k : list A) : newest cap (newest cap l ++ k) = newest cap (l ++ k).
Proof.
  unfold newest. rewrite !length_app, length_drop.
  destruct (decide (length l <= cap)%nat) as [Hl|Hl].
  - replace (length l - cap)%nat with O by lia. rewrite drop_0. f_equal. lia.
  - rewrite !drop_app, drop_drop, length_drop. f_equal; f_equal; lia.
Qed.

Lemma newest_short {A} cap (l : list A) : (length l <= cap)%nat -> newest cap l = l.
Proof. intros Hl. unfold newest. by replace (length l - cap)%nat with O by lia. Qed.

(** The window does not look at the packets it holds. *)
Section rename.
Context (f : nat -> nat).
Abbreviation ren := (fmap (M := list) (fmap (M := option) f)).

Lemma lead_ren w : Reorder.lead (ren w) = Reorder.lead w.
Proof. induction w as [|[p|] w IH]; simpl; auto. Qed.
Lemma somes_ren w : Reorder.somes (ren w) = f <$> Reorder.somes w.
Proof. unfold Reorder.somes. induction w as [|[p|] w IH]; simpl in *; [done| |done]. by f_equal. Qed.
Lemma shift_ren k w : Reorder.shift k (ren w) = ren (Reorder.shift k w).
Proof. unfold Reorder.shift. by rewrite fmap_app, fmap_replicate, fmap_drop. Qed.

Lemma window_step_ren min w p seq :
  Reorder.window_step min (ren w) (f p) seq =
    option_map (fun '(out, min', w') => (fmap (M := list) f out, min', ren w')) (Reorder.window_step min w p seq).
Proof.
  unfold Reorder.window_step, Reorder.run_end. rewrite length_fmap. destruct (_ <? 2 * _); [|done].
  rewrite <- fmap_drop, lead_ren. set (k := if _ <? _ then O else _).
  change (Some (f p)) with (f <$> Some p). rewrite shift_ren, <- list_fmap_insert, lead_ren.
  set (w1 := <[_ := _]> _). simpl. rewrite <- !fmap_take, !somes_ren, shift_ren, fmap_app. done.
Qed.

Definition ren_machine (m : Reorder.machine) : Reorder.machine := (m.1, ren m.2).
Lemma machine_step_ren m p seq :
  Reorder.machine_step (ren_machine m) (Reorder.Packet (f p) seq) =
    let '(ret, out, m) := Reorder.machine_step m (Reorder.Packet p seq) in (ret, fmap (M := list) f out, ren_machine m).
Proof.
  simpl. rewrite window_step_ren. destruct (Reorder.window_step _ _ _ _) as [[[out min'] w']|]; done.
Qed.
End rename.

(** ** The pool as a list *)

(** The entries of the pool that are in use are the packets of [l], in order;
    [f] gives their arrival numbers. *)
Record tracks (f : nat -> nat) (fb : freebuffer_t) (l : list (nat * list Z)) : Prop := {
  tk_pkts : Forall2 (fun e x => f e = x.1 /\ payload (Free.entry_pkt fb e) = x.2) (Free.used_head fb) l;
  tk_inj : NoDup (f <$> Free.used_head fb)
}.

Lemma tracks_numbers f fb l : tracks f fb l -> l.*1 = f <$> Free.used_head fb.
Proof. intros [Hp _]. induction Hp as [|e x us l [He _] _ IH]; [done|]. rewrite !fmap_cons. by f_equal. Qed.

Lemma tracks_length f fb l : tracks f fb l -> length l = length (Free.used_head fb).
Proof. intros [Hp _]. symmetry. by eapply Forall2_length. Qed.

Lemma tracks_pkts f fb l : tracks f fb l -> l.*2 = (fun e => payload (Free.entry_pkt fb e)) <$> Free.used_head fb.
Proof. intros [Hp _]. induction Hp as [|e x us l [_ He] _ IH]; [done|]. rewrite !fmap_cons. by f_equal. Qed.

Lemma take_out_spec (f : nat -> nat) (g : nat -> list Z) p used used' l :
  Forall2 (fun e x => f e = x.1 /\ g e = x.2) used l -> NoDup (f <$> used) ->
  Free.find_remove p used = Some used' ->
  exists l', take_out (f p) l = ([g p], l') /\ Forall2 (fun e x => f e = x.1 /\ g e = x.2) used' l'.
Proof.
  intros HF. revert used'. induction HF as [|e x us l [He Hg] HF IH]; intros used' Hn Hr; [done|].
  cbn [Free.find_remove] in Hr. cbn [take_out fmap list_fmap] in *. apply NoDup_cons in Hn as [Hni Hn].
  destruct (Nat.eqb_spec e p) as [->|Hne].
  - injection Hr as <-. rewrite <- He, Nat.eqb_refl, Hg. by exists l.
  - destruct (Free.find_remove p us) as [us'|] eqn:Hp; [|done]. injection Hr as <-.
    destruct (IH us' Hn eq_refl) as (l' & -> & HF'). rewrite (proj2 (Nat.eqb_neq _ _)).
    + exists (x :: l'). split; [done|]. by constructor.
    + rewrite <- He. intros E. apply Hni. rewrite E. apply list_elem_of_fmap_2. apply Free.find_remove_Some. by eexists.
Qed.

Lemma tracks_free f fb l p fb' :
  tracks f fb l -> Free.mlvpn_freebuffer_free fb p = Some fb' ->
  exists l', take_out (f p) l = ([payload (Free.entry_pkt fb p)], l') /\ tracks f fb' l'.
Proof.
  intros [Hp Hi] Hf. pose proof (Free.free_used _ _ _ Hf) as Hperm. pose proof (free_store _ _ _ Hf) as Hst.
  unfold Free.mlvpn_freebuffer_free in Hf. destruct (Free.find_remove p _) as [us|] eqn:Hr; [|done].
  destruct (take_out_spec f _ p _ us l Hp Hi Hr) as (l' & Ht & HF). exists l'. split; [done|]. injection Hf as <-.
  split; [exact HF|]. rewrite Hperm in Hi. by apply NoDup_cons in Hi as [_ ?].
Qed.

(** A new packet gets a number of its own. *)
Definition renamed (f : nat -> nat) (p n : nat) : nat -> nat := fun e => if (e =? p)%nat then n else f e.

Lemma tracks_get f fb l p fb' n pkt :
  Free.pool_inv fb -> tracks f fb l -> n ∉ l.*1 ->
  Free.mlvpn_freebuffer_get fb = (Some p, fb') ->
  tracks (renamed f p n) (Free.store_pkt p pkt fb') (l ++ [(n, payload pkt)]) /\ p ∉ Free.used_head fb.
Proof.
  intros Hpi Ht Hn Hg. pose proof (tracks_numbers _ _ _ Ht) as Hnum. destruct Ht as [HF Hi].
  pose proof (Free.pool_nodup _ Hpi) as Hnd. pose proof (Free.pi_perm _ Hpi) as Hperm. pose proof (Free.pi_store _ Hpi) as Hst.
  unfold Free.mlvpn_freebuffer_get in Hg. destruct (Free.free_head fb) as [|e rest] eqn:Hfh; [done|]. injection Hg as -> <-.
  assert (p ∉ Free.used_head fb) as Hpu by (apply NoDup_cons in Hnd as [Hnd _]; set_solver).
  assert (p < length (Free.fb_store fb))%nat as Hlt.
  { assert (p ∈ seq 0 (Z.to_nat (Free.fb_size fb))) as Hin by (rewrite <- Hperm; set_solver).
    apply elem_of_seq in Hin. lia. }
  assert (forall e, e ∈ Free.used_head fb -> renamed f p n e = f e) as Hren.
  { intros e He. unfold renamed. destruct (Nat.eqb_spec e p) as [->|]; done. }
  split; [|done]. split; simpl.
  - apply Forall2_app.
    + apply Forall2_same_length_lookup in HF as [Hl HF]. apply Forall2_same_length_lookup. split; [done|].
      intros i e x Hi1 Hi2. destruct (HF i e x Hi1 Hi2) as [H1 H2]. apply list_elem_of_lookup_2 in Hi1.
      rewrite Hren by done. split; [done|].
      unfold Free.entry_pkt in *. simpl. rewrite list_lookup_insert_ne; [done|]. by intros ->.
    + repeat constructor; simpl; [unfold renamed; by rewrite Nat.eqb_refl|].
      unfold Free.entry_pkt. simpl. by rewrite list_lookup_insert_eq.
  - rewrite fmap_app. simpl. unfold renamed at 2. rewrite Nat.eqb_refl.
    assert (renamed f p n <$> Free.used_head fb = f <$> Free.used_head fb) as ->
      by (apply list_fmap_ext; intros i e He; apply Hren; by eapply list_elem_of_lookup_2).
    apply NoDup_app. split_and!; [done| |apply NoDup_singleton]. intros x Hx ->%list_elem_of_singleton. apply Hn. by rewrite Hnum.
Qed.

(** ** The functions of the stage *)

Section refinement.
Context `{OS}.

Lemma wp_inject_queue pkt (Q : unit -> world -> Prop) w :
  tt_ok (w_tuntap w) -> pkt_ok pkt ->
  (forall tt', tt_ok tt' -> tt_devname tt' = tt_devname (w_tuntap w) ->
    queued (w <| w_tuntap := tt' |>) = newest cap (queued w ++ [payload pkt]) -> Q tt (w <| w_tuntap := tt' |>)) ->
  wp (mlvpn_rtun_inject_tuntap pkt) Q w.
Proof.
  intros Ht Hp HQ. apply wp_modify. apply HQ; [by apply inject_ok|simpl; by destruct (tt_io_write (w_tuntap w))|].
  destruct Ht as [[V C _] _ _]. set (fill := fun slot : mlvpn_pkt_t => _).
  destruct (Ring.push_spec (tt_sbuf (w_tuntap w)) fill V) as (slot & Hc & _ & _); [rewrite C; apply cap_pos|].
  transitivity (payload <$> Ring.contents (Ring.push fill (tt_sbuf (w_tuntap w)))).
  { unfold queued. simpl. by destruct (tt_io_write (w_tuntap w)). }
  rewrite Hc, fmap_app, fmap_drop, C. unfold queued, newest. rewrite drop_app_le by (rewrite length_app, !length_fmap; simpl; pose proof cap_pos; lia).
  rewrite length_app, !length_fmap. simpl. f_equal. unfold fill, payload. simpl. f_equal.
  destruct Hp as [Hl _ Hd]. by rewrite take_memcpy by lia.
Qed.

(** A packet the reorder buffer gave. *)
Lemma wp_inject_entry f p rest waiting (Q : unit -> world -> Prop) w :
  tt_ok (w_tuntap w) -> pool_ok (w_freebuf w) -> in_use (w_freebuf w) (p :: rest) ->
  tracks f (w_freebuf w) waiting ->
  (forall tt' fb' d waiting', tt_ok tt' -> tt_devname tt' = tt_devname (w_tuntap w) -> pool_ok fb' ->
    in_use fb' rest -> Free.fb_size fb' = Free.fb_size (w_freebuf w) ->
    take_out (f p) waiting = ([d], waiting') -> tracks f fb' waiting' ->
    let w' := w <| w_tuntap := tt' |> <| w_freebuf := fb' |> in
    queued w' = newest cap (queued w ++ [d]) -> Q tt w') ->
  wp (inject_drained (Some p)) Q w.
Proof.
  intros Ht Hp Hu Htr HQ. unfold inject_drained. wp_steps. eapply wp_expect; [done|]. wp_steps.
  apply wp_inject_queue; [done|by apply entry_pkt_ok|]. intros tt' Htt' Hdev Hq1. wp_steps.
  destruct (proj1 (Free.free_Some (w_freebuf w) p)) as [fb' Hfb']; [apply (proj2 Hu); set_solver|].
  destruct (tracks_free f _ _ _ _ Htr Hfb') as (l' & Htake & Htr').
  eapply wp_expect; [done|]. unfold set_freebuf. wp_steps.
  apply (HQ tt' fb' (payload (Free.entry_pkt (w_freebuf w) p)) l'); try done.
  - eapply pool_ok_eq; [done| |by eapply free_store]. eapply Free.free_inv; [apply Hp|done].
  - eapply in_use_free; [apply Hp|exact Hu|exact Hfb'].
  - unfold Free.mlvpn_freebuffer_free in Hfb'. destruct (Free.find_remove p _); [|done]. by injection Hfb' as <-.
Qed.

Lemma queued_newest w : tt_ok (w_tuntap w) -> newest cap (queued w) = queued w.
Proof.
  intros [[V C _] _ _]. apply newest_short. unfold queued. rewrite length_fmap, <- C. by apply Ring.contents_bound.
Qed.

Lemma wp_inject_list f l : forall rest waiting (Q : unit -> world -> Prop) w,
  tt_ok (w_tuntap w) -> pool_ok (w_freebuf w) -> in_use (w_freebuf w) (l ++ rest) ->
  tracks f (w_freebuf w) waiting ->
  (forall tt' fb' ds waiting', tt_ok tt' -> tt_devname tt' = tt_devname (w_tuntap w) -> pool_ok fb' ->
    in_use fb' rest -> Free.fb_size fb' = Free.fb_size (w_freebuf w) ->
    take_all (f <$> l) waiting = (ds, waiting') -> tracks f fb' waiting' ->
    let w' := w <| w_tuntap := tt' |> <| w_freebuf := fb' |> in
    queued w' = newest cap (queued w ++ ds) -> Q tt w') ->
  wp (for_each (Some <$> l) inject_drained) Q w.
Proof.
  induction l as [|p l IH]; intros rest waiting Q w Ht Hp Hu Htr HQ; simpl.
  - apply wp_ret. pose proof (queued_newest w Ht) as Hn. specialize (HQ (w_tuntap w) (w_freebuf w) [] waiting).
    destruct w. apply HQ; try done. by rewrite app_nil_r.
  - wp_steps. apply (wp_inject_entry f p (l ++ rest) waiting); [done..|].
    intros tt' fb' d l' H1 H2 H3 H4 H5 H6 H7 w1 H8. apply (IH rest l'); [done..|].
    intros tt'' fb'' ds waiting' G1 G2 G3 G4 G5 G6 G7 w' G8.
    apply (HQ tt'' fb'' (d :: ds) waiting'); try done; simpl in G2, G5; try congruence.
    + rewrite fmap_cons. cbn [take_all]. by rewrite H6, G6.
    + etransitivity; [exact G8|]. by rewrite H8, newest_app, <- app_assoc.
Qed.

(** Everything that is in the pool. *)
Lemma wp_inject_pool f fuel : forall d waiting (Q : Z -> world -> Prop) w,
  tt_ok (w_tuntap w) -> pool_ok (w_freebuf w) -> length (Free.used_head (w_freebuf w)) = fuel ->
  tracks f (w_freebuf w) waiting ->
  (forall d' tt' fb', tt_ok tt' -> tt_devname tt' = tt_devname (w_tuntap w) -> pool_ok fb' ->
    Free.used_head fb' = [] -> Free.fb_size fb' = Free.fb_size (w_freebuf w) ->
    let w' := w <| w_tuntap := tt' |> <| w_freebuf := fb' |> in
    queued w' = newest cap (queued w ++ waiting.*2) -> Q d' w') ->
  wp (inject_used fuel d) Q w.
Proof.
  induction fuel as [|fuel IH]; intros d waiting Q w Ht Hp Hl Htr HQ; cbn [inject_used]; wp_steps;
    pose proof (Free.drain_used_inv _ (po_inv _ Hp)) as Hi;
    pose proof (drain_used_store (w_freebuf w)) as Hst;
    unfold Free.mlvpn_freebuffer_drain_used in *;
    destruct (Free.used_head (w_freebuf w)) as [|e rest] eqn:Hu; try done.
  - pose proof (queued_newest w Ht) as Hn. pose proof (tracks_length _ _ _ Htr) as Hlw. rewrite Hu in Hlw. destruct waiting; [|done].
    specialize (HQ d (w_tuntap w) (w_freebuf w) Ht eq_refl Hp Hu eq_refl). destruct w. apply HQ. by rewrite app_nil_r.
  - unfold set_freebuf. wp_steps. cbn [snd] in Hi, Hst. set (fb' := _ <| Free.used_head := rest |> <| _ := _ |> <| _ := _ |>) in *.
    assert (pool_ok fb') as Hp' by (by eapply pool_ok_eq).
    destruct Htr as [Hf Hinj]. rewrite Hu in Hf, Hinj. inversion Hf as [|? x ? l' [Hx1 Hx2] Hf']; subst.
    apply wp_inject_queue; [done|by apply entry_pkt_ok|].
    intros tt' Htt' Hdev Hq. apply (IH _ l'); [done|done|simpl in Hl |- *; lia| |].
    { split; [exact Hf'|]. rewrite fmap_cons in Hinj. by apply NoDup_cons in Hinj as [_ ?]. }
    intros d' tt'' fb'' H1 H2 H3 H4 H5 H6. simpl in Hdev, H2, H5. apply HQ; [done|congruence|done|done|done|].
    etransitivity; [exact H6|]. rewrite fmap_cons, <- Hx2, Hq, newest_app, <- app_assoc. done.
Qed.

#[local] Opaque Reorder.mlvpn_reorder_drain Reorder.mlvpn_reorder_insert.

(** The reorder buffer and its machine on one packet. *)
Lemma insert_machine b p seq :
  Reorder.quiet b -> 0 <= seq < 2 ^ 64 ->
  (exists b1 out b', Reorder.mlvpn_reorder_insert b p seq = Some (0, b1) /\
     Reorder.mlvpn_reorder_drain b1 Reorder.drain_max = (Some <$> out, b') /\
     Reorder.quiet b' /\ out ++ held b' ⊆+ p :: held b /\
     Reorder.machine_step (Reorder.as_machine b) (Reorder.Packet p seq) = (0, out, Reorder.as_machine b')) \/
  (exists b', Reorder.mlvpn_reorder_insert b p seq = Some (-2, b') /\ Reorder.quiet b' /\ held b' = held b /\
     Reorder.machine_step (Reorder.as_machine b) (Reorder.Packet p seq) = (-2, [], Reorder.as_machine b')).
Proof.
  intros Hq Hs. pose proof (Reorder.code_step_spec b (Reorder.Packet p seq) Hq Hs) as Hc.
  destruct (Reorder.machine_step _ _) as [[ret out] m]. destruct Hc as (b2 & Hc & Hq2 & <-).
  cbn [Reorder.code_step] in Hc. unfold Reorder.receive in Hc.
  destruct (insert_cases b p seq Hq Hs) as [(b1 & out' & b' & Hi & Hd & Hq' & Hsub)|(b' & Hi & Hq' & Hh)]; rewrite Hi in Hc;
    cbn [mbind option_bind] in Hc.
  - left. change (0 =? 0) with true in Hc. cbv iota in Hc. rewrite Hd in Hc. injection Hc as <- Ho <-.
    apply (inj (fmap Some)) in Ho as ->. by exists b1, out, b'.
  - right. change (-2 =? 0) with false in Hc. cbv iota in Hc. injection Hc as <- Ho <-. exists b'. destruct out; done.
Qed.

Lemma ren_held (f g : nat -> nat) (w : list (option nat)) :
  (forall e, e ∈ Reorder.somes w -> f e = g e) -> fmap (M := list) (fmap (M := option) f) w = fmap (M := list) (fmap (M := option) g) w.
Proof.
  induction w as [|[e|] w IH]; intros Hfg; [done| |]; rewrite !fmap_cons; simpl; f_equal.
  - f_equal. apply Hfg. set_solver.
  - apply IH. intros e' He'. apply Hfg. unfold Reorder.somes in *. simpl. set_solver.
  - apply IH. intros e' He'. by apply Hfg.
Qed.

(** ** The simulation *)

Context (pool : nat) (armed : bool).

Record refines (w : world) (d : delivery) : Prop := {
  rf_stage : stage_ok w;
  rf_queue : queued w = dl_queue d;
  rf_written : written w = dl_written d;
  rf_timer : w_drain_timer w = so_timer (dl_sorter d);
  rf_armed : negb (deqb (w_drain_repeat w) (d_of_Z 0)) = armed;
  rf_pool : Z.to_nat (Free.fb_size (w_freebuf w)) = pool;
  rf_fresh : Forall (fun x => (x.1 < so_next (dl_sorter d))%nat) (so_waiting (dl_sorter d));
  rf_sorted : exists f, tracks f (w_freebuf w) (so_waiting (dl_sorter d)) /\
                so_window (dl_sorter d) = (fun b => ren_machine f (Reorder.as_machine b)) <$> w_reorder w
}.

(** The packet goes to the device and nothing else changes. *)
Lemma refines_inject w d tt' ds :
  refines w d -> tt_ok tt' -> queued (w <| w_tuntap := tt' |>) = newest cap (queued w ++ ds) ->
  refines (w <| w_tuntap := tt' |>) (Delivery (dl_sorter d) (newest cap (dl_queue d ++ ds)) (dl_written d)).
Proof.
  intros [[S1 S2 S3] Hq Hw Htm Ha Hp Hf Hs] Ht Hd. split; simpl; try done. by rewrite <- Hq.
Qed.

Lemma take_out_sub n l : (take_out n l).2 ⊆+ l.
Proof.
  induction l as [|x l IH]; simpl; [done|]. destruct (_ =? _)%nat; simpl; [by apply submseteq_cons|].
  destruct (take_out n l) as [d l']. by apply submseteq_skip.
Qed.
Lemma take_all_sub out l : (take_all out l).2 ⊆+ l.
Proof.
  revert l. induction out as [|n out IH]; intros l; simpl; [done|]. pose proof (take_out_sub n l) as Ho.
  destruct (take_out n l) as [d l']. specialize (IH l'). destruct (take_all out l') as [ds l'']. simpl in *. by etransitivity.
Qed.

Lemma fresh_take out l n :
  Forall (fun x : nat * list Z => (x.1 < n)%nat) l -> Forall (fun x => (x.1 < n)%nat) (take_all out l).2.
Proof.
  rewrite !Forall_forall. intros Hl x Hx. apply Hl. by eapply elem_of_submseteq, take_all_sub.
Qed.

(** The end of [mlvpn_rtun_recv_data]: the timer runs while packets wait. *)
Lemma wp_settle drained (Q : Z -> world -> Prop) w waiting f :
  Free.pool_inv (w_freebuf w) -> tracks f (w_freebuf w) waiting ->
  negb (deqb (w_drain_repeat w) (d_of_Z 0)) = armed ->
  Q drained (w <| w_drain_timer := negb (bool_decide (waiting = [])) && armed |>) ->
  wp (drained ← (fb ← gets w_freebuf; when (Free.fb_used fb =? 0) (set_drain_timer false);; mret drained);
      fb ← gets w_freebuf; when (0 <? Free.fb_used fb) timer_again;; mret drained) Q w.
Proof.
  intros Hi Ht <- HQ. pose proof (tracks_length _ _ _ Ht) as Hl. wp_steps. rewrite (Free.pi_used _ Hi), <- Hl.
  unfold set_drain_timer, timer_again, set_drain_timer. destruct waiting as [|x waiting]; cbn [length] in *.
  - rewrite bool_decide_true in HQ by done. simpl (_ =? 0). cbn [when]. wp_steps. simpl (w_freebuf _).
    rewrite (Free.pi_used _ Hi), <- Hl. simpl (0 <? _). cbn [when]. by wp_steps.
  - rewrite bool_decide_false in HQ by done. rewrite (proj2 (Z.eqb_neq _ _)) by lia. cbn [when]. wp_steps.
    rewrite (Free.pi_used _ Hi), <- Hl, (proj2 (Z.ltb_lt _ _)) by lia. cbn [when]. by wp_steps.
Qed.

(** An entry of the pool is taken for a packet, which gets the number [next]:
    the machine does with the numbers what the buffer does with the entries. *)
Lemma entry_taken f fb waiting p fb' next inpkt b :
  pool_ok fb -> tracks f fb waiting -> Forall (fun x => (x.1 < next)%nat) waiting ->
  Free.mlvpn_freebuffer_get fb = (Some p, fb') -> in_use fb (held b) -> pkt_ok inpkt ->
  exists g, tracks g (Free.store_pkt p inpkt fb') (waiting ++ [(next, payload inpkt)]) /\
    pool_ok (Free.store_pkt p inpkt fb') /\ in_use fb' (p :: held b) /\ Free.fb_size fb' = Free.fb_size fb /\
    Forall (fun x : nat * list Z => (x.1 < S next)%nat) (waiting ++ [(next, payload inpkt)]) /\
    forall seq, Reorder.machine_step (ren_machine f (Reorder.as_machine b)) (Reorder.Packet next seq) =
      let '(ret, out, m) := Reorder.machine_step (Reorder.as_machine b) (Reorder.Packet p seq) in
      (ret, fmap (M := list) g out, ren_machine g m).
Proof.
  intros Hp Htr Hfr Hg Hin Hpkt. assert (next ∉ waiting.*1) as Hnew.
  { intros (x & -> & Hx)%list_elem_of_fmap. rewrite Forall_forall in Hfr. specialize (Hfr x Hx). lia. }
  destruct (tracks_get f _ _ p fb' next inpkt (po_inv _ Hp) Htr Hnew Hg) as [Htr1 Hpu].
  destruct (get_in_use _ _ _ (held b) Hp Hg Hin) as [Hp1 Hin1].
  exists (renamed f p next). split_and!; [done|by apply store_pool_ok|done| | |].
  - unfold Free.mlvpn_freebuffer_get in Hg. destruct (Free.free_head _); [done|]. by injection Hg as _ <-.
  - apply Forall_app. split; [eapply Forall_impl; [exact Hfr|]; simpl; lia|repeat constructor; simpl; lia].
  - intros seq. rewrite <- machine_step_ren. f_equal; [|unfold renamed; by rewrite Nat.eqb_refl].
    unfold ren_machine. f_equal. apply ren_held. intros e He. unfold renamed. destruct (Nat.eqb_spec e p) as [->|]; [|done].
    destruct Hpu. by apply (proj2 Hin).
Qed.

(** A packet for the window. *)
Lemma wp_recv_window inpkt (Q : Z -> world -> Prop) w d b :
  refines w d -> w_reorder w = Some b -> pkt_ok inpkt -> 0 <= pkt_seq inpkt < 2 ^ 64 -> pkt_reorder inpkt <> 0 ->
  (forall r w', refines w' (delivery_step pool armed d (Received inpkt)) -> Q r w') ->
  wp (recv_reordered inpkt) Q w.
Proof.
  intros Hrf Hb Hpkt Hseq Hre HQ. pose proof Hrf as [[Ht Hp Hr] Hqu Hwr Htm Harm Hpool Hfr (f & Htr & Hwin)].
  rewrite Hb in Hr, Hwin. destruct Hr as [Hq Hin]. simpl in Hwin.
  destruct d as [[next waiting win tm] queue wr]. cbn [dl_sorter dl_queue dl_written so_next so_waiting so_window so_timer] in *.
  revert HQ. cbn [delivery_step]. unfold sorter_receive.
  cbn [dl_sorter dl_queue dl_written so_next so_waiting so_window so_timer]. subst win. rewrite (proj2 (Z.eqb_neq _ _) Hre).
  intros HQ. unfold recv_reordered. wp_steps. pose proof (Free.get_None _ (po_inv _ Hp)) as Hnone.
  pose proof (Free.pi_size _ (po_inv _ Hp)) as Hps. pose proof (Free.pi_used _ (po_inv _ Hp)) as Hused. pose proof (tracks_length _ _ _ Htr) as Hlen.
  destruct (Free.mlvpn_freebuffer_get (w_freebuf w)) as [[p|] fb] eqn:Hg; cbn [fst] in Hnone.
  2: { rewrite (proj2 (Nat.eqb_eq _ _)) in HQ by (destruct Hnone as [Hn _]; specialize (Hn eq_refl); lia).
       wp_steps. apply wp_inject_queue; [done|done|]. intros tt' Htt' Hdev Hq'. wp_steps. apply HQ.
       apply (refines_inject w (Delivery (Sorter next waiting _ tm) queue wr) tt' [payload inpkt]); done. }
  rewrite (proj2 (Nat.eqb_neq _ _)) in HQ by (intros Hl; assert (Some p = None) by (apply Hnone; lia); done).
  cbn [orb] in HQ. destruct (entry_taken f _ waiting p fb next inpkt b Hp Htr Hfr Hg Hin Hpkt)
    as (g & Htr1 & Hp2 & Hin1 & Hsz & Hfr1 & Hms). specialize (Hms (pkt_seq inpkt)).
  unfold set_freebuf, reorder_buffer, set_reorder. wp_steps. simpl (w_reorder _). rewrite Hb.
  eapply wp_expect; [done|].
  destruct (insert_machine b p (pkt_seq inpkt) Hq Hseq)
    as [(b1 & out & b2 & Hi & Hd & Hq2 & Hsub & Hm)|(b2 & Hi & Hq2 & Hh & Hm)]; rewrite Hi; rewrite Hm in Hms; rewrite Hms in HQ;
    eapply wp_bind, wp_expect; try done; cbv beta iota; wp_steps.
  - change (0 =? -2) with false. change (0 =? -1) with false. change (0 =? 0) with true in HQ. cbv iota in HQ |- *.
    unfold mlvpn_rtun_reorder_drain, reorder_buffer, set_reorder. wp_steps. simpl (w_reorder _).
    eapply wp_expect; [done|]. rewrite Hd. wp_steps.
    apply (wp_inject_list g out (held b2) (waiting ++ [(next, payload inpkt)])); [done|done| |done|].
    { simpl. eapply in_use_sub; [|exact Hsub]. exact Hin1. }
    intros tt' fb' ds waiting' H1 H2 H3 H4 H5 H6 H7 w1 H8. rewrite H6 in HQ.
    apply wp_ret. apply wp_bind_inv. eapply wp_settle; [apply H3|exact H7|done|]. apply HQ.
    split; simpl; try done.
    + rewrite <- Hqu. exact H8.
    + simpl in H5. by rewrite H5, Hsz.
    + pose proof (fresh_take (g <$> out) _ _ Hfr1) as Hft. by rewrite H6 in Hft.
    + by exists g.
  - change (-2 =? -2) with true. change (-2 =? 0) with false in HQ. cbv iota in HQ |- *. wp_steps.
    apply wp_inject_queue; [done|done|]. intros tt' Htt' Hdev Hq'. wp_steps. apply HQ.
    split; simpl; try done.
    + split; try done. simpl. split; [done|]. rewrite Hh. eapply in_use_sub; [exact Hin1|]. by apply submseteq_cons.
    + rewrite <- Hqu. exact Hq'.
    + by rewrite Hsz.
    + by exists g.
Qed.

Lemma wp_received inpkt (Q : Z -> world -> Prop) w d :
  refines w d -> pkt_ok inpkt -> 0 <= pkt_seq inpkt < 2 ^ 64 ->
  (forall r w', refines w' (delivery_step pool armed d (Received inpkt)) -> Q r w') ->
  wp (mlvpn_rtun_recv_data inpkt) Q w.
Proof.
  intros Hrf Hpkt Hseq HQ. unfold mlvpn_rtun_recv_data. wp_steps.
  destruct (bool_decide (w_reorder w = None) || (pkt_reorder inpkt =? 0)) eqn:Hdirect.
  - wp_steps. apply wp_inject_queue; [apply Hrf|done|]. intros tt' Htt' Hdev Hq'. wp_steps. apply HQ.
    pose proof (refines_inject w d tt' [payload inpkt] Hrf Htt' Hq') as Hr. destruct (rf_sorted _ _ Hrf) as (f & _ & Hwin).
    cbn [delivery_step]. unfold sorter_receive. rewrite Hwin. destruct (w_reorder w) as [b|]; [|exact Hr].
    simpl in Hdirect. simpl. rewrite Hdirect. exact Hr.
  - apply orb_false_iff in Hdirect as [Hb Hre]. apply Z.eqb_neq in Hre. apply bool_decide_eq_false in Hb.
    destruct (w_reorder w) as [b|] eqn:E; [|done]. by apply (wp_recv_window inpkt Q w d b).
Qed.

Lemma ren_idle f s : ren_machine f (Reorder.idle s) = Reorder.idle s.
Proof. unfold ren_machine, Reorder.idle. simpl. by rewrite fmap_replicate. Qed.

(** The forced drain. *)
Lemma wp_expired (Q : unit -> world -> Prop) w d :
  refines w d -> w_drain_timer w = true ->
  (forall w', refines w' (delivery_step pool armed d DrainExpired) -> Q tt w') ->
  wp mlvpn_rtun_reorder_drain_timeout Q w.
Proof.
  intros Hrf Htm HQ. pose proof Hrf as [[Ht Hp Hr] Hqu Hwr Htm' Harm Hpool Hfr (f & Htr & Hwin)].
  destruct (w_reorder w) as [b|] eqn:Hb; [|congruence]. destruct Hr as [Hq _].
  cbn [delivery_step] in HQ. rewrite <- Htm', Htm in HQ. unfold sorter_flush in HQ. rewrite Hwin in HQ. cbn [fmap option_fmap option_map] in HQ.
  unfold mlvpn_rtun_reorder_drain_timeout, mlvpn_rtun_reorder_drain. wp_steps.
  apply (wp_inject_pool f _ _ (so_waiting (dl_sorter d))); [done|done|done|done|].
  intros dr tt' fb' Htt' Hdev Hfb' Hu Hsz w1 Hq1. unfold set_freebuf, reset_reorder, reorder_buffer. wp_steps. simpl (w_reorder _). rewrite Hb.
  eapply wp_expect; [done|]. unfold set_reorder, set_drain_timer. wp_steps. simpl (w_freebuf _).
  simpl (Free.fb_used _ =? 0). cbn [when]. wp_steps. simpl (w_freebuf _). simpl (Free.fb_used _ =? 0). cbn [when]. wp_steps.
  destruct (reset_in_use b (Free.mlvpn_freebuffer_reset fb') Hq) as [Hq' Hin].
  destruct (Reorder.code_step_spec b Reorder.ResetBuffer Hq Logic.I) as (b' & Hb' & _ & Hm). injection Hb' as <-.
  apply HQ. split; simpl; try done.
  - split; [done|by apply reset_pool_ok|]. done.
  - rewrite <- Hqu. exact Hq1.
  - by rewrite Hsz.
  - exists f. split; [split; constructor|]. f_equal. by rewrite Hm, ren_idle, length_fmap.
Qed.

Lemma wp_ready (Q : unit -> world -> Prop) w d :
  refines w d -> (forall w', refines w' (delivery_step pool armed d DeviceReady) -> Q tt w') ->
  wp (stage_handle DeviceReady) Q w.
Proof.
  intros Hrf HQ. pose proof Hrf as [[[Hring Hio Hm] Hp Hr] Hqu Hwr Htm Harm Hpool Hfr Hs]. pose proof Hring as [V C F].
  cbn [stage_handle]. wp_steps. rewrite Hio. cbn [delivery_step] in HQ. unfold queued in Hqu.
  destruct (Ring.contents (tt_sbuf (w_tuntap w))) as [|p l] eqn:Hc.
  { rewrite (proj2 (Ring.is_empty_spec _ V) Hc). simpl. wp_steps. rewrite <- Hqu in HQ. by apply HQ. }
  rewrite fmap_cons in Hqu. rewrite <- Hqu in HQ. assert (Ring.is_empty (tt_sbuf (w_tuntap w)) = false) as He.
  { apply not_true_iff_false. rewrite Ring.is_empty_spec, Hc by done. done. }
  rewrite He. cbn [negb when]. unfold tuntap_io_write, mlvpn_tuntap_write. wp_steps. rewrite He.
  pose proof (Ring.pop_spec _ p l V Hc) as (Hpop & Hl & _ & _). unfold Ring.pop in *.
  destruct (Ring.mlvpn_pktbuffer_read (tt_sbuf (w_tuntap w))) as [slot ring] eqn:Hrd. cbn [fst snd] in *.
  destruct (Ring.read_inv _ _ cap_pos _ _ _ Hring Hrd) as [Hri _]. rewrite Hpop.
  unfold set_tuntap, emit, ask. wp_steps. unfold wp at 1. wp_steps. simpl (tt_sbuf _).
  assert (forall io, io = negb (Ring.is_empty ring) ->
    refines (w <| w_tuntap := (w_tuntap w) <| tt_sbuf := ring |> <| tt_io_write := io |> |>
               <| w_trace := w_trace w ++ [TunWrite (payload p)] |> <| w_calls := S (w_calls w) |>)
      (Delivery (dl_sorter d) (payload <$> l) (dl_written d ++ [payload p]))) as Hdone.
  { intros io ->. split; simpl; try done; [by unfold queued; simpl; rewrite Hl|].
    unfold written in *. simpl. rewrite omap_app, Hwr. done. }
  destruct (Ring.is_empty ring); cbn [when]; wp_steps; apply HQ.
  - by apply (Hdone false).
  - specialize (Hdone true eq_refl). rewrite He in Hio. simpl in Hio. destruct (w_tuntap w). simpl in *. by subst.
Qed.

Lemma wp_stage_handle i w d :
  refines w d -> stage_input_ok i -> wp (stage_handle i) (fun _ w' => refines w' (delivery_step pool armed d i)) w.
Proof.
  intros Hrf Hi. destruct i as [p| |]; [| |by apply wp_ready with d].
  - cbn [stage_handle]. wp_steps. destruct Hi. apply (wp_received p _ w d); [done..|]. intros r w' Hr. by wp_steps.
  - cbn [stage_handle]. wp_steps. destruct (w_drain_timer w) eqn:Ht; cbn [when].
    + by apply (wp_expired _ w d).
    + wp_steps. cbn [delivery_step]. by rewrite <- (rf_timer _ _ Hrf), Ht.
Qed.

Lemma wp_stage_run l : forall w d,
  refines w d -> Forall stage_input_ok l ->
  wp (for_each l stage_handle) (fun _ w' => refines w' (delivery_run pool armed d l)) w.
Proof.
  induction l as [|i l IH]; intros w d Hrf Hl; cbn [for_each]; wp_steps; [done|].
  apply Forall_cons in Hl as [Hi Hl]. eapply wp_mono; [by apply wp_stage_handle|]. intros [] w' Hrf'. by apply IH.
Qed.
End refinement.

(** The size of the pool and whether the drain timer can start. *)
Definition pool_size (w : world) : nat := Z.to_nat (Free.fb_size (w_freebuf w)).
Definition timer_armed (w : world) : bool := negb (deqb (w_drain_repeat w) (d_of_Z 0)).
Definition pooled (w : world) : list (list Z) :=
  (fun e => payload (Free.entry_pkt (w_freebuf w) e)) <$> Free.used_head (w_freebuf w).

Lemma abstract_refines w : stage_ok w -> refines (pool_size w) (timer_armed w) w (abstract w).
Proof.
  intros Hs. pose proof (sg_pool _ Hs) as [Hi _]. pose proof (Free.pool_nodup _ Hi) as Hn. apply NoDup_app in Hn as (_ & _ & Hn).
  split; simpl; try done.
  - apply Forall_fmap, Forall_forall. intros e He. simpl.
    assert (e ∈ seq 0 (Z.to_nat (Free.fb_size (w_freebuf w)))) as Hin by (rewrite <- (Free.pi_perm _ Hi); set_solver).
    apply elem_of_seq in Hin. lia.
  - exists id. split.
    + split; [|by rewrite list_fmap_id]. apply Forall2_fmap_r. by apply Forall_Forall2_diag, Forall_forall.
    + destruct (w_reorder w) as [b|]; [|done]. simpl. f_equal. unfold ren_machine. destruct (Reorder.as_machine b) as [m win].
      simpl. f_equal. symmetry. etransitivity; [|apply list_fmap_id]. apply list_fmap_ext. intros i [x|] _; done.
Qed.

Lemma reachable_refined `{SodiumLaws} o title key w l :
  good_options o = true -> reachable o title key w -> Forall stage_input_ok l ->
  exists w', for_each l stage_handle w = Ok tt w' /\
    refines (pool_size w) (timer_armed w) w' (delivery_run (pool_size w) (timer_armed w) (abstract w) l) /\ stage_ok w.
Proof.
  intros Hg Hr Hl. pose proof (v_stage _ (wv_0 _ (reachable_winv o title key w Hg Hr))) as Hs.
  pose proof (wp_stage_run _ _ l w _ (abstract_refines w Hs) Hl) as Hw. apply wp_ok in Hw as ([] & w' & Hrun & Hrf).
  by exists w'.
Qed.

Lemma refines_pooled pool armed w d : refines pool armed w d -> pooled w = (so_waiting (dl_sorter d)).*2.
Proof. intros Hrf. destruct (rf_sorted _ _ _ _ Hrf) as (f & Htr & _). symmetry. by apply (tracks_pkts f). Qed.

(** C3: from every state the daemon reaches, and for any packets, expirations of
    the drain timer and calls of the device in any order, the code of the
    receiving side (the pool with its two queues, the reorder buffer with its
    rings and masks, the ring of the device, the timer) does not fault and
    does exactly what the abstract machine does: the same packets are written
    to the device in the same order, the same ones are queued for it, the same
    ones wait, and the drain timer is active in the same states. *)
Theorem delivery_refines `{SodiumLaws} o title key w l :
  good_options o = true -> reachable o title key w -> Forall stage_input_ok l ->
  let d := delivery_run (pool_size w) (timer_armed w) (abstract w) l in
  exists w', for_each l stage_handle w = Ok tt w' /\
    written w' = dl_written d /\ queued w' = dl_queue d /\
    pooled w' = (so_waiting (dl_sorter d)).*2 /\ w_drain_timer w' = so_timer (dl_sorter d).
Proof.
  intros Hg Hr Hl d. destruct (reachable_refined o title key w l Hg Hr Hl) as (w' & Hrun & Hrf & _).
  exists w'. split; [done|]. pose proof (refines_pooled _ _ _ _ Hrf). by destruct Hrf.
Qed.

(** The packets 10, 12, 2 and 11 of a peer, in this order. *)
Definition demo_pkt (n b : Z) : mlvpn_pkt_t := Pkt 1 MLVPN_PKT_DATA 1 n (b :: zeroes (DEFAULT_MTU - 1)).
Definition demo_inputs : list stage_input :=
  [Received (demo_pkt 10 65); DeviceReady; Received (demo_pkt 12 67); Received (demo_pkt 2 68); DeviceReady;
   Received (demo_pkt 11 66); DeviceReady; DeviceReady; DrainExpired; DeviceReady].

Lemma demo_inputs_ok : Forall stage_input_ok demo_inputs.
Proof. repeat constructor; simpl; done || (unfold DEFAULT_MTU; lia). Qed.

Lemma delivery_refines_witness :
  exists w w', reachable (H := os_ideal) demo_options (Some "mlvpn") demo_key w /\
    for_each demo_inputs (stage_handle (H := os_ideal)) w = Ok tt w' /\
    written w' = [[65]; [68]; [66]; [67]; [68]] /\ queued w' = [] /\ pooled w' = [] /\ w_drain_timer w' = false.
Proof.
  destruct (run_witness (H := os_ideal) demo_options (Some "mlvpn") demo_key [EvAdjust] (fun w =>
      bool_decide ((fun d => (dl_written d, dl_queue d, (so_waiting (dl_sorter d)).*2, so_timer (dl_sorter d)))
          (delivery_run (pool_size w) (timer_armed w) (abstract w) demo_inputs) =
        ([[65]; [68]; [66]; [67]; [68]], [], [], false)))) as (w & Hr & Hp); [vm_compute; reflexivity|].
  apply bool_decide_eq_true_1 in Hp.
  destruct (@delivery_refines os_ideal os_ideal_sodium demo_options (Some "mlvpn") demo_key w demo_inputs eq_refl Hr demo_inputs_ok)
    as (w' & Hrun & H1 & H2 & H3 & H4).
  exists w, w'. simplify_eq. split_and!; congruence.
Defined.

(** ** Nothing is lost on the way *)

Section balance.
Context (pool : nat) (armed : bool).

(** The packets received; those the window refuses, which stay in the pool all
    the same; those the ring of the device overwrites. *)
Definition received_of (l : list stage_input) : list (list Z) :=
  omap (fun i => match i with Received p => Some (payload p) | _ => None end) l.
Definition refused (s : sorter) (p : mlvpn_pkt_t) : list (list Z) :=
  match so_window s with
  | None => []
  | Some m =>
      if (pkt_reorder p =? 0) || (length (so_waiting s) =? pool)%nat then []
      else if (Reorder.machine_step m (Reorder.Packet (so_next s) (pkt_seq p))).1.1 =? 0 then [] else [payload p]
  end.
Definition refused_by (d : delivery) (i : stage_input) : list (list Z) :=
  match i with Received p => refused (dl_sorter d) p | _ => [] end.
Definition injected (d : delivery) (i : stage_input) : list (list Z) :=
  match i with
  | Received p => (sorter_receive pool armed (dl_sorter d) p).1
  | DrainExpired => if so_timer (dl_sorter d) then (sorter_flush (dl_sorter d)).1 else []
  | DeviceReady => []
  end.
Definition oldest {A} (cap : nat) (l : list A) : list A := take (length l - cap) l.

(** All the packets a state of the machine knows. *)
Definition known (d : delivery) : list (list Z) := dl_written d ++ dl_queue d ++ (so_waiting (dl_sorter d)).*2.

Lemma take_out_balance n l : (take_out n l).1 ++ (take_out n l).2.*2 ≡ₚ l.*2.
Proof.
  induction l as [|x l IH]; simpl; [done|]. destruct (_ =? _)%nat; simpl; [done|].
  destruct (take_out n l) as [d l']. simpl in *. rewrite <- Permutation_middle. by rewrite IH.
Qed.
Lemma take_all_balance out l : (take_all out l).1 ++ (take_all out l).2.*2 ≡ₚ l.*2.
Proof.
  revert l. induction out as [|n out IH]; intros l; simpl; [done|]. pose proof (take_out_balance n l) as Ho.
  destruct (take_out n l) as [d l']. specialize (IH l'). destruct (take_all out l') as [ds l'']. simpl in *.
  by rewrite <- app_assoc, IH.
Qed.

Lemma receive_balance s p :
  (sorter_receive pool armed s p).1 ++ (so_waiting (sorter_receive pool armed s p).2).*2 ≡ₚ
    (so_waiting s).*2 ++ payload p :: refused s p.
Proof.
  unfold sorter_receive, refused. destruct (so_window s) as [m|]; [|simpl; by rewrite <- Permutation_middle, app_nil_r].
  destruct (_ || _); [simpl; by rewrite <- Permutation_middle, app_nil_r|].
  destruct (Reorder.machine_step _ _) as [[ret out] m']. simpl. destruct (ret =? 0).
  - pose proof (take_all_balance out (so_waiting s ++ [(so_next s, payload p)])) as Hb.
    destruct (take_all out _) as [ds l]. simpl in *. by rewrite Hb, fmap_app.
  - simpl. rewrite fmap_app. apply Permutation_middle.
Qed.

Lemma newest_oldest {A} cap (l : list A) : newest cap l ++ oldest cap l ≡ₚ l.
Proof. unfold newest, oldest. by rewrite Permutation_app_comm, take_drop. Qed.

Definition step_lost (d : delivery) (i : stage_input) : list (list Z) := oldest cap (dl_queue d ++ injected d i).

(** One event: the packets known before and the one received are those known
    after and those overwritten, and a refused one is there twice. *)
Lemma step_balance d i :
  (length (dl_queue d) <= cap)%nat ->
  known (delivery_step pool armed d i) ++ step_lost d i ≡ₚ known d ++ received_of [i] ++ refused_by d i.
Proof.
  intros Hc. unfold known, step_lost. destruct i as [p| |]; simpl.
  - pose proof (receive_balance (dl_sorter d) p) as Hb. destruct (sorter_receive _ _ _ _) as [ds s]. simpl in *.
    rewrite <- !app_assoc. f_equiv. rewrite (Permutation_app_comm _.*2), app_assoc, newest_oldest, <- !app_assoc.
    f_equiv. exact Hb.
  - rewrite app_nil_r. destruct (so_timer (dl_sorter d)).
    + unfold sorter_flush. destruct (so_window _) as [m|]; simpl.
      * rewrite app_nil_r, <- app_assoc. f_equiv. apply newest_oldest.
      * rewrite app_nil_r, <- !app_assoc. f_equiv. rewrite (Permutation_app_comm _.*2), app_assoc, newest_oldest. done.
    + unfold oldest. rewrite app_nil_r. replace (_ - _)%nat with O by lia. by rewrite app_nil_r.
  - rewrite !app_nil_r. unfold oldest. replace (_ - _)%nat with O by lia. rewrite app_nil_r.
    destruct (dl_queue d) as [|x q] eqn:E; simpl; [by rewrite E|]. by rewrite <- app_assoc.
Qed.

Lemma step_queue d i : (length (dl_queue d) <= cap)%nat -> (length (dl_queue (delivery_step pool armed d i)) <= cap)%nat.
Proof.
  intros Hc. assert (forall l : list (list Z), (length (newest cap l) <= cap)%nat) as Hn.
  { intros l. unfold newest. rewrite length_drop. lia. }
  destruct i as [p| |]; cbn [delivery_step].
  - destruct (sorter_receive _ _ _ _). apply Hn.
  - destruct (so_timer _); [|done]. destruct (sorter_flush _). apply Hn.
  - destruct (dl_queue d) as [|x q] eqn:E; simpl in *; rewrite ?E; simpl; lia.
Qed.

Fixpoint lost_by (d : delivery) (l : list stage_input) : list (list Z) :=
  match l with [] => [] | i :: l => step_lost d i ++ lost_by (delivery_step pool armed d i) l end.
Fixpoint late_by (d : delivery) (l : list stage_input) : list (list Z) :=
  match l with [] => [] | i :: l => refused_by d i ++ late_by (delivery_step pool armed d i) l end.

Lemma run_balance l : forall d,
  (length (dl_queue d) <= cap)%nat ->
  known (delivery_run pool armed d l) ++ lost_by d l ≡ₚ known d ++ received_of l ++ late_by d l.
Proof.
  induction l as [|i l IH]; intros d Hc; [done|]. cbn [lost_by late_by]. change (i :: l) with ([i] ++ l).
  unfold received_of. rewrite omap_app. fold (received_of l) (received_of [i]).
  change (delivery_run pool armed d ([i] ++ l)) with (delivery_run pool armed (delivery_step pool armed d i) l).
  rewrite (Permutation_app_comm (step_lost d i)), app_assoc, IH by (by apply step_queue).
  rewrite <- app_assoc, (Permutation_app_comm _ (step_lost d i)), app_assoc, step_balance by done.
  rewrite <- !app_assoc. f_equiv. f_equiv. by rewrite (Permutation_app_swap_app (refused_by d i)).
Qed.

Lemma late_sub l : forall d, late_by d l ⊆+ received_of l.
Proof.
  induction l as [|i l IH]; intros d; cbn [late_by]; [done|]. change (i :: l) with ([i] ++ l). unfold received_of. rewrite omap_app.
  apply submseteq_app; [|apply IH]. destruct i as [p| |]; simpl; [|done..]. unfold refused.
  destruct (so_window _); [|apply submseteq_nil_l]. destruct (_ || _); [apply submseteq_nil_l|]. destruct (_ =? 0); [apply submseteq_nil_l|done].
Qed.

(** A packet needs room for itself and for a second copy. *)
Lemma step_size d i :
  (length (dl_queue d ++ injected d i) + length (so_waiting (dl_sorter (delivery_step pool armed d i))) <=
    length (dl_queue d) + length (so_waiting (dl_sorter d)) + 2 * length (received_of [i]))%nat.
Proof.
  rewrite length_app. destruct i as [p| |]; simpl.
  - pose proof (Permutation_length (receive_balance (dl_sorter d) p)) as Hl. rewrite !length_app, !length_fmap in Hl. simpl in Hl.
    assert (length (refused (dl_sorter d) p) <= 1)%nat as H1.
    { unfold refused. destruct (so_window _); [|simpl; lia]. destruct (_ || _); [simpl; lia|]. destruct (_ =? 0); simpl; lia. }
    destruct (sorter_receive _ _ _ _) as [ds s]. simpl in *. lia.
  - destruct (so_timer _); [|simpl; lia]. unfold sorter_flush. destruct (so_window _); simpl; [rewrite length_fmap|]; lia.
  - destruct (dl_queue d) eqn:E; simpl; rewrite ?E; simpl; lia.
Qed.

Lemma step_queue_le d i : (length (dl_queue (delivery_step pool armed d i)) <= length (dl_queue d ++ injected d i))%nat.
Proof.
  rewrite length_app. destruct i as [p| |]; simpl.
  - destruct (sorter_receive _ _ _ _) as [ds s]. simpl. unfold newest. rewrite length_drop, length_app. lia.
  - destruct (so_timer _); [|simpl; lia]. destruct (sorter_flush _) as [ds s]. simpl. unfold newest. rewrite length_drop, length_app. lia.
  - destruct (dl_queue d) as [|x q] eqn:E; simpl; rewrite ?E; simpl; lia.
Qed.

Lemma lost_none l : forall d,
  (length (dl_queue d) + length (so_waiting (dl_sorter d)) + 2 * length (received_of l) <= cap)%nat -> lost_by d l = [].
Proof.
  induction l as [|i l IH]; intros d Hl; [done|]. change (i :: l) with ([i] ++ l) in Hl. unfold received_of in Hl.
  rewrite omap_app, length_app in Hl. fold (received_of l) (received_of [i]) in Hl. pose proof (step_size d i) as Hs.
  pose proof (step_queue_le d i) as Hq. cbn [lost_by]. rewrite IH by lia. unfold step_lost, oldest.
  by replace (_ - _)%nat with O by lia.
Qed.
End balance.

(** C4: from every state the daemon reaches, the receiving side loses nothing
    but what the ring of the device overwrites and makes nothing up: the
    packets written to the device, queued for it, waiting in the pool and
    overwritten are, with their number, those there were, those received and a
    second copy of those that came too late for the window.  Nothing is
    overwritten when there is room for twice the packets received. *)
Theorem delivery_complete `{SodiumLaws} o title key w l :
  good_options o = true -> reachable o title key w -> Forall stage_input_ok l ->
  let lost := lost_by (pool_size w) (timer_armed w) (abstract w) l in
  let late := late_by (pool_size w) (timer_armed w) (abstract w) l in
  exists w', for_each l stage_handle w = Ok tt w' /\
    written w' ++ queued w' ++ pooled w' ++ lost ≡ₚ written w ++ queued w ++ pooled w ++ received_of l ++ late /\
    late ⊆+ received_of l /\
    ((length (queued w) + length (pooled w) + 2 * length (received_of l) <= cap)%nat -> lost = []).
Proof.
  intros Hg Hr Hl lost late. destruct (reachable_refined o title key w l Hg Hr Hl) as (w' & Hrun & Hrf & Hs).
  pose proof (abstract_refines w Hs) as Hrf0. pose proof (refines_pooled _ _ _ _ Hrf) as Hp. pose proof (refines_pooled _ _ _ _ Hrf0) as Hp0.
  exists w'. split_and!; [done| |apply late_sub|].
  - pose proof (queued_newest w (sg_tt _ Hs)) as Hn.
    assert (length (dl_queue (abstract w)) <= cap)%nat as Hc.
    { change (dl_queue (abstract w)) with (queued w). rewrite <- Hn. unfold newest. rewrite length_drop. lia. }
    pose proof (run_balance (pool_size w) (timer_armed w) l (abstract w) Hc) as Hb. unfold known in Hb. destruct Hrf as [_ Hq Hw _ _ _ _ _].
    rewrite <- Hq, <- Hw, <- Hp in Hb. rewrite <- !app_assoc in Hb. fold lost late in Hb. rewrite Hb, Hp0. done.
  - intros Hlen. apply lost_none. rewrite Hp0, length_fmap in Hlen. exact Hlen.
Qed.

Lemma delivery_complete_witness :
  exists w w', reachable (H := os_ideal) demo_options (Some "mlvpn") demo_key w /\
    for_each demo_inputs (stage_handle (H := os_ideal)) w = Ok tt w' /\
    written w' ++ queued w' ++ pooled w' ≡ₚ [[65]; [67]; [68]; [66]; [68]].
Proof.
  destruct (run_witness (H := os_ideal) demo_options (Some "mlvpn") demo_key [EvAdjust] (fun w =>
      bool_decide (written w = [] /\ queued w = [] /\ pooled w = [] /\
        late_by (pool_size w) (timer_armed w) (abstract w) demo_inputs = [[68]]))) as (w & Hr & Hp); [vm_compute; reflexivity|].
  apply bool_decide_eq_true_1 in Hp as (Hw & Hq & Hpo & Hlate).
  destruct (@delivery_complete os_ideal os_ideal_sodium demo_options (Some "mlvpn") demo_key w demo_inputs eq_refl Hr demo_inputs_ok)
    as (w' & Hrun & Hb & _ & Hlost).
  rewrite Hlate, Hw, Hq, Hpo in Hb. rewrite Hlost, app_nil_r in Hb by (rewrite Hq, Hpo; apply (Nat.leb_le _ _); reflexivity).
  exists w, w'. done.
Defined.
