(* ===== verification/Heap.v ===== *)
(** * The heap of the process

    The blocks [calloc], [malloc] and [strdup] give, by their address, and
    what the program does with them: [free] of an address that is not (or no
    longer) allocated and an access through it are faults.  Allocations
    succeed, as in the rest of the library.

    [live h0 h F] is the account of a piece of code that started in [h0]: the
    blocks of [h0] are untouched and the blocks allocated since and not given
    back are those of the list [F], each once.  A function leaks what is left
    in [F] when nothing points to it any more.  The order of [F] is irrelevant:
    [live] is compatible with permutations. *)

From Stdlib Require Import Ascii String.
From S2P Require Import Prelude.
Open Scope Z_scope.

(** The blocks of the program, with the pointers they hold; [None] is [NULL]. *)
Inductive block :=
  | BBytes (l : list ascii)                              (** an array of characters *)
  | BConf (var val : option nat)                         (** [confObj_t] *)
  | BNode (conf section next : option nat)               (** [config_t] *)
  | BArr (l : list (option nat))                         (** an array of pointers *)
  | BRing (size : Z) (data : option nat)                 (** [circular_buffer_t] *)
  | BPkts (pkts : option nat)                            (** [pktbuffer_t] *)
  | BPkt                                                 (** [mlvpn_pkt_t] *)
  | BAddr (addr next : option nat)                       (** [struct addrinfo] *)
  | BTun (name addrinfo sbuf hpsbuf : option nat).       (** [mlvpn_tunnel_t] *)

Notation heap := (gmap nat block).
Definition H : Type -> Type := M heap.

(** ** Operations *)

Definition alloc (b : block) : H nat :=
  h ← get; let p := fresh (dom h) in put (<[p := b]> h);; mret p.

Definition load (p : nat) : H block :=
  h ← get; expect (BadAccess "load") (h !! p).

(** A pointer that is followed without a test. *)
Definition load_ptr (p : option nat) : H block :=
  p ← expect (BadAccess "NULL") p; load p.

Definition store (p : nat) (b : block) : H unit :=
  h ← get; _ ← expect (BadAccess "store") (h !! p); put (<[p := b]> h).

Definition free (p : nat) : H unit :=
  h ← get; _ ← expect (BadAccess "free") (h !! p); put (delete p h).

(** [free(NULL)] does nothing. *)
Definition free_ptr (p : option nat) : H unit :=
  match p with Some p => free p | None => mret tt end.

(** ** The account *)

Record live (h0 h : heap) (F : list nat) : Prop := {
  lv_old : h0 ⊆ h;
  lv_nodup : NoDup F;
  lv_new : forall p, p ∈ F -> h0 !! p = None;
  lv_dom : forall p, is_Some (h !! p) <-> is_Some (h0 !! p) \/ p ∈ F
}.

Lemma live_perm h0 h F G : F ≡ₚ G -> live h0 h F -> live h0 h G.
Proof.
  intros HFG [H1 H2 H3 H4]. split; [done|by rewrite <- HFG|intros p; rewrite <- HFG; auto|].
  intros p. rewrite <- HFG. apply H4.
Qed.
#[export] Instance live_proper h0 h : Proper ((≡ₚ) ==> iff) (live h0 h).
Proof. intros F G HFG. split; apply live_perm; [done|by symmetry]. Qed.

Lemma live_start h : live h h [].
Proof. split; [done|constructor|set_solver|]. intros p. set_solver. Qed.

(** Nothing left: the heap is the one there was. *)
Lemma live_nil h0 h : live h0 h [] -> h = h0.
Proof.
  intros [Hs _ _ Hd]. apply map_eq. intros p. destruct (h !! p) as [b|] eqn:E.
  - assert (is_Some (h0 !! p) \/ p ∈ []) as [[b' Hb']|?] by (apply Hd; by eexists); [|set_solver].
    rewrite Hb', <- E. by apply (lookup_weaken h0 h).
  - destruct (h0 !! p) as [b|] eqn:E0; [|done].
    pose proof (lookup_weaken h0 h p b E0 Hs). congruence.
Qed.

Lemma live_lookup h0 h F p : live h0 h F -> p ∈ F -> is_Some (h !! p).
Proof. intros HL Hp. apply (lv_dom _ _ _ HL). by right. Qed.

(** As many live blocks as the heap is large, at most. *)
Lemma live_size h0 h F G : live h0 h (F ++ G) -> (length F <= size h)%nat.
Proof.
  intros HL. pose proof (lv_nodup _ _ _ HL) as Hnd. apply NoDup_app in Hnd as [Hnd _].
  rewrite <- (size_list_to_set (C := gset nat) F Hnd), <- size_dom.
  apply subseteq_size. intros p Hp%elem_of_list_to_set. apply elem_of_dom.
  eapply live_lookup; [exact HL|]. set_solver.
Qed.

Lemma live_insert h0 h F p b : live h0 h F -> h !! p = None -> live h0 (<[p := b]> h) (p :: F).
Proof.
  intros HL Hp. assert (h0 !! p = None) as H0.
  { destruct (h0 !! p) as [b'|] eqn:E; [|done]. pose proof (lookup_weaken _ _ _ _ E (lv_old _ _ _ HL)). congruence. }
  destruct HL as [H1 H2 H3 H4]. split.
  - by apply insert_subseteq_r.
  - constructor; [|done]. intros Hin. destruct (proj2 (H4 p) (or_intror Hin)) as [? ?]. congruence.
  - intros q [->|?]%elem_of_cons; auto.
  - intros q. destruct (decide (p = q)) as [->|Hne].
    + rewrite lookup_insert_eq. split; [right; set_solver|by eexists].
    + rewrite lookup_insert_ne, H4, elem_of_cons by done. naive_solver.
Qed.

Lemma live_delete h0 h F p : live h0 h (p :: F) -> live h0 (delete p h) F.
Proof.
  intros [H1 H2 H3 H4]. apply NoDup_cons in H2 as [Hp H2]. split; [|done|set_solver|].
  - apply map_subseteq_spec. intros q b Hq. assert (q <> p) as Hne by (intros ->; rewrite H3 in Hq; [done|set_solver]).
    rewrite lookup_delete_ne by done. by apply (lookup_weaken h0 h).
  - intros q. destruct (decide (p = q)) as [->|Hne].
    + rewrite lookup_delete_eq. split; [by intros []|]. intros [Hs|?]; [|done].
      rewrite H3 in Hs by set_solver. by destruct Hs.
    + rewrite lookup_delete_ne, H4, elem_of_cons by done. naive_solver.
Qed.

Lemma live_store h0 h F p b : live h0 h F -> p ∈ F -> live h0 (<[p := b]> h) F.
Proof.
  intros HL Hp. pose proof (live_lookup _ _ _ _ HL Hp) as Hs. destruct HL as [H1 H2 H3 H4]. split; [|done|done|].
  - apply map_subseteq_spec. intros q b' Hq. assert (q <> p) as Hne by (intros ->; rewrite H3 in Hq; done).
    rewrite lookup_insert_ne by done. by apply (lookup_weaken h0 h).
  - intros q. destruct (decide (p = q)) as [->|Hne].
    + rewrite lookup_insert_eq. rewrite <- H4. split; [done|by eexists].
    + by rewrite lookup_insert_ne.
Qed.

(** ** Rules

    What an operation does to the account and to the other blocks. *)

Section rules.
Context (h0 : heap).

Lemma wp_alloc b F (Q : nat -> heap -> Prop) h :
  live h0 h F ->
  (forall p, h !! p = None -> live h0 (<[p := b]> h) (p :: F) -> Q p (<[p := b]> h)) -> wp (alloc b) Q h.
Proof.
  intros HL HQ. unfold alloc. wp_steps. unfold put, wp. simpl.
  assert (h !! fresh (dom h) = None) as Hf by (apply not_elem_of_dom, is_fresh).
  apply HQ; [done|]. by apply live_insert.
Qed.

Lemma wp_load p b (Q : block -> heap -> Prop) h : h !! p = Some b -> Q b h -> wp (load p) Q h.
Proof. intros Hp HQ. unfold load. wp_steps. by rewrite Hp. Qed.

Lemma wp_load_ptr p b (Q : block -> heap -> Prop) h : h !! p = Some b -> Q b h -> wp (load_ptr (Some p)) Q h.
Proof. intros Hp HQ. unfold load_ptr. wp_steps. cbn [expect]. wp_steps. by eapply wp_load. Qed.

Lemma wp_store p b F (Q : unit -> heap -> Prop) h :
  live h0 h F -> p ∈ F -> (live h0 (<[p := b]> h) F -> Q tt (<[p := b]> h)) -> wp (store p b) Q h.
Proof.
  intros HL Hp HQ. destruct (live_lookup _ _ _ _ HL Hp) as [b' Hb]. unfold store. wp_steps. rewrite Hb. cbn [expect].
  wp_steps. apply HQ. by apply live_store.
Qed.

Lemma wp_free p F G (Q : unit -> heap -> Prop) h :
  live h0 h F -> F ≡ₚ p :: G -> (live h0 (delete p h) G -> Q tt (delete p h)) -> wp (free p) Q h.
Proof.
  intros HL HF HQ. rewrite HF in HL. destruct (live_lookup _ _ _ p HL ltac:(set_solver)) as [b' Hb].
  unfold free. wp_steps. rewrite Hb. cbn [expect]. wp_steps. apply HQ. by apply live_delete.
Qed.
End rules.

(** Rearranges a list of addresses. *)
Ltac perm := cbn [app]; repeat first
  [ reflexivity
  | apply Permutation_skip
  | apply (Permutation_cons_app [_]); cbn [app]
  | apply (Permutation_cons_app [_; _]); cbn [app]
  | apply (Permutation_cons_app [_; _; _]); cbn [app]
  | apply (Permutation_cons_app [_; _; _; _]); cbn [app]
  | apply (Permutation_cons_app [_; _; _; _; _]); cbn [app] ].

(** The blocks of [F] have not changed. *)
Definition keep (F : list nat) (h h' : heap) : Prop := forall p, p ∈ F -> h' !! p = h !! p.

#[export] Instance keep_preorder F : PreOrder (keep F).
Proof. split; [by intros h p|]. intros h1 h2 h3 H1 H2 p Hp. rewrite H2, H1 by done. done. Qed.

Lemma keep_sub F G h h' : F ⊆ G -> keep G h h' -> keep F h h'.
Proof. intros Hs Hk p Hp. apply Hk. by apply Hs. Qed.

Lemma keep_insert F p b h : p ∉ F -> keep F h (<[p := b]> h).
Proof. intros Hp q Hq. apply lookup_insert_ne. by intros ->. Qed.

Lemma keep_delete F p h : p ∉ F -> keep F h (delete p h).
Proof. intros Hp q Hq. apply lookup_delete_ne. by intros ->. Qed.

(** Follows a chain of kept blocks. *)
Ltac kept := let q := fresh "q" in let Hq := fresh "Hq" in intros q Hq;
  repeat match goal with Hk : keep _ _ ?h' |- context [?h' !! q] => rewrite (Hk q) by set_solver; clear Hk end;
  reflexivity.

(** A new block is none of the live ones. *)
Lemma live_fresh h0 h F p : live h0 h F -> h !! p = None -> p ∉ F.
Proof. intros HL Hp Hin. destruct (live_lookup _ _ _ _ HL Hin). congruence. Qed.

Lemma live_cons h0 h F p : live h0 h (p :: F) -> p ∉ F.
Proof. intros HL. pose proof (lv_nodup _ _ _ HL) as Hn. by apply NoDup_cons in Hn as [? _]. Qed.

(** The rules with what is kept. *)
Section kept.
Context (h0 : heap).

Lemma wp_calloc b F (Q : nat -> heap -> Prop) h :
  live h0 h F ->
  (forall p h', live h0 h' (p :: F) -> keep F h h' -> h' !! p = Some b -> Q p h') -> wp (alloc b) Q h.
Proof.
  intros HL HQ. eapply wp_alloc; [done|]. intros p Hp HL'. apply HQ; [done| |apply lookup_insert_eq].
  apply keep_insert. by eapply live_fresh.
Qed.

Lemma wp_give p F G (Q : unit -> heap -> Prop) h :
  live h0 h F -> F ≡ₚ p :: G -> (forall h', live h0 h' G -> keep G h h' -> Q tt h') -> wp (free p) Q h.
Proof.
  intros HL HF HQ. eapply wp_free; [done|done|]. intros HL'. apply HQ; [done|]. apply keep_delete.
  rewrite HF in HL. by eapply live_cons.
Qed.

Lemma wp_set p b F G (Q : unit -> heap -> Prop) h :
  live h0 h F -> F ≡ₚ p :: G ->
  (forall h', live h0 h' F -> keep G h h' -> h' !! p = Some b -> Q tt h') -> wp (store p b) Q h.
Proof.
  intros HL HF HQ. eapply wp_store; [done|rewrite HF; set_solver|]. intros HL'.
  apply HQ; [done| |apply lookup_insert_eq]. apply keep_insert. rewrite HF in HL. by eapply live_cons.
Qed.

Lemma wp_free_one p F h (Q : unit -> heap -> Prop) :
  live h0 h (p :: F) -> (forall h', live h0 h' F -> keep F h h' -> Q tt h') -> wp (free p) Q h.
Proof. intros HL HQ. by eapply wp_give. Qed.

Lemma wp_free_ptr ptr F (Q : unit -> heap -> Prop) h :
  live h0 h (option_list ptr ++ F) -> (forall h', live h0 h' F -> keep F h h' -> Q tt h') -> wp (free_ptr ptr) Q h.
Proof.
  intros HL HQ. destruct ptr; cbn [free_ptr]; [eapply wp_free_one; [exact HL|exact HQ]|]. wp_steps. by apply HQ.
Qed.
End kept.
