(* ===== verification/ConfigMem.v ===== *)
(** * The memory of the configuration reader ([src/src/configlib.c])

    [ConfigLib] models what the reader computes; here are the same functions
    with the blocks they allocate, link and give back.  The chained list lies
    in the heap, node by node, as [_conf_setValue] builds it, and
    [_conf_freeConfig] walks it.  The theorem at the end says that the two
    models agree and accounts for every block: which ones the list is made of,
    which ones a file with errors leaks, and that the list is given back
    entirely.

    The bytes of the two scratch buffers ([buf] of [_conf_parseConfig] and of
    [_conf_parseLine]) are in the states of the loops, as in [ConfigLib]; their
    blocks stand for the ownership. *)

From Stdlib Require Import Ascii String.
From S2P Require Import Prelude CString ConfigLib Heap.
Import ListNotations.
Open Scope list_scope.
Open Scope Z_scope.

(** ** Lines *)

Definition strip_comment_m (line : list ascii) : H (option nat) :=
  let new := strip_loop line false in
  p ← alloc (BBytes new);
  if bool_decide (new = []) then free p;; mret None else mret (Some p).

(** [section[j++] = c] *)
Definition put_char (p : nat) (c : ascii) : H unit :=
  b ← load p;
  match b with BBytes l => store p (BBytes (l ++ [c])) | _ => fail (BadAccess "section") end.

Fixpoint get_section_m (line : list ascii) (section : option nat) : H (option nat) :=
  match line with
  | [] => free_ptr section;; mret None
  | c :: line =>
      if bool_decide (c = "["%char) then
        match section with
        | Some p => free p;; mret None
        | None => p ← alloc (BBytes []); get_section_m line (Some p)
        end
      else if bool_decide (c = "]"%char) then mret section
      else
        match section with
        | Some p => put_char p c;; get_section_m line section
        | None => get_section_m line section
        end
  end.

Definition load_conf (o : nat) : H (option nat * option nat) :=
  b ← load o; match b with BConf v w => mret (v, w) | _ => fail (BadAccess "confObj") end.

(** One character of [_conf_parseLine]; [None]: the function returns [NULL],
    having given back what the error branch frees. *)
Definition line_step_m (obj buf : nat) (s : line_state) (c : ascii) : H (option line_state) :=
  if bool_decide (c = DQUOTE) then mret (Some (s <| ls_quote := negb (ls_quote s) |>))
  else if bool_decide (c = "="%char) then
    if ls_quote s then mret (Some (s <| ls_buf := ls_buf s ++ [c] |>))
    else if bool_decide (ls_buf s = []) then free obj;; free buf;; mret None
    else
      '(v, w) ← load_conf obj;
      match v with
      | Some p => free p;; free obj;; free buf;; mret None
      | None =>
          p ← alloc (BBytes (before_nul (strip_end (ls_buf s))));
          store obj (BConf (Some p) w);;
          mret (Some (s <| ls_var := Some (strip_end (ls_buf s)) |> <| ls_buf := [] |>))
      end
  else
    let s := if bool_decide (c = SPACE) && negb (ls_space s) then s <| ls_space := true |>
             else if negb (bool_decide (c = SPACE)) then s <| ls_space := false |>
             else s in
    if ls_space s && negb (ls_quote s) then mret (Some s)
    else if ls_space s && bool_decide (ls_buf s = []) then mret (Some s)
    else if negb (isascii c) then
      free buf;; '(v, _) ← load_conf obj; free_ptr v;; free obj;; mret None
    else mret (Some (s <| ls_buf := ls_buf s ++ [c] |>)).

Fixpoint line_loop_m (obj buf : nat) (line : list ascii) (s : line_state) : H (option line_state) :=
  match line with
  | [] => mret (Some s)
  | c :: line =>
      r ← line_step_m obj buf s c;
      match r with Some s => line_loop_m obj buf line s | None => mret None end
  end.

(** The [confObj_t] of a line. *)
Definition parse_line_m (line : list ascii) : H (option nat) :=
  match line with
  | [] => mret None
  | _ :: _ =>
      obj ← alloc (BConf None None);
      buf ← alloc (BBytes []);
      r ← line_loop_m obj buf line line_start;
      match r with
      | None => mret None
      | Some s =>
          '(v, _) ← load_conf obj;
          if bool_decide (ls_buf s = []) || bool_decide (v = None) then free obj;; free buf;; mret None
          else
            let stripped := strip_end (ls_buf s) in
            let len := strip_index (ls_buf s) (length (ls_buf s) - 1) in
            match skip_lead len 0 stripped with
            | [] => free buf;; free_ptr v;; free obj;; mret None
            | value =>
                w ← alloc (BBytes (before_nul value));
                store obj (BConf v (Some w));;
                free buf;;
                mret (Some obj)
            end
      end
  end.

(** ** The list *)

Definition load_node (p : nat) : H (option nat * option nat * option nat) :=
  b ← load p; match b with BNode c s n => mret (c, s, n) | _ => fail (BadAccess "config_t") end.

Definition strdup (p : nat) : H nat :=
  b ← load p;
  match b with BBytes l => alloc (BBytes (before_nul l)) | _ => fail (BadAccess "strdup") end.

(** [while (last->next != NULL) last = last->next;] and [last->next = work] *)
Fixpoint link_last (fuel : nat) (last work : nat) : H unit :=
  '(c, s, next) ← load_node last;
  match next, fuel with
  | None, _ => store last (BNode c s (Some work))
  | Some next, S fuel => link_last fuel next work
  | Some _, O => fail Diverges
  end.

(** Whether the result is not [NULL]. *)
Definition set_value_m (start : option nat) (obj : nat) (section : option nat) : H bool :=
  match start, section with
  | Some start, Some section =>
      '(c, s, next) ← load_node start;
      match c with
      | None => sec ← strdup section; store start (BNode (Some obj) (Some sec) None)
      | Some _ =>
          work ← alloc (BNode None None None);
          sec ← strdup section;
          store work (BNode (Some obj) (Some sec) None);;
          n ← gets size;
          link_last n start work
      end;;
      mret true
  | _, _ => mret false
  end.

(** [_conf_freeConfig] *)
Definition free_conf (c : option nat) : H unit :=
  match c with
  | None => mret tt
  | Some o => '(v, w) ← load_conf o; free_ptr v;; free_ptr w;; free o
  end.
Fixpoint free_nodes (fuel : nat) (start : option nat) : H unit :=
  match start, fuel with
  | None, _ => mret tt
  | Some p, S fuel =>
      '(c, s, next) ← load_node p;
      free_conf c;;
      free_ptr s;;
      free p;;
      free_nodes fuel next
  | Some _, O => fail Diverges
  end.
Definition free_config_m (start : option nat) : H unit := n ← gets size; free_nodes n start.

(** [_conf_printConfig]: the three texts of every line. *)
Definition load_text (p : option nat) : H string :=
  b ← load_ptr p;
  match b with BBytes l => mret (c_string l) | _ => fail (BadAccess "printf") end.
Fixpoint print_nodes (fuel : nat) (start : option nat) : H (list (string * string * string)) :=
  match start, fuel with
  | None, _ => mret []
  | Some p, S fuel =>
      '(c, s, next) ← load_node p;
      match c with
      | None => print_nodes fuel next
      | Some o =>
          '(v, w) ← load_conf o;
          sec ← load_text s;
          var ← load_text v;
          val ← load_text w;
          l ← print_nodes fuel next;
          mret ((sec, var, val) :: l)
      end
  | Some _, O => fail Diverges
  end.
Definition print_config_m (start : option nat) : H (list (string * string * string)) :=
  n ← gets size; print_nodes n start.

(** ** The file *)

(** The variables of the loop of [_conf_parseConfig] that are pointers, and
    the bytes of the line. *)
Record reader := Reader {
  rd_chars : list ascii;
  rd_bufsize : Z;
  rd_buf : nat;
  rd_section : option nat
}.
#[export] Instance reader_fields : Fields reader := fun r =>
  Reader (rd_chars r) (rd_bufsize r) (rd_buf r) (rd_section r).

(** [newline] read as a string. *)
Definition line_of (p : nat) : H (list ascii) :=
  b ← load p; match b with BBytes l => mret l | _ => fail (BadAccess "newline") end.

(** What a line does: the new value of [section]. *)
Definition take_line_m (config : nat) (section : option nat) (size : nat) (line : list ascii) : H (option nat) :=
  tmp ← get_section_m (line ++ replicate (size - length line) NUL) None;
  match tmp with
  | Some tmp => free_ptr section;; mret (Some tmp)
  | None =>
      confObj ← parse_line_m (before_nul line);
      match confObj with
      | None => mret tt
      | Some o =>
          when (negb (bool_decide (section = None))) (
            set ← set_value_m (Some config) o section;
            when (negb set) (free_conf (Some o)))
      end;;
      mret section
  end.

Definition end_line_m (config : nat) (r : reader) : H reader :=
  newline ← strip_comment_m (rd_chars r);
  match newline with
  | None => mret (r <| rd_chars := [] |>)
  | Some newline =>
      line ← line_of newline;
      section ← take_line_m config (rd_section r) (length (rd_chars r)) line;
      free newline;;
      mret (r <| rd_chars := [] |> <| rd_section := section |>)
  end.

(** [realloc] gives a new block. *)
Definition grow (r : reader) : H reader :=
  p ← alloc (BBytes []);
  free (rd_buf r);;
  mret (r <| rd_buf := p |> <| rd_bufsize := rd_bufsize r + 64 |>).

Definition parse_char_m (config : nat) (r : reader) (c : ascii) : H reader :=
  let i := Z.of_nat (length (rd_chars r)) in
  r ← (if rd_bufsize r <? i + 64 then grow r else mret r);
  if bool_decide (c = CR) then mret r
  else if rd_bufsize r <=? i then fail (BadAccess "buf[i]")
  else if bool_decide (c = LF) then end_line_m config r
  else mret (r <| rd_chars := rd_chars r ++ [c] |>).

Fixpoint parse_chars_m (config : nat) (content : list ascii) (r : reader) : H reader :=
  match content with
  | [] => mret r
  | c :: content => r ← parse_char_m config r c; parse_chars_m config content r
  end.

Definition parse_config_m (content : list ascii) (read_error : bool) : H (option nat) :=
  config ← alloc (BNode None None None);
  buf ← alloc (BBytes []);
  r ← parse_chars_m config content (Reader [] 256 buf None);
  if read_error then
    free_ptr (rd_section r);;
    free config;;
    free (rd_buf r);;
    mret None
  else
    free_ptr (rd_section r);;
    free (rd_buf r);;
    mret (Some config).

(** ** Lines give back what they took *)

Section memory.
Context (h0 : heap).

Lemma before_nul_twice l : before_nul (before_nul l) = before_nul l.
Proof. induction l as [|c l IH]; [done|]. simpl. case_bool_decide; [done|]. simpl. rewrite bool_decide_false by done. by rewrite IH. Qed.

Lemma c_string_before_nul l : c_string (before_nul l) = c_string l.
Proof. unfold c_string. by rewrite before_nul_twice. Qed.

Lemma strip_comment_spec line F h :
  live h0 h F ->
  wp (strip_comment_m line) (fun r h' => keep F h h' /\
    match _conf_strip_comment line with
    | None => r = None /\ live h0 h' F
    | Some new => exists p, r = Some p /\ live h0 h' (p :: F) /\ h' !! p = Some (BBytes new)
    end) h.
Proof.
  intros HL. unfold strip_comment_m, _conf_strip_comment. wp_steps. eapply wp_calloc; [done|]. intros p h1 HL1 Hk Hp.
  destruct (strip_loop line false) as [|c new]; simpl; wp_steps.
  - eapply wp_give; [done|reflexivity|]. intros h2 HL2 Hk2. wp_steps. split; [by etransitivity|done].
  - split; [done|]. by eexists.
Qed.

Definition section_at (h : heap) (F : list nat) (ptr : option nat) (sec : option (list ascii)) : Prop :=
  match sec with
  | None => ptr = None /\ live h0 h F
  | Some s => exists p, ptr = Some p /\ live h0 h (p :: F) /\ h !! p = Some (BBytes s)
  end.

Lemma get_section_spec line : forall ptr sec F h,
  section_at h F ptr sec ->
  wp (get_section_m line ptr) (fun r h' => keep F h h' /\ section_at h' F r (section_loop line sec)) h.
Proof.
  induction line as [|c line IH]; intros ptr sec F h Hs; cbn [get_section_m section_loop].
  - destruct sec as [s|]; [destruct Hs as (p & -> & HL & Hp)|destruct Hs as [-> HL]]; wp_steps; [|by wp_steps].
    eapply wp_give; [done|reflexivity|]. intros h1 HL1 Hk. by wp_steps.
  - case_bool_decide as Hopen; [|case_bool_decide; [by wp_steps|]].
    + destruct sec as [s|]; [destruct Hs as (p & -> & HL & Hp)|destruct Hs as [-> HL]]; wp_steps.
      * eapply wp_give; [done|reflexivity|]. intros h1 HL1 Hk. by wp_steps.
      * eapply wp_calloc; [done|]. intros p h1 HL1 Hk Hp. eapply wp_mono; [apply (IH _ (Some []) F); by exists p|].
        simpl. intros r h2 [Hk2 Hr]. split; [by etransitivity|done].
    + destruct sec as [s|]; [destruct Hs as (p & -> & HL & Hp)|destruct Hs as [-> HL]]; [|by apply IH].
      unfold put_char. wp_steps. eapply wp_load; [done|]. eapply wp_set; [done|reflexivity|]. intros h1 HL1 Hk Hp1.
      eapply wp_mono; [apply (IH _ (Some (s ++ [c])) F); by exists p|]. simpl. intros r h2 [Hk2 Hr].
      split; [by etransitivity|done].
Qed.

(** What [confObj_t] holds. *)
Definition text_at (h : heap) (p : nat) (s : string) : Prop :=
  exists l, h !! p = Some (BBytes l) /\ c_string l = s.
Definition conf_at (h : heap) (o v w : nat) (c : confObj_t) : Prop :=
  h !! o = Some (BConf (Some v) (Some w)) /\ text_at h v (var c) /\ text_at h w (val c).

(** In the loop: the object, its buffer and, once it is known, the name. *)
Definition line_inv (F : list nat) (obj buf : nat) (s : line_state) (h : heap) : Prop :=
  match ls_var s with
  | None => live h0 h (buf :: obj :: F) /\ h !! obj = Some (BConf None None)
  | Some v => exists p, live h0 h (buf :: obj :: p :: F) /\ h !! obj = Some (BConf (Some p) None) /\
                h !! p = Some (BBytes (before_nul v))
  end.

(** The name that is lost when a line has a second [=] without a value before
    it, or nothing after the [=]. *)
Definition step_leak (s : line_state) (c : ascii) : nat :=
  if bool_decide (c = "="%char) && bool_decide (ls_buf s = []) && negb (bool_decide (ls_var s = None)) then 1 else 0.
Fixpoint loop_leak (line : list ascii) (s : line_state) : nat :=
  match line with
  | [] => if bool_decide (ls_buf s = []) && negb (bool_decide (ls_var s = None)) then 1 else 0
  | c :: line => match line_step s c with Some s' => loop_leak line s' | None => step_leak s c end
  end.
Definition line_leak (line : list ascii) : nat := match line with [] => O | _ :: _ => loop_leak line line_start end.

Lemma wp_load_conf o v w (Q : option nat * option nat -> heap -> Prop) h :
  h !! o = Some (BConf v w) -> Q (v, w) h -> wp (load_conf o) Q h.
Proof. intros Ho HQ. unfold load_conf. wp_steps. eapply wp_load; [done|]. by wp_steps. Qed.

(** The exit of an error branch: some blocks are given back and [L] is lost. *)
Definition dropped (F : list nat) (n : nat) (h h' : heap) : Prop :=
  keep F h h' /\ exists L, live h0 h' (L ++ F) /\ length L = n.

Lemma line_step_spec F obj buf s c h :
  line_inv F obj buf s h ->
  wp (line_step_m obj buf s c) (fun r h' =>
    match line_step s c with
    | Some s' => r = Some s' /\ keep F h h' /\ line_inv F obj buf s' h'
    | None => r = None /\ dropped F (step_leak s c) h h'
    end) h.
Proof.
  intros Hi. unfold line_step_m, line_step, step_leak. case_bool_decide as Hq; [by wp_steps|].
  case_bool_decide as He.
  - destruct (ls_quote s); [by wp_steps|]. case_bool_decide as Hb.
    + unfold line_inv in Hi. destruct (ls_var s) as [v|]; [destruct Hi as (p & HL & _)|destruct Hi as [HL _]]; wp_steps;
        (eapply wp_give; [done|perm|]); intros h1 HL1 Hk1; wp_steps; (eapply wp_free_one; [done|]); intros h2 HL2 Hk2; wp_steps;
        (split; [done|]); split.
      * kept.
      * by exists [p].
      * kept.
      * by exists [].
    + unfold line_inv in Hi. destruct (ls_var s) as [v|] eqn:Ev; [destruct Hi as (p & HL & Ho & _)|destruct Hi as [HL Ho]];
        wp_steps; (eapply wp_load_conf; [done|]); cbv beta iota; wp_steps.
      * eapply wp_give; [done|perm|]. intros h1 HL1 Hk1. wp_steps. eapply wp_give; [done|perm|]. intros h2 HL2 Hk2.
        wp_steps. eapply wp_free_one; [done|]. intros h3 HL3 Hk3. wp_steps. split; [done|]. split; [kept|by exists []].
      * eapply wp_calloc; [done|]. intros p h1 HL1 Hk1 Hp. wp_steps. eapply wp_set; [done|perm|]. intros h2 HL2 Hk2 Ho2.
        wp_steps. split; [done|]. split.
        { kept. }
        exists p. split; [|split; [done|]].
        { eapply live_perm; [|exact HL2]. perm. }
        { rewrite Hk2 by set_solver. done. }
  - set (s1 := if bool_decide (c = SPACE) && _ then _ else _).
    assert (ls_var s1 = ls_var s) as Ev by (unfold s1; by repeat case_match).
    assert (line_inv F obj buf s1 h) as Hi1 by (unfold line_inv; by rewrite Ev).
    destruct (ls_space s1 && negb (ls_quote s1)); [by wp_steps|].
    destruct (ls_space s1 && bool_decide (ls_buf s1 = [])); [by wp_steps|].
    destruct (isascii c); simpl; [by wp_steps|]. wp_steps. unfold line_inv in Hi1.
    destruct (ls_var s1) as [v|]; [destruct Hi1 as (p & HL & Ho & _)|destruct Hi1 as [HL Ho]];
      (eapply wp_free_one; [done|]); intros h1 HL1 Hk1; wp_steps;
      (eapply wp_load_conf; [rewrite Hk1 by set_solver; exact Ho|]); cbv beta iota; wp_steps; cbn [free_ptr].
    + eapply wp_give; [done|perm|]. intros h2 HL2 Hk2. wp_steps. eapply wp_free_one; [done|]. intros h3 HL3 Hk3. wp_steps.
      split; [done|]. split; [kept|by exists []].
    + wp_steps. eapply wp_free_one; [done|]. intros h2 HL2 Hk2. wp_steps. split; [done|]. split; [kept|by exists []].
Qed.

Lemma dropped_keep F n h h1 h2 : keep F h h1 -> dropped F n h1 h2 -> dropped F n h h2.
Proof. intros Hk [Hk2 HL]. split; [by etransitivity|done]. Qed.

Lemma line_loop_spec F obj buf line : forall s h,
  line_inv F obj buf s h ->
  wp (line_loop_m obj buf line s) (fun r h' =>
    match line_loop line s with
    | Some s' => r = Some s' /\ keep F h h' /\ line_inv F obj buf s' h' /\ loop_leak line s = loop_leak [] s'
    | None => r = None /\ dropped F (loop_leak line s) h h'
    end) h.
Proof.
  induction line as [|c line IH]; intros s h Hi; cbn [line_loop_m line_loop]; [by wp_steps|]. wp_steps.
  eapply wp_mono; [by apply line_step_spec|]. cbn [loop_leak]. intros r h1 Hr.
  destruct (line_step s c) as [s'|] eqn:Es; cbn [mbind option_bind].
  - destruct Hr as (-> & Hk & Hi1). eapply wp_mono; [by apply IH|]. cbv beta. intros r h2 Hr.
    destruct (line_loop line s'); [destruct Hr as (-> & Hk2 & Hr)|destruct Hr as (-> & Hr)].
    + split_and!; [done|by etransitivity|apply Hr..].
    + split; [done|]. by eapply dropped_keep.
  - destruct Hr as [-> Hr]. by wp_steps.
Qed.

(** A line gives its object, with the name and the value, or leaves
    [line_leak] blocks. *)
Lemma parse_line_spec F line h :
  live h0 h F ->
  wp (parse_line_m line) (fun r h' =>
    match _conf_parseLine line with
    | Some c => exists o v w, r = Some o /\ keep F h h' /\ live h0 h' ([o; v; w] ++ F) /\ conf_at h' o v w c
    | None => r = None /\ dropped F (line_leak line) h h'
    end) h.
Proof.
  intros HL. unfold parse_line_m, _conf_parseLine, line_leak. destruct line as [|c0 line0] eqn:El.
  { wp_steps. split; [done|]. split; [done|]. by exists []. }
  rewrite <- El. clear El. wp_steps. eapply wp_calloc; [done|]. intros obj h1 HL1 Hk1 Ho1. wp_steps.
  eapply wp_calloc; [done|]. intros buf h2 HL2 Hk2 _. wp_steps.
  assert (line_inv F obj buf line_start h2) as Hi. { split; [done|]. by rewrite Hk2 by set_solver. }
  assert (keep F h h2) as Hk by kept. clear Hk1 Hk2.
  eapply wp_mono; [by apply (line_loop_spec F)|]. cbv beta. intros r h3 Hr.
  destruct (line_loop line line_start) as [s|]; cbn [mbind option_bind].
  2: { destruct Hr as [-> Hr]. wp_steps. split; [done|]. by eapply dropped_keep. }
  destruct Hr as (-> & Hk3 & Hi3 & ->). wp_steps. unfold line_inv in Hi3. cbn [loop_leak].
  destruct (ls_var s) as [v|] eqn:Ev; [destruct Hi3 as (p & HL3 & Ho3 & Hp)|destruct Hi3 as [HL3 Ho3]];
    (eapply wp_load_conf; [done|]); cbv beta iota.
  - rewrite (bool_decide_false (Some p = None)), (bool_decide_false (Some v = None)) by done.
    rewrite orb_false_r, andb_true_r. destruct (ls_buf s) as [|b0 buf0] eqn:Eb.
    + rewrite bool_decide_true by done. wp_steps. eapply wp_give; [done|perm|]. intros h4 HL4 Hk4. wp_steps.
      eapply wp_free_one; [done|]. intros h5 HL5 Hk5. wp_steps. split; [done|]. split; [kept|]. by exists [p].
    + rewrite bool_decide_false by done. destruct (skip_lead _ _ _) as [|x value].
      * wp_steps. eapply wp_free_one; [done|]. intros h4 HL4 Hk4. wp_steps. eapply wp_give; [done|perm|]. intros h5 HL5 Hk5.
        wp_steps. eapply wp_free_one; [done|]. intros h6 HL6 Hk6. wp_steps. split; [done|]. split; [kept|]. by exists [].
      * wp_steps. eapply wp_calloc; [done|]. intros w h4 HL4 Hk4 Hw. wp_steps. eapply wp_set; [done|perm|]. intros h5 HL5 Hk5 Ho5.
        wp_steps. eapply wp_give; [done|perm|]. intros h6 HL6 Hk6. wp_steps. exists obj, p, w. split_and!; [done|kept| |].
        { eapply live_perm; [|exact HL6]. perm. }
        split_and!; [rewrite Hk6 by set_solver; done|exists (before_nul v)|exists (before_nul (x :: value))];
          (split; [|apply c_string_before_nul]).
        { rewrite Hk6, Hk5, Hk4 by set_solver. done. }
        { rewrite Hk6, Hk5 by set_solver. done. }
  - rewrite (bool_decide_true (None = None)) by done. rewrite orb_true_r, andb_false_r. wp_steps.
    eapply wp_give; [done|perm|]. intros h4 HL4 Hk4. wp_steps. eapply wp_free_one; [done|]. intros h5 HL5 Hk5. wp_steps.
    assert (dropped F 0 h h5) as Hd by (split; [kept|by exists []]). by destruct (ls_buf s).
Qed.

(** ** The list in the heap *)

(** [fp]: the blocks of the list, five for every value. *)
Inductive conf_rep (h : heap) : option nat -> config_t -> list nat -> Prop :=
  | rep_nil : conf_rep h None [] []
  | rep_cons p o v w s next c sec l fp :
      h !! p = Some (BNode (Some o) (Some s) next) -> conf_at h o v w c -> text_at h s sec ->
      conf_rep h next l fp ->
      conf_rep h (Some p) (Node (Some c) (Some sec) :: l) ([p; o; v; w; s] ++ fp).

(** The list at [p], which begins as one node without a value. *)
Definition config_at (h : heap) (p : nat) (l : config_t) (fp : list nat) : Prop :=
  (l = [Node None None] /\ fp = [p] /\ h !! p = Some (BNode None None None)) \/ conf_rep h (Some p) l fp.

Lemma text_at_keep F h h' p s : keep F h h' -> p ∈ F -> text_at h p s -> text_at h' p s.
Proof. intros Hk Hp (l & Hl & Hs). exists l. by rewrite Hk. Qed.

Lemma conf_at_keep F h h' o v w c : keep F h h' -> [o; v; w] ⊆ F -> conf_at h o v w c -> conf_at h' o v w c.
Proof.
  intros Hk Hs (Ho & Hv & Hw). split_and!; [rewrite Hk by set_solver; done|..];
    (eapply text_at_keep; [done|set_solver|done]).
Qed.

Lemma conf_rep_keep h h' ptr l fp : keep fp h h' -> conf_rep h ptr l fp -> conf_rep h' ptr l fp.
Proof.
  intros Hk Hr. induction Hr as [|p o v w s next c sec l fp Hp Hc Hs Hr IH]; [by apply rep_nil|eapply rep_cons].
  - rewrite Hk by set_solver. done.
  - eapply conf_at_keep; [done|set_solver|done].
  - eapply text_at_keep; [done|set_solver|done].
  - apply IH. eapply keep_sub; [|done]. set_solver.
Qed.

Lemma conf_rep_length h ptr l fp : conf_rep h ptr l fp -> length fp = (5 * length l)%nat.
Proof. induction 1; [done|]. simpl. lia. Qed.

Lemma config_at_length h p l fp : config_at h p l fp -> (length l <= length fp)%nat.
Proof. intros [(-> & -> & _)|Hr]; [done|]. apply conf_rep_length in Hr. lia. Qed.

Lemma config_at_keep h h' p l fp : keep fp h h' -> config_at h p l fp -> config_at h' p l fp.
Proof.
  intros Hk [(-> & -> & Hp)|Hr]; [left; split_and!; [done..|rewrite Hk by set_solver; done]|].
  right. by eapply conf_rep_keep.
Qed.

Lemma wp_load_node p c s n (Q : option nat * option nat * option nat -> heap -> Prop) h :
  h !! p = Some (BNode c s n) -> Q (c, s, n) h -> wp (load_node p) Q h.
Proof. intros Ho HQ. unfold load_node. wp_steps. eapply wp_load; [done|]. by wp_steps. Qed.

Lemma wp_strdup p s F (Q : nat -> heap -> Prop) h :
  live h0 h F -> text_at h p s ->
  (forall q h', live h0 h' (q :: F) -> keep F h h' -> text_at h' q s -> Q q h') -> wp (strdup p) Q h.
Proof.
  intros HL (l & Hl & Hs) HQ. unfold strdup. wp_steps. eapply wp_load; [done|]. eapply wp_calloc; [done|].
  intros q h' HL' Hk Hq. apply HQ; [done..|]. exists (before_nul l). split; [done|]. by rewrite c_string_before_nul.
Qed.

Lemma link_last_spec work n fpw fuel : forall p l fp G h,
  live h0 h (fp ++ fpw ++ G) -> conf_rep h (Some p) l fp -> conf_rep h (Some work) [n] fpw -> (length l <= S fuel)%nat ->
  wp (link_last fuel p work) (fun _ h' =>
    live h0 h' (fp ++ fpw ++ G) /\ keep (fpw ++ G) h h' /\ conf_rep h' (Some p) (l ++ [n]) (fp ++ fpw)) h.
Proof.
  induction fuel as [|fuel IH]; intros p l fp G h HL Hr Hw Hf;
    inversion Hr as [|? o v w s next c sec l' fp' Hp Hc Hs Hr']; subst; cbn [link_last]; wp_steps;
    (eapply wp_load_node; [done|]); cbv beta iota.
  all: inversion Hr' as [|p' ? ? ? ? ? ? ? l2 fp2]; subst; [|try (simpl in Hf; lia)].
  1, 2: eapply wp_set; [done|cbn [app]; reflexivity|]; intros h1 HL1 Hk1 Hp1; split_and!; [done|eapply keep_sub; [|done]; set_solver|];
    apply (rep_cons h1 p o v w s (Some work) c sec [n] fpw); [done|..].
  1, 4: eapply conf_at_keep; [done|set_solver|done].
  1, 3: eapply text_at_keep; [done|set_solver|done].
  1, 2: eapply conf_rep_keep; [|done]; eapply keep_sub; [|done]; set_solver.
  set (fp' := [p'; o0; v0; w0; s0] ++ fp2) in *. set (l' := Node (Some c0) (Some sec0) :: l2) in *.
  eapply wp_mono; [eapply (IH p' l' fp' ([p; o; v; w; s] ++ G) h); [|done|done|simpl in *; lia]|].
  { eapply live_perm; [|exact HL]. rewrite <- (app_assoc [p; o; v; w; s]). rewrite (Permutation_app_swap_app [p; o; v; w; s]).
    f_equiv. by rewrite Permutation_app_swap_app. }
  intros [] h1 (HL1 & Hk1 & Hr1). split_and!.
  - eapply live_perm; [|exact HL1]. rewrite <- (app_assoc [p; o; v; w; s]). rewrite (Permutation_app_swap_app [p; o; v; w; s]).
    f_equiv. by rewrite Permutation_app_swap_app.
  - eapply keep_sub; [|done]. set_solver.
  - rewrite <- app_assoc. apply (rep_cons h1 p o v w s (Some p') c sec (l' ++ [n])); [rewrite Hk1 by set_solver; done|..|done].
    + eapply conf_at_keep; [done|set_solver|done].
    + eapply text_at_keep; [done|set_solver|done].
Qed.

(** A value is added to the list: its object and a copy of the section become
    part of it. *)
Lemma set_value_spec p l fp o v w c q sec G h :
  live h0 h (fp ++ [o; v; w] ++ G) -> config_at h p l fp -> conf_at h o v w c -> q ∈ G -> text_at h q sec ->
  wp (set_value_m (Some p) o (Some q)) (fun r h' => exists l' fp',
    r = true /\ _conf_setValue l c (Some sec) = Some l' /\ keep G h h' /\
    live h0 h' (fp' ++ G) /\ config_at h' p l' fp') h.
Proof.
  intros HL Hl Hc Hq Hs. unfold set_value_m. wp_steps. destruct Hl as [(-> & -> & Hp)|Hr].
  - eapply wp_load_node; [done|]. cbv beta iota. wp_steps. eapply wp_strdup; [done|done|]. intros s h1 HL1 Hk1 Hs1.
    eapply wp_set; [done|perm|]. intros h2 HL2 Hk2 Hp2. wp_steps.
    exists [Node (Some c) (Some sec)], ([p; o; v; w; s] ++ []). split_and!; [done..|kept| |].
    { eapply live_perm; [|exact HL2]. perm. }
    right. apply (rep_cons h2 p o v w s None c sec [] []); [done|..|apply rep_nil].
    + eapply conf_at_keep; [exact Hk2|set_solver|]. eapply conf_at_keep; [exact Hk1|set_solver|done].
    + eapply text_at_keep; [exact Hk2|set_solver|done].
  - pose proof Hr as Hr0. inversion Hr as [|? o1 v1 w1 s1 next c1 sec1 l1 fp1 Hp _ _ _]; subst.
    set (l := Node (Some c1) (Some sec1) :: l1) in *. set (fp := [p; o1; v1; w1; s1] ++ fp1) in *.
    eapply wp_load_node; [done|]. cbv beta iota. wp_steps. eapply wp_calloc; [done|]. intros work h1 HL1 Hk1 _. wp_steps.
    eapply wp_strdup; [done|eapply text_at_keep; [exact Hk1|set_solver|done]|]. intros s h2 HL2 Hk2 Hs2. wp_steps.
    eapply wp_set; [done|apply Permutation_swap|]. intros h3 HL3 Hk3 Hw3. wp_steps.
    assert (live h0 h3 (fp ++ [work; o; v; w; s] ++ G)) as HL3'.
    { eapply live_perm; [|exact HL3]. rewrite (Permutation_app_swap_app fp), (Permutation_app_swap_app fp). perm. }
    assert (keep (fp ++ [o; v; w] ++ G) h h3) as Hk by kept.
    eapply wp_mono; [eapply (link_last_spec work (Node (Some c) (Some sec)) [work; o; v; w; s] _ p l fp G)|].
    + exact HL3'.
    + eapply conf_rep_keep; [|exact Hr0]. eapply keep_sub; [|exact Hk]. set_solver.
    + apply (rep_cons h3 work o v w s None c sec [] []); [done|..|apply rep_nil].
      * eapply conf_at_keep; [exact Hk|set_solver|done].
      * eapply text_at_keep; [exact Hk3|set_solver|done].
    + pose proof (live_size _ _ _ _ HL3'). pose proof (conf_rep_length _ _ _ _ Hr0). lia.
    + intros [] h4 (HL4 & Hk4 & Hr4). wp_steps. exists (l ++ [Node (Some c) (Some sec)]), (fp ++ [work; o; v; w; s]).
      split_and!; [done|done| |by rewrite <- app_assoc|by right].
      assert (keep G h3 h4) as Hk4' by (eapply keep_sub; [|exact Hk4]; set_solver).
      etransitivity; [eapply keep_sub; [|exact Hk]; set_solver|exact Hk4'].
Qed.

(** ** Giving the list back *)

Lemma free_entry_spec p o v w s next c G h :
  live h0 h ([p; o; v; w; s] ++ G) -> h !! p = Some (BNode (Some o) (Some s) next) -> conf_at h o v w c ->
  wp (free_conf (Some o);; free_ptr (Some s);; free p) (fun _ h' => live h0 h' G /\ keep G h h') h.
Proof.
  intros HL Hp (Ho & _ & _). cbn [free_conf free_ptr]. wp_steps. eapply wp_load_conf; [done|]. cbv beta iota. wp_steps. cbn [free_ptr].
  eapply wp_give; [done|perm|]. intros h1 HL1 Hk1. wp_steps. eapply wp_give; [done|perm|]. intros h2 HL2 Hk2. wp_steps.
  eapply wp_give; [done|perm|]. intros h3 HL3 Hk3. wp_steps. eapply wp_give; [done|perm|]. intros h4 HL4 Hk4. wp_steps.
  eapply wp_free_one; [done|]. intros h5 HL5 Hk5. split; [done|kept].
Qed.

Lemma free_nodes_spec fuel : forall ptr l fp G h,
  live h0 h (fp ++ G) -> conf_rep h ptr l fp -> (length l <= fuel)%nat ->
  wp (free_nodes fuel ptr) (fun _ h' => live h0 h' G /\ keep G h h') h.
Proof.
  induction fuel as [|fuel IH]; intros ptr l fp G h HL Hr Hf;
    inversion Hr as [|p o v w s next c sec l' fp' Hp Hc Hs Hr']; subst; [by wp_steps|simpl in Hf; lia|by wp_steps|].
  cbn [free_nodes]. wp_steps. eapply wp_load_node; [done|]. cbv beta iota. rewrite <- app_assoc in HL.
  pose proof (free_entry_spec p o v w s next c (fp' ++ G) h HL Hp Hc) as He. apply wp_bind.
  apply wp_bind_inv in He. eapply wp_mono; [exact He|]. intros [] h1 He1. apply wp_bind. apply wp_bind_inv in He1.
  eapply wp_mono; [exact He1|]. intros [] h2 He2. apply wp_bind. eapply wp_mono; [exact He2|]. intros [] h3 [HL3 Hk3].
  eapply wp_mono; [apply (IH next l' fp' G); [done| |simpl in Hf; lia]|].
  - eapply conf_rep_keep; [|done]. eapply keep_sub; [|exact Hk3]. set_solver.
  - intros [] h4 [HL4 Hk4]. split; [done|]. assert (keep G h h3) by (eapply keep_sub; [|exact Hk3]; set_solver). by etransitivity.
Qed.

Lemma free_config_spec p l fp G h :
  live h0 h (fp ++ G) -> config_at h p l fp -> wp (free_config_m (Some p)) (fun _ h' => live h0 h' G /\ keep G h h') h.
Proof.
  intros HL Hc. unfold free_config_m. wp_steps.
  pose proof (live_size _ _ _ _ HL) as Hsz.
  pose proof (config_at_length _ _ _ _ Hc). destruct Hc as [(-> & -> & Hp)|Hr]; [|eapply free_nodes_spec; [done..|lia]].
  simpl in Hsz. destruct (size h) as [|n]; [lia|]. cbn [free_nodes]. wp_steps. eapply wp_load_node; [done|]. cbv beta iota.
  cbn [free_conf free_ptr]. wp_steps. eapply wp_free_one; [exact HL|]. intros h1 HL1 Hk1. destruct n; by wp_steps.
Qed.

(** What [_conf_printConfig] prints. *)
Definition printed (l : config_t) : list (string * string * string) :=
  omap (fun n => match conf n, section n with Some c, Some s => Some (s, var c, val c) | _, _ => None end) l.

Lemma wp_load_text p s (Q : string -> heap -> Prop) h : text_at h p s -> Q s h -> wp (load_text (Some p)) Q h.
Proof. intros (l & Hl & <-) HQ. unfold load_text. wp_steps. eapply wp_load_ptr; [done|]. by wp_steps. Qed.

Lemma print_nodes_spec fuel : forall ptr l fp h,
  conf_rep h ptr l fp -> (length l <= fuel)%nat -> print_nodes fuel ptr h = Ok (printed l) h.
Proof.
  assert (forall fuel ptr l fp h, conf_rep h ptr l fp -> (length l <= fuel)%nat ->
    wp (print_nodes fuel ptr) (fun r h' => r = printed l /\ h' = h) h) as Hwp.
  { clear fuel. induction fuel as [|fuel IH]; intros ptr l fp h Hr Hf;
      inversion Hr as [|p o v w s next c sec l' fp' Hp Hc Hs Hr']; subst; [done|simpl in Hf; lia|done|].
    cbn [print_nodes]. wp_steps. eapply wp_load_node; [done|]. cbv beta iota. wp_steps. destruct Hc as (Ho & Hv & Hw).
    eapply wp_load_conf; [done|]. cbv beta iota. wp_steps. eapply wp_load_text; [done|]. wp_steps. eapply wp_load_text; [done|].
    wp_steps. eapply wp_load_text; [done|]. wp_steps. eapply wp_mono; [eapply IH; [done|simpl in Hf; lia]|].
    intros r h' [-> ->]. by wp_steps. }
  intros ptr l fp h Hr Hf. specialize (Hwp fuel ptr l fp h Hr Hf). unfold wp in Hwp.
  destruct (print_nodes fuel ptr h); [|done]. by destruct Hwp as [-> ->].
Qed.

(** ** The whole file *)

Definition section_text (h : heap) (ptr : option nat) (sec : option string) : Prop :=
  match ptr, sec with
  | None, None => True
  | Some q, Some s => text_at h q s
  | _, _ => False
  end.

(** The reader owns the list, its buffer and its section; [X]: the rest. *)
Definition owns (h : heap) (config : nat) (l : config_t) (buf : nat) (ptr : option nat) (sec : option string)
    (X : list nat) : Prop :=
  exists fp, config_at h config l fp /\ section_text h ptr sec /\ live h0 h (fp ++ buf :: option_list ptr ++ X).

(** A line as [end_line] of [ConfigLib] sees it, and the blocks it leaks. *)
Definition line_effect (sec : option string) (l : config_t) (size : nat) (line : list ascii) :
    option string * config_t * nat :=
  match _conf_get_section (line ++ replicate (size - length line) NUL) with
  | Some s => (Some (c_string s), l, O)
  | None =>
      match _conf_parseLine (before_nul line) with
      | None => (sec, l, line_leak (before_nul line))
      | Some c =>
          match sec with
          | None => (sec, l, 3%nat)
          | Some s => (sec, default l (_conf_setValue l c (Some s)), O)
          end
      end
  end.

Lemma section_text_keep F h h' ptr sec :
  keep F h h' -> option_list ptr ⊆ F -> section_text h ptr sec -> section_text h' ptr sec.
Proof. intros Hk Hs Ht. destruct ptr, sec; try done. eapply text_at_keep; [done|set_solver|done]. Qed.

Lemma owns_keep h h' config l buf ptr sec X fp F :
  config_at h config l fp -> section_text h ptr sec -> keep F h h' -> fp ++ buf :: option_list ptr ⊆ F ->
  live h0 h' (fp ++ buf :: option_list ptr ++ X) -> owns h' config l buf ptr sec X.
Proof.
  intros Hc Hs Hk Hin HL. exists fp. split_and!; [|eapply section_text_keep; [done|set_solver|done]|done].
  eapply config_at_keep; [|done]. eapply keep_sub; [|done]. set_solver.
Qed.

(** Rearranges a list that contains [fp]. *)
Ltac permf fp := cbn [app option_list]; rewrite (Permutation_app_comm fp); try rewrite (Permutation_app_comm fp); perm.

Lemma take_line_spec config l buf ptr sec X size line h :
  owns h config l buf ptr sec X ->
  wp (take_line_m config ptr size line) (fun ptr' h' => keep X h h' /\
    let '(sec', l', n) := line_effect sec l size line in
    exists L, owns h' config l' buf ptr' sec' (L ++ X) /\ length L = n) h.
Proof.
  intros (fp & Hc & Hs & HL). unfold take_line_m, line_effect. wp_steps.
  eapply wp_mono; [apply (get_section_spec _ None None (fp ++ buf :: option_list ptr ++ X) h); split; [done|exact HL]|].
  cbv beta. intros tmp h1 [Hk1 Hsec].
  unfold _conf_get_section. destruct (section_loop _ None) as [s|].
  - destruct Hsec as (t & -> & HL1 & Ht). wp_steps.
    assert (text_at h1 t (c_string s)) as Htt by (by exists s).
    destruct ptr as [q|]; cbn [free_ptr option_list app] in *; wp_steps.
    + eapply (wp_give _ _ _ (t :: fp ++ buf :: X)); [exact HL1|permf fp|]. intros h2 HL2 Hk2. wp_steps. split; [kept|].
      exists []. split; [|done]. exists fp. split_and!.
      * eapply config_at_keep; [|done]. kept.
      * eapply text_at_keep; [exact Hk2|set_solver|done].
      * eapply live_perm; [|exact HL2]. permf fp.
    + split; [kept|]. exists []. split; [|done]. exists fp. split_and!; [eapply config_at_keep; [|done]; kept|done|].
      eapply live_perm; [|exact HL1]. permf fp.
  - destruct Hsec as [-> HL1]. wp_steps. eapply wp_mono; [by apply parse_line_spec|]. cbv beta. intros r h2 Hr.
    destruct (_conf_parseLine (before_nul line)) as [c|].
    + destruct Hr as (o & v & w & -> & Hk2 & HL2 & Hco). destruct ptr as [q|], sec as [s|]; try done; cbn [bool_decide negb when].
      * assert (keep (fp ++ buf :: q :: X) h h2) as Hk by kept.
        rewrite bool_decide_false by done. cbn [negb when]. wp_steps.
        eapply wp_mono; [eapply (set_value_spec config l fp o v w c q s (buf :: q :: X))|].
        { eapply live_perm; [|exact HL2]. permf fp. }
        { eapply config_at_keep; [|done]. eapply keep_sub; [|exact Hk]. set_solver. }
        { done. }
        { set_solver. }
        { eapply text_at_keep; [exact Hk|set_solver|done]. }
        intros ? h3 (l' & fp' & -> & Hl' & Hk3 & HL3 & Hc3). cbn [negb when]. wp_steps. split; [kept|]. rewrite Hl'. exists [].
        split; [|done]. exists fp'. split_and!; [done| |done].
        eapply (text_at_keep (buf :: q :: X)); [kept|set_solver|done].
      * rewrite bool_decide_true by done. cbn [negb when]. wp_steps. split; [kept|]. exists [o; v; w]. split; [|done].
        eapply (owns_keep h _ _ _ _ None None _ fp (fp ++ buf :: X)); [done|done|kept|set_solver|].
        eapply live_perm; [|exact HL2]. permf fp.
    + destruct Hr as [-> [Hk2 (L & HL2 & Hn)]]. wp_steps. split; [kept|]. exists L. split; [|done].
      eapply (owns_keep h _ _ _ _ ptr sec _ fp (fp ++ buf :: option_list ptr ++ X)); [done|done|kept|set_solver|].
      eapply live_perm; [|exact HL2]. rewrite Permutation_app_swap_app. f_equiv. rewrite <- Permutation_middle. f_equiv.
      apply Permutation_app_swap_app.
Qed.

(** The blocks a character leaks: only the end of a line does. *)
Definition end_leak (s : parse_state) : nat :=
  match _conf_strip_comment (ps_buf s) with
  | None => O
  | Some line => (line_effect (ps_section s) (ps_config s) (length (ps_buf s)) line).2
  end.
Definition char_leak (s : parse_state) (c : ascii) : nat :=
  if negb (bool_decide (c = CR)) && bool_decide (c = LF) then end_leak s else O.
Fixpoint leaks (content : list ascii) (s : parse_state) : nat :=
  match content with
  | [] => O
  | c :: content => char_leak s c + match parse_char s c with Some s' => leaks content s' | None => O end
  end.

Lemma end_line_effect s :
  end_line s =
  let s' := s <| ps_linenum := ps_linenum s + 1 |> <| ps_buf := [] |> in
  match _conf_strip_comment (ps_buf s) with
  | None => s'
  | Some line =>
      let '(sec, l, _) := line_effect (ps_section s) (ps_config s) (length (ps_buf s)) line in
      s' <| ps_section := sec |> <| ps_config := l |>
  end.
Proof.
  unfold end_line, line_effect. destruct s as [buf bs ln sec l]. simpl. destruct (_conf_strip_comment buf); [|done].
  destruct (_conf_get_section _); [done|]. destruct (_conf_parseLine _); [|done].
  destruct sec; [|done]. by destruct (_conf_setValue l _ _).
Qed.

Record reading (config : nat) (s : parse_state) (n : nat) (r : reader) (h : heap) : Prop := {
  rg_chars : rd_chars r = ps_buf s;
  rg_bufsize : rd_bufsize r = ps_bufsize s;
  rg_owns : exists L, owns h config (ps_config s) (rd_buf r) (rd_section r) (ps_section s) L /\ length L = n
}.

Lemma owns_perm h config l buf ptr sec X Y : X ≡ₚ Y -> owns h config l buf ptr sec X -> owns h config l buf ptr sec Y.
Proof. intros HXY (fp & Hc & Hs & HL). exists fp. split_and!; [done..|]. by rewrite <- HXY. Qed.

Lemma wp_line_of p line (Q : list ascii -> heap -> Prop) h : h !! p = Some (BBytes line) -> Q line h -> wp (line_of p) Q h.
Proof. intros Hp HQ. unfold line_of. wp_steps. eapply wp_load; [done|]. by wp_steps. Qed.

Lemma end_line_spec config s n r h :
  reading config s n r h -> wp (end_line_m config r) (reading config (end_line s) (n + end_leak s)) h.
Proof.
  intros [Hch Hbs (L & Ho & Hn)]. unfold end_line_m. wp_steps. rewrite Hch. destruct Ho as (fp & Hc & Hs & HL).
  eapply wp_mono; [by apply strip_comment_spec|]. cbv beta. intros nl h1 [Hk1 Hnl]. rewrite end_line_effect. unfold end_leak.
  destruct (_conf_strip_comment (ps_buf s)) as [line|].
  - destruct Hnl as (p & -> & HL1 & Hp). wp_steps. eapply wp_line_of; [done|]. wp_steps.
    assert (owns h1 config (ps_config s) (rd_buf r) (rd_section r) (ps_section s) (p :: L)) as Ho1.
    { eapply owns_keep; [done..|set_solver|]. eapply live_perm; [|exact HL1]. rewrite Permutation_middle. f_equiv.
      etransitivity; [apply Permutation_swap|]. f_equiv. apply Permutation_middle. }
    eapply wp_mono; [by apply take_line_spec|]. cbv beta. intros ptr h2 [Hk2 He].
    destruct (line_effect _ _ _ _) as [[sec' l'] k]. destruct He as (L2 & (fp2 & Hc2 & Hs2 & HL2) & Hk). wp_steps.
    eapply (wp_give _ _ _ (fp2 ++ rd_buf r :: option_list ptr ++ L2 ++ L)); [exact HL2| |].
    { rewrite <- (Permutation_middle L2), <- (Permutation_middle (option_list ptr)). rewrite (Permutation_middle fp2).
      f_equiv. apply Permutation_swap. }
    intros h3 HL3 Hk3. wp_steps. split; [done|done|]. exists (L2 ++ L). split; [|simpl; rewrite length_app; lia].
    eapply (owns_keep h2); [done|done|exact Hk3|set_solver|done].
  - destruct Hnl as [-> HL1]. wp_steps. split; [done|done|]. exists L. split; [|simpl; lia].
    eapply (owns_keep h); [done|done|exact Hk1|set_solver|done].
Qed.

Lemma grow_spec config s n r h :
  reading config s n r h -> wp (grow r) (reading config (s <| ps_bufsize := ps_bufsize s + 64 |>) n) h.
Proof.
  intros [Hch Hbs (L & (fp & Hc & Hs & HL) & Hn)]. unfold grow. wp_steps. eapply wp_calloc; [done|]. intros p h1 HL1 Hk1 _. wp_steps.
  eapply (wp_give _ _ _ (fp ++ p :: option_list (rd_section r) ++ L)); [exact HL1| |].
  { rewrite !(Permutation_middle fp). f_equiv. apply Permutation_swap. }
  intros h2 HL2 Hk2. wp_steps. split; [done|simpl; by rewrite Hbs|]. exists L. split; [|done].
  exists fp. split_and!; [eapply config_at_keep; [|done]; kept| |done].
  eapply (section_text_keep (option_list (rd_section r))); [kept|done|done].
Qed.

Lemma parse_char_spec config s s' n r c h :
  reading config s n r h -> parse_char s c = Some s' ->
  wp (parse_char_m config r c) (reading config s' (n + char_leak s c)) h.
Proof.
  intros Hr Hp. unfold parse_char_m, parse_char, char_leak in *. rewrite (rg_chars _ _ _ _ _ Hr), (rg_bufsize _ _ _ _ _ Hr).
  set (grows := ps_bufsize s <? Z.of_nat (length (ps_buf s)) + 64) in *.
  set (s1 := if grows then s <| ps_bufsize := ps_bufsize s + 64 |> else s) in *.
  apply wp_bind. assert (wp (if grows then grow r else mret r) (reading config s1 n) h) as Hg.
  { unfold s1. destruct grows; [by apply grow_spec|by wp_steps]. }
  eapply wp_mono; [exact Hg|]. intros r1 h1 Hr1.
  assert (ps_buf s1 = ps_buf s /\ end_leak s1 = end_leak s) as [Eb El] by (unfold s1; by destruct grows).
  rewrite (rg_bufsize _ _ _ _ _ Hr1). destruct (bool_decide (c = CR)).
  { injection Hp as <-. wp_steps. by rewrite Nat.add_0_r. }
  destruct (_ <=? _); [done|]. destruct (bool_decide (c = LF)).
  - injection Hp as <-. rewrite <- El. by apply end_line_spec.
  - injection Hp as <-. wp_steps. rewrite Nat.add_0_r. destruct Hr1 as [Hch Hbs Ho]. split; [simpl; by rewrite Hch|done|done].
Qed.

Lemma parse_chars_spec config content : forall s s' n r h,
  reading config s n r h -> parse_chars content s = Some s' ->
  wp (parse_chars_m config content r) (reading config s' (n + leaks content s)) h.
Proof.
  induction content as [|c content IH]; intros s s' n r h Hr Hp; cbn [parse_chars parse_chars_m leaks] in *.
  { injection Hp as <-. wp_steps. by rewrite Nat.add_0_r. }
  destruct (parse_char s c) as [s1|] eqn:Es; [|done]. cbn [mbind option_bind] in Hp. wp_steps. eapply wp_mono; [by eapply parse_char_spec|].
  intros r1 h1 Hr1. rewrite Nat.add_assoc. by eapply IH.
Qed.
End memory.

Lemma parse_start_reading h0 h :
  live h0 h [] ->
  wp (config ← alloc (BNode None None None);
      buf ← alloc (BBytes []);
      mret (config, buf)) (fun '(config, buf) h' => reading h0 config parse_start 0 (Reader [] 256 buf None) h') h.
Proof.
  intros HL. wp_steps. eapply wp_calloc; [done|]. intros config h1 HL1 Hk1 Hc. wp_steps. eapply wp_calloc; [done|].
  intros buf h2 HL2 Hk2 _. wp_steps. split; [done|done|]. exists []. split; [|done]. exists [config]. split_and!.
  - left. split_and!; [done|done|]. by rewrite Hk2 by set_solver.
  - done.
  - eapply live_perm; [|exact HL2]. perm.
Qed.

Lemma parse_chars_total content : exists s, parse_chars content parse_start = Some s.
Proof.
  destruct (parse_total content false) as [c Hc]. unfold _conf_parseConfig in Hc.
  destruct (parse_chars content parse_start) as [s|]; [by exists s|done].
Qed.

(** The blocks of a list. *)
Definition list_blocks (l : config_t) : nat :=
  match l with
  | [Node None _] => 1
  | _ => 5 * length l
  end.

(** The reader at the end of the file. *)
Lemma parse_config_spec content read_error h s :
  parse_chars content parse_start = Some s ->
  wp (parse_config_m content read_error) (fun r h' => exists config fp L,
    length L = leaks content parse_start /\ length fp = list_blocks (ps_config s) /\
    if read_error then r = None /\ exists M, fp ≡ₚ config :: M /\ live h h' (M ++ L)
    else r = Some config /\ config_at h' config (ps_config s) fp /\ live h h' (fp ++ L)) h.
Proof.
  intros Hs. unfold parse_config_m. pose proof (parse_start_reading h h (live_start h)) as Hst.
  apply wp_bind. apply wp_bind_inv in Hst. eapply wp_mono; [exact Hst|]. intros config h1 Hst1. apply wp_bind.
  apply wp_bind_inv in Hst1. eapply wp_mono; [exact Hst1|]. intros buf h2 Hr. apply wp_bind.
  eapply wp_mono; [eapply parse_chars_spec; [exact Hr|exact Hs]|]. intros r h3 [_ _ (L & (fp & Hc & Ht & HL) & Hn)].
  assert (length fp = list_blocks (ps_config s) /\
    exists M, fp ≡ₚ config :: M) as [Hfp [M HM]].
  { destruct Hc as [(-> & -> & _)|Hrep]; [split; [done|by exists []]|]. split; [|inversion Hrep; subst; cbn [app]; eexists; reflexivity].
    rewrite (conf_rep_length _ _ _ _ Hrep). inversion Hrep as [|? ? ? ? ? ? ? ? l]; subst. by destruct l. }
  assert (live h h3 (option_list (rd_section r) ++ rd_buf r :: fp ++ L)) as HL1.
  { eapply live_perm; [|exact HL]. rewrite <- (Permutation_middle fp), (Permutation_app_swap_app fp). apply Permutation_middle. }
  destruct read_error; wp_steps; (eapply wp_free_ptr; [exact HL1|]); intros h4 HL4 Hk4; wp_steps.
  - eapply wp_give; [exact HL4|rewrite HM; cbn [app]; apply Permutation_swap|]. intros h5 HL5 Hk5. wp_steps.
    eapply wp_free_one; [exact HL5|]. intros h6 HL6 _. wp_steps. exists config, fp, L. split_and!; [done|done|done|]. by exists M.
  - eapply wp_free_one; [exact HL4|]. intros h5 HL5 Hk5. wp_steps. exists config, fp, L. split_and!; [done|done|done| |done].
    eapply config_at_keep; [|exact Hc]. kept.
Qed.

(** C11: reading a configuration file and giving the list back, with the blocks
    followed one by one, for every file: the list that lies in the heap is the
    one [ConfigLib] computes; besides it the reader leaves exactly the blocks
    of the lines it rejects, one name for a line like [name =] or [a = = b] and
    three for a value outside a section; [_conf_printConfig] prints the values
    in order and [_conf_freeConfig] gives back every block of the list, each
    once, and nothing else.  Without rejected lines the heap is the one there
    was. *)
Theorem config_memory h content :
  exists l config fp L h1 h2,
    _conf_parseConfig content false = Some (Some l) /\
    parse_config_m content false h = Ok (Some config) h1 /\
    config_at h1 config l fp /\ live h h1 (fp ++ L) /\
    length fp = list_blocks l /\ length L = leaks content parse_start /\
    print_config_m (Some config) h1 = Ok (printed l) h1 /\
    free_config_m (Some config) h1 = Ok tt h2 /\ live h h2 L /\
    (leaks content parse_start = O -> h2 = h).
Proof.
  destruct (parse_chars_total content) as [s Hs].
  pose proof (parse_config_spec content false h s Hs) as Hp.
  apply wp_ok in Hp as (r & h1 & Hp & config & fp & L & HnL & Hnf & -> & Hc & HL).
  pose proof (free_config_spec h config (ps_config s) fp L h1 HL Hc) as Hf. apply wp_ok in Hf as ([] & h2 & Hf & HL2 & _).
  exists (ps_config s), config, fp, L, h1, h2. split_and!; try done.
  - unfold _conf_parseConfig. by rewrite Hs.
  - unfold print_config_m, gets, mbind, M_bind. pose proof (live_size _ _ _ _ HL) as Hsz.
    pose proof (config_at_length _ _ _ _ Hc). destruct Hc as [(-> & -> & Hh)|Hr]; [|eapply print_nodes_spec; [done|lia]].
    destruct (size h1) as [|n]; [simpl in *; lia|]. cbn [print_nodes]. unfold load_node, load, get, mbind, M_bind. rewrite Hh. by destruct n.
  - intros H0. rewrite H0 in HnL. destruct L; [|done]. by apply live_nil.
Qed.

(** After a read error only the first node is given back: the blocks of every
    value read so far are lost. *)
Lemma config_read_error h content :
  exists l M h1, _conf_parseConfig content false = Some (Some l) /\
    parse_config_m content true h = Ok None h1 /\ live h h1 M /\
    length M = (list_blocks l - 1 + leaks content parse_start)%nat.
Proof.
  destruct (parse_chars_total content) as [s Hs].
  pose proof (parse_config_spec content true h s Hs) as Hp.
  apply wp_ok in Hp as (r & h1 & Hp & config & fp & L & HnL & Hnf & -> & M & HM & HL).
  exists (ps_config s), (M ++ L), h1. split_and!; [unfold _conf_parseConfig; by rewrite Hs|done|done|].
  rewrite length_app, <- Hnf, HnL. apply Permutation_length in HM. rewrite HM. simpl. lia.
Qed.

(** A line without a value, a line with two signs and a value before the first
    section leak; the others do not. *)
Definition demo_file : list ascii :=
  list_ascii_of_string "lost=1" ++ [LF] ++ list_ascii_of_string "[general]" ++ [LF] ++
  list_ascii_of_string "mode=" ++ [LF] ++ list_ascii_of_string "a==b" ++ [LF] ++
  list_ascii_of_string "# comment" ++ [LF] ++ list_ascii_of_string "mtu = 1400" ++ [LF].
Example demo_leaks : leaks demo_file parse_start = 5%nat.
Proof. vm_compute. reflexivity. Qed.
Example demo_heap :
  match parse_config_m demo_file false ∅ with
  | Ok (Some p) h =>
      size h = 10%nat /\
      match free_config_m (Some p) h with Ok _ h' => size h' = 5%nat | Fault _ => False end
  | _ => False
  end.
Proof. vm_compute. split; reflexivity. Qed.
