(* ===== verification/Memory.v ===== *)
(** * The memory of the buffers, the tunnels and the scripts
      ([buffer.c], [mlvpn_script_get_env], [mlvpn_rtun_new] and
      [mlvpn_rtun_drop] of [src/src/mlvpn.c])

    The blocks these functions allocate and give back, on the heap of [Heap].
    The environment of a script is given back entirely; a packet ring and a
    tunnel are not, and the theorems say what stays. *)

From Stdlib Require Import Ascii String.
From S2P Require Import Prelude CString Pkt Buffer Tunnel Rtun Heap.
Import ListNotations.
Open Scope list_scope.
Open Scope Z_scope.

(** An element of an array of pointers is set: [a[i] = p]. *)
Definition set_elem (a i : nat) (p : nat) : H unit :=
  b ← load a;
  match b with
  | BArr l => if (i <? length l)%nat then store a (BArr (<[i := Some p]> l)) else fail (BadAccess "a[i]")
  | _ => fail (BadAccess "a[i]")
  end.

(** One new block for every element from [i] on. *)
Fixpoint fill_array (blocks : list block) (i : nat) (a : nat) : H unit :=
  match blocks with
  | [] => mret tt
  | b :: blocks => p ← alloc b; set_elem a i p;; fill_array blocks (S i) a
  end.

(** ** Packet rings *)

Definition cb_init_m (size : Z) : H nat := alloc (BRing (size + 1) None).
Definition cb_free_m (buf : nat) : H unit := free buf.

Definition pktbuffer_init_m (size : Z) : H nat :=
  buf ← cb_init_m size;
  pktbuf ← alloc (BPkts None);
  let n := Z.to_nat (size + 1) in
  pkts ← alloc (BArr (replicate n None));
  store pktbuf (BPkts (Some pkts));;
  fill_array (replicate n BPkt) 0 pkts;;
  store buf (BRing (size + 1) (Some pktbuf));;
  mret buf.

Definition pktbuffer_free_m (buf : nat) : H unit :=
  b ← load buf;
  match b with
  | BRing _ data =>
      d ← load_ptr data;
      match d with BPkts pkts => free_ptr pkts | _ => fail (BadAccess "pktbuffer") end;;
      cb_free_m buf
  | _ => fail (BadAccess "circular_buffer_t")
  end.

(** ** The environment of a script *)

(** [*env_len] *)
Definition env_len : nat := 8.
(** [texts]: the strings [mlvpn_script_get_env] of [Rtun] prints in the blocks. *)
Definition script_get_env_m (texts : list string) : H nat :=
  env ← alloc (BArr (replicate (env_len + 1) None));
  fill_array ((fun s => BBytes (list_ascii_of_string s ++ [NUL])) <$> texts) 0 env;;
  mret env.

(** [while ( *envp) { free( *envp); envp++; }], over the [n] elements of the
    array. *)
Fixpoint free_elems (n i : nat) (env : nat) : H unit :=
  b ← load env;
  match b with
  | BArr l =>
      match l !! i, n with
      | None, _ => fail (BadAccess "envp")
      | Some None, _ => mret tt
      | Some (Some p), S n => free p;; free_elems n (S i) env
      | Some (Some _), O => fail Diverges
      end
  | _ => fail (BadAccess "envp")
  end.
Definition free_script_env_m (env : nat) : H unit :=
  b ← load env;
  match b with
  | BArr l => free_elems (length l) 0 env;; free env
  | _ => fail (BadAccess "env")
  end.

(** ** Addresses *)

(** [last->ai_next = new] *)
Definition set_next (last : option nat) (new : nat) : H unit :=
  match last with
  | None => mret tt
  | Some last =>
      b ← load last;
      match b with BAddr addr _ => store last (BAddr addr (Some new)) | _ => fail (BadAccess "ai_next") end
  end.

(** The loop of [priv_getaddrinfo] over the addresses it receives; the result
    is the first node, which goes to [*addrinfo]. *)
Fixpoint read_addrinfos_m (addrs : list (list ascii)) (first last : option nat) : H (option nat) :=
  match addrs with
  | [] => mret first
  | sa :: addrs =>
      new ← alloc (BAddr None None);
      addr ← alloc (BBytes sa);
      store new (BAddr (Some addr) None);;
      set_next last new;;
      read_addrinfos_m addrs (match last with None => Some new | Some _ => first end) (Some new)
  end.

(** ** Tunnels *)

Definition rtun_new_m (name : string) : H nat :=
  t ← alloc (BTun None None None None);
  name ← alloc (BBytes (list_ascii_of_string name ++ [NUL]));
  store t (BTun (Some name) None None None);;
  sbuf ← pktbuffer_init_m PKTBUFSIZE;
  store t (BTun (Some name) None (Some sbuf) None);;
  hpsbuf ← pktbuffer_init_m PKTBUFSIZE;
  store t (BTun (Some name) None (Some sbuf) (Some hpsbuf));;
  mret t.

(** [priv_getaddrinfo(addr, port, &t->addrinfo, &hints)] of [mlvpn_rtun_start];
    without an address [t->addrinfo] stays as it is. *)
Definition rtun_resolve_m (addrs : list (list ascii)) (t : nat) : H unit :=
  first ← read_addrinfos_m addrs None None;
  match first with
  | None => mret tt
  | Some a =>
      b ← load t;
      match b with
      | BTun name _ sbuf hpsbuf => store t (BTun name (Some a) sbuf hpsbuf)
      | _ => fail (BadAccess "mlvpn_tunnel_t")
      end
  end.

Section tunnels.
(** The C library's [freeaddrinfo]. *)
Context (freeaddrinfo : nat -> H unit).

(** What [mlvpn_rtun_drop] does with the tunnel it takes out of the list. *)
Definition rtun_release_m (t : nat) : H unit :=
  b ← load t;
  match b with
  | BTun name addrinfo sbuf hpsbuf =>
      free_ptr name;;
      match addrinfo with Some a => freeaddrinfo a | None => mret tt end;;
      s ← expect (BadAccess "NULL") sbuf; pktbuffer_free_m s;;
      hp ← expect (BadAccess "NULL") hpsbuf; pktbuffer_free_m hp;;
      store t (BTun None addrinfo sbuf hpsbuf)
  | _ => fail (BadAccess "mlvpn_tunnel_t")
  end.
End tunnels.

(** ** What is allocated and given back *)

Section account.
Context (h0 : heap).

(** [pre]: the elements that are set already. *)
Lemma fill_array_spec a G blocks : forall pre m h,
  live h0 h (a :: G) -> h !! a = Some (BArr (pre ++ replicate (length blocks + m) None)) ->
  wp (fill_array blocks (length pre) a) (fun _ h' => exists ps,
    length ps = length blocks /\ live h0 h' (ps ++ a :: G) /\ keep G h h' /\
    h' !! a = Some (BArr (pre ++ (Some <$> ps) ++ replicate m None))) h.
Proof.
  induction blocks as [|b blocks IH] in G |- *; intros pre m h HL Ha; cbn [fill_array length] in *.
  { wp_steps. by exists []. }
  wp_steps. eapply wp_calloc; [done|]. intros p h1 HL1 Hk1 Hp. wp_steps. unfold set_elem. wp_steps.
  eapply wp_load; [rewrite Hk1 by set_solver; exact Ha|]. cbn [Nat.add replicate].
  replace (length pre <? _)%nat with true by (symmetry; apply Nat.ltb_lt; rewrite length_app; simpl; lia).
  rewrite insert_app_r_alt, Nat.sub_diag by lia. cbn [list_insert insert].
  eapply wp_set; [done|apply Permutation_swap|]. intros h2 HL2 Hk2 Ha2.
  replace (S (length pre)) with (length (pre ++ [Some p])) by (rewrite length_app; simpl; lia).
  eapply wp_mono; [apply (IH (p :: G) (pre ++ [Some p]) m)|].
  - eapply live_perm; [|exact HL2]. apply Permutation_swap.
  - rewrite <- app_assoc. exact Ha2.
  - intros [] h3 (ps & Hn & HL3 & Hk3 & Ha3). exists (p :: ps). split_and!; [simpl; lia| | |].
    + eapply live_perm; [|exact HL3]. etransitivity; [|symmetry; apply Permutation_middle]. f_equiv. apply Permutation_swap.
    + kept.
    + by rewrite <- app_assoc in Ha3.
Qed.

(** A ring: its header, the pointer to the array, the array and the packets. *)
Definition ring_at (h : heap) (buf pktbuf pkts : nat) : Prop :=
  (exists size, h !! buf = Some (BRing size (Some pktbuf))) /\ h !! pktbuf = Some (BPkts (Some pkts)).

Lemma ring_at_keep F h h' buf pktbuf pkts :
  keep F h h' -> [buf; pktbuf] ⊆ F -> ring_at h buf pktbuf pkts -> ring_at h' buf pktbuf pkts.
Proof. intros Hk Hs [[size Hb] Hp]. split; [exists size|]; by rewrite Hk by set_solver. Qed.

Lemma pktbuffer_init_spec size F h :
  live h0 h F ->
  wp (pktbuffer_init_m size) (fun buf h' => exists pktbuf pkts ps,
    length ps = Z.to_nat (size + 1) /\ live h0 h' ([buf; pktbuf; pkts] ++ ps ++ F) /\ keep F h h' /\
    ring_at h' buf pktbuf pkts) h.
Proof.
  intros HL. unfold pktbuffer_init_m, cb_init_m. wp_steps. eapply wp_calloc; [done|]. intros buf h1 HL1 Hk1 _. wp_steps.
  eapply wp_calloc; [done|]. intros pktbuf h2 HL2 Hk2 _. wp_steps. eapply wp_calloc; [done|]. intros pkts h3 HL3 Hk3 Ha. wp_steps.
  eapply wp_set; [done|perm|]. intros h4 HL4 Hk4 Hp. wp_steps.
  eapply wp_mono; [apply (fill_array_spec pkts ([pktbuf; buf] ++ F) _ [] 0)|].
  - exact HL4.
  - rewrite length_replicate, Nat.add_0_r, Hk4 by set_solver. exact Ha.
  - intros [] h5 (ps & Hn & HL5 & Hk5 & _). rewrite length_replicate in Hn. wp_steps.
    eapply (wp_set _ _ _ _ (ps ++ pkts :: pktbuf :: F)); [exact HL5| |].
    { rewrite !(Permutation_app_comm ps). perm. }
    intros h6 HL6 Hk6 Hb. wp_steps. exists pktbuf, pkts, ps. split_and!; [done| |kept|split; [by eexists|]].
    + eapply live_perm; [|exact HL6]. rewrite Permutation_app_comm, (Permutation_app_comm ps). perm.
    + rewrite Hk6, Hk5 by set_solver. done.
Qed.

Lemma pktbuffer_free_spec buf pktbuf pkts F h :
  live h0 h ([buf; pktbuf; pkts] ++ F) -> ring_at h buf pktbuf pkts ->
  wp (pktbuffer_free_m buf) (fun _ h' => live h0 h' (pktbuf :: F) /\ keep F h h') h.
Proof.
  intros HL [[size Hb] Hp]. unfold pktbuffer_free_m, cb_free_m. wp_steps. eapply wp_load; [done|]. cbv beta iota. wp_steps.
  eapply wp_load_ptr; [done|]. cbv beta iota. wp_steps. cbn [free_ptr]. wp_steps. eapply wp_give; [done|perm|]. intros h1 HL1 Hk1.
  eapply wp_give; [done|perm|]. intros h2 HL2 Hk2. split; [done|kept].
Qed.

Lemma free_elems_spec env n : forall pre ps G h,
  live h0 h (ps ++ env :: G) -> h !! env = Some (BArr (pre ++ (Some <$> ps) ++ [None])) -> (length ps <= n)%nat ->
  wp (free_elems n (length pre) env) (fun _ h' => live h0 h' (env :: G) /\ keep G h h') h.
Proof.
  induction n as [|n IH]; intros pre ps G h HL Ha Hn; (destruct ps as [|p ps]; [|simpl in Hn; try lia]); cbn [free_elems];
    wp_steps; (eapply wp_load; [done|]); cbv beta iota; rewrite lookup_app_r, Nat.sub_diag by lia; cbn [fmap list_fmap app lookup list_lookup];
    [by wp_steps..|].
  wp_steps. eapply wp_free_one; [exact HL|]. intros h1 HL1 Hk1.
  replace (S (length pre)) with (length (pre ++ [Some p])) by (rewrite length_app; simpl; lia).
  eapply wp_mono; [apply (IH (pre ++ [Some p]) ps G); [done| |lia]|].
  - rewrite Hk1 by set_solver. rewrite Ha, <- app_assoc. done.
  - intros [] h2 [HL2 Hk2]. split; [done|]. kept.
Qed.
End account.

Lemma env_released h texts :
  length texts = env_len ->
  exists env h1, script_get_env_m texts h = Ok env h1 /\ free_script_env_m env h1 = Ok tt h.
Proof.
  intros Hl.
  assert (wp (script_get_env_m texts) (fun env h1 => wp (free_script_env_m env) (fun _ h2 => h2 = h) h1) h) as Hw.
  { unfold script_get_env_m. wp_steps. eapply wp_calloc; [apply live_start|]. intros env h1 HL1 _ Ha. wp_steps.
    eapply wp_mono; [apply (fill_array_spec h env [] _ [] 1); [done|by rewrite length_fmap, Hl]|].
    intros [] h2 (ps & Hn & HL2 & _ & Ha2). wp_steps. unfold free_script_env_m. wp_steps. eapply wp_load; [done|]. cbv beta iota. wp_steps.
    eapply wp_mono; [apply (free_elems_spec h env _ [] ps []); [done|done|]|].
    { rewrite !length_app, length_fmap. simpl. lia. }
    intros [] h3 [HL3 _]. eapply wp_free_one; [exact HL3|]. intros h4 HL4 _. by apply live_nil. }
  apply wp_ok in Hw as (env & h1 & Hg & Hf). apply wp_ok in Hf as ([] & h2 & Hf & ->). by exists env, h1.
Qed.

(** The environment [mlvpn_script_get_env] builds is given back by
    [mlvpn_free_script_env], the array and its strings, each once: the heap is
    the one there was, whatever the options.  The [NULL] that ends the walk is
    the last of the [env_len + 1] elements. *)
Theorem script_env_released h w :
  exists texts env h1,
    mlvpn_script_get_env w = Ok texts w /\ length texts = env_len /\
    script_get_env_m texts h = Ok env h1 /\ free_script_env_m env h1 = Ok tt h.
Proof.
  destruct (mlvpn_script_get_env w) as [texts w'|] eqn:Ht; [|done].
  assert (w' = w /\ length texts = env_len) as [-> Hl]
    by (unfold mlvpn_script_get_env, gets, mbind, M_bind, mret, M_ret in Ht; by simplify_eq).
  destruct (env_released h texts Hl) as (env & h1 & Hg & Hf). by exists texts, env, h1.
Qed.

(** [mlvpn_pktbuffer_free] gives back the header and the array of pointers:
    the packets and the structure that points to the array are lost. *)
Lemma pktbuffer_leaks h size :
  0 <= size ->
  exists buf h1 h2 L, pktbuffer_init_m size h = Ok buf h1 /\ pktbuffer_free_m buf h1 = Ok tt h2 /\
    live h h2 L /\ Z.of_nat (length L) = size + 2.
Proof.
  intros Hs. pose proof (pktbuffer_init_spec h size [] h (live_start h)) as Hi.
  apply wp_ok in Hi as (buf & h1 & Hi & pktbuf & pkts & ps & Hn & HL & _ & Hr).
  pose proof (pktbuffer_free_spec h buf pktbuf pkts _ h1 HL Hr) as Hf. apply wp_ok in Hf as ([] & h2 & Hf & HL2 & _).
  exists buf, h1, h2, (pktbuf :: ps ++ []). split_and!; [done..|]. simpl. rewrite length_app. simpl. lia.
Qed.

(** ** Addresses and tunnels *)

(** A list of addresses in the heap: its nodes and their addresses. *)
Definition addr_rep (h : heap) (ns : list (nat * nat)) : Prop :=
  forall i n p, ns !! i = Some (n, p) -> h !! n = Some (BAddr (Some p) (fst <$> ns !! S i)).
Definition addr_blocks (ns : list (nat * nat)) : list nat := mjoin ((fun '(n, p) => [n; p]) <$> ns).

Lemma addr_blocks_app ns ns' : addr_blocks (ns ++ ns') = addr_blocks ns ++ addr_blocks ns'.
Proof. unfold addr_blocks. rewrite fmap_app. apply join_app. Qed.
Lemma length_addr_blocks ns : length (addr_blocks ns) = (2 * length ns)%nat.
Proof. induction ns as [|[n p] ns IH]; [done|].
  change (addr_blocks ((n, p) :: ns)) with (n :: p :: addr_blocks ns). cbn [length]. lia.
Qed.
Lemma addr_blocks_in ns i n p : ns !! i = Some (n, p) -> n ∈ addr_blocks ns.
Proof.
  intros Hi. rewrite <- (take_drop_middle _ _ _ Hi), addr_blocks_app, elem_of_app. right. cbn. set_solver.
Qed.

Lemma addr_rep_keep h h' ns : keep (addr_blocks ns) h h' -> addr_rep h ns -> addr_rep h' ns.
Proof. intros Hk Hr i n p Hi. rewrite Hk by (by eapply addr_blocks_in). by apply Hr. Qed.

(** What [freeaddrinfo] promises: every block of the list is given back and
    nothing else. *)
Class FreeAddrinfo (freeaddrinfo : nat -> H unit) : Prop :=
  free_addr_list h0 h n p ns F :
    addr_rep h ((n, p) :: ns) -> live h0 h (addr_blocks ((n, p) :: ns) ++ F) ->
    wp (freeaddrinfo n) (fun _ h' => live h0 h' F /\ keep F h h') h.

(** One more node at the end. *)
Lemma set_next_spec h0 h ns l pl new addr F :
  addr_rep h (ns ++ [(l, pl)]) -> h !! new = Some (BAddr (Some addr) None) ->
  live h0 h ([new; addr] ++ addr_blocks (ns ++ [(l, pl)]) ++ F) ->
  wp (set_next (Some l) new) (fun _ h' =>
    live h0 h' ([new; addr] ++ addr_blocks (ns ++ [(l, pl)]) ++ F) /\ keep F h h' /\
    addr_rep h' (ns ++ [(l, pl); (new, addr)])) h.
Proof.
  intros Hr Hnew HL. cbn [set_next]. wp_steps.
  assert (h !! l = Some (BAddr (Some pl) None)) as Hl.
  { rewrite (Hr (length ns) l pl); [|by rewrite lookup_app_r, Nat.sub_diag by lia]. f_equal.
    rewrite lookup_ge_None_2; [done|]. rewrite length_app. simpl. lia. }
  eapply wp_load; [done|]. cbv beta iota. rewrite addr_blocks_app in HL |- *.
  eapply (wp_set _ _ _ _ (new :: addr :: (addr_blocks ns ++ [pl]) ++ F)); [exact HL| |].
  { cbn [addr_blocks fmap list_fmap mjoin list_join app]. rewrite <- !app_assoc. cbn [app].
    rewrite (Permutation_app_comm (addr_blocks ns)). rewrite (Permutation_app_comm (addr_blocks ns)). perm. }
  intros h1 HL1 Hk1 Hl1. split_and!; [done|eapply keep_sub; [|exact Hk1]; set_solver|].
  pose proof (lv_nodup _ _ _ HL) as Hnd. intros i n p Hi. change [(l, pl); (new, addr)] with ([(l, pl)] ++ [(new, addr)]) in *.
  rewrite app_assoc in Hi |- *. destruct (decide (i < length ns)%nat) as [Hlt|Hge].
  - rewrite lookup_app_l in Hi by (rewrite length_app; simpl; lia). rewrite lookup_app_l by (rewrite length_app; simpl; lia).
    rewrite Hk1; [by apply Hr|]. rewrite lookup_app_l in Hi by done. apply addr_blocks_in in Hi. set_solver.
  - destruct (decide (i = length ns)) as [->|Hne].
    + rewrite lookup_app_l in Hi by (rewrite length_app; simpl; lia). rewrite lookup_app_r, Nat.sub_diag in Hi by lia.
      injection Hi as <- <-. rewrite Hl1. rewrite lookup_app_r by (rewrite length_app; simpl; lia).
      by replace (S (length ns) - length (ns ++ [(l, pl)]))%nat with O by (rewrite length_app; simpl; lia).
    + rewrite lookup_app_r in Hi by (rewrite length_app; simpl; lia).
      destruct (i - length (ns ++ [(l, pl)]))%nat as [|k] eqn:Ek; [|done]. injection Hi as <- <-.
      rewrite Hk1 by set_solver. rewrite Hnew. rewrite lookup_ge_None_2; [done|]. rewrite !length_app in *. simpl in *. lia.
Qed.

Lemma read_addrinfos_spec h0 F addrs : forall ns h,
  addr_rep h ns -> live h0 h (addr_blocks ns ++ F) ->
  wp (read_addrinfos_m addrs (fst <$> head ns) (fst <$> last ns)) (fun r h' => exists ns',
    r = fst <$> head ns' /\ length ns' = (length ns + length addrs)%nat /\
    live h0 h' (addr_blocks ns' ++ F) /\ keep F h h' /\ addr_rep h' ns') h.
Proof.
  induction addrs as [|sa addrs IH]; intros ns h Hr HL; cbn [read_addrinfos_m length].
  { wp_steps. exists ns. by rewrite Nat.add_0_r. }
  wp_steps. eapply wp_calloc; [done|]. intros new h1 HL1 Hk1 _. wp_steps. eapply wp_calloc; [done|]. intros addr h2 HL2 Hk2 _. wp_steps.
  eapply wp_set; [done|apply Permutation_swap|]. intros h3 HL3 Hk3 Hnew. wp_steps.
  assert (keep (addr_blocks ns ++ F) h h3) as Hk by kept.
  assert (addr_rep h3 ns) as Hr3 by (eapply addr_rep_keep; [eapply keep_sub; [|exact Hk]; set_solver|done]).
  assert (live h0 h3 ([new; addr] ++ addr_blocks ns ++ F)) as HL3' by (eapply live_perm; [|exact HL3]; perm).
  destruct (last ns) as [[l pl]|] eqn:El.
  - apply last_Some in El as [ns0 ->]. cbn [fmap option_fmap option_map fst].
    eapply wp_mono; [by eapply set_next_spec|]. intros [] h4 (HL4 & Hk4 & Hr4).
    set (ns4 := ns0 ++ [(l, pl); (new, addr)]) in *.
    assert (head (ns0 ++ [(l, pl)]) = head ns4) as -> by (by destruct ns0).
    assert (Some new = fst <$> last ns4) as ->.
    { unfold ns4. change [(l, pl); (new, addr)] with ([(l, pl)] ++ [(new, addr)]). by rewrite app_assoc, last_snoc. }
    eapply wp_mono; [apply (IH ns4 h4 Hr4)|].
    { unfold ns4. change [(l, pl); (new, addr)] with ([(l, pl)] ++ [(new, addr)]). rewrite app_assoc, addr_blocks_app.
      eapply live_perm; [|exact HL4]. rewrite <- app_assoc. apply Permutation_app_swap_app. }
    intros r h5 (ns' & -> & Hn & HL5 & Hk5 & Hr5). exists ns'. split_and!; [done| |done|kept|done].
    rewrite Hn. unfold ns4. rewrite !length_app. simpl. lia.
  - apply last_None in El as ->. cbn [fmap option_fmap option_map set_next]. wp_steps.
    eapply wp_mono; [apply (IH [(new, addr)] h3)|].
    + intros [|i] n p Hi; [|done]. by injection Hi as <- <-.
    + exact HL3'.
    + intros r h5 (ns' & -> & Hn & HL5 & Hk5 & Hr5). exists ns'. split_and!; [done|simpl in *; lia|done|kept|done].
Qed.

(** The blocks of a tunnel [t] with the name [nm] and the two rings. *)
Record tunnel := Tunnel {
  tn_t : nat; tn_name : nat;
  tn_s : nat; tn_s1 : nat; tn_s2 : nat; tn_ps : list nat;
  tn_q : nat; tn_q1 : nat; tn_q2 : nat; tn_qs : list nat
}.
Definition tunnel_blocks (x : tunnel) : list nat :=
  [tn_q x; tn_q1 x; tn_q2 x] ++ tn_qs x ++ [tn_s x; tn_s1 x; tn_s2 x] ++ tn_ps x ++ [tn_name x; tn_t x].
Definition tunnel_at (h : heap) (x : tunnel) (addrinfo : option nat) : Prop :=
  h !! tn_t x = Some (BTun (Some (tn_name x)) addrinfo (Some (tn_s x)) (Some (tn_q x))) /\
  ring_at h (tn_s x) (tn_s1 x) (tn_s2 x) /\ ring_at h (tn_q x) (tn_q1 x) (tn_q2 x).
Definition full_rings (x : tunnel) : Prop :=
  length (tn_ps x) = Z.to_nat (PKTBUFSIZE + 1) /\ length (tn_qs x) = Z.to_nat (PKTBUFSIZE + 1).

(** Everything but the structure itself. *)
Definition tunnel_rest (x : tunnel) : list nat :=
  [tn_q x; tn_q1 x; tn_q2 x] ++ tn_qs x ++ [tn_s x; tn_s1 x; tn_s2 x] ++ tn_ps x ++ [tn_name x].
Lemma tunnel_split x F : tunnel_blocks x ++ F ≡ₚ tn_t x :: tunnel_rest x ++ F.
Proof.
  unfold tunnel_blocks, tunnel_rest. change [tn_name x; tn_t x] with ([tn_name x] ++ [tn_t x]). rewrite !app_assoc, <- app_assoc.
  symmetry. apply (Permutation_middle _ F).
Qed.

Lemma tunnel_at_keep F h h' x a : keep F h h' -> tunnel_blocks x ⊆ F -> tunnel_at h x a -> tunnel_at h' x a.
Proof.
  intros Hk Hs (Ht & H1 & H2). unfold tunnel_blocks in Hs. split; [rewrite Hk by set_solver; done|].
  split; (eapply ring_at_keep; [exact Hk|set_solver|done]).
Qed.

Lemma rtun_new_spec name h :
  wp (rtun_new_m name) (fun t h' => exists x, t = tn_t x /\ full_rings x /\
    live h h' (tunnel_blocks x) /\ tunnel_at h' x None) h.
Proof.
  unfold rtun_new_m. wp_steps. eapply wp_calloc; [apply live_start|]. intros t h1 HL1 _ _. wp_steps.
  eapply wp_calloc; [done|]. intros nm h2 HL2 Hk2 _. wp_steps. eapply wp_set; [done|perm|]. intros h3 HL3 Hk3 _. wp_steps.
  eapply wp_mono; [by apply pktbuffer_init_spec|]. intros s h4 (s1 & s2 & ps & Hps & HL4 & Hk4 & Hr4). wp_steps.
  eapply (wp_set _ _ _ _ ([s; s1; s2] ++ ps ++ [nm])); [exact HL4| |].
  { change [nm; t] with ([nm] ++ [t]). rewrite !app_assoc. apply (Permutation_app_comm _ [t]). }
  intros h5 HL5 Hk5 _. wp_steps. eapply wp_mono; [by apply pktbuffer_init_spec|].
  intros q h6 (q1 & q2 & qs & Hqs & HL6 & Hk6 & Hr6). wp_steps. set (x := Tunnel t nm s s1 s2 ps q q1 q2 qs).
  eapply (wp_set _ _ _ _ (tunnel_rest x)); [exact HL6|pose proof (tunnel_split x []) as E; rewrite !app_nil_r in E; exact E|].
  intros h7 HL7 Hk7 Ht7. wp_steps. exists x. split; [done|]. split; [done|]. split; [exact HL7|]. split; [exact Ht7|].
  unfold tunnel_rest in Hk7. simpl in Hk7. split.
  - eapply (ring_at_keep [s; s1; s2]); [|set_solver|exact Hr4]. clear -Hk5 Hk6 Hk7. kept.
  - eapply ring_at_keep; [exact Hk7|set_solver|done].
Qed.

(** An attempt to connect: the list that was there is forgotten. *)
Lemma rtun_resolve_spec h0 x ns addrs X h :
  live h0 h (addr_blocks ns ++ tunnel_blocks x ++ X) -> addr_rep h ns -> tunnel_at h x (fst <$> head ns) ->
  wp (rtun_resolve_m addrs (tn_t x)) (fun _ h' => exists ns',
    live h0 h' (addr_blocks ns' ++ tunnel_blocks x ++ (if bool_decide (addrs = []) then [] else addr_blocks ns) ++ X) /\
    addr_rep h' ns' /\ tunnel_at h' x (fst <$> head ns') /\
    length ns' = (if bool_decide (addrs = []) then length ns else length addrs)) h.
Proof.
  intros HL Hr Ht. unfold rtun_resolve_m. wp_steps. destruct addrs as [|sa addrs]; [by exists ns|].
  rewrite bool_decide_false by done.
  eapply wp_mono; [eapply (read_addrinfos_spec h0 _ (sa :: addrs) [] h); [by intros i|exact HL]|].
  intros r h1 (ns' & -> & Hn & HL1 & Hk1 & Hr1). destruct ns' as [|[n p] ns']; [done|]. cbn [head fmap option_fmap option_map fst].
  destruct (tunnel_at_keep _ _ _ x _ Hk1 ltac:(set_solver) Ht) as (Ht1 & Hs1 & Hq1). wp_steps.
  eapply wp_load; [exact Ht1|]. cbv beta iota. set (ns1 := (n, p) :: ns') in *.
  eapply (wp_set _ _ _ _ (tunnel_rest x ++ addr_blocks ns1 ++ addr_blocks ns ++ X)); [exact HL1| |].
  { rewrite <- tunnel_split, (Permutation_app_swap_app (addr_blocks ns)), (Permutation_app_swap_app (addr_blocks ns1)). done. }
  intros h2 HL2 Hk2 Ht2. exists ns1. split_and!.
  - eapply live_perm; [|exact HL2]. f_equiv. apply Permutation_app_swap_app.
  - eapply addr_rep_keep; [|done]. eapply keep_sub; [|exact Hk2]. set_solver.
  - split; [exact Ht2|]. unfold tunnel_rest in Hk2. split; (eapply ring_at_keep; [exact Hk2|set_solver|done]).
  - done.
Qed.

(** The addresses of the attempts whose list was replaced; [cur]: those of the
    list in place. *)
Fixpoint replaced (cur : nat) (attempts : list (list (list ascii))) : nat :=
  match attempts with
  | [] => O
  | [] :: attempts => replaced cur attempts
  | addrs :: attempts => cur + replaced (length addrs) attempts
  end.

Lemma attempts_spec h0 x attempts : forall ns X h,
  live h0 h (addr_blocks ns ++ tunnel_blocks x ++ X) -> addr_rep h ns -> tunnel_at h x (fst <$> head ns) ->
  wp (for_each attempts (fun addrs => rtun_resolve_m addrs (tn_t x))) (fun _ h' => exists ns' Y,
    live h0 h' (addr_blocks ns' ++ tunnel_blocks x ++ Y) /\ addr_rep h' ns' /\ tunnel_at h' x (fst <$> head ns') /\
    length Y = (length X + 2 * replaced (length ns) attempts)%nat) h.
Proof.
  induction attempts as [|addrs attempts IH]; intros ns X h HL Hr Ht; cbn [for_each].
  { wp_steps. exists ns, X. split_and!; [done..|simpl; lia]. }
  wp_steps. eapply wp_mono; [by eapply rtun_resolve_spec|]. intros [] h1 (ns1 & HL1 & Hr1 & Ht1 & Hn1).
  eapply wp_mono; [by eapply IH|]. intros [] h2 (ns2 & Y & HL2 & Hr2 & Ht2 & HY). exists ns2, Y. split_and!; [done..|].
  rewrite HY, Hn1. destruct addrs as [|a addrs]; [done|]. rewrite bool_decide_false by done.
  rewrite length_app, length_addr_blocks. cbn [replaced]. lia.
Qed.

(** The rings and the structure. *)
Definition tunnel_core (x : tunnel) (X : list nat) : list nat :=
  [tn_q x; tn_q1 x; tn_q2 x] ++ tn_qs x ++ [tn_s x; tn_s1 x; tn_s2 x] ++ tn_ps x ++ tn_t x :: X.
Lemma tunnel_name x X : tunnel_blocks x ++ X ≡ₚ tn_name x :: tunnel_core x X.
Proof.
  unfold tunnel_blocks, tunnel_core. set (A := [tn_q x; _; _]). set (B := [tn_s x; _; _]). clearbody A B.
  assert ((A ++ tn_qs x ++ B ++ tn_ps x ++ [tn_name x; tn_t x]) ++ X = (A ++ tn_qs x ++ B ++ tn_ps x) ++ tn_name x :: tn_t x :: X) as ->
    by (by rewrite <- !app_assoc).
  rewrite <- Permutation_middle. by rewrite <- !app_assoc.
Qed.

(** The rings are given back in part. *)
Lemma release_rings_spec h0 x X h :
  live h0 h (tunnel_core x X) -> ring_at h (tn_s x) (tn_s1 x) (tn_s2 x) -> ring_at h (tn_q x) (tn_q1 x) (tn_q2 x) ->
  wp (pktbuffer_free_m (tn_s x);; pktbuffer_free_m (tn_q x)) (fun _ h' =>
    live h0 h' ((tn_q1 x :: tn_s1 x :: tn_qs x) ++ tn_ps x ++ tn_t x :: X)) h.
Proof.
  intros HL Hs Hq. destruct x as [t nm s s1 s2 ps q q1 q2 qs]. unfold tunnel_core in HL. simpl in HL, Hs, Hq |- *. wp_steps.
  eapply wp_mono; [eapply (pktbuffer_free_spec h0 s s1 s2 ([q; q1; q2] ++ qs ++ ps ++ t :: X)); [|exact Hs]|].
  { eapply live_perm; [|exact HL]. change (s :: s1 :: s2 :: ps ++ t :: X) with ([s; s1; s2] ++ ps ++ t :: X).
    change (q :: q1 :: q2 :: qs ++ [s; s1; s2] ++ ps ++ t :: X) with ([q; q1; q2] ++ qs ++ [s; s1; s2] ++ ps ++ t :: X).
    rewrite (app_assoc [q; q1; q2]), Permutation_app_swap_app. by rewrite <- app_assoc. }
  intros [] h1 [HL1 Hk1].
  eapply wp_mono; [eapply (pktbuffer_free_spec h0 q q1 q2 (s1 :: qs ++ ps ++ t :: X))|].
  - eapply live_perm; [|exact HL1]. perm.
  - eapply ring_at_keep; [exact Hk1|set_solver|done].
  - intros [] h2 [HL2 _]. exact HL2.
Qed.

Lemma rtun_release_spec freeaddrinfo `{!FreeAddrinfo freeaddrinfo} h0 x ns X h :
  live h0 h (addr_blocks ns ++ tunnel_blocks x ++ X) -> addr_rep h ns -> tunnel_at h x (fst <$> head ns) ->
  wp (rtun_release_m freeaddrinfo (tn_t x)) (fun _ h' =>
    live h0 h' ((tn_q1 x :: tn_s1 x :: tn_qs x) ++ tn_ps x ++ tn_t x :: X)) h.
Proof.
  intros HL Hr (Ht & Hs & Hq). unfold rtun_release_m. wp_steps. eapply wp_load; [done|]. cbv beta iota. wp_steps. cbn [free_ptr].
  eapply (wp_give _ _ _ (addr_blocks ns ++ tunnel_core x X)); [exact HL| |].
  { rewrite tunnel_name. symmetry. apply Permutation_middle. }
  intros h1 HL1 Hk1. apply wp_bind.
  assert (wp (match fst <$> head ns with Some a => freeaddrinfo a | None => mret tt end)
    (fun _ h2 => live h0 h2 (tunnel_core x X) /\ keep (tunnel_core x X) h1 h2) h1) as Hfree.
  { destruct ns as [|[n p] ns]; [by wp_steps|]. eapply free_addr_list; [|exact HL1].
    eapply addr_rep_keep; [|exact Hr]. eapply keep_sub; [|exact Hk1]. set_solver. }
  eapply wp_mono; [exact Hfree|]. intros [] h2 [HL2 Hk2]. cbn [expect]. wp_steps.
  pose proof (release_rings_spec h0 x X h2 HL2) as Hrel. apply wp_bind_inv in Hrel.
  2, 3: eapply ring_at_keep; [exact Hk2|unfold tunnel_core; set_solver|];
    (eapply ring_at_keep; [exact Hk1|unfold tunnel_core; set_solver|done]).
  eapply wp_mono; [exact Hrel|]. intros [] h3 Hrel3. wp_steps. eapply wp_mono; [exact Hrel3|]. intros [] h4 HL4.
  eapply wp_store; [exact HL4|set_solver|done].
Qed.


(** A [freeaddrinfo] that walks the list. *)
Fixpoint free_addrs (fuel : nat) (a : option nat) : H unit :=
  match a, fuel with
  | None, _ => mret tt
  | Some n, S fuel =>
      b ← load n;
      match b with
      | BAddr addr next => free_ptr addr;; free n;; free_addrs fuel next
      | _ => fail (BadAccess "addrinfo")
      end
  | Some _, O => fail Diverges
  end.
Definition walk_addrinfo (n : nat) : H unit := m ← gets size; free_addrs m (Some n).

Lemma free_addrs_spec h0 F fuel : forall ns h,
  addr_rep h ns -> live h0 h (addr_blocks ns ++ F) -> (length ns <= fuel)%nat ->
  wp (free_addrs fuel (fst <$> head ns)) (fun _ h' => live h0 h' F /\ keep F h h') h.
Proof.
  induction fuel as [|fuel IH]; intros [|[n p] ns] h Hr HL Hf; try (simpl in Hf; lia); [by wp_steps..|].
  cbn [free_addrs head fmap option_fmap option_map fst]. wp_steps. eapply wp_load; [by apply (Hr O n p)|]. cbv beta iota. wp_steps.
  cbn [free_ptr]. change (addr_blocks ((n, p) :: ns)) with ([n; p] ++ addr_blocks ns) in HL. rewrite <- app_assoc in HL.
  eapply wp_give; [exact HL|perm|]. intros h1 HL1 Hk1. wp_steps. eapply wp_free_one; [exact HL1|]. intros h2 HL2 Hk2.
  replace (((n, p) :: ns) !! 1%nat) with (head ns) by (by destruct ns).
  eapply wp_mono; [apply (IH ns h2); [|exact HL2|simpl in Hf; lia]|].
  - assert (keep (addr_blocks ns) h h2) as Hk by kept. eapply addr_rep_keep; [exact Hk|]. intros i n' p' Hi. by apply (Hr (S i)).
  - intros [] h3 [HL3 Hk3]. split; [done|kept].
Qed.

#[export] Instance walk_addrinfo_frees : FreeAddrinfo walk_addrinfo.
Proof.
  intros h0 h n p ns F Hr HL. unfold walk_addrinfo. wp_steps. eapply (free_addrs_spec h0 F _ ((n, p) :: ns)); [done|done|].
  pose proof (live_size _ _ _ _ HL) as Hs. rewrite length_addr_blocks in Hs. lia.
Qed.

